(* ===== verification/_CoqProject ===== *)
-Q . S2P
Prelude.v
Timespec.v
Clock.v
ClockDummy.v
ClockSystick.v
Inet.v
Files.v
Signal.v
Timers.v
Poll.v
Select.v
Sockets.v
Dhcp.v
Sntp.v
Rfc868.v
Timesync.v
Dns.v
Netdb.v
Opencm3.v
W5100Spi.v
W5100Socket.v
W5100Chip.v
W5100Ring.v
W5100Stream.v
W5100Ledger.v
W5100Sent.v
W5100Received.v
W5100Table.v
W5100Data.v
W5100Calls.v
W5100Dhcp.v
W5100Net.v
W5100Streams.v
W5100Datagrams.v
W5100Client.v
Programs.v
SntpChip.v
SdSpi.v
SdSim.v
SdDisk.v
Fatfs.v
FatfsTable.v
FatfsSafe.v
FatfsCalls.v
FatfsFile.v
FatfsSim.v
StdioUsart.v
