(* ===== verification/Prelude.v ===== *)
(** * nucleo_tests: a POSIX layer for STM32 boards -- verification library

    The program is a library of POSIX functions for Cortex-M boards (clocks,
    timers, signals, descriptors, poll and select, Internet addresses, sockets on
    a network chip, name resolution, time and DHCP clients, files on an SD card,
    a serial console), written in C on libopencm3, FatFs and the newlib C
    library. This development translates the functions of [src/src]
    into Rocq, one file per component, and proves what makes each of them
    correct, or says exactly how it fails. File names below are relative to
    [src/] of the repository, whose C files are in [src/src/] and whose headers
    are in [src/include/].

    ** How the code is translated

    - A C function is a [Definition] of the same name; statements are in the
      order of the source. Code with side effects lives in the monad [M S A] of
      this file: a state is threaded, and an outcome is [Done], [Fault] (an
      access C leaves undefined: outside an array, through a null pointer, a
      use after free) or [Hang] (the fuel of a loop is used up).
    - The file-scope variables of a C file are one record, the component of the
      file; [Has C S] says that the state [S] of a program has the component
      [C], so that files are modelled apart and linked by choosing [S]. The
      worlds at the end of some files do so with executable states.
    - Integers are [Z] with the conversions of the 32-bit target written out
      ([u8], [u16], [u32], [i16], [i32]); memory is little endian. Overflow of
      signed arithmetic wraps, as the compiler makes it.
    - A pointer into an array is an index, a pointer to a structure that may be
      null is an option; results stored through a pointer are returned, and an
      argument gives the caller's old value where a path leaves it alone.
      Uninitialised variables are parameters (named [junk]), so that a theorem
      holds whatever they contain.
    - Loops that end by counting are structural ([for_each], [for_find],
      [for_fold], [for_break]); other loops ([loop]) take fuel. Every theorem
      about such a loop is total: [wp m s Q] says that [m] completes without
      [Fault] and without [Hang], and that [Q] holds afterwards, given the
      amount of fuel the theorem states; [loop_fuel_mono] says that more fuel
      changes nothing.
    - Code outside the repository, and hardware, is an interface: a type class
      with the functions, and where a theorem needs it a class of laws. The
      interfaces of the C library and the processor are [Clock] with
      [ClockLaws], [Sockets] with [SocketsLaws], [Drivers], [Cortex],
      [Handlers]; those of libopencm3 and the devices behind it are [Opencm3],
      [SpiDevice], [UsartDevice] with [UsartLaws]; the network chip is [W5100]
      (its memory), [W5100Bus] (its side of a frame), [W5100Commands] (what a
      command does) with [W5100Transmit] and [W5100Receive] (what SEND hands
      over and RECV takes), [W5100Udp] and [W5100Datagrams] (the same of UDP
      sockets), the card [SdCard], the file system library [FatFs] with
      [FatFsLaws], [FatFsContents] and [FatFsEntries]. Each class of laws is
      discharged by an executable instance: the dummy clock of the repository
      ([ClockDummy]), a scripted network ([Sockets]), a simulated chip
      ([W5100Spi], with its laws in the files that need them), card ([SdSim]), volume ([FatfsSim]) and port ([StdioUsart]),
      which the witnesses run.

    ** The files

    - [Prelude]: outcomes, the monad and its [wp] rules, loops, components,
      machine integers, arrays, bytes, bit operations.
    - [Timespec] ([timespec.c]): time values and their exact meaning on the line
      of nanoseconds; addition and difference are inverse, the result code of
      the difference is the sign of the exact difference, and the infinite
      deadline is never reached.
    - [Clock] ([clock_nanosleep_poll.c], [nanosleep.c], [sleep.c],
      [gettimeofday.c]): the interface of the clock and the functions that poll
      it; a sleep ends, not early and at most three readings late.
    - [ClockDummy] ([clock_gettime_dummy.c]): a clock that advances at each
      reading; it satisfies the interface, alone or as a part of a program.
    - [ClockSystick] ([clock_gettime_systick.c]): the clock of the boards, with
      the interrupt handler interleaved at every access to a volatile variable;
      a reading is the time of one instant between call and return.
    - [Inet] ([inet.c]): byte order and the text form of addresses; parsing is
      total on C strings, and reads back what is printed.
    - [Files] ([file.c], [fcntl.c], [syscalls.c]): the descriptor table and the
      system calls that go through it; allocation takes the lowest free
      descriptor, calls on a number from 0 on that is not open fail with
      [EBADF] and change nothing else, negative descriptors are undefined.
    - [Signal] ([signal.c], [kill.c], [raise.c], [faults.c]): the queue of
      signals refines a bounded first-in first-out queue with selection, and
      the handler delivers in order; [sigpending] is exact.
    - [Timers] ([timers.c]): the table of timers; creation, and the loop that
      expires what is due, once each, and leaves nothing overdue.
    - [Poll] and [Select] ([poll.c], [select.c]): on sockets one pass answers
      as POSIX asks, on open files it does not; waiting polls at every reading of
      the clock, while the conditions change with time, and ends at the first
      instant with an event or just after the timeout; descriptor sets are sets.
    - [Sockets] ([sys/socket.h], [netinet/in.h]): the interface of the network
      clients, whose laws come in the three strengths of [twp] below, and the
      scripted network.
    - [Dhcp] ([dhcp_client.c]): messages and options, and the state machine of
      the client, whose invariant every step keeps while every socket it opens
      is closed, whatever the network delivers; a step returns unless a datagram
      fills the array with options that run past its end; requests parse back.
    - [Sntp], [Rfc868], [Timesync] ([sntp.c], [rfc868_time.c], [timesync.c]):
      accuracy of the conversions and of the estimate of the server's clock,
      safety of the exchange, one synchronisation a day.
    - [Dns] and [Netdb] ([getaddrinfo.c], [gethostbyname.c]): names in messages
      (termination of the parser decided, queries parse back), and the lists of
      addresses in the heap of the C library, with what is freed and what leaks:
      exactly the Internet addresses of a response with records of any type, or
      nothing when [malloc] has no room for a name; a node for which it has none
      is written through a null pointer.

    - [Opencm3]: the hardware library, as far as the drivers call it.
    - [W5100Spi] ([w5100_spi.c], [w5100.h]): frames on the bus; every access
      function is a load or a store of the memory of the chip.
    - [W5100Socket] ([w5100_socket.c]): the socket driver, every function.
      [W5100Chip] holds what it relies on of the chip; [W5100Ring] and
      [W5100Stream] show that the copies into and out of the ring buffers are
      those of a queue of bytes; [W5100Table] and [W5100Data] that each call
      keeps the invariant [table_inv] between the socket table, the descriptor
      table and the registers; [W5100Calls] that start-up establishes it, that
      any sequence of calls keeps it without an undefined access, and that the
      calls return on a responsive chip, the waiting ones on a non-blocking
      descriptor or within a timeout. [W5100Ledger], [W5100Sent] and
      [W5100Received] are what the commands of the chip do to the bytes handed
      over and taken, as a ledger per direction.
    - [W5100Dhcp] ([w5100_dhcp.c]): a binding of the client reaches the
      registers of the interface, and they show nothing else.
    - [W5100Net]: the driver behind the pointers of the descriptor table and
      behind the interface [Sockets], whose laws it satisfies as safety
      ([SocketsLaws Partial]). [W5100Streams]: the two byte streams of a
      connection: [send] hands over the bytes it counts, [recv] takes the next
      ones, in order, each once, and in any sequence of calls on all the sockets
      nothing else moves data. [W5100Datagrams]: on UDP sockets [sendto] hands
      over one datagram for its destination or none, [recvfrom] takes the next
      one, whole. [W5100Client]: the calls of a client on its socket; [SntpChip]:
      the SNTP client linked with the driver, as one datagram sent and one
      taken. [Programs]: the clients linked with the driver;
      in every state that a program reaches by calling them in any order the
      tables are consistent, no socket is open and the registers show the
      binding.
    - [SdSpi] ([sd_spi.c]), [SdSim], [SdDisk] ([sd_spi_diskio.c]): the card
      protocol, byte by byte; reading and writing sectors act on the card as on
      an array of blocks, initialisation recognises the cards that answer as it
      asks, and never ends without a card.
    - [Fatfs] ([fatfs.c], and the calls of [syscalls.c] on names and
      directories): the calls over the FatFs library. [FatfsTable] and
      [FatfsSafe]: each keeps the array of files and the descriptor table
      consistent; [FatfsCalls]: so does any program that does not seek a
      directory forward, which overflows the stack; [FatfsFile]: reading, writing
      and seeking within the file from the three origins act on a file with an
      offset as POSIX says, and a directory is listed entry by entry; [FatfsSim]: the witnesses, and the
      defects as lemmas on concrete volumes.
    - [StdioUsart] ([stdio_usart.c]): the console behind the three standard
      descriptors; the text sent is the text written with line ends expanded.

    How they call each other: [Poll], [Select] and the system calls go through
    the table of [Files], whose functions are those of the socket driver, of
    [Fatfs] or of the console, and read the clock; [Timers] sends signals
    through the interface that [Signal] implements and reads the clock; the
    clients [Dhcp], [Sntp], [Rfc868] and [Netdb] use [Sockets], which
    [W5100Net] implements with [W5100Socket]; [Timesync] calls
    [Sntp] or [Rfc868] and sets the clock; [W5100Dhcp] steps [Dhcp] and writes
    the chip through [W5100Spi], on which [W5100Socket] stands as well; FatFs
    reaches the card through [SdDisk], which calls [SdSpi].

    ** Notions shared by the proofs

    [wp] is total correctness. In the socket driver, where the chip may never
    answer, [twp t] proves three readings with one proof: [Total] is [wp],
    [Safe] allows that a call never returns, [Partial] also that it faults and
    speaks of the states in which it returns. Without assumptions on the chip
    the calls are [Safe], on a responsive one [Total]; the interface [Sockets]
    has its laws in each of the strengths, so that the theorems about a client
    need no more of the network than their own strength. [keeps R m] says that
    [m], whenever it returns, leaves what the preorder [R] on states relates. The
    classes [KeepsVar], [KeepsClock], [KeepsRand], [KeepsSockets] and
    [KeepsSettime] ask it of what a client calls, so that it follows for the
    client ([keeps_solve]). [still] and [calm] say which parts of the chip a piece
    of the driver leaves alone.

    ** Bounds and fuel

    Tables have the sizes of the headers: 20 descriptors ([OPEN_MAX]), 32
    queued signals, 32 timers, 4 sockets with 2 KiB of memory in each direction,
    blocks of 512 bytes, messages of 512 bytes (DNS) and 548 (DHCP). The fuel
    that theorems ask for is: the requested time over the step of the clock
    (sleeping and polling), the number of pending signals, the number of due
    timers, the datagrams the network delivers before a timeout, 513 labels
    for a DNS name, one more than the message has bytes, the latency of the chip
    or the card (waiting for them), one more than the entries of a directory
    (listing and [seekdir]).

    ** What is not modelled

    Of the files modelled: the names of registers in [w5100.h] the driver does
    not use, and the helpers for critical sections that [timers.c] defines and does not
    use. libopencm3 and FatFs are not part of the repository and stay
    interfaces. The linker scripts, the make files and the test programs in
    [tests/], which print results and hold no logic of the library, are left
    out.

    [Programs] and [SntpChip] state what holds of the states that are reached;
    that each client returns is the theorem of its own file, over
    [SocketsLaws Total], and that each call of the driver does is one of
    [W5100Calls]. The two are not composed: a datagram that is longer than the
    buffer of the caller is written past its end, so that a composition without
    faults would need a network on which no datagram is longer than the smallest
    buffer of all clients, the four bytes of RFC 868. *)

From stdpp Require Import prelude list numbers.

Declare Scope c_scope.
Delimit Scope c_scope with C.
Global Open Scope Z_scope.

(** ** Outcomes and the state monad

    [Done a] is normal completion, [Fault] is an access the C language leaves
    undefined (outside an array, through a null pointer), [Hang] is a loop that
    used up the fuel of the model. *)
Inductive outcome (A : Type) : Type :=
| Done (a : A)
| Fault
| Hang.
Arguments Done {A} a.
Arguments Fault {A}.
Arguments Hang {A}.

#[export] Instance outcome_ret : MRet outcome := @Done.
#[export] Instance outcome_bind : MBind outcome := λ A B f m,
  match m with Done a => f a | Fault => Fault | Hang => Hang end.

Definition M (S A : Type) : Type := S → outcome (A * S).

#[export] Instance M_ret (S : Type) : MRet (M S) := λ A a s, Done (a, s).
#[export] Instance M_bind (S : Type) : MBind (M S) := λ A B f m s,
  match m s with
  | Done (a, s') => f a s'
  | Fault => Fault
  | Hang => Hang
  end.

Definition fault {S A : Type} : M S A := λ _, Fault.
Definition hang {S A : Type} : M S A := λ _, Hang.
Definition get {S : Type} : M S S := λ s, Done (s, s).
Definition put {S : Type} (s : S) : M S unit := λ _, Done (tt, s).
Definition gets {S A : Type} (f : S → A) : M S A := λ s, Done (f s, s).
Definition modify {S : Type} (f : S → S) : M S unit := λ s, Done (tt, f s).
Definition lift {S A : Type} (o : outcome A) : M S A := λ s,
  match o with Done a => Done (a, s) | Fault => Fault | Hang => Hang end.

(** Dereference of a pointer: [None] is the null pointer. *)
Definition deref {A : Type} (p : option A) : outcome A :=
  match p with Some a => Done a | None => Fault end.

(** ** Loops

    [loop fuel body a] runs [body] until it answers [inr b]. *)
Fixpoint loop {S A B : Type} (fuel : nat) (body : A → M S (A + B)) (a : A) : M S B :=
  match fuel with
  | O => hang
  | Datatypes.S fuel' =>
      r ← body a;
      match r with
      | inl a' => loop fuel' body a'
      | inr b => mret b
      end
  end.

#[global] Arguments loop : simpl never.

(** A [for] loop over the elements of [l] whose body never leaves early. *)
Fixpoint for_each {S A : Type} (l : list A) (body : A → M S unit) : M S unit :=
  match l with
  | [] => mret tt
  | a :: l' => _ ← body a; for_each l' body
  end.

(** [for (; n > 0; n--, i++)] whose body leaves the loop by answering [Some b]:
    the searches of the sources. *)
Fixpoint for_find {S B : Type} (n : nat) (i : Z) (body : Z → M S (option B)) : M S (option B) :=
  match n with
  | O => mret None
  | Datatypes.S n' =>
      r ← body i;
      match r with
      | Some b => mret (Some b)
      | None => for_find n' (i + 1) body
      end
  end.

#[global] Arguments for_find : simpl never.

(** [for (; n > 0; n--, i++)] whose body updates the local variables [acc]. *)
Fixpoint for_fold {S A : Type} (n : nat) (i : Z) (body : Z → A → M S A) (acc : A) : M S A :=
  match n with
  | O => mret acc
  | Datatypes.S n' => acc ← body i acc; for_fold n' (i + 1) body acc
  end.

#[global] Arguments for_fold : simpl never.

(** [for (; n > 0; n--, i++)] whose body continues with [inl acc] or breaks with
    [inr acc]; the second result says whether the loop came to its end. *)
Fixpoint for_break {S A : Type} (n : nat) (i : Z) (body : Z → A → M S (A + A)) (acc : A) : M S (A * bool) :=
  match n with
  | O => mret (acc, true)
  | Datatypes.S n' =>
      r ← body i acc;
      match r with
      | inl acc => for_break n' (i + 1) body acc
      | inr acc => mret (acc, false)
      end
  end.

#[global] Arguments for_break : simpl never.

(** ** Components of a larger state

    A C file keeps its state in file-scope variables. [Has C S] says that the
    whole state [S] holds the component [C]: the operations of a file work on
    any state that has its component. *)
Class Has (C S : Type) := {
  proj : S → C;
  upd : C → S → S;
}.

Class HasLaws (C S : Type) `{!Has C S} : Prop := {
  proj_upd (c : C) (s : S) : proj (upd c s) = c;
  upd_proj (s : S) : upd (proj s) s = s;
  upd_upd (c c' : C) (s : S) : upd c (upd c' s) = upd c s;
}.

#[export] Instance Has_refl (C : Type) : Has C C | 10 :=
  {| proj := λ c, c; upd := λ c _, c |}.
#[export] Instance HasLaws_refl (C : Type) : HasLaws C C.
Proof. by split. Qed.

(** Two components that do not overlap. *)
Class Indep (C D S : Type) `{!Has C S, !Has D S} : Prop :=
  indep_proj (d : D) (s : S) : proj (C:=C) (upd d s) = proj s.

Definition getc {C S : Type} `{!Has C S} : M S C := gets proj.
Definition modifyc {C S : Type} `{!Has C S} (f : C → C) : M S unit :=
  modify (λ s, upd (f (proj s)) s).

(** ** errno

    The values of [<errno.h>] the sources assign. *)
Inductive errno :=
| E0 | EBADF | EINVAL | EAGAIN | ENFILE | ENOMEM | ENOTSOCK | EAFNOSUPPORT
| EPROTOTYPE | EPROTONOSUPPORT | EISCONN | EOPNOTSUPP | ECONNREFUSED
| EDESTADDRREQ | ENOTCONN | ECONNRESET | ETIMEDOUT | EMSGSIZE | ESRCH | EINTR
| ENOSYS | ENOTTY | EPIPE | EPERM | EEXIST | ENOENT | ENOTDIR | EROFS | EACCES
| EISDIR | EMLINK | ENOTEMPTY | ERANGE.

#[export] Instance errno_eq_dec : EqDecision errno.
Proof. solve_decision. Defined.

Definition set_errno {S : Type} `{!Has errno S} (e : errno) : M S unit :=
  modifyc (λ _, e).

(** ** Machine integers

    The target is a Cortex-M: [int], [long], [time_t] and pointers are 32 bits
    wide, memory is little endian. A value of a C integer type is a [Z]; these
    functions are the conversions to the type, so that every arithmetic result
    is written with its wrap-around (for signed types the two's complement
    result the compiler produces). *)
Definition u8 (z : Z) : Z := z mod 256.
Definition u16 (z : Z) : Z := z mod 65536.
Definition u32 (z : Z) : Z := z mod 4294967296.
Definition i16 (z : Z) : Z := (z + 32768) mod 65536 - 32768.
Definition i32 (z : Z) : Z := (z + 2147483648) mod 4294967296 - 2147483648.

Definition INT_MAX : Z := 2147483647.
Definition INT_MIN : Z := -2147483648.
Definition UINT32_MAX : Z := 4294967295.

Definition is_u8 (z : Z) : Prop := 0 ≤ z < 256.
Definition is_u16 (z : Z) : Prop := 0 ≤ z < 65536.
Definition is_u32 (z : Z) : Prop := 0 ≤ z < 4294967296.
Definition is_i32 (z : Z) : Prop := -2147483648 ≤ z < 2147483648.

(** Arithmetic with divisions and remainders by constants. *)
Ltac zlia := Z.div_mod_to_equations; lia.

Lemma u8_id z : is_u8 z → u8 z = z.
Proof. unfold u8, is_u8. intros. by apply Z.mod_small. Qed.
Lemma u16_id z : is_u16 z → u16 z = z.
Proof. unfold u16, is_u16. intros. by apply Z.mod_small. Qed.
Lemma u32_id z : is_u32 z → u32 z = z.
Proof. unfold u32, is_u32. intros. by apply Z.mod_small. Qed.
Lemma i32_id z : is_i32 z → i32 z = z.
Proof. unfold i32, is_i32. intros. rewrite Z.mod_small; lia. Qed.

Lemma u8_range z : is_u8 (u8 z).
Proof. apply Z.mod_pos_bound. lia. Qed.
Lemma u16_range z : is_u16 (u16 z).
Proof. apply Z.mod_pos_bound. lia. Qed.
Lemma u32_range z : is_u32 (u32 z).
Proof. apply Z.mod_pos_bound. lia. Qed.
Lemma i32_range z : is_i32 (i32 z).
Proof. unfold i32, is_i32. zlia. Qed.

(** Wrapped counters: only the last conversion of a sum matters, and a counter
    that shows the same value again after fewer than 2^32 steps did not move. *)
Lemma i32_add_i32 a b : i32 (i32 a + b) = i32 (a + b).
Proof. unfold i32. zlia. Qed.
Lemma u16_add a b : u16 (u16 a + b) = u16 (a + b).
Proof. apply Z.add_mod_idemp_l. lia. Qed.
Lemma i32_same a n : is_i32 a → 0 ≤ n < 4294967296 → i32 (a + n) = a → n = 0.
Proof. unfold i32, is_i32. intros. zlia. Qed.

Create HintDb cint.
#[export] Hint Resolve u8_range u16_range u32_range i32_range : cint.
#[export] Hint Rewrite u8_id u16_id u32_id i32_id using (unfold is_u8, is_u16, is_u32, is_i32 in *; lia) : cint.

(** Removes the conversions whose argument is in range, then decides. *)
Ltac cint := autorewrite with cint in *; unfold is_u8, is_u16, is_u32, is_i32 in *.

(** ** Arrays

    Indexing as C does it: the index is an [int], an access outside the array
    is a [Fault]. *)
Definition aget {A : Type} (l : list A) (i : Z) : outcome A :=
  if decide (0 ≤ i) then deref (l !! Z.to_nat i) else Fault.

Definition aset {A : Type} (l : list A) (i : Z) (x : A) : outcome (list A) :=
  if decide (0 ≤ i < Z.of_nat (length l)) then Done (<[Z.to_nat i := x]> l) else Fault.

Lemma aget_Some {A : Type} (l : list A) (i : Z) (x : A) :
  aget l i = Done x ↔ 0 ≤ i ∧ l !! Z.to_nat i = Some x.
Proof.
  unfold aget, deref. case_decide; [|split; [done|by intros []]].
  destruct (l !! Z.to_nat i); split; [intros [= ->]|intros [_ [= ->]]|..]; try done.
  by intros [].
Qed.

Lemma aget_nat {A : Type} (l : list A) (n : nat) (x : A) :
  l !! n = Some x → aget l (Z.of_nat n) = Done x.
Proof. intros H. apply aget_Some. rewrite Nat2Z.id. split; [lia|done]. Qed.

Lemma aget_in_range {A : Type} (l : list A) (i : Z) :
  0 ≤ i < Z.of_nat (length l) → ∃ x, aget l i = Done x ∧ l !! Z.to_nat i = Some x.
Proof.
  intros Hi. destruct (lookup_lt_is_Some_2 l (Z.to_nat i)) as [x Hx]; [lia|].
  exists x. split; [|done]. apply aget_Some. split; [lia|done].
Qed.

Lemma aget_out {A : Type} (l : list A) (i : Z) :
  i < 0 ∨ Z.of_nat (length l) ≤ i → aget l i = Fault.
Proof.
  unfold aget, deref. intros Hi. case_decide; [|done].
  by rewrite lookup_ge_None_2 by lia.
Qed.

Lemma aset_in_range {A : Type} (l : list A) (i : Z) (x : A) :
  0 ≤ i < Z.of_nat (length l) → aset l i x = Done (<[Z.to_nat i := x]> l).
Proof. unfold aset. intros. by rewrite decide_True. Qed.

(** [memcpy] out of and into an array: [n] elements from [off] on. *)
Definition mem_read {A : Type} (l : list A) (off : Z) (n : nat) : outcome (list A) :=
  if decide (0 ≤ off ∧ off + Z.of_nat n ≤ Z.of_nat (length l))
  then Done (take n (drop (Z.to_nat off) l)) else Fault.

Definition mem_write {A : Type} (l : list A) (off : Z) (bs : list A) : outcome (list A) :=
  if decide (0 ≤ off ∧ off + Z.of_nat (length bs) ≤ Z.of_nat (length l))
  then Done (take (Z.to_nat off) l ++ bs ++ drop (Z.to_nat off + length bs) l) else Fault.

(** An access returns or faults. *)
Lemma aget_returns {A : Type} (l : list A) i : aget l i ≠ Hang.
Proof. unfold aget, deref. repeat case_match; done. Qed.
Lemma mem_write_returns {A : Type} (l : list A) off bs : mem_write l off bs ≠ Hang.
Proof. unfold mem_write. by case_decide. Qed.

(** Arrays that are put together from parts. *)
Lemma aget_app {A : Type} (pre post : list A) x : aget (pre ++ x :: post) (Z.of_nat (length pre)) = Done x.
Proof. apply aget_nat. by rewrite lookup_app_r, Nat.sub_diag by lia. Qed.

Lemma aset_app {A : Type} (pre post : list A) x y :
  aset (pre ++ x :: post) (Z.of_nat (length pre)) y = Done (pre ++ y :: post).
Proof.
  rewrite aset_in_range by (rewrite length_app; simpl; lia). rewrite Nat2Z.id, insert_app_r_alt by lia.
  by rewrite Nat.sub_diag.
Qed.

Lemma aset_out {A : Type} (l : list A) i x : Z.of_nat (length l) ≤ i → aset l i x = Fault.
Proof. intros H. unfold aset. rewrite decide_False; [done|lia]. Qed.

Lemma mem_write_app {A : Type} (pre rest bs : list A) off :
  off = Z.of_nat (length pre) → (length bs ≤ length rest)%nat →
  mem_write (pre ++ rest) off bs = Done ((pre ++ bs) ++ drop (length bs) rest).
Proof.
  intros -> Hlen. unfold mem_write. rewrite decide_True by (rewrite length_app; lia).
  rewrite Nat2Z.id, take_app_length, <- drop_drop, drop_app_length. by rewrite (assoc_L (++)).
Qed.

Lemma mem_read_app {A : Type} (pre bs rest : list A) off n :
  off = Z.of_nat (length pre) → n = length bs → mem_read (pre ++ bs ++ rest) off n = Done bs.
Proof.
  intros -> ->. unfold mem_read. rewrite decide_True by (rewrite !length_app; lia).
  by rewrite Nat2Z.id, drop_app_length, take_app_length.
Qed.

Lemma mem_read_at {A : Type} (pre xs post : list A) (k n : nat) off :
  off = Z.of_nat (length pre) + Z.of_nat k → (k + n ≤ length xs)%nat →
  mem_read (pre ++ xs ++ post) off n = Done (take n (drop k xs)).
Proof.
  intros -> Hk. unfold mem_read. rewrite decide_True by (rewrite !length_app; lia).
  replace (Z.to_nat (Z.of_nat (length pre) + Z.of_nat k)) with (length pre + k)%nat by lia.
  rewrite drop_app_add, drop_app_le, take_app_le by (rewrite ?length_drop; lia). done.
Qed.

(** The selected elements of an array when one element changes. *)
Section filter_insert.
Context {A : Type} (P : A → Prop) `{!∀ x, Decision (P x)}.

Lemma filter_insert_in (l : list A) c x y :
  l !! c = Some y → ¬ P y → P x → filter P (<[c := x]> l) ≡ₚ filter P l ++ [x].
Proof.
  intros Hc Hy Hx. rewrite <- (take_drop_middle l c y Hc) at 2.
  rewrite insert_take_drop by (by eapply lookup_lt_Some).
  rewrite !list.filter_app, !list.filter_cons, decide_True, decide_False by done. solve_Permutation.
Qed.

Lemma filter_insert_out (l : list A) c x y :
  l !! c = Some y → P y → ¬ P x → y :: filter P (<[c := x]> l) ≡ₚ filter P l.
Proof.
  intros Hc Hy Hx. rewrite <- (take_drop_middle l c y Hc) at 2.
  rewrite insert_take_drop by (by eapply lookup_lt_Some).
  rewrite !list.filter_app, !list.filter_cons, decide_False, decide_True by done. solve_Permutation.
Qed.

Lemma filter_lt (Q : A → Prop) `{!∀ x, Decision (Q x)} (l : list A) x :
  x ∈ l → Q x → ¬ P x → (∀ y, P y → Q y) → (length (filter P l) < length (filter Q l))%nat.
Proof.
  intros Hx HQ HP Hsub.
  assert (Hle : ∀ l, (length (filter P l) ≤ length (filter Q l))%nat).
  { induction l0 as [|y l0 IH]; [done|]. rewrite !list.filter_cons.
    destruct (decide (P y)); [rewrite decide_True by auto; simpl; lia|]. case_decide; simpl; lia. }
  induction Hx as [y l0|y z l0 Hx IH]; rewrite !list.filter_cons.
  - rewrite decide_False, decide_True by done. simpl. specialize (Hle l0). lia.
  - specialize (IH HQ HP). destruct (decide (P z)); [rewrite decide_True by auto; simpl; lia|]. case_decide; simpl; lia.
Qed.

Lemma filter_all (l : list A) : Forall P l → filter P l = l.
Proof. induction 1 as [|x l Hx _ IH]; [done|]. by rewrite list.filter_cons_True, IH. Qed.
End filter_insert.

(** ** Bytes

    Memory is a list of bytes; a multi-byte object lies in memory with its
    least significant byte first. *)
Fixpoint le_bytes (n : nat) (z : Z) : list Z :=
  match n with
  | O => []
  | S n' => z mod 256 :: le_bytes n' (z / 256)
  end.

Fixpoint le_val (bs : list Z) : Z :=
  match bs with
  | [] => 0
  | b :: bs' => b + 256 * le_val bs'
  end.

Lemma length_le_bytes n z : length (le_bytes n z) = n.
Proof. revert z. induction n; intros; simpl; congruence. Qed.

Lemma le_bytes_u8 n z : Forall is_u8 (le_bytes n z).
Proof. revert z. induction n; intros; constructor; [apply u8_range|done]. Qed.

Lemma le_val_bytes n z : le_val (le_bytes n z) = z mod 256 ^ Z.of_nat n.
Proof.
  revert z. induction n as [|n IH]; intros z; simpl le_bytes; simpl le_val.
  - by rewrite Z.mod_1_r.
  - rewrite IH, Nat2Z.inj_succ, Z.pow_succ_r by lia.
    rewrite Z.rem_mul_r by lia. lia.
Qed.

Lemma le_bytes_val bs : Forall is_u8 bs → le_bytes (length bs) (le_val bs) = bs.
Proof.
  induction 1 as [|b bs Hb _ IH]; [done|]. cbn [length le_bytes le_val]. unfold is_u8 in Hb.
  replace ((b + 256 * le_val bs) mod 256) with b by zlia.
  replace ((b + 256 * le_val bs) / 256) with (le_val bs) by zlia.
  by rewrite IH.
Qed.

Lemma le_val_range bs : Forall is_u8 bs → 0 ≤ le_val bs < 256 ^ Z.of_nat (length bs).
Proof.
  induction 1 as [|b bs Hb _ IH]; [simpl; lia|]. cbn [le_val length].
  rewrite Nat2Z.inj_succ, Z.pow_succ_r by lia. unfold is_u8 in Hb. lia.
Qed.

(** [__builtin_bswap16] and [__builtin_bswap32]. *)
Definition bswap16 (z : Z) : Z := le_val (rev (le_bytes 2 z)).
Definition bswap32 (z : Z) : Z := le_val (rev (le_bytes 4 z)).

Lemma le_val_rev_involutive n z :
  0 ≤ z < 256 ^ Z.of_nat n →
  le_val (rev (le_bytes n (le_val (rev (le_bytes n z))))) = z.
Proof.
  intros Hz. set (bs := rev (le_bytes n z)).
  assert (Hlen : length bs = n) by (unfold bs; by rewrite length_rev, length_le_bytes).
  assert (Hbs : Forall is_u8 bs) by (apply Forall_rev, le_bytes_u8).
  rewrite <- Hlen at 1. rewrite (le_bytes_val bs Hbs). unfold bs.
  rewrite rev_involutive, le_val_bytes. by apply Z.mod_small.
Qed.

Lemma bswap16_involutive z : is_u16 z → bswap16 (bswap16 z) = z.
Proof. intros Hz. by apply (le_val_rev_involutive 2). Qed.
Lemma bswap32_involutive z : is_u32 z → bswap32 (bswap32 z) = z.
Proof. intros Hz. by apply (le_val_rev_involutive 4). Qed.

Lemma le_val_rev_range n z : 0 ≤ le_val (rev (le_bytes n z)) < 256 ^ Z.of_nat n.
Proof.
  pose proof (le_val_range (rev (le_bytes n z)) (Forall_rev (le_bytes_u8 n z))) as H.
  by rewrite length_rev, length_le_bytes in H.
Qed.
Lemma bswap16_range z : is_u16 (bswap16 z).
Proof. apply (le_val_rev_range 2). Qed.
Lemma bswap32_range z : is_u32 (bswap32 z).
Proof. apply (le_val_rev_range 4). Qed.
#[export] Hint Resolve bswap16_range bswap32_range le_bytes_u8 : cint.

(** ** Bit operations *)

Lemma lor_disjoint a b n :
  0 ≤ n → 0 ≤ a < 2 ^ n → Z.lor a (b * 2 ^ n) = a + b * 2 ^ n.
Proof.
  intros Hn Ha. symmetry. apply Z.add_nocarry_lor. apply Z.bits_inj'. intros i Hi.
  rewrite Z.land_spec, Z.bits_0. rewrite <- Z.shiftl_mul_pow2 by done.
  destruct (decide (i < n)).
  - by rewrite Z.shiftl_spec_low, andb_false_r.
  - rewrite <- (Z.mod_small a (2 ^ n)) by done.
    by rewrite Z.mod_pow2_bits_high by lia.
Qed.

Lemma lor_range n a b :
  0 ≤ n → 0 ≤ a < 2 ^ n → 0 ≤ b < 2 ^ n → 0 ≤ Z.lor a b < 2 ^ n.
Proof.
  intros Hn Ha Hb. assert (E : Z.lor a b = Z.lor a b mod 2 ^ n).
  { rewrite <- Z.land_ones, Z.land_lor_distr_l, !Z.land_ones by done.
    by rewrite !Z.mod_small. }
  rewrite E. apply Z.mod_pos_bound. by apply Z.pow_pos_nonneg.
Qed.

(** ** Total correctness of monadic code

    [wp m s Q]: run from [s], [m] completes -- no [Fault], no [Hang] -- and the
    result and final state satisfy [Q]. *)
Definition wp {S A : Type} (m : M S A) (s : S) (Q : A → S → Prop) : Prop :=
  match m s with Done (a, s') => Q a s' | Fault => False | Hang => False end.

Section wp_rules.
Context {S : Type}.

Lemma wp_run {A} (m : M S A) s Q :
  wp m s Q ↔ ∃ a s', m s = Done (a, s') ∧ Q a s'.
Proof. unfold wp. destruct (m s) as [[a s']| |]; naive_solver. Qed.

Lemma wp_ret {A} (a : A) s (Q : A → S → Prop) : Q a s → wp (mret a) s Q.
Proof. done. Qed.

Lemma wp_bind {A B} (m : M S A) (f : A → M S B) s Q :
  wp m s (λ a s', wp (f a) s' Q) → wp (a ← m; f a) s Q.
Proof. unfold wp, mbind, M_bind. by destruct (m s) as [[a s']| |]. Qed.

Lemma wp_mono {A} (m : M S A) s (P Q : A → S → Prop) :
  (∀ a s', P a s' → Q a s') → wp m s P → wp m s Q.
Proof. unfold wp. destruct (m s) as [[a s']| |]; auto. Qed.

Lemma wp_gets {A} (f : S → A) s (Q : A → S → Prop) : Q (f s) s → wp (gets f) s Q.
Proof. done. Qed.

Lemma wp_modify (f : S → S) s (Q : unit → S → Prop) : Q tt (f s) → wp (modify f) s Q.
Proof. done. Qed.

Lemma wp_lift {A} (o : outcome A) (a : A) s (Q : A → S → Prop) :
  o = Done a → Q a s → wp (lift o) s Q.
Proof. by intros ->. Qed.

Lemma wp_Done {A} (m : M S A) s a s' (Q : A → S → Prop) :
  m s = Done (a, s') → Q a s' → wp m s Q.
Proof. unfold wp. by intros ->. Qed.

Lemma wp_eq {A} (m : M S A) s a s' : wp m s (λ r t, r = a ∧ t = s') ↔ m s = Done (a, s').
Proof. rewrite wp_run. naive_solver. Qed.

(** One turn of a loop. *)
Lemma wp_loop_turn {A B} fuel (body : A → M S (A + B)) a s (Q : B → S → Prop) :
  wp (body a) s (λ r s',
    match r with inl a' => wp (loop fuel body a') s' Q | inr b => Q b s' end) →
  wp (loop (Datatypes.S fuel) body a) s Q.
Proof. intros H. apply wp_bind. eapply wp_mono, H. by intros [a'|b] s'. Qed.

(** Code that reaches an undefined access. *)
Lemma bind_fault {A B} (m : M S A) (f : A → M S B) s :
  wp m s (λ a s', f a s' = Fault) → (a ← m; f a) s = Fault.
Proof. unfold wp, mbind, M_bind. by destruct (m s) as [[a s']| |]. Qed.

Lemma bind_fault_l {A B} (m : M S A) (f : A → M S B) s :
  m s = Fault → (a ← m; f a) s = Fault.
Proof. unfold mbind, M_bind. by intros ->. Qed.

(** A search keeps its invariant at every index it passes over. *)
Lemma wp_for_find {B} (I : Z → S → Prop) n i (body : Z → M S (option B)) s (Q : option B → S → Prop) :
  I i s →
  (∀ j s, i ≤ j < i + Z.of_nat n → I j s →
     wp (body j) s (λ r s', match r with Some b => Q (Some b) s' | None => I (j + 1) s' end)) →
  (∀ s, I (i + Z.of_nat n) s → Q None s) →
  wp (for_find n i body) s Q.
Proof.
  revert i s. induction n as [|n IH]; intros i s HI Hbody Hend.
  - apply Hend. by replace (i + Z.of_nat 0) with i by lia.
  - apply wp_bind. eapply wp_mono, Hbody; [|lia|done].
    intros [b|] s' HQ; [done|]. apply IH; [done| |].
    + intros j s'' Hj. apply Hbody. lia.
    + intros s'' HI'. apply Hend. by replace (i + Z.of_nat (Datatypes.S n)) with (i + 1 + Z.of_nat n) by lia.
Qed.

(** One turn of a search, and of a loop over indices. *)
Lemma wp_for_find_turn {B} n i (body : Z → M S (option B)) s (Q : option B → S → Prop) :
  wp (body i) s (λ r s', match r with
    | Some b => Q (Some b) s' | None => wp (for_find n (i + 1) body) s' Q end) →
  wp (for_find (Datatypes.S n) i body) s Q.
Proof. intros H. apply wp_bind. eapply wp_mono, H. by intros [b|] s'. Qed.

Lemma wp_for_fold_turn {A} n i (body : Z → A → M S A) acc s (Q : A → S → Prop) :
  wp (body i acc) s (λ a s', wp (for_fold n (i + 1) body a) s' Q) →
  wp (for_fold (Datatypes.S n) i body acc) s Q.
Proof. apply wp_bind. Qed.

(** So does a loop over all indices. *)
Lemma wp_for_fold {A} (I : Z → A → S → Prop) n i (body : Z → A → M S A) acc s (Q : A → S → Prop) :
  I i acc s →
  (∀ j a s, i ≤ j < i + Z.of_nat n → I j a s → wp (body j a) s (I (j + 1))) →
  (∀ a s, I (i + Z.of_nat n) a s → Q a s) →
  wp (for_fold n i body acc) s Q.
Proof.
  revert i acc s. induction n as [|n IH]; intros i acc s HI Hbody Hend.
  - apply Hend. by replace (i + Z.of_nat 0) with i by lia.
  - apply wp_bind. eapply wp_mono, Hbody; [|lia|done].
    intros a s' HI'. apply IH; [done| |].
    + intros j a' s'' Hj. apply Hbody. lia.
    + intros a' s'' HI''. apply Hend.
      by replace (i + Z.of_nat (Datatypes.S n)) with (i + 1 + Z.of_nat n) by lia.
Qed.

Lemma wp_for_break {A} (I : Z → A → S → Prop) n i (body : Z → A → M S (A + A)) acc s
    (Q : A * bool → S → Prop) :
  I i acc s →
  (∀ j a s, i ≤ j < i + Z.of_nat n → I j a s →
     wp (body j a) s (λ r s', match r with inl a' => I (j + 1) a' s' | inr a' => Q (a', false) s' end)) →
  (∀ a s, I (i + Z.of_nat n) a s → Q (a, true) s) →
  wp (for_break n i body acc) s Q.
Proof.
  revert i acc s. induction n as [|n IH]; intros i acc s HI Hbody Hend.
  - apply Hend. by replace (i + Z.of_nat 0) with i by lia.
  - apply wp_bind. eapply wp_mono, Hbody; [|lia|done].
    intros [a|a] s' HI'; [|by apply wp_ret]. apply IH; [done| |].
    + intros j a' s'' Hj. apply Hbody. lia.
    + intros a' s'' HI''. apply Hend.
      by replace (i + Z.of_nat (Datatypes.S n)) with (i + 1 + Z.of_nat n) by lia.
Qed.

(** A loop completes when a natural measure decreases at each round. *)
Lemma wp_loop {A B} (I : A → S → Prop) (μ : A → S → nat) (body : A → M S (A + B))
    fuel a s (Q : B → S → Prop) :
  I a s → (μ a s < fuel)%nat →
  (∀ a s, I a s → wp (body a) s (λ r s',
     match r with inl a' => I a' s' ∧ (μ a' s' < μ a s)%nat | inr b => Q b s' end)) →
  wp (loop fuel body a) s Q.
Proof.
  intros HI Hμ Hbody. revert a s HI Hμ.
  induction fuel as [|fuel IH]; intros a s HI Hμ; [lia|].
  apply wp_loop_turn. eapply wp_mono, Hbody, HI.
  intros [a'|b] s'; [|done]. intros [HI' Hlt]. apply IH; [done|lia].
Qed.
End wp_rules.

(** The equations of one turn. *)
Lemma loop_inl {S A B : Type} fuel (body : A → M S (A + B)) a a' s s' :
  body a s = Done (inl a', s') → loop (Datatypes.S fuel) body a s = loop fuel body a' s'.
Proof. intros H. unfold loop; fold (@loop S A B). unfold mbind, M_bind. by rewrite H. Qed.

Lemma loop_inr {S A B : Type} fuel (body : A → M S (A + B)) a b s s' :
  body a s = Done (inr b, s') → loop (Datatypes.S fuel) body a s = Done (b, s').
Proof. intros H. unfold loop; fold (@loop S A B). unfold mbind, M_bind. by rewrite H. Qed.

(** Fuel beyond what a loop needs does not change its result. *)
Lemma loop_fuel_mono {S A B : Type} (body : A → M S (A + B)) n m a s r :
  (n ≤ m)%nat → loop n body a s = Done r → loop m body a s = Done r.
Proof.
  revert m a s. induction n as [|n IH]; intros [|m] a s Hle; try done; [lia|].
  unfold loop; fold (@loop S A B). unfold mbind, M_bind. destruct (body a s) as [[[a'|b] s']| |]; try done.
  apply IH. lia.
Qed.

(** ** Partial and total correctness at once

    [twp t m s Q]: the results of [m] satisfy [Q]; unless [t] is [Partial], [m]
    does not reach an undefined access; and when [t] is [Total], it completes. A
    proof for every [t] shows what holds of code that may wait for ever, or whose
    caller may break its contract, and that it does neither when what it waits
    for happens and the contract is kept. *)
Inductive reading := Total | Safe | Partial.

#[export] Instance reading_eq_dec : EqDecision reading.
Proof. solve_decision. Defined.

Definition twp {S A : Type} (t : reading) (m : M S A) (s : S) (Q : A → S → Prop) : Prop :=
  match m s with Done (a, s') => Q a s' | Fault => t = Partial | Hang => t ≠ Total end.

Section twp_rules.
Context {S : Type}.

Lemma twp_true {A} (m : M S A) s Q : twp Total m s Q ↔ wp m s Q.
Proof. unfold twp, wp. destruct (m s) as [[a s']| |]; naive_solver. Qed.

Lemma twp_of_wp {A} t (m : M S A) s Q : wp m s Q → twp t m s Q.
Proof. unfold twp, wp. by destruct (m s) as [[a s']| |]. Qed.

Lemma wp_of_twp {A} (m : M S A) s Q : twp Total m s Q → wp m s Q.
Proof. unfold twp, wp. by destruct (m s) as [[a s']| |]. Qed.

Lemma twp_Done {A} t (m : M S A) s a s' (Q : A → S → Prop) :
  m s = Done (a, s') → Q a s' → twp t m s Q.
Proof. unfold twp. by intros ->. Qed.

Lemma twp_mono {A} t (m : M S A) s (P Q : A → S → Prop) :
  (∀ a s', P a s' → Q a s') → twp t m s P → twp t m s Q.
Proof. unfold twp. destruct (m s) as [[a s']| |]; auto. Qed.

Lemma twp_mono_run {A} t (m : M S A) s (P Q : A → S → Prop) :
  (∀ a s', m s = Done (a, s') → P a s' → Q a s') → twp t m s P → twp t m s Q.
Proof. unfold twp. destruct (m s) as [[a s']| |]; auto. Qed.

Lemma twp_ret {A} t (a : A) s (Q : A → S → Prop) : Q a s → twp t (mret a) s Q.
Proof. done. Qed.

Lemma twp_bind {A B} t (m : M S A) (f : A → M S B) s Q :
  twp t m s (λ a s', twp t (f a) s' Q) → twp t (a ← m; f a) s Q.
Proof. unfold twp, mbind, M_bind. by destruct (m s) as [[a s']| |]. Qed.

(** What a run that may not break a contract guarantees in addition. *)
Lemma twp_and {A} t (m : M S A) s (P Q : A → S → Prop) :
  twp t m s P → (t ≠ Partial → twp t m s Q) → twp t m s (λ a s', P a s' ∧ (t ≠ Partial → Q a s')).
Proof. unfold twp. destruct (m s) as [[a s']| |]; auto. Qed.

Lemma twp_both {A} t (m : M S A) s (P Q : A → S → Prop) :
  twp t m s P → twp t m s Q → twp t m s (λ a s', P a s' ∧ Q a s').
Proof. unfold twp. by destruct (m s) as [[a s']| |]. Qed.

(** A call, then the rest. *)
Lemma twp_seq {A B} t (m : M S A) (f : A → M S B) s (P : A → S → Prop) Q :
  twp t m s P → (∀ a s', P a s' → twp t (f a) s' Q) → twp t (a ← m; f a) s Q.
Proof. intros Hm Hf. apply twp_bind. eapply twp_mono, Hm. exact Hf. Qed.

Lemma twp_gets {A} t (f : S → A) s (Q : A → S → Prop) : Q (f s) s → twp t (gets f) s Q.
Proof. done. Qed.

Lemma twp_modify t (f : S → S) s (Q : unit → S → Prop) : Q tt (f s) → twp t (modify f) s Q.
Proof. done. Qed.

Lemma twp_lift {A} t (o : outcome A) (a : A) s (Q : A → S → Prop) :
  o = Done a → Q a s → twp t (lift o) s Q.
Proof. by intros ->. Qed.

(** An access that a contract makes valid. *)
Lemma twp_access {A} t (o : outcome A) s (Q : A → S → Prop) :
  (t ≠ Partial → ∃ a, o = Done a) → o ≠ Hang → (∀ a, o = Done a → Q a s) → twp t (lift o) s Q.
Proof.
  intros Hok Hh HQ. unfold twp, lift. destruct o as [a| |]; [by apply HQ| |done].
  destruct t; [..|done]; destruct Hok as [a Ha]; done.
Qed.

(** One turn of a loop, of a search. *)
Lemma twp_loop_turn {A B} t fuel (body : A → M S (A + B)) a s (Q : B → S → Prop) :
  twp t (body a) s (λ r s',
    match r with inl a' => twp t (loop fuel body a') s' Q | inr b => Q b s' end) →
  twp t (loop (Datatypes.S fuel) body a) s Q.
Proof. intros H. apply twp_bind. eapply twp_mono, H. by intros [a'|b] s'. Qed.

Lemma twp_for_find {B} t (I : Z → S → Prop) n i (body : Z → M S (option B)) s (Q : option B → S → Prop) :
  I i s →
  (∀ j s, i ≤ j < i + Z.of_nat n → I j s →
     twp t (body j) s (λ r s', match r with Some b => Q (Some b) s' | None => I (j + 1) s' end)) →
  (∀ s, I (i + Z.of_nat n) s → Q None s) →
  twp t (for_find n i body) s Q.
Proof.
  revert i s. induction n as [|n IH]; intros i s HI Hbody Hend.
  - apply Hend. by replace (i + Z.of_nat 0) with i by lia.
  - apply twp_bind. eapply twp_mono, Hbody; [|lia|done].
    intros [b|] s' HQ; [done|]. apply IH; [done| |].
    + intros j s'' Hj. apply Hbody. lia.
    + intros s'' HI'. apply Hend. by replace (i + Z.of_nat (Datatypes.S n)) with (i + 1 + Z.of_nat n) by lia.
Qed.

Lemma twp_for_break {A} t (I : Z → A → S → Prop) n i (body : Z → A → M S (A + A)) acc s
    (Q : A * bool → S → Prop) :
  I i acc s →
  (∀ j a s, i ≤ j < i + Z.of_nat n → I j a s →
     twp t (body j a) s (λ r s', match r with inl a' => I (j + 1) a' s' | inr a' => Q (a', false) s' end)) →
  (∀ a s, I (i + Z.of_nat n) a s → Q (a, true) s) →
  twp t (for_break n i body acc) s Q.
Proof.
  revert i acc s. induction n as [|n IH]; intros i acc s HI Hbody Hend.
  - apply Hend. by replace (i + Z.of_nat 0) with i by lia.
  - apply twp_bind. eapply twp_mono, Hbody; [|lia|done].
    intros [a|a] s' HI'; [|by apply twp_ret]. apply IH; [done| |].
    + intros j a' s'' Hj. apply Hbody. lia.
    + intros a' s'' HI''. apply Hend.
      by replace (i + Z.of_nat (Datatypes.S n)) with (i + 1 + Z.of_nat n) by lia.
Qed.

(** A loop keeps an invariant; it completes when a measure that the fuel covers
    decreases at each turn. *)
Lemma twp_loop {A B} t (I : A → S → Prop) (μ : A → S → nat) (body : A → M S (A + B))
    fuel a s (Q : B → S → Prop) :
  I a s → (t = Total → (μ a s < fuel)%nat) →
  (∀ a s, I a s → twp t (body a) s (λ r s',
     match r with
     | inl a' => I a' s' ∧ (t = Total → (μ a' s' < μ a s)%nat)
     | inr b => Q b s' end)) →
  twp t (loop fuel body a) s Q.
Proof.
  intros HI Hμ Hbody. revert a s HI Hμ.
  induction fuel as [|fuel IH]; intros a s HI Hμ.
  { unfold twp, loop, hang. destruct t; [|done..]. specialize (Hμ eq_refl). lia. }
  apply twp_loop_turn. eapply twp_mono, Hbody, HI.
  intros [a'|b] s'; [|done]. intros [HI' Hlt]. apply IH; [done|].
  intros Ht. specialize (Hμ Ht). specialize (Hlt Ht). lia.
Qed.
End twp_rules.

(** One symbolic step of [wp], and the steps of straight-line code. *)
Ltac wp_step :=
  lazymatch goal with
  | |- wp (mbind _ _) _ _ => apply wp_bind
  | |- wp (mret _) _ _ => apply wp_ret
  | |- wp (gets _) _ _ => apply wp_gets
  | |- wp (getc) _ _ => apply wp_gets
  | |- wp (modify _) _ _ => apply wp_modify
  | |- wp (modifyc _) _ _ => apply wp_modify
  | |- wp (set_errno _) _ _ => apply wp_modify
  | |- wp (lift (Done _)) _ _ => eapply wp_lift; [reflexivity|]
  | |- wp (if decide _ then _ else _) _ _ => case_decide
  end.
Ltac wp_steps := repeat (wp_step; cbv beta).

Ltac twp_step :=
  cbv beta;
  lazymatch goal with
  | |- twp _ (mbind _ _) _ _ => apply twp_bind
  | |- twp _ (mret _) _ _ => apply twp_ret
  | |- twp _ (gets _) _ _ => apply twp_of_wp, wp_gets
  | |- twp _ getc _ _ => apply twp_of_wp, wp_gets
  | |- twp _ (modify _) _ _ => apply twp_of_wp, wp_modify
  | |- twp _ (modifyc _) _ _ => apply twp_of_wp, wp_modify
  | |- twp _ (set_errno _) _ _ => apply twp_of_wp, wp_modify
  | |- twp _ (lift (Done _)) _ _ => eapply twp_lift; [reflexivity|]
  | |- twp _ (if @decide ?P ?d then _ else _) _ _ =>
      let Hd := fresh "Hd" in destruct_decide (@decide P d) as Hd
  end.
Ltac twp_steps := repeat (twp_step; cbv beta).

(** ** What a program leaves alone

    [keeps R m]: whenever [m] returns, it is in a state that [R] relates to the
    first one. For a preorder this follows the structure of a program. *)

Section keeps.
Context {S : Type} (R : S → S → Prop) `{!PreOrder R}.

Definition keeps {A} (m : M S A) : Prop :=
  ∀ s, match m s with Done (_, s') => R s s' | _ => True end.

Lemma keeps_ret {A} (a : A) : keeps (mret a).
Proof. intros s. change (R s s). reflexivity. Qed.

Lemma keeps_bind {A B} (m : M S A) (k : A → M S B) :
  keeps m → (∀ a, keeps (k a)) → keeps (m ≫= k).
Proof.
  intros Hm Hk s. specialize (Hm s). unfold mbind, M_bind.
  destruct (m s) as [[a s1]| |]; [|done..]. specialize (Hk a s1).
  destruct (k a s1) as [[b s2]| |]; [by etrans|done..].
Qed.

Lemma keeps_lift {A} (o : outcome A) : keeps (lift o).
Proof. intros s. unfold lift. destruct o; [|done..]. change (R s s). reflexivity. Qed.

Lemma keeps_hang {A} : keeps (hang : M S A).
Proof. done. Qed.

Lemma keeps_fault {A} : keeps (fault : M S A).
Proof. done. Qed.

Lemma keeps_modifyc {C} `{!Has C S} (f : C → C) : (∀ s, R s (upd (f (proj s)) s)) → keeps (modifyc f).
Proof. intros HR s. apply HR. Qed.

Lemma keeps_gets {A} (f : S → A) : keeps (gets f).
Proof. intros s. change (R s s). reflexivity. Qed.

Lemma keeps_loop {A B} n (body : A → M S (A + B)) a : (∀ a, keeps (body a)) → keeps (loop n body a).
Proof.
  intros Hb. revert a. induction n as [|n IH]; intros a; [apply keeps_hang|].
  apply keeps_bind; [apply Hb|]. intros [a'|b]; [apply IH|apply keeps_ret].
Qed.

Lemma keeps_for_break {A} n i (body : Z → A → M S (A + A)) acc :
  (∀ i a, keeps (body i a)) → keeps (for_break n i body acc).
Proof.
  intros Hb. revert i acc. induction n as [|n IH]; intros i acc; [apply keeps_ret|].
  apply keeps_bind; [apply Hb|]. intros [a|a]; [apply IH|apply keeps_ret].
Qed.

Lemma keeps_for_find {B} n i (body : Z → M S (option B)) : (∀ i, keeps (body i)) → keeps (for_find n i body).
Proof.
  intros Hb. revert i. induction n as [|n IH]; intros i; [apply keeps_ret|].
  apply keeps_bind; [apply Hb|]. intros [b|]; [apply keeps_ret|apply IH].
Qed.

Lemma keeps_for_each {A} (l : list A) (body : A → M S unit) : (∀ a, keeps (body a)) → keeps (for_each l body).
Proof.
  intros Hb. induction l as [|a l IH]; [apply keeps_ret|]. apply keeps_bind; [apply Hb|]. intros []. exact IH.
Qed.

Lemma keeps_for_fold {A} n i (body : Z → A → M S A) acc : (∀ i a, keeps (body i a)) → keeps (for_fold n i body acc).
Proof.
  intros Hb. revert i acc. induction n as [|n IH]; intros i acc; [apply keeps_ret|].
  apply keeps_bind; [apply Hb|]. intros a. apply IH.
Qed.
End keeps.

Lemma twp_keeps {S A : Type} (R : S → S → Prop) t (m : M S A) s (Q : A → S → Prop) :
  keeps R m → twp t m s Q → twp t m s (λ a s', Q a s' ∧ R s s').
Proof. intros Hk. specialize (Hk s). unfold twp. by destruct (m s) as [[a s']| |]. Qed.

Lemma keeps_and {S A : Type} (R1 R2 R : S → S → Prop) (m : M S A) :
  keeps R1 m → keeps R2 m → (∀ s s', R1 s s' → R2 s s' → R s s') → keeps R m.
Proof.
  intros H1 H2 HR s. specialize (H1 s). specialize (H2 s). destruct (m s) as [[a s']| |]; [by apply HR|done..].
Qed.

Lemma twp_partial {S A : Type} t (m : M S A) s (Q : A → S → Prop) : twp t m s Q → twp Partial m s Q.
Proof. unfold twp. destruct (m s) as [[a s']| |]; [done|by intros _|by intros _]. Qed.

(** What every run of a program guarantees, as a relation. *)
Lemma keeps_twp {S A : Type} (R : S → S → Prop) (m : M S A) :
  keeps R m ↔ ∀ s, twp Partial m s (λ _ s', R s s').
Proof.
  split; intros Hm s; specialize (Hm s); revert Hm; unfold twp; by destruct (m s) as [[a s']| |].
Qed.

Lemma wp_keeps {S A : Type} (R : S → S → Prop) (m : M S A) s (Q : A → S → Prop) :
  keeps R m → wp m s Q → wp m s (λ a s', Q a s' ∧ R s s').
Proof. intros Hk. specialize (Hk s). unfold wp. by destruct (m s) as [[a s']| |]. Qed.

Ltac keeps_step :=
  lazymatch goal with
  | |- keeps _ (mbind _ _) => apply keeps_bind; [apply _| |intros ?]
  | |- keeps _ (mret _) => apply keeps_ret; apply _
  | |- keeps _ (lift _) => apply keeps_lift; apply _
  | |- keeps _ (gets _) => apply keeps_gets; apply _
  | |- keeps _ getc => apply keeps_gets; apply _
  | |- keeps _ (loop _ _ _) => apply keeps_loop; [apply _|intros ?]
  | |- keeps _ (for_break _ _ _ _) => apply keeps_for_break; [apply _|intros ? ?]
  | |- keeps _ (for_find _ _ _) => apply keeps_for_find; [apply _|intros ?]
  | |- keeps _ (for_each _ _) => apply keeps_for_each; [apply _|intros ?]
  | |- keeps _ (for_fold _ _ _ _) => apply keeps_for_fold; [apply _|intros ? ?]
  | |- keeps _ fault => exact (keeps_fault _)
  | |- keeps _ hang => exact (keeps_hang _)
  | |- keeps _ (match ?x with _ => _ end) => destruct x
  | |- keeps _ (let '_ := ?x in _) => destruct x
  end.

(** The calls that are known to keep a preorder: those of an interface, by a
    class, and the changes of a component. *)
Create HintDb keeps.

Class KeepsVar (C : Type) {S : Type} `{!Has C S} (R : S → S → Prop) : Prop :=
  keeps_var (g : C → C) : keeps R (modifyc g).
#[export] Hint Resolve keeps_var : keeps.

Ltac keeps_solve := repeat (first [keeps_step | solve [eauto with keeps nocore]]).
