(* ===== verification/Timespec.v ===== *)
(** * Time values: [src/timespec.c], [include/timespec.h]

    [struct timespec] and [struct timeval] with the arithmetic the whole library
    computes timeouts with. The specification of a time value is the number of
    nanoseconds it denotes, an unbounded integer ([ns]); a value is [normal]
    when its nanosecond field is below one second. *)

From stdpp Require Import prelude list numbers.
From S2P Require Import Prelude.

Definition NSECS_IN_SEC : Z := 1000000000.
Definition USECS_IN_SEC : Z := 1000000.
Definition MSECS_IN_SEC : Z := 1000.

Record timespec := Timespec { tv_sec : Z; tv_nsec : Z }.
Record timeval := Timeval { tv_sec_us : Z; tv_usec : Z }.

#[export] Instance timespec_eq_dec : EqDecision timespec.
Proof. solve_decision. Defined.
#[export] Instance timeval_eq_dec : EqDecision timeval.
Proof. solve_decision. Defined.

Definition TIMESPEC_ZERO : timespec := Timespec 0 0.
Definition TIMESPEC_INFINITY : timespec := Timespec INT_MAX INT_MAX.

(** ** Operations *)

Definition timespec_add (t1 t2 : timespec) : timespec :=
  let sec := i32 (tv_sec t1 + tv_sec t2) in
  let nsec := i32 (tv_nsec t1 + tv_nsec t2) in
  if decide (nsec >= NSECS_IN_SEC)
  then Timespec (i32 (sec + 1)) (i32 (nsec - NSECS_IN_SEC))
  else Timespec sec nsec.

Definition timespec_incr (x step : timespec) : timespec :=
  let tmp := x in timespec_add tmp step.

(** The result code and what is stored in [*diff] when the caller passes one. *)
Definition timespec_diff (to from : timespec) : Z * timespec :=
  let diff_nsec := i32 (tv_nsec to - tv_nsec from) in
  let diff_sec := i32 (tv_sec to - tv_sec from) in
  let '(diff_nsec, diff_sec) :=
    if decide (diff_nsec < 0)
    then (i32 (diff_nsec + NSECS_IN_SEC), i32 (diff_sec - 1))
    else (diff_nsec, diff_sec) in
  (if decide (diff_sec = 0) then diff_nsec else diff_sec,
   Timespec diff_sec diff_nsec).

(** The call with [diff == NULL]. *)
Definition timespec_cmp (to from : timespec) : Z := fst (timespec_diff to from).

Definition timespec_to_timeval (src : timespec) : timeval :=
  Timeval (tv_sec src) (Z.quot (tv_nsec src) (NSECS_IN_SEC / USECS_IN_SEC)).

Definition timeval_to_timespec (src : timeval) : timespec :=
  Timespec (tv_sec_us src) (i32 (tv_usec src * (NSECS_IN_SEC / USECS_IN_SEC))).

(** ** Specification *)

Definition ns (t : timespec) : Z := tv_sec t * NSECS_IN_SEC + tv_nsec t.

Definition normal (t : timespec) : Prop :=
  is_i32 (tv_sec t) ∧ 0 ≤ tv_nsec t < NSECS_IN_SEC.

(** The normal value that denotes [n] nanoseconds. *)
Definition of_ns (n : Z) : timespec := Timespec (n / NSECS_IN_SEC) (n mod NSECS_IN_SEC).

(** The carry of an addition and the borrow of a difference stay in [time_t]. *)
Definition sum_safe (z : Z) : Prop := -2147483648 ≤ z < 2147483647.
Definition sec_safe (z : Z) : Prop := -2147483648 < z < 2147483647.

Ltac ts_unfold :=
  unfold ns, of_ns, normal, sum_safe, sec_safe, is_i32, NSECS_IN_SEC, USECS_IN_SEC, INT_MAX in *.

Lemma ns_of_ns n : ns (of_ns n) = n.
Proof. ts_unfold. simpl. zlia. Qed.

Lemma of_ns_ns t : 0 ≤ tv_nsec t < NSECS_IN_SEC → of_ns (ns t) = t.
Proof. destruct t as [s n]. ts_unfold. simpl. intros. f_equal; zlia. Qed.

(** On normal values the denoted number determines the value. *)
Lemma ns_inj t1 t2 : normal t1 → normal t2 → ns t1 = ns t2 → t1 = t2.
Proof.
  intros [_ H1] [_ H2] Heq. rewrite <- (of_ns_ns t1 H1), <- (of_ns_ns t2 H2). by rewrite Heq.
Qed.

Lemma normal_zero : normal TIMESPEC_ZERO.
Proof. ts_unfold. simpl. lia. Qed.

Lemma timespec_add_spec t1 t2 :
  normal t1 → normal t2 → sum_safe (tv_sec t1 + tv_sec t2) →
  normal (timespec_add t1 t2) ∧ ns (timespec_add t1 t2) = ns t1 + ns t2.
Proof.
  destruct t1 as [s1 n1], t2 as [s2 n2]. unfold timespec_add. ts_unfold. simpl. intros.
  rewrite !(i32_id (s1 + s2)), !(i32_id (n1 + n2)) by (unfold is_i32; lia).
  case_decide; simpl; rewrite ?i32_id by (unfold is_i32; lia); lia.
Qed.

Lemma timespec_diff_spec to from :
  normal to → normal from → sec_safe (tv_sec to - tv_sec from) →
  normal (snd (timespec_diff to from)) ∧
  ns (snd (timespec_diff to from)) = ns to - ns from ∧
  Z.sgn (timespec_cmp to from) = Z.sgn (ns to - ns from).
Proof.
  destruct to as [s1 n1], from as [s2 n2]. unfold timespec_cmp, timespec_diff.
  ts_unfold. simpl. intros.
  rewrite !(i32_id (s1 - s2)), !(i32_id (n1 - n2)) by (unfold is_i32; lia).
  repeat case_decide; simpl; rewrite ?i32_id in * by (unfold is_i32; lia); lia.
Qed.

Section compare.
Variables (to from : timespec).
Hypothesis (Hto : normal to) (Hfrom : normal from).
Hypothesis (Hsafe : sec_safe (tv_sec to - tv_sec from)).

Lemma timespec_cmp_lt : timespec_cmp to from < 0 ↔ ns to < ns from.
Proof. pose proof (timespec_diff_spec to from Hto Hfrom Hsafe). lia. Qed.
Lemma timespec_cmp_eq : timespec_cmp to from = 0 ↔ to = from.
Proof.
  pose proof (timespec_diff_spec to from Hto Hfrom Hsafe) as (_ & _ & ?).
  split; [intros; apply ns_inj; [done..|lia]|intros ->; lia].
Qed.
Lemma timespec_cmp_gt : 0 < timespec_cmp to from ↔ ns from < ns to.
Proof. pose proof (timespec_diff_spec to from Hto Hfrom Hsafe). lia. Qed.
End compare.

(** Adding and taking differences on the nanosecond line never leaves the
    normal values while the seconds stay in range. *)
Lemma timespec_add_of_ns t1 t2 :
  normal t1 → normal t2 → sum_safe (tv_sec t1 + tv_sec t2) →
  timespec_add t1 t2 = of_ns (ns t1 + ns t2).
Proof.
  intros H1 H2 Hs. destruct (timespec_add_spec t1 t2 H1 H2 Hs) as [[_ Hn] Hns].
  by rewrite <- Hns, of_ns_ns.
Qed.

Lemma timespec_diff_of_ns to from :
  normal to → normal from → sec_safe (tv_sec to - tv_sec from) →
  snd (timespec_diff to from) = of_ns (ns to - ns from).
Proof.
  intros H1 H2 Hs. destruct (timespec_diff_spec to from H1 H2 Hs) as ([_ Hn] & Hns & _).
  by rewrite <- Hns, of_ns_ns.
Qed.

(** ** Properties *)

(** Addition and difference are exact on the nanosecond line and each undoes
    the other: for normal values whose seconds do not overflow, [timespec_add]
    of a difference and its subtrahend gives back the minuend, bit for bit, and
    the result code of [timespec_diff] has the sign of the exact difference. *)
Theorem timespec_diff_add_roundtrip to from :
  normal to → normal from → sec_safe (tv_sec to - tv_sec from) →
  sec_safe (tv_sec to) →
  timespec_add from (snd (timespec_diff to from)) = to ∧
  Z.sgn (timespec_cmp to from) = Z.sgn (ns to - ns from).
Proof.
  intros Hto Hfrom Hs Hs'.
  destruct (timespec_diff_spec to from Hto Hfrom Hs) as (Hd & Hns & Hsgn).
  split; [|done].
  rewrite timespec_add_of_ns; [|done..|].
  - rewrite Hns. replace (ns from + (ns to - ns from)) with (ns to) by lia.
    apply of_ns_ns, Hto.
  - revert Hns. destruct Hd as [_ Hd], Hto as [_ Ht], Hfrom as [_ Hf]. ts_unfold. lia.
Qed.

Lemma timespec_diff_add_roundtrip_witness :
  timespec_add (Timespec 5 999999999) (snd (timespec_diff (Timespec 8 1) (Timespec 5 999999999)))
  = Timespec 8 1 ∧ Z.sgn (timespec_cmp (Timespec 8 1) (Timespec 5 999999999)) = 1.
Proof.
  apply (timespec_diff_add_roundtrip (Timespec 8 1) (Timespec 5 999999999));
    ts_unfold; simpl; lia.
Defined.

(** [TIMESPEC_INFINITY], which is not a normal value, works as a deadline
    that never passes: compared with any clock reading from the epoch on, the
    result is negative in one direction and positive in the other (the pollers
    test the first, [sigtimedwait] and the timers the second). *)
Theorem timespec_infinity_never_reached now :
  normal now → 0 ≤ tv_sec now < INT_MAX →
  timespec_cmp now TIMESPEC_INFINITY < 0 ∧ 0 < timespec_cmp TIMESPEC_INFINITY now.
Proof.
  destruct now as [s n]. unfold timespec_cmp, timespec_diff, TIMESPEC_INFINITY.
  ts_unfold. simpl. intros.
  rewrite !(i32_id (s - _)), !(i32_id (n - _)), !(i32_id (_ - s)), !(i32_id (_ - n))
    by (unfold is_i32; lia).
  repeat case_decide; simpl in *; rewrite ?i32_id in * by (unfold is_i32; lia); lia.
Qed.

Lemma timespec_infinity_never_reached_witness :
  timespec_cmp (Timespec 1437000000 5) TIMESPEC_INFINITY < 0 ∧
  0 < timespec_cmp TIMESPEC_INFINITY (Timespec 1437000000 5).
Proof. apply (timespec_infinity_never_reached (Timespec 1437000000 5)); ts_unfold; simpl; lia. Defined.

Lemma timeval_roundtrip tv :
  0 ≤ tv_usec tv < USECS_IN_SEC → timespec_to_timeval (timeval_to_timespec tv) = tv.
Proof.
  destruct tv as [s us]. unfold timespec_to_timeval, timeval_to_timespec. ts_unfold. simpl.
  intros. change (1000000000 / 1000000) with 1000.
  rewrite i32_id by (unfold is_i32; lia). by rewrite Z.quot_mul by lia.
Qed.

Lemma timeval_to_timespec_normal tv :
  is_i32 (tv_sec_us tv) → 0 ≤ tv_usec tv < USECS_IN_SEC → normal (timeval_to_timespec tv).
Proof.
  destruct tv as [s us]. unfold timeval_to_timespec. ts_unfold. simpl. intros.
  change (1000000000 / 1000000) with 1000. rewrite i32_id by (unfold is_i32; lia). lia.
Qed.
