(* ===== verification/Clock.v ===== *)
(** * The clock interface and the sleeping functions

    [Clock S] is what the rest of the library expects of the clock linked into
    the program ([src/clock_gettime_systick.c] or [src/clock_gettime_dummy.c]):
    the function [clock_gettime]. [ClockLaws] states the promise the pollers
    rely on; [ClockDummy.v] proves it of the dummy clock. The clients modelled here are
    [src/clock_nanosleep_poll.c], [src/nanosleep.c], [src/sleep.c] and
    [src/gettimeofday.c]. *)

From stdpp Require Import prelude list numbers.
From S2P Require Import Prelude Timespec.

(** [clockid_t]: the two clocks the sources know, and any other number. *)
Inductive clockid := CLOCK_MONOTONIC | CLOCK_REALTIME | CLOCK_OTHER (id : Z).

#[export] Instance clockid_eq_dec : EqDecision clockid.
Proof. solve_decision. Defined.

Definition known_clock (id : clockid) : Prop :=
  id = CLOCK_MONOTONIC ∨ id = CLOCK_REALTIME.

(** [clock_gettime id tp]: [tp] is the previous content of the caller's
    structure, which a failing call leaves alone. *)
Class Clock (S : Type) := clock_gettime : clockid → timespec → M S (Z * timespec).

(** Reading the clock keeps a preorder on states. *)
Class KeepsClock {S : Type} `{!Clock S} (R : S → S → Prop) : Prop :=
  keeps_clock id tp : keeps R (clock_gettime id tp).
#[export] Hint Resolve keeps_clock : keeps.

(** In the states [clk_ok], reading a known clock succeeds; from one reading to the next the clock has
    advanced by an amount between two positive bounds. [clk_now] is the time of
    the last reading, in nanoseconds, and [clk_limit] the last instant that fits [time_t]. *)
Definition clk_limit : Z := 2147483646 * NSECS_IN_SEC.

Class ClockLaws (S : Type) `{!Clock S} := {
  clk_ok : S → Prop;
  clk_now : clockid → S → Z;
  clk_lo : Z;
  clk_hi : Z;
  clk_lo_pos : 0 < clk_lo ≤ clk_hi;
  clk_read (id : clockid) (tp : timespec) (s : S) :
    known_clock id → clk_ok s → 0 ≤ clk_now id s → clk_now id s + clk_hi ≤ clk_limit →
    ∃ s', clk_ok s' ∧ clock_gettime id tp s = Done ((0, of_ns (clk_now id s')), s') ∧
      clk_now id s + clk_lo ≤ clk_now id s' ≤ clk_now id s + clk_hi;
}.

(** Reading the clock leaves the component [C] alone, and changes of [C] leave
    the clock alone. *)
Class ClockFrame (C S : Type) `{!Has C S, !Clock S, !ClockLaws S} : Prop := {
  clock_frame id tp s r s' :
    clock_gettime id tp s = Done (r, s') → proj (C:=C) s' = proj s;
  clk_ok_upd (c : C) s : clk_ok s → clk_ok (upd c s);
  clk_now_upd id (c : C) s : clk_now id (upd c s) = clk_now id s;
}.

Section sleep.
Context {S : Type} `{!Clock S}.
(** What the uninitialised locals hold. *)
Context (junk : timespec).

Definition nanosleep_loop (fuel : nat) (clock_id : clockid) (rqtp : timespec)
    (rmtp : option timespec) (ret : Z) (tcurrent : timespec)
    : M S (Z * option timespec) :=
  loop fuel (λ '(ret, tcurrent),
    if decide (ret = 0) then
      if decide (timespec_cmp rqtp tcurrent <= 0)
      then mret (inr (ret, match rmtp with Some _ => Some (Timespec 0 0) | None => None end))
      else '(ret, tcurrent) ← clock_gettime clock_id tcurrent;
           mret (inl (ret, tcurrent))
    else mret (inr (ret, rmtp))) (ret, tcurrent).

Definition clock_nanosleep (fuel : nat) (clock_id : clockid) (abstime : bool)
    (rqtp : timespec) (rmtp : option timespec) : M S (Z * option timespec) :=
  '(ret, tcurrent) ← clock_gettime clock_id junk;
  if abstime
  then nanosleep_loop fuel clock_id rqtp rmtp ret tcurrent
  else '(ret, tcurrent) ← clock_gettime clock_id tcurrent;
       let tend := timespec_add tcurrent rqtp in
       nanosleep_loop fuel clock_id tend rmtp ret tcurrent.

Definition nanosleep (fuel : nat) (rqtp : timespec) (rmtp : option timespec)
    : M S (Z * option timespec) :=
  clock_nanosleep fuel CLOCK_MONOTONIC false rqtp rmtp.

Definition sleep (fuel : nat) (seconds : Z) : M S Z :=
  let seconds := if decide (seconds > INT_MAX) then INT_MAX else seconds in
  let rqt := Timespec (i32 seconds) 0 in
  '(_, rmt) ← nanosleep fuel rqt (Some junk);
  rmt ← lift (deref rmt);
  mret (u32 (tv_sec rmt)).

Definition _gettimeofday : M S (Z * timeval) :=
  '(_, ts) ← clock_gettime CLOCK_REALTIME junk;
  mret (0, timespec_to_timeval ts).
End sleep.

(** ** Properties *)

(** Comparison of two points of the nanosecond line. *)
Lemma cmp_of_ns a b :
  - clk_limit ≤ a ≤ clk_limit → - clk_limit ≤ b ≤ clk_limit → -clk_limit ≤ a - b ≤ clk_limit →
  Z.sgn (timespec_cmp (of_ns a) (of_ns b)) = Z.sgn (a - b).
Proof.
  intros Ha Hb Hab.
  assert (Hn : ∀ x, - clk_limit ≤ x ≤ clk_limit → normal (of_ns x)).
  { unfold clk_limit in *. ts_unfold. simpl. intros. zlia. }
  destruct (timespec_diff_spec (of_ns a) (of_ns b) (Hn a Ha) (Hn b Hb)) as (_ & _ & ->).
  - unfold clk_limit in *. ts_unfold. simpl. zlia.
  - by rewrite !ns_of_ns.
Qed.

Section sleep_laws.
Context {S : Type} `{!Clock S, !ClockLaws S}.

Lemma normal_of_ns n : 0 ≤ n ≤ clk_limit → normal (of_ns n).
Proof. unfold clk_limit. ts_unfold. simpl. intros. zlia. Qed.

Lemma cmp_le_of_ns a b : 0 ≤ a ≤ clk_limit → 0 ≤ b ≤ clk_limit →
  timespec_cmp (of_ns a) (of_ns b) <= 0 ↔ a ≤ b.
Proof.
  intros Ha Hb.
  rewrite <- (ns_of_ns a) at 2. rewrite <- (ns_of_ns b) at 2.
  pose proof (timespec_cmp_gt (of_ns a) (of_ns b)
    (normal_of_ns a Ha) (normal_of_ns b Hb)) as H.
  assert (sec_safe (tv_sec (of_ns a) - tv_sec (of_ns b))).
  { unfold clk_limit in *. ts_unfold. simpl. zlia. }
  intuition lia.
Qed.

Lemma wp_clock_gettime id tp s (Q : Z * timespec → S → Prop) :
  known_clock id → clk_ok s → 0 ≤ clk_now id s → clk_now id s + clk_hi ≤ clk_limit →
  (∀ s', clk_ok s' → clk_now id s + clk_lo ≤ clk_now id s' ≤ clk_now id s + clk_hi →
     Q (0, of_ns (clk_now id s')) s') →
  wp (clock_gettime id tp) s Q.
Proof.
  intros Hid Hok H0 Hlim HQ.
  destruct (clk_read id tp s Hid Hok H0 Hlim) as (s' & Hok' & Heq & Hb).
  apply wp_run. eauto.
Qed.

Lemma wp_clock_frame {C} `{!Has C S, !ClockFrame C S} id tp s (Q : Z * timespec → S → Prop) :
  known_clock id → clk_ok s → 0 ≤ clk_now id s → clk_now id s + clk_hi ≤ clk_limit →
  (∀ s', clk_ok s' → clk_now id s + clk_lo ≤ clk_now id s' ≤ clk_now id s + clk_hi →
     proj (C:=C) s' = proj s → Q (0, of_ns (clk_now id s')) s') →
  wp (clock_gettime id tp) s Q.
Proof.
  intros Hid Hok H0 Hlim HQ.
  destruct (clk_read id tp s Hid Hok H0 Hlim) as (s' & Hok' & Heq & Hb).
  apply wp_run. exists (0, of_ns (clk_now id s')), s'. split; [done|].
  apply HQ; [done..|]. by eapply clock_frame.
Qed.

(** Polling until the deadline [d]: it completes, with status 0, at a reading
    not before [d] and at most one step after it. *)
Lemma wp_nanosleep_loop fuel id d rmtp s :
  known_clock id → clk_ok s → 0 ≤ clk_now id s ≤ clk_limit →
  0 ≤ d → d + clk_hi ≤ clk_limit →
  (0 < fuel)%nat → d - clk_now id s ≤ (Z.of_nat fuel - 1) * clk_lo →
  wp (nanosleep_loop fuel id (of_ns d) rmtp 0 (of_ns (clk_now id s))) s (λ r s',
    r = (0, match rmtp with Some _ => Some TIMESPEC_ZERO | None => None end) ∧
    d ≤ clk_now id s' ≤ Z.max (clk_now id s) (d + clk_hi)).
Proof.
  intros Hid. pose proof clk_lo_pos.
  revert s. induction fuel as [|fuel IH]; intros s Hok H01 Hd0 Hd Hpos Hfuel; [lia|].
  unfold nanosleep_loop. apply wp_loop_turn. rewrite decide_True by done.
  case_decide as Hcmp; rewrite cmp_le_of_ns in Hcmp by lia.
  - apply wp_ret. split; [by destruct rmtp|lia].
  - apply wp_bind, wp_clock_gettime; [done..|lia|lia|]. intros s' Hok' Hs'.
    apply wp_ret. eapply wp_mono, IH; [|done|lia..].
    intros r s''. simpl. intros [-> Hr]. split; [done|lia].
Qed.

(** C34: [clock_nanosleep] with a relative request completes on a clock that
    advances, whatever was in the remaining-time structure: it returns 0,
    reports no remaining time, and the clock has moved by at least the request
    and by at most the request plus three polling steps. *)
Theorem clock_nanosleep_sleeps junk fuel id rq rm s :
  known_clock id → normal rq → 0 ≤ ns rq → clk_ok s → 0 ≤ clk_now id s →
  clk_now id s + ns rq + 3 * clk_hi ≤ clk_limit →
  ns rq + clk_lo ≤ Z.of_nat fuel * clk_lo →
  wp (clock_nanosleep junk fuel id false rq (Some rm)) s (λ r s',
    r = (0, Some TIMESPEC_ZERO) ∧
    clk_now id s + ns rq ≤ clk_now id s' ≤ clk_now id s + ns rq + 3 * clk_hi).
Proof.
  intros Hid Hrq Hrq0 Hok H0 Hlim Hfuel. pose proof clk_lo_pos.
  unfold clock_nanosleep.
  apply wp_bind, wp_clock_gettime; [done..|lia|]. intros s1 Hok1 H1. simpl.
  apply wp_bind, wp_clock_gettime; [done|done|lia..|]. intros s2 Hok2 H2. simpl.
  assert (Hn : normal (of_ns (clk_now id s2))) by (apply normal_of_ns; lia).
  rewrite timespec_add_of_ns, ns_of_ns; [|done..|].
  2: { destruct Hrq. unfold clk_limit, sum_safe in *. ts_unfold. simpl. zlia. }
  eapply wp_mono, wp_nanosleep_loop; [|done|done|lia|lia|lia|nia|lia].
  intros r s'. simpl. intros [-> ?]. split; [done|lia].
Qed.
End sleep_laws.
