(* ===== verification/ClockDummy.v ===== *)
(** * The dummy clock: [src/clock_gettime_dummy.c]

    A clock without hardware: every reading advances both clocks by a fixed
    step. It discharges the promise of [Clock.v]. *)

From stdpp Require Import prelude list numbers.
From S2P Require Import Prelude Timespec Clock.

Definition CLOCK_GETTIME_DUMMY_STEP_SECS : Z := 0.
Definition CLOCK_GETTIME_DUMMY_STEP_NSECS : Z := 1000.

Record clock_dummy := ClockDummy {
  realtime : timespec;
  monotonic : timespec;
  clk_errno : errno;
}.

Definition dummy_step : timespec :=
  Timespec CLOCK_GETTIME_DUMMY_STEP_SECS CLOCK_GETTIME_DUMMY_STEP_NSECS.

#[export] Instance clock_dummy_errno : Has errno clock_dummy :=
  {| proj := clk_errno;
     upd := λ e s, ClockDummy (realtime s) (monotonic s) e |}.

(** The pointer [clock_get] returns: which structure, or null. *)
Definition clock_get (clock_id : clockid) (s : clock_dummy) : option timespec :=
  match clock_id with
  | CLOCK_MONOTONIC => Some (monotonic s)
  | CLOCK_REALTIME => Some (realtime s)
  | CLOCK_OTHER _ => None
  end.

(** A store through that pointer. *)
Definition clock_put (clock_id : clockid) (t : timespec) (s : clock_dummy) : clock_dummy :=
  match clock_id with
  | CLOCK_MONOTONIC => ClockDummy (realtime s) t (clk_errno s)
  | CLOCK_REALTIME => ClockDummy t (monotonic s) (clk_errno s)
  | CLOCK_OTHER _ => s
  end.

Definition clock_dummy_advance (clock_id : clockid) : M clock_dummy unit :=
  clk ← gets (clock_get clock_id);
  t ← lift (deref clk);
  modify (clock_put clock_id (timespec_incr t dummy_step)).

Definition clock_dummy_advance_all : M clock_dummy unit :=
  _ ← clock_dummy_advance CLOCK_MONOTONIC;
  clock_dummy_advance CLOCK_REALTIME.

#[export] Instance clock_gettime_dummy : Clock clock_dummy := λ clock_id tp,
  _ ← clock_dummy_advance_all;
  clk ← gets (clock_get clock_id);
  match clk with
  | None => _ ← set_errno EINVAL; mret (-1, tp)
  | Some t => mret (0, t)
  end.

(** Result codes of [clock_settime] and [clock_getres]: the dummy clock returns
    the error number itself. *)
Inductive dummy_result := OK | Error (e : errno).

Definition clock_settime (clock_id : clockid) (tp : option timespec) : M clock_dummy dummy_result :=
  clk ← gets (clock_get clock_id);
  match clk with
  | None => mret (Error EINVAL)
  | Some _ =>
      if decide (clock_id = CLOCK_MONOTONIC) then mret (Error EINVAL)
      else match tp with
      | None => mret (Error EINVAL)
      | Some t =>
          if decide (tv_nsec t < 0) then mret (Error EINVAL)
          else if decide (tv_nsec t >= NSECS_IN_SEC) then mret (Error EINVAL)
          else _ ← modify (clock_put clock_id t); mret OK
      end
  end.

Definition clock_getres (clock_id : clockid) (res : option timespec)
    : M clock_dummy (dummy_result * option timespec) :=
  clk ← gets (clock_get clock_id);
  match clk with
  | None => mret (Error EINVAL, res)
  | Some _ => mret (OK, match res with Some _ => Some dummy_step | None => None end)
  end.

(** ** The promise of the interface *)

Definition dummy_now (id : clockid) (s : clock_dummy) : Z :=
  match clock_get id s with Some t => ns t | None => 0 end.

Definition in_second (t : timespec) : Prop := 0 ≤ tv_nsec t < NSECS_IN_SEC.
Definition dummy_ok (s : clock_dummy) : Prop := in_second (realtime s) ∧ in_second (monotonic s).

Lemma incr_in_second t : in_second t → in_second (timespec_incr t dummy_step).
Proof.
  destruct t as [s n]. unfold in_second, timespec_incr, timespec_add, dummy_step,
    CLOCK_GETTIME_DUMMY_STEP_SECS, CLOCK_GETTIME_DUMMY_STEP_NSECS. ts_unfold. simpl. intros.
  rewrite !(i32_id (n + 1000)) by (unfold is_i32; lia).
  case_decide; simpl; rewrite ?i32_id by (unfold is_i32; lia); lia.
Qed.

Lemma incr_dummy_step t :
  in_second t → 0 ≤ ns t → ns t + 1000 ≤ clk_limit →
  timespec_incr t dummy_step = of_ns (ns t + 1000).
Proof.
  intros Hn H0 Hlim. unfold timespec_incr.
  assert (normal t) by (destruct t; unfold clk_limit, in_second in *; ts_unfold; simpl in *; lia).
  rewrite timespec_add_of_ns; [done|done| |];
    unfold dummy_step, CLOCK_GETTIME_DUMMY_STEP_SECS, CLOCK_GETTIME_DUMMY_STEP_NSECS;
    destruct t; unfold clk_limit, sum_safe, in_second in *; ts_unfold; simpl in *; lia.
Qed.

(** A reading of a known clock: both clocks advance, the asked one is copied. *)
Lemma clock_gettime_dummy_run id tp s :
  known_clock id →
  let s' := ClockDummy (timespec_incr (realtime s) dummy_step)
                       (timespec_incr (monotonic s) dummy_step) (clk_errno s) in
  clock_gettime id tp s = Done ((0, default tp (clock_get id s')), s').
Proof. by destruct s; intros [-> | ->]. Qed.

#[export] Program Instance dummy_laws : ClockLaws clock_dummy := {|
  clk_ok := dummy_ok;
  clk_now := dummy_now;
  clk_lo := 1000;
  clk_hi := 1000;
|}.
Next Obligation. lia. Qed.
Next Obligation.
  intros id tp s Hid [Hr Hm] H0 Hlim. rewrite clock_gettime_dummy_run by done. cbv zeta.
  pose proof (incr_in_second _ Hr) as Hr'. pose proof (incr_in_second _ Hm) as Hm'.
  set (s' := ClockDummy _ _ _). exists s'. split; [by split|].
  unfold dummy_now in *. destruct Hid as [-> | ->]; simpl in *;
    (split; [by rewrite of_ns_ns by assumption|rewrite incr_dummy_step, ns_of_ns by done; lia]).
Qed.

Definition nap_state : clock_dummy := ClockDummy TIMESPEC_ZERO (Timespec 0 999999500) E0.

Lemma clock_nanosleep_sleeps_witness :
  wp (clock_nanosleep TIMESPEC_ZERO 11 CLOCK_MONOTONIC false (Timespec 0 10000)
        (Some (Timespec 7 7))) nap_state
     (λ r s', r = (0, Some TIMESPEC_ZERO) ∧
       clk_now CLOCK_MONOTONIC nap_state + ns (Timespec 0 10000)
         ≤ clk_now CLOCK_MONOTONIC s'
         ≤ clk_now CLOCK_MONOTONIC nap_state + ns (Timespec 0 10000) + 3 * clk_hi).
Proof.
  apply clock_nanosleep_sleeps; [by left|repeat split; vm_compute; congruence|..|
    vm_compute; congruence|vm_compute; congruence|vm_compute; congruence];
    repeat split; vm_compute; congruence.
Defined.

(** ** The dummy clock as a part of a larger program

    A program linked with this clock has its state as one component. *)
Section embedded.
Context {S : Type} `{!Has clock_dummy S, !HasLaws clock_dummy S}.

Definition embedded_clock : Clock S := λ id tp s,
  match clock_gettime_dummy id tp (proj s) with
  | Done (r, c) => Done (r, upd c s)
  | Fault => Fault
  | Hang => Hang
  end.

#[local] Existing Instance embedded_clock.

Program Definition embedded_laws : ClockLaws S := {|
  clk_ok s := dummy_ok (proj s);
  clk_now id s := dummy_now id (proj s);
  clk_lo := 1000;
  clk_hi := 1000;
|}.
Next Obligation. lia. Qed.
Next Obligation.
  intros id tp s Hid Hok H0 Hlim.
  destruct (clk_read (ClockLaws:=dummy_laws) id tp (proj s) Hid Hok H0 Hlim) as (c & Hc & Hrun & Hb).
  exists (upd c s). rewrite proj_upd. split; [done|]. split; [|done].
  unfold clock_gettime, embedded_clock. unfold clock_gettime in Hrun. by rewrite Hrun.
Qed.

#[local] Existing Instance embedded_laws.

Lemma embedded_frame {C : Type} `{!Has C S, !Indep C clock_dummy S, !Indep clock_dummy C S} :
  ClockFrame C S.
Proof.
  split.
  - intros id tp s r s'. unfold clock_gettime, embedded_clock.
    destruct (clock_gettime_dummy id tp (proj s)) as [[r0 c]| |]; [|done..].
    intros [= _ <-]. apply indep_proj.
  - intros c s. simpl. by rewrite indep_proj.
  - intros id c s. simpl. by rewrite indep_proj.
Qed.
End embedded.
