(* ===== verification/ClockSystick.v ===== *)
(** * The SysTick clock: [src/clock_gettime_systick.c]

    The clock of the real board. The two clocks and [timer_update_flag] are
    [volatile]: the SysTick interrupt handler may run before any access to them,
    in the middle of the two-word copies included. The model is an interleaving:
    every access to a volatile object is preceded by an interrupt point ([irq]),
    at which the environment decides how many ticks are served. The environment
    [hw] and the counter register read by [systick_get_value] of libopencm3 are
    parameters of the model. *)

From stdpp Require Import prelude list numbers.
From S2P Require Import Prelude Timespec Clock.

Definition SYSTICK_NSEC : Z := 1000000.
Definition SYSTICK_FREQ_HZ : Z := NSECS_IN_SEC / SYSTICK_NSEC.

Record clocks := Clocks {
  realtime : timespec;
  monotonic : timespec;
  timer_update_flag : Z;
  clock_gettime_mutex : Z;
  clk_errno : errno;
}.

Definition systick_step : timespec := Timespec 0 SYSTICK_NSEC.

Definition clock_get (clock_id : clockid) (c : clocks) : option timespec :=
  match clock_id with
  | CLOCK_MONOTONIC => Some (monotonic c)
  | CLOCK_REALTIME => Some (realtime c)
  | CLOCK_OTHER _ => None
  end.

(** A store through the pointer [clock_get] returns. *)
Definition clock_put (clock_id : clockid) (t : timespec) (c : clocks) : clocks :=
  match clock_id with
  | CLOCK_MONOTONIC =>
      Clocks (realtime c) t (timer_update_flag c) (clock_gettime_mutex c) (clk_errno c)
  | CLOCK_REALTIME =>
      Clocks t (monotonic c) (timer_update_flag c) (clock_gettime_mutex c) (clk_errno c)
  | CLOCK_OTHER _ => c
  end.

Definition sys_tick_incr (clock_id : clockid) (c : clocks) : clocks :=
  match clock_get clock_id c with
  | Some clk => clock_put clock_id (timespec_incr clk systick_step) c
  | None => c
  end.

Definition sys_tick_handler (c : clocks) : clocks :=
  let c := sys_tick_incr CLOCK_MONOTONIC c in
  let c := sys_tick_incr CLOCK_REALTIME c in
  Clocks (realtime c) (monotonic c) (i32 (timer_update_flag c + 1))
         (clock_gettime_mutex c) (clk_errno c).

(** The environment: the ticks served at an interrupt point, and the SysTick
    current-value register. *)
Class SysTick (hw : Type) := {
  take_irq : hw → nat * hw;
  systick_get_value : hw → Z * hw;
}.

(** The functions of libopencm3 that set the timer up. *)
Inductive systick_call :=
| systick_set_frequency (freq ahb : Z)
| systick_interrupt_enable
| systick_counter_enable.
Class SysTickSetup (hw : Type) := systick_call_run : systick_call → hw → hw.

Section systick.
Context {hw : Type} `{!SysTick hw} (rcc_ahb_frequency : Z).

Abbreviation st := (clocks * hw)%type.

#[local] Instance st_errno : Has errno st :=
  {| proj := λ s, clk_errno (fst s);
     upd := λ e s, (Clocks (realtime (fst s)) (monotonic (fst s)) (timer_update_flag (fst s))
                           (clock_gettime_mutex (fst s)) e, snd s) |}.

(** The weak definition of [timesync_timespec] in this file, used when
    [timesync.c] is not linked. *)
Definition timesync_timespec_weak (t : timespec) : M st (Z * timespec) := mret (0, t).

(** The constructor of the file: the clocks start at zero with the counter. *)
Definition clock_gettime_systick_init `{!SysTickSetup hw} : M st unit :=
  let call c : M st unit := modify (λ s, (fst s, systick_call_run c (snd s))) in
  _ ← call (systick_set_frequency SYSTICK_FREQ_HZ rcc_ahb_frequency);
  _ ← call systick_interrupt_enable;
  call systick_counter_enable.

(** The linked [timesync_timespec]. *)
Context (timesync_timespec : timespec → M st (Z * timespec)).

Definition irq : M st unit := λ '(c, h),
  let '(n, h') := take_irq h in Done (tt, (Nat.iter n sys_tick_handler c, h')).

Definition read_flag : M st Z := _ ← irq; gets (λ s, timer_update_flag (fst s)).

(** [tp = *clk]: two words, with an interrupt point before each. *)
Definition read_clk (clock_id : clockid) : M st timespec :=
  _ ← irq;
  clk ← gets (λ s, clock_get clock_id (fst s));
  t ← lift (deref clk);
  let sec := tv_sec t in
  _ ← irq;
  clk ← gets (λ s, clock_get clock_id (fst s));
  t ← lift (deref clk);
  let nsec := tv_nsec t in
  mret (Timespec sec nsec).

(** [*clk = *tp]. *)
Definition write_clk (clock_id : clockid) (t : timespec) : M st unit :=
  _ ← irq;
  clk ← gets (λ s, clock_get clock_id (fst s));
  old ← lift (deref clk);
  _ ← modify (λ s, (clock_put clock_id (Timespec (tv_sec t) (tv_nsec old)) (fst s), snd s));
  _ ← irq;
  clk ← gets (λ s, clock_get clock_id (fst s));
  old ← lift (deref clk);
  modify (λ s, (clock_put clock_id (Timespec (tv_sec old) (tv_nsec t)) (fst s), snd s)).

Definition read_counter : M st Z := λ '(c, h),
  let '(v, h') := systick_get_value h in Done (v, (c, h')).

Definition get_value : M st Z := _ ← irq; read_counter.

Definition systick_fraction_to_timespec (fraction : Z) : timespec :=
  let ticks := u32 (rcc_ahb_frequency / SYSTICK_FREQ_HZ - fraction) in
  Timespec 0 (i32 (u32 (ticks * (NSECS_IN_SEC / rcc_ahb_frequency)))).

(** One turn of the sampling loop of [clock_gettime]. *)
Definition sample (clock_id : clockid) : M st (unit + timespec * Z) :=
  flag_before ← read_flag;
  tp ← read_clk clock_id;
  fraction_ticks ← get_value;
  flag_after ← read_flag;
  mret (if decide (flag_before ≠ flag_after) then inl tt else inr (tp, fraction_ticks)).

Definition set_mutex (v : Z) : M st unit :=
  modify (λ s, (Clocks (realtime (fst s)) (monotonic (fst s)) (timer_update_flag (fst s))
                       v (clk_errno (fst s)), snd s)).

Definition clock_gettime (fuel : nat) (clock_id : clockid) (tp : timespec)
    : M st (Z * timespec) :=
  clk ← gets (λ s, clock_get clock_id (fst s));
  match clk with
  | None => _ ← set_errno EINVAL; mret (-1, tp)
  | Some _ =>
      '(tp, fraction_ticks) ← loop fuel (λ _, sample clock_id) tt;
      let fraction_ts := systick_fraction_to_timespec fraction_ticks in
      let tp := timespec_incr tp fraction_ts in
      mutex ← gets (λ s, clock_gettime_mutex (fst s));
      if decide (clock_id = CLOCK_REALTIME ∧ mutex = 0) then
        _ ← set_mutex 1;
        '(sync_ret, tp) ← timesync_timespec tp;
        _ ← set_mutex 0;
        mret (0, tp)
      else mret (0, tp)
  end.

Definition set_turn (clock_id : clockid) (t : timespec) : M st (unit + unit) :=
  flag_before ← read_flag;
  _ ← write_clk clock_id t;
  flag_after ← read_flag;
  mret (if decide (flag_before ≠ flag_after) then inl tt else inr tt).

Definition clock_settime (fuel : nat) (clock_id : clockid) (tp : option timespec) : M st Z :=
  clk ← gets (λ s, clock_get clock_id (fst s));
  match clk with
  | None => _ ← set_errno EINVAL; mret (-1)
  | Some _ =>
      if decide (clock_id = CLOCK_MONOTONIC) then _ ← set_errno EINVAL; mret (-1)
      else match tp with
      | None => _ ← set_errno EINVAL; mret (-1)
      | Some t =>
          if decide (tv_nsec t < 0) then _ ← set_errno EINVAL; mret (-1)
          else if decide (tv_nsec t >= NSECS_IN_SEC) then _ ← set_errno EINVAL; mret (-1)
          else _ ← loop fuel (λ _, set_turn clock_id t) tt; mret 0
      end
  end.

Definition clock_getres (clock_id : clockid) (res : option timespec)
    : M st (Z * option timespec) :=
  clk ← gets (λ s, clock_get clock_id (fst s));
  match clk with
  | None => _ ← set_errno EINVAL; mret (-1, res)
  | Some _ =>
      mret (0, match res with Some _ => Some (systick_fraction_to_timespec 1) | None => None end)
  end.
End systick.

(** ** Properties *)

(** What the hardware does, as the ARM SysTick timer is documented: the counter
    runs down from [period - 1] to 0 while no tick is served; between two ticks
    there is time for [hw_calm] further accesses, at least ten right after a
    tick; the board is switched off before the seconds counter overflows. *)
Class SysTickLaws (hw : Type) `{!SysTick hw} (period : Z) := {
  hw_ticks : hw → Z;
  hw_val : hw → Z;
  hw_calm : hw → nat;
  hw_range h : 0 ≤ hw_ticks h ∧ hw_ticks h * SYSTICK_NSEC + SYSTICK_NSEC ≤ clk_limit
               ∧ 0 ≤ hw_val h < period;
  irq_law h : let '(n, h') := take_irq h in
    hw_ticks h' = hw_ticks h + Z.of_nat n ∧ Z.of_nat n < 1073741824 ∧
    (n = 0%nat → hw_val h' ≤ hw_val h ∧ (hw_calm h ≤ Datatypes.S (hw_calm h'))%nat) ∧
    (n ≠ 0%nat → hw_calm h = 0%nat ∧ (10 ≤ hw_calm h')%nat);
  val_law h : let '(v, h') := systick_get_value h in
    v = hw_val h' ∧ hw_ticks h' = hw_ticks h ∧ hw_val h' ≤ hw_val h ∧ hw_calm h' = hw_calm h;
}.

Section systick_laws.
Context {hw : Type} `{!SysTick hw} (freq : Z).
Abbreviation period := (freq / SYSTICK_FREQ_HZ).
Context `{!SysTickLaws hw period}.
Context (Hfreq : 1000 ≤ freq ≤ NSECS_IN_SEC).
Abbreviation st := (clocks * hw)%type.
Context (timesync : timespec → M st (Z * timespec)).

(** Nanoseconds per unit of the counter register, as the code computes it. *)
Definition unit_ns : Z := NSECS_IN_SEC / freq.

(** The time of a state of the hardware: served ticks plus the elapsed part
    of the current tick. *)
Definition hw_time (h : hw) : Z :=
  hw_ticks h * SYSTICK_NSEC + (period - hw_val h) * unit_ns.

(** The monotonic clock counts the served ticks, from 0 at reset. *)
Definition follows (s : st) : Prop :=
  monotonic (fst s) = of_ns (hw_ticks (snd s) * SYSTICK_NSEC) ∧
  is_i32 (timer_update_flag (fst s)).

Lemma period_unit : 1 ≤ period ∧ 1 ≤ unit_ns ∧ period * unit_ns ≤ SYSTICK_NSEC.
Proof.
  unfold unit_ns, SYSTICK_NSEC, SYSTICK_FREQ_HZ, NSECS_IN_SEC, SYSTICK_NSEC in *.
  change (1000000000 / 1000000) with 1000.
  pose proof (Z.div_mod freq 1000). pose proof (Z.mod_pos_bound freq 1000).
  pose proof (Z.div_mod 1000000000 freq). pose proof (Z.mod_pos_bound 1000000000 freq).
  assert (1000 * (freq / 1000) ≤ freq) by lia.
  assert (freq * (1000000000 / freq) ≤ 1000000000) by lia.
  assert (1 ≤ freq / 1000) by zlia. assert (1 ≤ 1000000000 / freq) by (apply Z.div_le_lower_bound; lia).
  repeat split; [done..|nia].
Qed.

Lemma handler_iter n c x :
  monotonic c = of_ns x → 0 ≤ x → x + Z.of_nat n * SYSTICK_NSEC ≤ clk_limit →
  monotonic (Nat.iter n sys_tick_handler c) = of_ns (x + Z.of_nat n * SYSTICK_NSEC) ∧
  timer_update_flag (Nat.iter n sys_tick_handler c) =
    (if decide (n = 0%nat) then timer_update_flag c else i32 (timer_update_flag c + Z.of_nat n)) ∧
  clock_gettime_mutex (Nat.iter n sys_tick_handler c) = clock_gettime_mutex c.
Proof.
  intros Hx Hx0. induction n as [|n IH]; intros Hlim.
  { simpl. rewrite Hx, Z.add_0_r. done. }
  destruct IH as (Hm & Hf & Hmu); [unfold SYSTICK_NSEC in *; lia|].
  change (Nat.iter (Datatypes.S n) ?f c) with (f (Nat.iter n f c)).
  revert Hm Hf Hmu. generalize (Nat.iter n sys_tick_handler c). intros c' Hm Hf Hmu.
  simpl. rewrite Hm, Hf, Hmu. unfold timespec_incr.
  assert (0 ≤ x + Z.of_nat n * SYSTICK_NSEC ∧
          x + Z.of_nat n * SYSTICK_NSEC + SYSTICK_NSEC ≤ clk_limit)
    by (unfold SYSTICK_NSEC in *; lia).
  rewrite timespec_add_of_ns, ns_of_ns.
  - split_and!; [|case_decide; [by subst|]; rewrite i32_add_i32; f_equal; lia|done].
    f_equal. unfold systick_step. ts_unfold. simpl. lia.
  - apply normal_of_ns. unfold SYSTICK_NSEC in *. lia.
  - unfold systick_step, SYSTICK_NSEC. ts_unfold. simpl. lia.
  - unfold systick_step, SYSTICK_NSEC, clk_limit, sum_safe in *. ts_unfold. simpl. zlia.
Qed.

(** What [n] ticks served at one interrupt point do to a state. *)
Record ticked (n : Z) (s s' : st) : Prop := {
  tk_follows : follows s';
  tk_ticks : hw_ticks (snd s') = hw_ticks (snd s) + n;
  tk_bound : 0 ≤ n < 1073741824;
  tk_flag : timer_update_flag (fst s') = i32 (timer_update_flag (fst s) + n);
  tk_mutex : clock_gettime_mutex (fst s') = clock_gettime_mutex (fst s);
  tk_time : hw_time (snd s) ≤ hw_time (snd s');
  tk_quiet : n = 0 → (hw_calm (snd s) ≤ Datatypes.S (hw_calm (snd s')))%nat;
  tk_noise : n ≠ 0 → hw_calm (snd s) = 0%nat ∧ (10 ≤ hw_calm (snd s'))%nat;
}.

Lemma wp_irq s (Q : unit → st → Prop) :
  follows s → (∀ n s', ticked n s s' → Q tt s') → wp irq s Q.
Proof.
  destruct s as [c h]. intros [Hm Hf] HQ. pose proof (irq_law h) as Hlaw.
  unfold irq, wp. destruct (take_irq h) as [n h'] eqn:Heq.
  destruct Hlaw as (Ht & Hb & Hq & Hn). apply (HQ (Z.of_nat n)).
  pose proof (hw_range h) as (H0 & _ & Hv). pose proof (hw_range h') as (_ & Hl & Hv').
  pose proof period_unit as (Hp & Hu & Hpu).
  destruct (handler_iter n c (hw_ticks h * SYSTICK_NSEC)) as (Hm' & Hf' & Hmu);
    [done|unfold SYSTICK_NSEC; lia|unfold SYSTICK_NSEC in *; lia|].
  simpl in *.
  assert (Hflag : timer_update_flag (Nat.iter n sys_tick_handler c)
                  = i32 (timer_update_flag c + Z.of_nat n)).
  { rewrite Hf'. case_decide; [subst; rewrite Z.add_0_r; by rewrite i32_id|done]. }
  split; simpl; try done; try lia.
  - split; simpl; [rewrite Hm'; f_equal; unfold SYSTICK_NSEC; lia|].
    rewrite Hflag. apply i32_range.
  - unfold hw_time. destruct (decide (n = 0%nat)) as [->|Hne].
    + destruct Hq; [done|]. assert (hw_ticks h' = hw_ticks h) by lia. nia.
    + unfold SYSTICK_NSEC in *. nia.
Qed.

(** The elapsed part of a tick, as [systick_fraction_to_timespec] computes it. *)
Lemma fraction_spec v :
  0 ≤ v < period → systick_fraction_to_timespec freq v = of_ns ((period - v) * unit_ns).
Proof.
  intros Hv. pose proof period_unit as (Hp & Hu & Hpu). unfold systick_fraction_to_timespec.
  fold unit_ns. unfold SYSTICK_NSEC in *.
  assert (0 ≤ (period - v) * unit_ns ≤ 1000000) by nia.
  assert (period ≤ 1000000) by nia.
  rewrite (u32_id (period - v)), u32_id, i32_id by (unfold is_u32, is_i32; lia).
  unfold of_ns, NSECS_IN_SEC. generalize dependent ((period - v) * unit_ns). intros x Hx.
  by rewrite Z.div_small, Z.mod_small by lia.
Qed.

Lemma reading_spec h :
  timespec_incr (of_ns (hw_ticks h * SYSTICK_NSEC)) (systick_fraction_to_timespec freq (hw_val h))
  = of_ns (hw_time h).
Proof.
  pose proof (hw_range h) as (H0 & Hl & Hv). pose proof period_unit as (Hp & Hu & Hpu).
  rewrite fraction_spec by done. unfold timespec_incr.
  assert (0 ≤ (period - hw_val h) * unit_ns ≤ SYSTICK_NSEC) by nia.
  assert (0 ≤ hw_ticks h * SYSTICK_NSEC) by (unfold SYSTICK_NSEC; lia).
  assert (SYSTICK_NSEC ≤ clk_limit) by (unfold SYSTICK_NSEC, clk_limit, NSECS_IN_SEC; lia).
  rewrite timespec_add_of_ns, !ns_of_ns; [done|apply normal_of_ns; lia..|].
  unfold SYSTICK_NSEC, clk_limit, sum_safe in *. ts_unfold. simpl. zlia.
Qed.

Lemma wp_read_counter s (Q : Z → st → Prop) :
  follows s →
  (∀ h', follows (fst s, h') → hw_ticks h' = hw_ticks (snd s) →
     hw_time (snd s) ≤ hw_time h' → hw_calm h' = hw_calm (snd s) →
     Q (hw_val h') (fst s, h')) →
  wp read_counter s Q.
Proof.
  destruct s as [c h]. intros [Hm Hf] HQ. pose proof (val_law h) as Hlaw.
  unfold wp, read_counter. simpl in *.
  destruct (systick_get_value h) as [v h']. destruct Hlaw as (-> & Ht & Hv & Hc).
  apply HQ; [by split; simpl; rewrite ?Ht|done| |done].
  unfold hw_time. rewrite Ht. pose proof period_unit. nia.
Qed.

(** One turn of the sampling loop: an accepted sample is the clock and the
    counter of one instant between the start and the end of the turn, a
    rejected one leaves the hardware in a calm period, and in a calm period
    no sample is rejected. *)
Lemma wp_sample s :
  follows s →
  wp (sample CLOCK_MONOTONIC) s (λ r s',
    follows s' ∧ clock_gettime_mutex (fst s') = clock_gettime_mutex (fst s) ∧
    hw_time (snd s) ≤ hw_time (snd s') ∧
    match r with
    | inl _ => (hw_calm (snd s) < 5 ≤ hw_calm (snd s'))%nat
    | inr (tp, v) => ∃ h1, hw_time (snd s) ≤ hw_time h1 ≤ hw_time (snd s') ∧
        timespec_incr tp (systick_fraction_to_timespec freq v) = of_ns (hw_time h1)
    end).
Proof.
  intros Hs. unfold sample, read_flag, read_clk, get_value.
  repeat first [apply wp_bind | eapply wp_irq; [eauto using tk_follows|intros ? ? ?]
               | wp_step]; simpl.
  rename H into K1, H0 into K2, H1 into K3, H2 into K4, n into n1, n0 into n2, n1 into n3,
    n2 into n4, s' into s1, s'0 into s2, s'1 into s3, s'2 into s4.
  apply wp_read_counter; [apply K4|]. intros h4 Hf4 Ht4 Hm4 Hc4.
  apply wp_bind, wp_bind, wp_irq; [done|]. intros n5 s5 K5.
  apply wp_gets, wp_ret. destruct K1, K2, K3, K4, K5. simpl in *.
  split_and!; [done|congruence|lia|]. case_decide as Hflag.
  - assert (n2 ≠ 0 ∨ n3 ≠ 0 ∨ n4 ≠ 0 ∨ n5 ≠ 0) as Hne.
    { destruct (decide (n2 = 0 ∧ n3 = 0 ∧ n4 = 0 ∧ n5 = 0)) as [(-> & -> & -> & ->)|]; [|lia].
      destruct Hflag. rewrite tk_flag4, tk_flag3, tk_flag2, tk_flag1, !Z.add_0_r.
      by rewrite !i32_id by apply i32_range || apply tk_follows0. }
    destruct (decide (n1 = 0)), (decide (n2 = 0)), (decide (n3 = 0)), (decide (n4 = 0)),
      (decide (n5 = 0)); lia.
  - rewrite tk_flag4, tk_flag3, tk_flag2, tk_flag1 in Hflag.
    repeat (rewrite i32_add_i32 in Hflag || rewrite <- Z.add_assoc in Hflag).
    symmetry in Hflag. apply i32_same in Hflag; [|apply tk_follows0|lia].
    exists h4. split; [lia|]. rewrite <- reading_spec. f_equal.
    assert (hw_ticks (snd s2) = hw_ticks h4 ∧ hw_ticks (snd s3) = hw_ticks h4) as [E2 E3] by lia.
    destruct tk_follows1 as [-> _], tk_follows2 as [-> _]. by rewrite E2, E3.
Qed.

Lemma wp_sampling fuel s :
  follows s → (2 ≤ fuel)%nat →
  wp (loop fuel (λ _, sample CLOCK_MONOTONIC) tt) s (λ r s',
    follows s' ∧ ∃ h1, hw_time (snd s) ≤ hw_time h1 ≤ hw_time (snd s') ∧
      timespec_incr (fst r) (systick_fraction_to_timespec freq (snd r)) = of_ns (hw_time h1)).
Proof.
  intros Hs Hfuel. destruct fuel as [|[|fuel]]; [lia..|].
  apply wp_bind. eapply wp_mono, wp_sample, Hs.
  intros [[]|[tp v]] s1 (Hs1 & _ & Ht1 & H1); [|by apply wp_ret].
  apply wp_bind. eapply wp_mono, wp_sample, Hs1.
  intros [[]|[tp v]] s2 (Hs2 & _ & Ht2 & H2); [lia|].
  apply wp_ret. split; [done|]. destruct H2 as (h1 & Hh1 & Heq). exists h1. split; [lia|done].
Qed.

(** C5: the lock-free sampling loop of [clock_gettime] is linearizable. However
    the SysTick interrupts fall between and inside the two-word copy of the
    clock and the reading of the counter, a reading of the monotonic clock
    completes within two turns and returns exactly the time of one instant
    between its start and its end: no torn value, no lost or doubled tick. *)
Theorem clock_gettime_linearizable fuel tp s :
  follows s → (2 ≤ fuel)%nat →
  wp (clock_gettime freq timesync fuel CLOCK_MONOTONIC tp) s (λ r s',
    follows s' ∧ ∃ h1, hw_time (snd s) ≤ hw_time h1 ≤ hw_time (snd s') ∧
      r = (0, of_ns (hw_time h1))).
Proof.
  intros Hs Hfuel. unfold clock_gettime. apply wp_bind, wp_gets. simpl. apply wp_bind.
  eapply wp_mono, wp_sampling, Hfuel; [|done].
  intros [tp' v] s' (Hf & h1 & Ht & Heq). simpl in Heq. rewrite Heq. wp_steps.
  split; [done|]. by exists h1.
Qed.
End systick_laws.

(** ** A concrete board, for the witnesses

    The environment counts accesses; a tick falls on every sixteenth of them,
    until the board is switched off after 1600. *)
Definition board_pos (h : nat) : Z := Z.of_nat (Nat.min h 1600).

#[export] Instance board_systick : SysTick nat := {|
  take_irq h :=
    (if decide ((h < 1600)%nat ∧ (Datatypes.S h) `mod` 16 = 0)%nat then 1%nat else 0%nat,
     Datatypes.S h);
  systick_get_value h := (15 - board_pos h mod 16, h);
|}.

Definition BOARD_HZ : Z := 16000.

#[export] Program Instance board_laws : SysTickLaws nat (BOARD_HZ / SYSTICK_FREQ_HZ) := {|
  hw_ticks h := board_pos h / 16;
  hw_val h := 15 - board_pos h mod 16;
  hw_calm h := Z.to_nat (15 - board_pos h mod 16);
|}.
Next Obligation.
  intros h. change (BOARD_HZ / SYSTICK_FREQ_HZ) with 16. unfold board_pos, clk_limit, SYSTICK_NSEC, NSECS_IN_SEC.
  zlia.
Qed.
Next Obligation.
  intros h. unfold take_irq, board_systick. unfold board_pos.
  assert (Z.of_nat (Datatypes.S h `mod` 16) = Z.of_nat (Datatypes.S h) mod 16)
    by (by rewrite Nat2Z.inj_mod).
  case_decide; zlia.
Qed.
Next Obligation. intros h. simpl. lia. Qed.

Definition boot : clocks := Clocks TIMESPEC_ZERO TIMESPEC_ZERO 0 0 E0.

Lemma clock_gettime_linearizable_witness :
  follows BOARD_HZ (boot, 13%nat) ∧
  wp (clock_gettime BOARD_HZ timesync_timespec_weak 2 CLOCK_MONOTONIC TIMESPEC_ZERO) (boot, 13%nat)
    (λ r s', follows BOARD_HZ s' ∧ ∃ h1 : nat,
       hw_time BOARD_HZ 13%nat ≤ hw_time BOARD_HZ h1 ≤ hw_time BOARD_HZ (snd s') ∧
       r = (0, of_ns (hw_time BOARD_HZ h1))).
Proof.
  assert (follows BOARD_HZ (boot, 13%nat)) by (by split).
  split; [done|]. apply (clock_gettime_linearizable BOARD_HZ); [|done|lia].
  unfold BOARD_HZ, NSECS_IN_SEC. lia.
Defined.
