(* ===== verification/Inet.v ===== *)
(** * Internet addresses: [src/inet.c]

    Byte order conversions, and the text form of IPv4 addresses in both
    directions. A C string is the list of its bytes with its terminating NUL; a
    pointer into it is the suffix it points to. [strtoul] with base 0 and the
    decimal conversion of [snprintf] are modelled for the arguments the file passes. *)

From stdpp Require Import prelude list numbers.
From S2P Require Import Prelude.

Definition htonl (hostlong : Z) : Z := bswap32 hostlong.
Definition htons (hostshort : Z) : Z := bswap16 hostshort.
Definition ntohl (netlong : Z) : Z := bswap32 netlong.
Definition ntohs (netshort : Z) : Z := bswap16 netshort.

(** ** Characters and the C library *)

Definition isdigit (c : Z) : bool := bool_decide (48 ≤ c ≤ 57).
Definition isascii (c : Z) : bool := bool_decide (0 ≤ c < 128).
Definition isspace (c : Z) : bool := bool_decide (c = 32 ∨ 9 ≤ c ≤ 13).

(** The value of a digit of any base up to 16. *)
Definition digit_val (c : Z) : option Z :=
  if decide (48 ≤ c ≤ 57) then Some (c - 48)
  else if decide (97 ≤ c ≤ 102) then Some (c - 87)
  else if decide (65 ≤ c ≤ 70) then Some (c - 55)
  else None.

Fixpoint digits (base acc : Z) (s : list Z) : Z * list Z :=
  match s with
  | c :: s' =>
      match digit_val c with
      | Some d => if decide (d < base) then digits base (acc * base + d) s' else (acc, s)
      | None => (acc, s)
      end
  | [] => (acc, [])
  end.

Definition isxdigit (c : Z) : bool := bool_decide (is_Some (digit_val c)).

(** [strtoul (cp, &endp, 0)] at a digit: the value, clamped to [ULONG_MAX] with
    [ERANGE], and where the number ends. *)
Definition strtoul {S : Type} `{!Has errno S} (cp : list Z) : M S (Z * list Z) :=
  let '(n, endp) :=
    match cp with
    | z :: x :: h :: rest =>
        if decide (z = 48 ∧ (x = 120 ∨ x = 88) ∧ isxdigit h = true) then digits 16 0 (h :: rest)
        else if decide (z = 48) then digits 8 0 cp else digits 10 0 cp
    | z :: _ => if decide (z = 48) then digits 8 0 cp else digits 10 0 cp
    | [] => (0, [])
    end in
  if decide (n > UINT32_MAX) then _ ← set_errno ERANGE; mret (UINT32_MAX, endp)
  else mret (n, endp).

Definition ULONG_MAX : Z := UINT32_MAX.

(** [*cp], and [*++cp]. *)
Definition peek (cp : list Z) : outcome Z := deref (head cp).

(** Decimal digits of a number below 1000, as [%u] prints a byte. *)
Definition print_u8 (b : Z) : list Z :=
  if decide (b < 10) then [48 + b]
  else if decide (b < 100) then [48 + b / 10; 48 + b mod 10]
  else [48 + b / 100; 48 + b / 10 mod 10; 48 + b mod 10].

(** What [snprintf] leaves in a buffer of [n] bytes: at most [n - 1] characters
    and the NUL. *)
Definition snprintf (n : nat) (text : list Z) : list Z := take (n - 1) text ++ [0].

(** ** inet_addr *)

Definition inet_max : list Z := [4294967295; 16777215; 65535; 255].

(** [(in_addr_t)(-1)], the error value. *)
Definition INADDR_NONE : Z := 4294967295.

Section inet_addr.
Context {S : Type} `{!Has errno S}.

(** The state of the loop: where the scan is, and the bytes stored through [pp]. *)
Definition inet_addr_part (st : list Z * list Z)
    : M S (list Z * list Z + option (Z * list Z * list Z)) :=
  let '(cp, bytes) := st in
  c ← lift (peek cp);
  if isdigit c then
    '(ul, endp) ← strtoul cp;
    e ← getc;
    if decide (ul = ULONG_MAX ∧ e = ERANGE) then mret (inr None)
    else if decide (ul > 4294967295) then mret (inr None)
    else
      let val := ul in
      c ← lift (peek endp);
      if decide (c = 46) then
        if decide (Z.of_nat (length bytes) > 2 ∨ val > 255) then mret (inr None)
        else mret (inl (drop 1 endp, bytes ++ [u8 val]))
      else mret (inr (Some (val, endp, bytes)))
  else mret (inr None).

Definition inet_addr (cp : list Z) : M S Z :=
  saved_errno ← getc;
  _ ← set_errno E0;
  r ← loop 4 inet_addr_part (cp, []);
  addr ← match r with
    | None => mret INADDR_NONE
    | Some (val, endp, bytes) =>
        c ← lift (peek endp);
        if decide (c ≠ 0 ∧ (isascii c = false ∨ isspace c = false)) then mret INADDR_NONE
        else
          mx ← lift (aget inet_max (Z.of_nat (length bytes)));
          if decide (val > mx) then mret INADDR_NONE
          else mret (Z.lor (le_val (bytes ++ replicate (4 - length bytes) 0)) (htonl val))
    end;
  _ ← set_errno saved_errno;
  mret addr.
End inet_addr.

Definition INET_ADDRSTRLEN : nat := 16.

(** [b[i]] are the bytes of [s_addr] in memory. *)
Definition inet_ntoa (s_addr : Z) : list Z :=
  let b := le_bytes 4 s_addr in
  snprintf INET_ADDRSTRLEN
    (print_u8 (nth 0 b 0) ++ [46] ++ print_u8 (nth 1 b 0) ++ [46] ++
     print_u8 (nth 2 b 0) ++ [46] ++ print_u8 (nth 3 b 0)).

Example inet_addr_ex : inet_addr (S := errno) [49;57;50;46;49;54;56;46;49;46;57;57;0] ERANGE
  = Done (1661053120, ERANGE).
Proof. reflexivity. Qed.
Example inet_addr_short : inet_addr (S := errno) [49;46;48;120;102;102;0] E0 = Done (4278190081, E0).
Proof. reflexivity. Qed.
Example inet_ntoa_ex : inet_ntoa 1661053120 = [49;57;50;46;49;54;56;46;49;46;57;57;0].
Proof. reflexivity. Qed.

(** ** Properties *)

(** A C string in memory: bytes, among them a terminating NUL. *)
Definition cstring (s : list Z) : Prop := Forall is_u8 s ∧ 0 ∈ s.

Lemma cstring_peek s : cstring s → ∃ c s', s = c :: s' ∧ is_u8 c ∧ (c ≠ 0 → cstring s').
Proof.
  intros [Hb Hin]. destruct s as [|c s]; [by apply elem_of_nil in Hin|].
  apply Forall_cons_1 in Hb as [Hc Hb]. exists c, s. split_and!; [done..|].
  intros Hne. split; [done|]. by apply elem_of_cons in Hin as [?|?].
Qed.

Lemma digits_cstring base acc s :
  0 ≤ acc → 0 ≤ base → cstring s →
  0 ≤ fst (digits base acc s) ∧ cstring (snd (digits base acc s)).
Proof.
  intros Hacc Hbase. revert acc Hacc. induction s as [|c s IH]; intros acc Hacc Hs; [done|].
  destruct (cstring_peek _ Hs) as (c' & s' & [= <- <-] & Hc & Ht). simpl.
  destruct (digit_val c) as [d|] eqn:Hd; [|done]. case_decide; [|done].
  unfold digit_val in Hd. repeat case_decide; simplify_eq.
  all: apply IH; [nia|apply Ht; lia].
Qed.

Lemma wp_strtoul {S : Type} `{!Has errno S} cp (s : S) (Q : Z * list Z → S → Prop) :
  cstring cp →
  (∀ n endp s', 0 ≤ n ≤ UINT32_MAX → cstring endp → (s' = s ∨ s' = upd ERANGE s) →
     Q (n, endp) s') →
  wp (strtoul cp) s Q.
Proof.
  intros Hcp HQ. unfold strtoul. destruct (cstring_peek _ Hcp) as (z & s1 & -> & Hz & Ht1).
  match goal with |- wp (let '(_, _) := ?e in _) _ _ =>
    assert (He : 0 ≤ fst e ∧ cstring (snd e)); [|destruct e as [n endp]] end.
  - pose proof (digits_cstring 8 0 (z :: s1)). pose proof (digits_cstring 10 0 (z :: s1)).
    destruct s1 as [|x [|h rest]]; repeat case_decide; auto with lia.
    destruct_and!. subst z. apply digits_cstring; [lia..|].
    destruct (cstring_peek _ (Ht1 ltac:(lia))) as (? & ? & [= <- <-] & _ & Ht). apply Ht. lia.
  - destruct He as [Hn Hend]. simpl in *. unfold UINT32_MAX in *.
    case_decide; wp_steps; apply HQ; unfold UINT32_MAX; auto with lia.
Qed.

Section inet_addr_safe.
Context {S : Type} `{!Has errno S, !HasLaws errno S}.

Lemma wp_inet_addr_part cp bytes (s : S) (Q : _ → S → Prop) :
  cstring cp → Forall is_u8 bytes → (length bytes ≤ 3)%nat →
  (∀ r s', (s' = s ∨ s' = upd ERANGE s) →
     match r with
     | inl (cp', bytes') => cstring cp' ∧ Forall is_u8 bytes' ∧ (length bytes' ≤ 3)%nat ∧
                            (length bytes < length bytes')%nat
     | inr (Some (val, endp, bytes')) => bytes' = bytes ∧ cstring endp ∧ is_u32 val
     | inr None => True
     end → Q r s') →
  wp (inet_addr_part (cp, bytes)) s Q.
Proof.
  intros Hcp Hb Hlen HQ. unfold inet_addr_part, peek.
  destruct (cstring_peek _ Hcp) as (c & s1 & -> & _ & _). simpl. wp_steps.
  destruct (isdigit c); [|by apply HQ; auto].
  apply wp_bind, wp_strtoul; [done|]. intros n endp s' Hn Hend Hs'. unfold UINT32_MAX in *.
  wp_steps; try (by apply HQ; auto).
  destruct (cstring_peek _ Hend) as (c' & s2 & -> & _ & Ht). simpl.
  wp_steps; apply HQ; auto.
  - simpl. split_and!; [apply Ht; lia| |rewrite length_app; simpl; lia..].
    apply Forall_app; split; [done|]. constructor; [apply u8_range|done].
  - split_and!; unfold is_u32; auto with lia.
Qed.

(** [inet_addr] reads no byte past the end of its argument, finishes within
    four parts, always leaves [errno] and the rest of the state as it found
    them, and returns a 32-bit value. *)
Theorem inet_addr_total cp (s : S) :
  cstring cp → wp (inet_addr cp) s (λ r s', s' = s ∧ is_u32 r).
Proof.
  intros Hcp. unfold inet_addr. wp_steps.
  set (ok := λ s' : S, s' = upd E0 s ∨ s' = upd ERANGE s).
  apply wp_mono with (P := λ r s', ok s' ∧
    match r with
    | Some (val, endp, bytes) =>
        cstring endp ∧ Forall is_u8 bytes ∧ (length bytes ≤ 3)%nat ∧ is_u32 val
    | None => True end).
  - intros r s' [Hs' Hr].
    assert (Hback : ∀ a, is_u32 a →
      wp (_ ← set_errno (proj s); mret a) s' (λ r s', s' = s ∧ is_u32 r)).
    { intros a Ha. wp_steps. split; [|done].
      destruct Hs' as [-> | ->]; by rewrite upd_upd, upd_proj. }
    destruct r as [[[val endp] bytes]|]; [|by apply Hback].
    destruct Hr as (Hend & Hb & Hlen & Hval). unfold peek.
    destruct (cstring_peek _ Hend) as (c & s1 & -> & _ & _). simpl. apply wp_bind, wp_bind.
    eapply wp_lift; [done|]. case_decide; [by apply Hback|]. apply wp_bind.
    destruct (aget_in_range inet_max (Z.of_nat (length bytes))) as (mx & -> & _); [simpl; lia|].
    eapply wp_lift; [done|]. case_decide; apply wp_ret; apply Hback; [done|].
    apply (lor_range 32); [lia| |apply bswap32_range].
    set (bs := bytes ++ _). assert (length bs = 4%nat) as Hbs
      by (unfold bs; rewrite length_app, length_replicate; lia).
    pose proof (le_val_range bs) as Hr. rewrite Hbs in Hr. apply Hr.
    apply Forall_app; split; [done|]. by apply Forall_replicate.
  - apply wp_loop with (μ := λ '(_, bytes) _, (3 - length bytes)%nat)
      (I := λ '(cp, bytes) s', ok s' ∧ cstring cp ∧ Forall is_u8 bytes ∧ (length bytes ≤ 3)%nat).
    + split_and!; [by left|done|done|simpl; lia].
    + simpl. lia.
    + intros [cp' bytes] s' (Hok & Hcp' & Hb & Hlen). apply wp_inet_addr_part; [done..|].
      intros r s'' Hs'' Hr.
      assert (ok s'') by (unfold ok in *; destruct Hok as [-> | ->], Hs'' as [-> | ->];
        rewrite ?upd_upd; auto).
      destruct r as [[cp'' bytes'']|[[[val endp] bytes'']|]]; [|naive_solver..].
      destruct_and!. split_and!; [done..|lia].
Qed.
End inet_addr_safe.

Lemma inet_addr_total_witness :
  wp (inet_addr [49; 46; 50; 120; 0; 255]) EBADF (λ r s', s' = EBADF ∧ is_u32 r).
Proof.
  apply (inet_addr_total (S := errno)). split; [|set_solver].
  repeat constructor; unfold is_u8; lia.
Defined.

(** ** Round trip *)

(** Reading back one printed byte, in front of a dot or of the end. *)
Lemma strtoul_print_u8 {S : Type} `{!Has errno S} b c rest :
  is_u8 b → c = 46 ∨ c = 0 →
  strtoul (S := S) (print_u8 b ++ c :: rest) = mret (b, c :: rest).
Proof.
  intros Hb Hc.
  assert (Hall : Forall (λ b, ∀ c rest, c = 46 ∨ c = 0 →
    strtoul (S := S) (print_u8 b ++ c :: rest) = mret (b, c :: rest)) (seqZ 0 256)).
  { clear. repeat (constructor; [intros c [|? ?] [-> | ->]; reflexivity|]). constructor. }
  rewrite Forall_forall in Hall. apply Hall; [|done]. apply list_elem_of_In, elem_of_seqZ. unfold is_u8 in Hb. lia.
Qed.

Lemma print_u8_head b : is_u8 b → ∃ c t, print_u8 b = c :: t ∧ isdigit c = true ∧ (length t ≤ 2)%nat.
Proof.
  unfold is_u8, print_u8. intros Hb.
  repeat case_decide; eexists _, _; (split; [done|]); (split; [|simpl; lia]);
    apply bool_decide_eq_true; zlia.
Qed.

Section roundtrip.
Context {S : Type} `{!Has errno S, !HasLaws errno S}.

(** One turn of the scan over one printed byte of an address. *)
Lemma inet_addr_part_byte b c rest bytes (s : S) :
  is_u8 b → c = 46 ∨ c = 0 → proj s ≠ ERANGE → (length bytes ≤ 3)%nat →
  (c = 46 → (length bytes ≤ 2)%nat) →
  inet_addr_part (print_u8 b ++ c :: rest, bytes) s =
    Done (if decide (c = 46) then inl (rest, bytes ++ [b]) else inr (Some (b, c :: rest, bytes)), s).
Proof.
  intros Hb Hc He Hlen Hlen'. pose proof (strtoul_print_u8 (S := S) b c rest Hb Hc) as Hs.
  destruct (print_u8_head b Hb) as (d & t & Hp & Hd & _). rewrite Hp in *. simpl in *.
  unfold inet_addr_part, peek. simpl. unfold mbind, M_bind, lift, deref. simpl.
  rewrite Hd, Hs. simpl. unfold is_u8, ULONG_MAX, UINT32_MAX in *.
  rewrite decide_False by lia. rewrite decide_False by lia. simpl.
  case_decide; [|done]. rewrite decide_False by lia. simpl. by rewrite drop_0, u8_id.
Qed.

(** C39: text round trip: for every 32-bit address, [inet_addr] applied to what
    [inet_ntoa] leaves in its buffer is that address; in particular the
    [INET_ADDRSTRLEN] bytes of the buffer never truncate the text. *)
Theorem inet_addr_ntoa a (s : S) :
  is_u32 a → inet_addr (inet_ntoa a) s = Done (a, s).
Proof.
  intros Ha. unfold inet_ntoa, snprintf.
  pose proof (le_bytes_u8 4 a) as Hb. pose proof (le_val_bytes 4 a) as Hv.
  rewrite Z.mod_small in Hv by done. revert Hb Hv.
  change (le_bytes 4 a) with
    [a mod 256; (a / 256) mod 256; (a / 256 / 256) mod 256; (a / 256 / 256 / 256) mod 256].
  generalize (a mod 256), ((a / 256) mod 256), ((a / 256 / 256) mod 256),
    ((a / 256 / 256 / 256) mod 256).
  intros b0 b1 b2 b3 Hb Hv. repeat (apply Forall_cons_1 in Hb as [? Hb]). simpl nth.
  assert (Hl : ∀ b, is_u8 b → (length (print_u8 b) ≤ 3)%nat).
  { intros b Hb'. destruct (print_u8_head b Hb') as (? & ? & -> & _ & ?). simpl. lia. }
  rewrite take_ge by (rewrite !length_app; simpl; unfold INET_ADDRSTRLEN;
    pose proof (Hl b0 ltac:(assumption)); pose proof (Hl b1 ltac:(assumption)); pose proof (Hl b2 ltac:(assumption)); pose proof (Hl b3 ltac:(assumption)); lia).
  rewrite <- !app_assoc. cbn [app]. apply wp_eq. unfold inet_addr. wp_steps.
  assert (proj (upd E0 s) ≠ ERANGE) by (by rewrite proj_upd).
  do 4 (apply wp_loop_turn; eapply wp_Done;
    [apply inet_addr_part_byte; first [done|by auto|simpl; lia]|cbn [decide app]; simpl]).
  unfold is_u8 in *. wp_steps. eapply wp_lift; [done|]. rewrite decide_False by lia.
  apply wp_bind. eapply wp_lift; [done|]. rewrite decide_False by lia.
  wp_steps. rewrite upd_upd, upd_proj. split; [|done].
  rewrite <- Hv. unfold htonl, bswap32. simpl.
  rewrite (Z.mod_small b3), (Z.div_small b3) by lia.
  change (0 / 256 / 256) with 0. change (0 / 256) with 0. change (0 mod 256) with 0.
  replace (0 + 256 * (0 + 256 * (0 + 256 * (b3 + 256 * 0)))) with (b3 * 2 ^ 24) by lia.
  rewrite lor_disjoint; simpl; lia.
Qed.
End roundtrip.

Lemma inet_addr_ntoa_witness : inet_addr (inet_ntoa 16885952) ENOENT = Done (16885952, ENOENT).
Proof. apply (inet_addr_ntoa (S := errno)). unfold is_u32. lia. Defined.
