(* ===== verification/Files.v ===== *)
(** * The descriptor table: [src/file.c], [src/fcntl.c], [src/syscalls.c]

    [struct fd] is the table entry every descriptor of the library lives in;
    files, sockets and the serial console fill it with their own functions. The
    function pointers of an entry are represented by the driver they belong to,
    its [opaque] pointer by the object it points to; calls through a pointer go
    to the [Drivers] interface. A [struct fd *] is an index of the table. *)

From stdpp Require Import prelude list numbers.
From S2P Require Import Prelude.

(** [include/limits.h]. *)
Definition OPEN_MAX : nat := 20.

(** The file type and the rest of [struct stat] the sources use. *)
Inductive ftype := S_IFNONE | S_IFSOCK | S_IFREG | S_IFDIR | S_IFCHR.

#[export] Instance ftype_eq_dec : EqDecision ftype.
Proof. solve_decision. Defined.

Record stat := Stat {
  st_type : ftype;
  st_perm : Z;
  st_size : Z;
  st_blksize : Z;
}.

Definition S_ISSOCK (st : stat) : bool := bool_decide (st_type st = S_IFSOCK).
Definition S_ISREG (st : stat) : bool := bool_decide (st_type st = S_IFREG).
Definition S_ISDIR (st : stat) : bool := bool_decide (st_type st = S_IFDIR).

(** Whose functions the pointers [write], [read], [close], [poll] are. *)
Inductive driver := DrvSocket | DrvFatfs | DrvUsart.

(** What [opaque] points to: an entry of [w5100_sockets], or of the [files]
    array of the FAT driver. *)
Inductive object := ObjSocket (isocket : Z) | ObjFil (i_fil : Z) | ObjDir (i_fil : Z).

Record fd_t := Fd {
  fd_fd : Z;
  fd_stat : stat;
  isatty : bool;
  isopen : bool;
  fd_write : option driver;
  fd_read : option driver;
  fd_close : option driver;
  fd_poll : option driver;
  isallocated : bool;
  descriptor_flags : Z;
  status_flags : Z;
  opaque : option object;
}.

#[export] Instance stat_eq_dec : EqDecision stat.
Proof. solve_decision. Defined.
#[export] Instance driver_eq_dec : EqDecision driver.
Proof. solve_decision. Defined.
#[export] Instance object_eq_dec : EqDecision object.
Proof. solve_decision. Defined.
#[export] Instance fd_eq_dec : EqDecision fd_t.
Proof. solve_decision. Defined.

(** [memset(&files[fd], 0, sizeof(files[fd]))]. *)
Definition fd_zero : fd_t :=
  Fd 0 (Stat S_IFNONE 0 0 0) false false None None None None false 0 0 None.

Definition with_allocated (b : bool) (f : fd_t) : fd_t :=
  Fd (fd_fd f) (fd_stat f) (isatty f) (isopen f) (fd_write f) (fd_read f) (fd_close f)
     (fd_poll f) b (descriptor_flags f) (status_flags f) (opaque f).
Definition with_fd (n : Z) (f : fd_t) : fd_t :=
  Fd n (fd_stat f) (isatty f) (isopen f) (fd_write f) (fd_read f) (fd_close f)
     (fd_poll f) (isallocated f) (descriptor_flags f) (status_flags f) (opaque f).
Definition with_open (b : bool) (f : fd_t) : fd_t :=
  Fd (fd_fd f) (fd_stat f) (isatty f) b (fd_write f) (fd_read f) (fd_close f)
     (fd_poll f) (isallocated f) (descriptor_flags f) (status_flags f) (opaque f).
Definition with_descriptor_flags (z : Z) (f : fd_t) : fd_t :=
  Fd (fd_fd f) (fd_stat f) (isatty f) (isopen f) (fd_write f) (fd_read f) (fd_close f)
     (fd_poll f) (isallocated f) z (status_flags f) (opaque f).
Definition with_status_flags (z : Z) (f : fd_t) : fd_t :=
  Fd (fd_fd f) (fd_stat f) (isatty f) (isopen f) (fd_write f) (fd_read f) (fd_close f)
     (fd_poll f) (isallocated f) (descriptor_flags f) z (opaque f).

(** The [files] array of [file.c]. *)
Record ftable := Ftable { files : list fd_t }.

Definition ftable_init : ftable := Ftable (replicate OPEN_MAX fd_zero).

Section file.
Context {S : Type} `{!Has ftable S}.

(** [*p] and [*p = x] for an entry pointer. *)
Definition fd_at (p : Z) : M S fd_t := t ← getc; lift (aget (files t) p).
Definition fd_put (p : Z) (x : fd_t) : M S unit :=
  t ← getc;
  l ← lift (aset (files t) p x);
  modifyc (λ _, Ftable l).
Definition fd_update (p : Z) (g : fd_t → fd_t) : M S unit := f ← fd_at p; fd_put p (g f).

(** The pointer is computed for every number below [OPEN_MAX], negative ones
    included. *)
Definition file_struct_get (fd : Z) : option Z :=
  if decide (fd >= Z.of_nat OPEN_MAX) then None else Some fd.

Definition file_alloc : M S Z :=
  r ← for_find (OPEN_MAX - 3) 3 (λ fd,
    f ← fd_at fd;
    if isallocated f then mret None
    else
      _ ← fd_put fd fd_zero;
      _ ← fd_update fd (with_allocated true);
      _ ← fd_update fd (with_fd fd);
      mret (Some fd));
  mret (default (-1) r).

Definition file_free (fd : Z) : M S unit :=
  if decide (fd < Z.of_nat OPEN_MAX ∧ 0 ≤ fd) then
    f ← fd_at fd;
    if isallocated f then fd_update fd (with_allocated false) else mret tt
  else mret tt.
End file.

(** ** fcntl *)

(** The flags of newlib's [<fcntl.h>] the sources use. *)
Definition O_ACCMODE : Z := 3.
Definition O_RDONLY : Z := 0.
Definition O_WRONLY : Z := 1.
Definition O_RDWR : Z := 2.
Definition O_APPEND : Z := 8.
Definition O_CREAT : Z := 512.
Definition O_TRUNC : Z := 1024.
Definition O_EXCL : Z := 2048.
Definition O_NONBLOCK : Z := 16384.

Inductive fcntl_cmd := F_GETFD | F_SETFD | F_SETFL | F_GETFL | F_OTHER (cmd : Z).

(** ** Calls through the pointers of an entry *)
Class Drivers (S : Type) := {
  drv_write : driver → Z → list Z → M S Z;
  drv_read : driver → Z → Z → M S (Z * list Z);
  drv_close : driver → Z → M S Z;
  drv_poll : driver → Z → M S Z;
}.

Section syscalls.
Context {S : Type} `{!Has ftable S, !Has errno S, !Drivers S}.

Definition fcntl (fildes : Z) (cmd : fcntl_cmd) (arg : Z) : M S Z :=
  match file_struct_get fildes with
  | None => _ ← set_errno EBADF; mret (-1)
  | Some f =>
      match cmd with
      | F_GETFD => e ← fd_at f; mret (descriptor_flags e)
      | F_SETFD => _ ← fd_update f (with_descriptor_flags arg); mret 0
      | F_SETFL => _ ← fd_update f (with_status_flags arg); mret 0
      | F_GETFL => e ← fd_at f; mret (status_flags e)
      | F_OTHER _ => _ ← set_errno ENOSYS; mret (-1)
      end
  end.

Definition _write (fd : Z) (ptr : list Z) : M S Z :=
  match file_struct_get fd with
  | None => _ ← set_errno EBADF; mret (-1)
  | Some p =>
      f ← fd_at p;
      if negb (isopen f) then _ ← set_errno EBADF; mret (-1)
      else match fd_write f with
      | None => _ ← set_errno EBADF; mret (-1)
      | Some d => drv_write d fd ptr
      end
  end.

Definition _read (fd : Z) (len : Z) : M S (Z * list Z) :=
  match file_struct_get fd with
  | None => _ ← set_errno EBADF; mret (-1, [])
  | Some p =>
      f ← fd_at p;
      if negb (isopen f) then _ ← set_errno EBADF; mret (-1, [])
      else match fd_read f with
      | None => _ ← set_errno EBADF; mret (-1, [])
      | Some d => drv_read d fd len
      end
  end.

Definition _close (fd : Z) : M S Z :=
  match file_struct_get fd with
  | None => _ ← set_errno EBADF; mret (-1)
  | Some p =>
      f ← fd_at p;
      if negb (isopen f) then _ ← set_errno EBADF; mret (-1)
      else match fd_close f with
      | Some d => drv_close d fd
      | None => _ ← fd_update p (with_open false); mret 0
      end
  end.

Definition _fstat (fd : Z) (buf : stat) : M S (Z * stat) :=
  match file_struct_get fd with
  | None => _ ← set_errno EBADF; mret (-1, buf)
  | Some p =>
      f ← fd_at p;
      if negb (isopen f) then _ ← set_errno EBADF; mret (-1, buf)
      else mret (0, fd_stat f)
  end.

Definition _isatty (fd : Z) : M S Z :=
  match file_struct_get fd with
  | None => _ ← set_errno EBADF; mret (-1)
  | Some p =>
      f ← fd_at p;
      if negb (isopen f) then _ ← set_errno EBADF; mret (-1)
      else if isatty f then mret 1
      else _ ← set_errno ENOTTY; mret 0
  end.

(** The process has one number; signals sent through newlib go nowhere. *)
Definition _getpid : Z := 1.
Definition _kill (pid sig : Z) : M S Z := _ ← set_errno EPERM; mret (-1).

(** The weak definition of [fatfs_lseek] in [syscalls.c]. *)
Definition fatfs_lseek_weak (fd offset whence : Z) : M S Z := _ ← set_errno ENOSYS; mret (-1).

Definition _lseek (fatfs_lseek : Z → Z → Z → M S Z) (fd offset whence : Z) : M S Z :=
  match file_struct_get fd with
  | None => _ ← set_errno EBADF; mret (-1)
  | Some p =>
      f ← fd_at p;
      if negb (isopen f) then _ ← set_errno EBADF; mret (-1)
      else if S_ISSOCK (fd_stat f) then _ ← set_errno EPIPE; mret (-1)
      else if S_ISREG (fd_stat f) then fatfs_lseek fd offset whence
      else _ ← set_errno EINVAL; mret (-1)
  end.
End syscalls.

(** ** The heap: [_sbrk]

    The linker symbols [end] and [_stack] are parameters. *)
Record heap := Heap { program_break : Z }.

Section sbrk.
Context {S : Type} `{!Has heap S, !Has errno S} (stack : Z).

Definition _sbrk (incr : Z) : M S Z :=
  h ← getc;
  let current_break := program_break h in
  if decide (current_break + incr >= stack) then
    _ ← set_errno ENOMEM; mret (-1)
  else
    _ ← modifyc (λ h, Heap (program_break h + incr));
    mret current_break.
End sbrk.

(** ** Properties *)

Definition entry {S : Type} `{!Has ftable S} (s : S) (i : Z) : option fd_t :=
  files (proj s) !! Z.to_nat i.

Definition allocated {S : Type} `{!Has ftable S} (s : S) (i : Z) : Prop :=
  ∃ f, entry s i = Some f ∧ isallocated f = true.

(** The table is the C array: it never changes its length. *)
Definition table_ok {S : Type} `{!Has ftable S} (s : S) : Prop :=
  length (files (proj s)) = OPEN_MAX.

Section file_laws.
Context {S : Type} `{!Has ftable S, !HasLaws ftable S}.

Lemma entry_in_table (s : S) i :
  table_ok s → 0 ≤ i < Z.of_nat OPEN_MAX → ∃ f, entry s i = Some f.
Proof. intros Hok Hi. apply lookup_lt_is_Some_2. unfold table_ok in Hok. lia. Qed.

Lemma wp_fd_at p (s : S) (Q : fd_t → S → Prop) f :
  0 ≤ p → entry s p = Some f → Q f s → wp (fd_at p) s Q.
Proof.
  intros Hp Hf HQ. unfold fd_at. wp_steps. eapply wp_lift; [|done]. by apply aget_Some.
Qed.

(** The table with one entry replaced. *)
Definition table_set (p : Z) (x : fd_t) (s : S) : S :=
  upd (Ftable (<[Z.to_nat p := x]> (files (proj s)))) s.

Lemma entry_table_set_eq p x (s : S) :
  table_ok s → 0 ≤ p < Z.of_nat OPEN_MAX → entry (table_set p x s) p = Some x.
Proof.
  intros Hok Hp. unfold entry, table_set. rewrite proj_upd. simpl.
  apply list_lookup_insert_eq. unfold table_ok in Hok. lia.
Qed.

Lemma entry_table_set_ne p q x (s : S) :
  0 ≤ p → 0 ≤ q → p ≠ q → entry (table_set p x s) q = entry s q.
Proof.
  intros. unfold entry, table_set. rewrite proj_upd. simpl. apply list_lookup_insert_ne. lia.
Qed.

Lemma table_set_ok p x (s : S) : table_ok s → table_ok (table_set p x s).
Proof. unfold table_ok, table_set. rewrite proj_upd. simpl. by rewrite length_insert. Qed.

Lemma table_set_set p x y (s : S) : table_set p x (table_set p y s) = table_set p x s.
Proof. unfold table_set. rewrite proj_upd, upd_upd. simpl. by rewrite list_insert_insert_eq. Qed.

Lemma wp_fd_put p x (s : S) (Q : unit → S → Prop) :
  table_ok s → 0 ≤ p < Z.of_nat OPEN_MAX → Q tt (table_set p x s) → wp (fd_put p x) s Q.
Proof.
  intros Hok Hp HQ. unfold fd_put. wp_steps.
  eapply wp_lift; [apply aset_in_range; unfold table_ok in Hok; lia|]. wp_steps. done.
Qed.

Lemma wp_fd_update p g (s : S) (Q : unit → S → Prop) f :
  table_ok s → 0 ≤ p < Z.of_nat OPEN_MAX → entry s p = Some f →
  Q tt (table_set p (g f) s) → wp (fd_update p g) s Q.
Proof.
  intros Hok Hp Hf HQ. unfold fd_update. apply wp_bind.
  eapply wp_fd_at; [lia|done|]. by apply wp_fd_put.
Qed.

(** A fresh entry, as [file_alloc] leaves it. *)
Definition fd_fresh (fd : Z) : fd_t := with_fd fd (with_allocated true fd_zero).

Lemma wp_file_alloc (s : S) :
  table_ok s →
  wp file_alloc s (λ r s',
    (r = -1 ∧ s' = s ∧ ∀ i, 3 ≤ i < Z.of_nat OPEN_MAX → allocated s i) ∨
    (3 ≤ r < Z.of_nat OPEN_MAX ∧ ¬ allocated s r ∧ (∀ i, 3 ≤ i < r → allocated s i) ∧
     s' = table_set r (fd_fresh r) s)).
Proof.
  intros Hok. unfold file_alloc. apply wp_bind.
  apply wp_for_find with (I := λ j s', s' = s ∧ ∀ i, 3 ≤ i < j → allocated s i).
  - split; [done|lia].
  - intros fd ? Hfd [-> Hlow]. assert (0 ≤ fd < Z.of_nat OPEN_MAX) by (unfold OPEN_MAX in *; lia).
    destruct (entry_in_table s fd Hok) as [f Hf]; [done|].
    apply wp_bind. eapply wp_fd_at; [lia|done|]. destruct (isallocated f) eqn:Ha.
    + apply wp_ret. split; [done|]. intros i Hi.
      destruct (decide (i = fd)) as [->|]; [by exists f|apply Hlow; lia].
    + apply wp_bind, wp_fd_put; [done..|]. apply wp_bind.
      assert (Hok' : ∀ x s', table_ok s' → table_ok (table_set fd x s')) by (intros; by apply table_set_ok).
      eapply wp_fd_update; [auto|done|apply entry_table_set_eq; auto|].
      apply wp_bind. eapply wp_fd_update; [auto|done|apply entry_table_set_eq; auto|].
      apply wp_ret, wp_ret. right. simpl.
      split; [unfold OPEN_MAX in *; lia|]. split; [|split; [done|by rewrite ?table_set_set]].
      intros (f' & Hf' & Ha'). rewrite Hf in Hf'. congruence.
  - intros s' [-> Hall]. left. split_and!; [done..|]. intros i Hi. apply Hall.
    unfold OPEN_MAX in *. lia.
Qed.

(** [file_alloc] gives out the lowest free descriptor from 3 on, as POSIX
    asks of [open] and [socket]: the entry was free, every lower one is taken,
    the new entry is zeroed, marked and numbered, and nothing else changes; it
    fails, with no change at all, only when every entry is taken. *)
Theorem file_alloc_lowest (s : S) :
  table_ok s →
  wp file_alloc s (λ r s',
    (r = -1 ∧ s' = s ∧ ∀ i, 3 ≤ i < Z.of_nat OPEN_MAX → allocated s i) ∨
    (3 ≤ r < Z.of_nat OPEN_MAX ∧ ¬ allocated s r ∧ (∀ i, 3 ≤ i < r → allocated s i) ∧
     s' = table_set r (fd_fresh r) s)).
Proof. apply wp_file_alloc. Qed.

Lemma file_free_spec fd f (s : S) :
  table_ok s → 0 ≤ fd < Z.of_nat OPEN_MAX → entry s fd = Some f → isallocated f = true →
  wp (file_free fd) s (λ _ s', s' = table_set fd (with_allocated false f) s).
Proof.
  intros Hok Hfd Hf Ha. unfold file_free. rewrite decide_True by lia. apply wp_bind.
  eapply wp_fd_at; [lia|done|]. rewrite Ha. by eapply wp_fd_update.
Qed.
End file_laws.

Lemma file_alloc_lowest_witness :
  wp file_alloc ftable_init (λ r s',
    (r = -1 ∧ s' = ftable_init ∧ ∀ i, 3 ≤ i < Z.of_nat OPEN_MAX → allocated ftable_init i) ∨
    (3 ≤ r < Z.of_nat OPEN_MAX ∧ ¬ allocated ftable_init r ∧
     (∀ i, 3 ≤ i < r → allocated ftable_init i) ∧ s' = table_set r (fd_fresh r) ftable_init)).
Proof. apply (file_alloc_lowest ftable_init). reflexivity. Defined.

Section syscall_laws.
Context {S : Type} `{!Has ftable S, !Has errno S, !Drivers S}.

(** The number is above the table, or its entry is not open. *)
Definition not_open (s : S) (fd : Z) : Prop :=
  Z.of_nat OPEN_MAX ≤ fd ∨ ∃ f, entry s fd = Some f ∧ isopen f = false.

(** C38: the system calls of [src/syscalls.c] on a non-negative number that is not
    an open descriptor fail with [EBADF], touch no driver and change nothing but
    [errno]. A negative number is not rejected: [negative_descriptor_undefined]. *)
Theorem syscalls_ebadf (lseek : Z → Z → Z → M S Z) fd ptr len buf off whence (s : S) :
  0 ≤ fd → not_open s fd →
  _write fd ptr s = Done (-1, upd EBADF s) ∧
  _read fd len s = Done ((-1, []), upd EBADF s) ∧
  _close fd s = Done (-1, upd EBADF s) ∧
  _fstat fd buf s = Done ((-1, buf), upd EBADF s) ∧
  _isatty fd s = Done (-1, upd EBADF s) ∧
  _lseek lseek fd off whence s = Done (-1, upd EBADF s).
Proof.
  intros H0 Hno. unfold _write, _read, _close, _fstat, _isatty, _lseek, file_struct_get.
  destruct (decide (fd >= Z.of_nat OPEN_MAX)) as [Hge|Hlt]; [done|].
  destruct Hno as [?|(f & Hf & Hop)]; [lia|].
  assert (Hat : fd_at fd s = Done (f, s)).
  { apply wp_eq. eapply wp_fd_at; [done..|]. done. }
  unfold mbind, M_bind. rewrite !Hat, !Hop. done.
Qed.

(** A negative descriptor is not rejected: [file_struct_get] bounds its
    argument only from above, so every system call (and [fcntl]) that is given
    a negative number, such as the -1 of a failed [open], reads outside the
    table. *)
Theorem negative_descriptor_undefined (lseek : Z → Z → Z → M S Z) fd ptr len buf off whence cmd arg (s : S) :
  fd < 0 → cmd = F_GETFD ∨ cmd = F_SETFD ∨ cmd = F_SETFL ∨ cmd = F_GETFL →
  _write fd ptr s = Fault ∧ _read fd len s = Fault ∧ _close fd s = Fault ∧
  _fstat fd buf s = Fault ∧ _isatty fd s = Fault ∧ _lseek lseek fd off whence s = Fault ∧
  fcntl fd cmd arg s = Fault.
Proof.
  intros Hneg Hcmd.
  unfold _write, _read, _close, _fstat, _isatty, _lseek, fcntl, file_struct_get, fd_update.
  rewrite decide_False by lia.
  assert (Hat : fd_at fd s = Fault).
  { unfold fd_at, mbind, M_bind, getc, gets, lift. by rewrite aget_out by lia. }
  unfold mbind, M_bind. rewrite !Hat.
  destruct Hcmd as [-> | [-> | [-> | ->]]]; rewrite ?Hat; done.
Qed.
End syscall_laws.

(** A state with nothing but the table and [errno], for the witnesses. *)
Record bare := Bare { bare_table : ftable; bare_errno : errno }.
#[export] Instance bare_has_table : Has ftable bare :=
  {| proj := bare_table; upd := λ t s, Bare t (bare_errno s) |}.
#[export] Instance bare_has_errno : Has errno bare :=
  {| proj := bare_errno; upd := λ e s, Bare (bare_table s) e |}.
#[export] Instance bare_drivers : Drivers bare := {|
  drv_write _ _ ptr := mret (Z.of_nat (length ptr));
  drv_read _ _ _ := mret (0, []);
  drv_close _ _ := mret 0;
  drv_poll _ _ := mret 0;
|}.

Lemma syscalls_ebadf_witness :
  let s := Bare ftable_init E0 in
  _write 3 [1; 2] s = Done (-1, upd EBADF s) ∧
  _read 3 2 s = Done ((-1, []), upd EBADF s) ∧
  _close 3 s = Done (-1, upd EBADF s) ∧
  _fstat 3 (fd_stat fd_zero) s = Done ((-1, fd_stat fd_zero), upd EBADF s) ∧
  _isatty 3 s = Done (-1, upd EBADF s) ∧
  _lseek fatfs_lseek_weak 3 0 0 s = Done (-1, upd EBADF s).
Proof.
  apply (syscalls_ebadf fatfs_lseek_weak 3 [1; 2] 2 (fd_stat fd_zero) 0 0 (Bare ftable_init E0)); [lia|].
  right. exists fd_zero. split; reflexivity.
Defined.

Lemma negative_descriptor_undefined_witness :
  let s := Bare ftable_init E0 in
  _write (-1) [1; 2] s = Fault ∧ _read (-1) 2 s = Fault ∧ _close (-1) s = Fault ∧
  _fstat (-1) (fd_stat fd_zero) s = Fault ∧ _isatty (-1) s = Fault ∧
  _lseek fatfs_lseek_weak (-1) 0 0 s = Fault ∧ fcntl (-1) F_GETFL 0 s = Fault.
Proof.
  apply (negative_descriptor_undefined fatfs_lseek_weak (-1) [1; 2] 2 (fd_stat fd_zero) 0 0
           F_GETFL 0 (Bare ftable_init E0)); [lia|auto].
Defined.
