(* ===== verification/Signal.v ===== *)
(** * Signals: [src/signal.c], [src/kill.c], [src/raise.c], [src/faults.c]

    The queue of pending signals, the mask and the actions, and their delivery
    by the PendSV handler. The file runs with exceptions: [critical_section_begin]
    masks faults, so that each operation on the queue is atomic and a run of the
    system is a sequence of operations. The processor functions of libopencm3,
    the interrupt control register and the handlers the application installs
    are interfaces ([Cortex], [Handlers]). *)

From stdpp Require Import prelude list numbers sorting.
From S2P Require Import Prelude Timespec Clock.

(** [include/limits.h] and [signal.c]. *)
Definition SIGQUEUE_MAX : nat := 32.
Definition SIGNAL_MAX : Z := 32.

(** [union sigval] is a word: an [int] and a pointer have the same size. *)
Record siginfo := Siginfo {
  si_signo : Z;
  si_code : Z;
  si_errno : Z;
  si_pid : Z;
  si_uid : Z;
  si_addr : Z;
  si_status : Z;
  si_band : Z;
  si_value : Z;
}.

#[export] Instance siginfo_eq_dec : EqDecision siginfo.
Proof. solve_decision. Defined.

Definition siginfo_zero : siginfo := Siginfo 0 0 0 0 0 0 0 0 0.
Definition with_signo (sig : Z) (i : siginfo) : siginfo :=
  Siginfo sig (si_code i) (si_errno i) (si_pid i) (si_uid i) (si_addr i) (si_status i)
          (si_band i) (si_value i).
Definition with_code (c : Z) (i : siginfo) : siginfo :=
  Siginfo (si_signo i) c (si_errno i) (si_pid i) (si_uid i) (si_addr i) (si_status i)
          (si_band i) (si_value i).
Definition with_pid (p : Z) (i : siginfo) : siginfo :=
  Siginfo (si_signo i) (si_code i) (si_errno i) p (si_uid i) (si_addr i) (si_status i)
          (si_band i) (si_value i).
Definition with_value (v : Z) (i : siginfo) : siginfo :=
  Siginfo (si_signo i) (si_code i) (si_errno i) (si_pid i) (si_uid i) (si_addr i) (si_status i)
          (si_band i) v.

(** Values of [si_code] ([include/signal.h]) and signal numbers (newlib). *)
Definition SI_USER : Z := 1.
Definition SI_QUEUE : Z := 2.
Definition SI_TIMER : Z := 3.
Definition ILL_ILLOPC : Z := 10.
Definition SEGV_ACCERR : Z := 31.
Definition BUS_ADRERR : Z := 41.
Definition SIGILL : Z := 4.
Definition SIGABRT : Z := 6.
Definition SIGBUS : Z := 10.
Definition SIGSEGV : Z := 11.
Definition SIGURG : Z := 16.
Definition SIGSTOP : Z := 17.
Definition SIGTSTP : Z := 18.
Definition SIGCONT : Z := 19.
Definition SIGCHLD : Z := 20.
Definition SIGTTIN : Z := 21.
Definition SIGTTOU : Z := 22.
Definition SA_RESTART : Z := 8.
Definition SA_SIGINFO : Z := 16.

(** [sa_handler]; a handler of the application is a number. *)
Inductive handler := SIG_DFL | SIG_IGN | SIG_FUN (f : Z).

#[export] Instance handler_eq_dec : EqDecision handler.
Proof. solve_decision. Defined.

Record sigaction_t := Sigaction { sa_handler : handler; sa_mask : Z; sa_flags : Z }.

Record item := Item { info : siginfo; order : Z }.
Record signal_queue := SignalQueue { last_order : Z; items : list item }.

(** The file-scope variables of [signal.c]. *)
Record signals := Signals {
  queue : signal_queue;
  procmask : Z;
  signal_actions : list sigaction_t;
}.

Definition signals_init : signals :=
  Signals (SignalQueue 0 (replicate SIGQUEUE_MAX (Item siginfo_zero 0))) 0
          (replicate (Z.to_nat (SIGNAL_MAX + 1)) (Sigaction SIG_DFL 0 0)).

Definition with_queue (q : signal_queue) (s : signals) : signals :=
  Signals q (procmask s) (signal_actions s).
Definition with_procmask (m : Z) (s : signals) : signals :=
  Signals (queue s) m (signal_actions s).
Definition with_actions (l : list sigaction_t) (s : signals) : signals :=
  Signals (queue s) (procmask s) l.

(** The processor: fault masking (libopencm3's [cm_*]) and the write to
    [SCB_ICSR] that makes PendSV pending. *)
Class Cortex (S : Type) := {
  cm_is_masked_faults : M S bool;
  cm_disable_faults : M S unit;
  cm_enable_faults : M S unit;
  scb_icsr_pendsvset : M S unit;
}.

(** Calls of the functions installed with [sigaction]: with the number alone,
    or with the information too ([SA_SIGINFO]). *)
Class Handlers (S : Type) := {
  call_handler : Z → Z → M S unit;
  call_sigaction : Z → Z → siginfo → M S unit;
}.

(** What the sources of signals expect of the queue. *)
Class SigQueue (S : Type) := sigqueue_info : siginfo → M S Z.

(** ** Signal sets

    A [sigset_t] is 32 bits. [1 << n] is defined for [n] from 0 to 31 (for 31
    as the compiler defines it: bit 31). *)
Definition sigmask (sig : Z) : outcome Z :=
  if decide (0 ≤ sig - 1 < 32) then Done (u32 (Z.shiftl 1 (sig - 1))) else Fault.

Definition sigismember (set sig : Z) : outcome Z :=
  m ← sigmask sig; Done (i32 (Z.land set m)).
Definition sigaddset (set sig : Z) : outcome Z :=
  m ← sigmask sig; Done (Z.lor set m).
Definition sigdelset (set sig : Z) : outcome Z :=
  m ← sigmask sig; Done (Z.land set (u32 (Z.lnot m))).
Definition sigemptyset : Z := 0.
Definition sigfillset : Z := u32 (Z.lnot 0).

(** ** The queue *)
Section queue.
Context {S : Type} `{!Has signals S, !Has errno S, !Cortex S}.

Definition pendsv_interrupt_raise : M S unit := scb_icsr_pendsvset.

Definition critical_section_begin : M S bool :=
  faults_already_disabled ← cm_is_masked_faults;
  if faults_already_disabled : bool then mret true
  else _ ← cm_disable_faults; mret false.

Definition critical_section_end (state : bool) : M S unit :=
  if state then mret tt else cm_enable_faults.

Definition item_at (i : Z) : M S item :=
  s ← getc; lift (aget (items (queue s)) i).
Definition item_put (i : Z) (x : item) : M S unit :=
  s ← getc;
  l ← lift (aset (items (queue s)) i x);
  modifyc (λ s, with_queue (SignalQueue (last_order (queue s)) l) s).
Definition set_last_order (o : Z) : M S unit :=
  modifyc (λ s, with_queue (SignalQueue o (items (queue s))) s).

Definition sigqueue_info_signal (i : siginfo) : M S Z :=
  cs_state ← critical_section_begin;
  s ← getc;
  let next_order := i32 (last_order (queue s) + 1) in
  found ← for_find SIGQUEUE_MAX 0 (λ iqueue,
    it ← item_at iqueue;
    if decide (si_signo (info it) = 0) then
      _ ← item_put iqueue (Item i next_order);
      _ ← set_last_order next_order;
      _ ← pendsv_interrupt_raise;
      mret (Some 0)
    else mret None);
  _ ← critical_section_end cs_state;
  match found with
  | Some ret => mret ret
  | None => _ ← set_errno EAGAIN; mret (-1)
  end.

(** The loop of [signal_dequeue]: [iqueue_chosen] and [order] so far. *)
Definition dequeue_scan (set : Z) (iqueue : Z) (acc : Z * Z) : M S (Z * Z) :=
  let '(iqueue_chosen, ord) := acc in
  it ← item_at iqueue;
  candidate ← (if decide (si_signo (info it) ≠ 0)
               then m ← lift (sigismember set (si_signo (info it))); mret (bool_decide (m ≠ 0))
               else mret false);
  let important :=
    if negb candidate then false
    else if decide (iqueue_chosen = -1) then true
    else bool_decide (i32 (order it - ord) < 0) in
  if candidate && important then mret (iqueue, order it) else mret (iqueue_chosen, ord).

(** [i] is what the caller's structure holds; it is written on success only. *)
Definition signal_dequeue (set : Z) (i : siginfo) : M S (Z * siginfo) :=
  cs_state ← critical_section_begin;
  '(iqueue_chosen, _) ← for_fold SIGQUEUE_MAX 0 (dequeue_scan set) (-1, -1);
  r ← (if decide (iqueue_chosen ≠ -1) then
         it ← item_at iqueue_chosen;
         _ ← item_put iqueue_chosen (Item (with_signo 0 (info it)) (order it));
         mret (0, info it)
       else mret (-1, i));
  _ ← critical_section_end cs_state;
  mret r.

Definition signal_dequeue_procmask (i : siginfo) : M S (Z * siginfo) :=
  s ← getc;
  let set := u32 (Z.lnot (procmask s)) in
  signal_dequeue set i.
End queue.

#[export] Instance SigQueue_signal {S : Type} `{!Has signals S, !Has errno S, !Cortex S} : SigQueue S :=
  sigqueue_info_signal.

(** ** Sending: [kill], [raise], [sigqueue] and the fault handlers *)
Definition getpid : Z := 1.

Section send.
Context {S : Type} `{!Has errno S, !SigQueue S}.
(** What an uninitialised [siginfo_t] on the stack holds. *)
Context (junk : siginfo).

Definition sigqueue (pid sig value : Z) : M S Z :=
  let this := getpid in
  if decide (pid ≠ this) then _ ← set_errno ESRCH; mret (-1)
  else if decide (sig ≠ 0) then
    let i := with_value value siginfo_zero in
    let i := with_signo sig i in
    let i := with_code SI_QUEUE i in
    sigqueue_info i
  else mret 0.

Definition kill (pid sig : Z) : M S Z :=
  let this := getpid in
  if decide (pid ≠ this ∧ pid > 0) then _ ← set_errno ESRCH; mret (-1)
  else if decide (sig ≠ 0) then
    let i := with_signo sig siginfo_zero in
    let i := with_code SI_USER i in
    let i := with_pid this i in
    sigqueue_info i
  else mret 0.

Definition raise (sig : Z) : M S Z :=
  let pid := getpid in kill pid sig.

Definition mem_manage_handler : M S unit :=
  _ ← sigqueue_info (with_code SEGV_ACCERR (with_signo SIGSEGV junk)); mret tt.
Definition bus_fault_handler : M S unit :=
  _ ← sigqueue_info (with_code BUS_ADRERR (with_signo SIGBUS junk)); mret tt.
Definition usage_fault_handler : M S unit :=
  _ ← sigqueue_info (with_code ILL_ILLOPC (with_signo SIGILL junk)); mret tt.
Definition hard_fault_handler : M S unit :=
  _ ← sigqueue_info (with_signo SIGABRT junk); mret tt.
Definition nmi_handler : M S unit :=
  _ ← sigqueue_info (with_signo SIGABRT junk); mret tt.
End send.

(** ** Masks and actions *)
Inductive sig_how := SIG_SETMASK | SIG_BLOCK | SIG_UNBLOCK | SIG_HOW (how : Z).

Section masks.
Context {S : Type} `{!Has signals S, !Has errno S, !Cortex S}.

(** A null [set] or [oset] is [None]; [oset] is what [*oset] holds. *)
Definition sigprocmask (how : sig_how) (set : option Z) (oset : option Z) : M S (Z * option Z) :=
  s ← getc;
  let oset := match oset with Some _ => Some (procmask s) | None => None end in
  match set with
  | None => mret (0, oset)
  | Some set =>
      match how with
      | SIG_BLOCK =>
          _ ← modifyc (λ s, with_procmask (Z.lor (procmask s) set) s); mret (0, oset)
      | SIG_SETMASK =>
          _ ← modifyc (with_procmask set); _ ← pendsv_interrupt_raise; mret (0, oset)
      | SIG_UNBLOCK =>
          _ ← modifyc (λ s, with_procmask (Z.land (procmask s) (u32 (Z.lnot set))) s);
          _ ← pendsv_interrupt_raise; mret (0, oset)
      | SIG_HOW _ => _ ← set_errno EINVAL; mret (-1, oset)
      end
  end.

Definition sigaction (sig : Z) (act : option sigaction_t) (oact : option sigaction_t)
    : M S (Z * option sigaction_t) :=
  if decide (sig > SIGNAL_MAX ∨ sig < 0) then _ ← set_errno EINVAL; mret (-1, oact)
  else
    s ← getc;
    cur ← lift (aget (signal_actions s) sig);
    let oact := match oact with Some _ => Some cur | None => None end in
    _ ← match act with
        | Some a =>
            l ← lift (aset (signal_actions s) sig a);
            modifyc (with_actions l)
        | None => mret tt
        end;
    mret (0, oact).

(** What the uninitialised locals hold. *)
Context (junk_act : sigaction_t) (junk_int : Z) (junk_ts : timespec).

Definition siginterrupt (sig : Z) (flag : bool) : M S Z :=
  '(_, act) ← sigaction sig None (Some junk_act);
  act ← lift (deref act);
  let act := Sigaction (sa_handler act) (sa_mask act)
    (if flag then Z.land (sa_flags act) (i32 (Z.lnot SA_RESTART))
     else Z.lor (sa_flags act) SA_RESTART) in
  '(ret, _) ← sigaction sig (Some act) None;
  mret ret.

Definition sigignore (sig : Z) : M S Z :=
  '(_, act) ← sigaction sig None (Some junk_act);
  act ← lift (deref act);
  '(ret, _) ← sigaction sig (Some (Sigaction SIG_IGN (sa_mask act) (sa_flags act))) None;
  mret ret.

Definition sigholdrel (how : sig_how) (sig : Z) : M S Z :=
  if decide (sig <= 0) then _ ← set_errno EINVAL; mret (-1)
  else
    set ← lift (sigaddset sigemptyset sig);
    _ ← sigprocmask how (Some set) None;
    mret 0.

Definition sighold (sig : Z) : M S Z := sigholdrel SIG_BLOCK sig.
Definition sigrelse (sig : Z) : M S Z := sigholdrel SIG_UNBLOCK sig.

(** One item of [sigpending]. *)
Definition pending_scan (blocked : Z) (iqueue : Z) (set : Z) : M S Z :=
  it ← item_at iqueue;
  let sig := si_signo (info it) in
  if decide (sig ≠ 0) then
    m ← lift (sigismember blocked sig);
    if decide (m ≠ 0) then lift (sigaddset set sig) else mret set
  else mret set.

Definition sigpending : M S (Z * Z) :=
  cs_state ← critical_section_begin;
  '(_, blocked) ← sigprocmask SIG_SETMASK None (Some junk_int);
  blocked ← lift (deref blocked);
  set ← for_fold SIGQUEUE_MAX 0 (pending_scan blocked) sigemptyset;
  _ ← critical_section_end cs_state;
  mret (0, set).

Definition sigsuspend (sigmask : option Z) : M S Z :=
  '(_, saved_mask) ← sigprocmask SIG_SETMASK sigmask (Some junk_int);
  _ ← sigprocmask SIG_SETMASK saved_mask None;
  _ ← set_errno EINTR;
  mret (-1).

(** [ret] is only assigned when the time is over. *)
Definition sigtimedwait `{!Clock S} (fuel : nat) (set : Z) (i : siginfo) (timeout : timespec)
    : M S (Z * siginfo) :=
  '(_, start) ← clock_gettime CLOCK_MONOTONIC junk_ts;
  loop fuel (λ i,
    '(r, i) ← signal_dequeue set i;
    if decide (r ≠ 0) then
      '(_, now) ← clock_gettime CLOCK_MONOTONIC junk_ts;
      let '(_, elapsed) := timespec_diff now start in
      if decide (timespec_cmp timeout elapsed <= 0) then
        _ ← set_errno EAGAIN; mret (inr (-1, i))
      else mret (inl i)
    else mret (inr (junk_int, i))) i.

Definition sigwaitinfo `{!Clock S} (fuel : nat) (set : Z) (i : siginfo) : M S (Z * siginfo) :=
  sigtimedwait fuel set i TIMESPEC_INFINITY.

Definition sigwait `{!Clock S} (fuel : nat) (set : Z) (junk : siginfo) (sig : Z) : M S (Z * Z) :=
  '(ret, i) ← sigwaitinfo fuel set junk;
  mret (ret, if decide (ret = 0) then si_signo i else sig).
End masks.

(** ** Delivery *)
Section delivery.
Context {S : Type} `{!Has signals S, !Has errno S, !Cortex S, !Handlers S}.

(** [_exit] of [syscalls.c] loops for ever. *)
Definition _exit {A : Type} : M S A := hang.

Definition signal_act_default (i : siginfo) : M S unit :=
  let sig := si_signo i in
  if decide (sig = SIGCHLD ∨ sig = SIGURG) then mret tt
  else if decide (sig = SIGSTOP ∨ sig = SIGTSTP ∨ sig = SIGTTIN ∨ sig = SIGTTOU) then mret tt
  else if decide (sig = SIGCONT) then mret tt
  else _exit.

Definition signal_act (i : siginfo) : M S unit :=
  let sig := si_signo i in
  s ← getc;
  act ← lift (aget (signal_actions s) sig);
  match sa_handler act with
  | SIG_IGN => mret tt
  | SIG_DFL => signal_act_default i
  | SIG_FUN f =>
      if decide (Z.land (sa_flags act) SA_SIGINFO ≠ 0) then call_sigaction f sig i
      else call_handler f sig
  end.

Definition pend_sv_handler (fuel : nat) (junk : siginfo) : M S unit :=
  loop fuel (λ i,
    '(r, i) ← signal_dequeue_procmask i;
    if decide (r = 0) then _ ← signal_act i; mret (inl i) else mret (inr tt)) junk.
End delivery.

(** ** Properties: the queue is a first-in first-out queue

    Slots are reused in any order; [order] numbers the signals as they arrive,
    modulo 2^32. [represents q V al]: the used slots of [q] are the signals of
    [al], each with the stamp it would have if numbers did not wrap, oldest
    first; [V] is the last stamp given. *)
Definition valid_signo (sig : Z) : Prop := 1 ≤ sig ≤ 32.

Definition live (it : item) : Prop := si_signo (info it) ≠ 0.

#[export] Instance live_dec it : Decision (live it).
Proof. unfold live. apply _. Defined.

(** The slot that holds a stamped signal. *)
Definition slot (vi : Z * siginfo) : item := Item vi.2 (i32 vi.1).

Definition in_window (V v : Z) : Prop := V - 2147483648 < v ≤ V.

Record represents (q : signal_queue) (V : Z) (al : list (Z * siginfo)) : Prop := {
  rep_length : length (items q) = SIGQUEUE_MAX;
  rep_last : last_order q = i32 V;
  rep_sorted : StronglySorted (λ a b : Z * siginfo, a.1 < b.1) al;
  rep_window : Forall (λ vi, in_window V vi.1 ∧ valid_signo (si_signo vi.2)) al;
  rep_live : filter live (items q) ≡ₚ slot <$> al;
}.

(** The abstract queue. *)
Definition in_set (set : Z) (i : siginfo) : Prop := Z.testbit set (si_signo i - 1) = true.

#[export] Instance in_set_dec set i : Decision (in_set set i).
Proof. unfold in_set. apply _. Defined.


(** The oldest signal of the set leaves. *)
Fixpoint fifo_pop (set : Z) (l : list siginfo) : option siginfo * list siginfo :=
  match l with
  | [] => (None, [])
  | i :: l' =>
      if decide (in_set set i) then (Some i, l')
      else let '(r, l'') := fifo_pop set l' in (r, i :: l'')
  end.

(** Serial numbers: within a window of 2^31 the wrapped difference is the
    difference. *)
Lemma serial_diff V a b :
  in_window V a → in_window V b → i32 (i32 a - i32 b) = a - b.
Proof. unfold in_window, i32. intros. zlia. Qed.

Lemma sigmask_valid sig : valid_signo sig → sigmask sig = Done (2 ^ (sig - 1)).
Proof.
  unfold valid_signo, sigmask. intros. rewrite decide_True by lia.
  rewrite Z.shiftl_1_l, u32_id; [done|]. unfold is_u32.
  split; [apply Z.pow_nonneg; lia|]. change 4294967296 with (2 ^ 32).
  apply Z.pow_lt_mono_r; lia.
Qed.

Lemma land_pow2_testbit set n : 0 ≤ n < 32 →
  i32 (Z.land set (2 ^ n)) ≠ 0 ↔ Z.testbit set n = true.
Proof.
  intros Hn. assert (Z.land set (2 ^ n) = if Z.testbit set n then 2 ^ n else 0) as ->.
  { apply Z.bits_inj'. intros m Hm. rewrite Z.land_spec, Z.pow2_bits_eqb by lia.
    destruct (Z.eqb_spec n m) as [->|Hne].
    - destruct (Z.testbit set m); [|by rewrite Z.bits_0].
      rewrite Z.pow2_bits_true by lia. done.
    - rewrite andb_false_r. destruct (Z.testbit set n); [|by rewrite Z.bits_0].
      by rewrite Z.pow2_bits_false by lia. }
  destruct (Z.testbit set n); [|done]. split; [done|]. intros _ H0.
  assert (0 < 2 ^ n < 4294967296).
  { split; [apply Z.pow_pos_nonneg; lia|]. change 4294967296 with (2 ^ 32). apply Z.pow_lt_mono_r; lia. }
  revert H0. unfold i32. generalize dependent (2 ^ n). intros. zlia.
Qed.

Lemma sigismember_spec set sig : valid_signo sig →
  ∃ m, sigismember set sig = Done m ∧ (m ≠ 0 ↔ Z.testbit set (sig - 1) = true).
Proof.
  intros Hs. unfold sigismember. rewrite (sigmask_valid _ Hs). eexists. split; [done|].
  apply land_pow2_testbit. unfold valid_signo in Hs. lia.
Qed.

Lemma fifo_pop_none set al :
  Forall (λ vi : Z * siginfo, ¬ in_set set vi.2) al → fifo_pop set al.*2 = (None, al.*2).
Proof. induction 1 as [|[v i] al Hi _ IH]; [done|]. csimpl in *. by rewrite decide_False, IH. Qed.

(** The signal of the set with the least stamp is the one [fifo_pop] takes. *)
Lemma fifo_pop_least set (al : list (Z * siginfo)) v i :
  StronglySorted (λ a b : Z * siginfo, a.1 < b.1) al →
  (v, i) ∈ al → in_set set i →
  (∀ v' i', (v', i') ∈ al → in_set set i' → v ≤ v') →
  ∃ l1 l2, al = l1 ++ (v, i) :: l2 ∧ fifo_pop set al.*2 = (Some i, (l1 ++ l2).*2).
Proof.
  induction 1 as [|[w j] al Hs IH Hlt]; intros Hin Hset Hmin; [by apply not_elem_of_nil in Hin|].
  csimpl. destruct (decide (in_set set j)) as [Hj|Hj].
  - exists [], al. assert (v ≤ w) by (eapply Hmin; [left|done]).
    apply elem_of_cons in Hin as [[= -> ->]|Hin]; [done|].
    rewrite Forall_forall in Hlt. specialize (Hlt _ Hin). simpl in Hlt. lia.
  - apply elem_of_cons in Hin as [[= -> ->]|Hin]; [done|].
    destruct IH as (l1 & l2 & -> & Hpop); [done..| |].
    + intros v' i' Hin'. apply Hmin. by right.
    + exists ((w, j) :: l1), l2. split; [done|]. by rewrite Hpop.
Qed.

Lemma represents_slot q V al it :
  represents q V al → it ∈ items q → live it → ∃ v i, (v, i) ∈ al ∧ it = Item i (i32 v).
Proof.
  intros Hr Hin Hl. assert (it ∈ slot <$> al) as Hs.
  { rewrite <- (rep_live _ _ _ Hr). by apply list_elem_of_filter. }
  apply list_elem_of_fmap in Hs as ([v i] & -> & ?). by exists v, i.
Qed.

Lemma represents_in q V al v i :
  represents q V al → (v, i) ∈ al →
  Item i (i32 v) ∈ items q ∧ in_window V v ∧ valid_signo (si_signo i).
Proof.
  intros Hr Hin. split.
  - assert (Item i (i32 v) ∈ filter live (items q)) as Hs.
    { rewrite (rep_live _ _ _ Hr). apply list_elem_of_fmap. by exists (v, i). }
    by apply list_elem_of_filter in Hs as [_ ?].
  - pose proof (rep_window _ _ _ Hr) as Hw. rewrite Forall_forall in Hw. by apply (Hw (v, i)).
Qed.

(** What the file sees of a state: its own variables, [errno], and whether
    faults are masked. *)
Class FaultMask (S : Type) := faultmask : S → bool.

Definition view {S : Type} `{!Has signals S, !Has errno S, !FaultMask S} (s : S)
    : signals * errno * bool := (proj s, proj s, faultmask s).

(** What the operations of the processor do: the laws of [Cortex]. *)
Class CortexLaws (S : Type) `{!Has signals S, !Has errno S, !Cortex S, !FaultMask S} : Prop := {
  cm_is_masked_spec s : cm_is_masked_faults s = Done (faultmask s, s);
  cm_disable_spec s : wp cm_disable_faults s (λ _ s', view s' = (proj s, proj s, true));
  cm_enable_spec s : wp cm_enable_faults s (λ _ s', view s' = (proj s, proj s, false));
  pendsv_spec s : wp scb_icsr_pendsvset s (λ _ s', view s' = view s);
  view_upd_signals (c : signals) s : view (upd c s) = (c, proj s, faultmask s);
  view_upd_errno (e : errno) s : view (upd e s) = (proj s, e, faultmask s);
}.

Section queue_laws.
Context {S : Type} `{!Has signals S, !Has errno S, !Cortex S, !FaultMask S, !CortexLaws S}.
Implicit Types (s : S) (g : signals) (e : errno) (m : bool).

Lemma view_signals s g e m : view s = (g, e, m) → proj (C:=signals) s = g.
Proof. by intros [=]. Qed.

Lemma wp_cs_begin s g e m (Q : bool → S → Prop) :
  view s = (g, e, m) → (∀ s', view s' = (g, e, true) → Q m s') → wp critical_section_begin s Q.
Proof.
  intros Hv HQ. unfold critical_section_begin. wp_steps.
  eapply wp_Done; [apply cm_is_masked_spec|]. assert (faultmask s = m) as -> by (unfold view in Hv; congruence).
  destruct m; wp_steps; [by apply HQ|].
  eapply wp_mono, cm_disable_spec. intros [] s' Hs'. wp_steps. apply HQ.
  rewrite Hs'. unfold view in Hv. congruence.
Qed.

Lemma wp_cs_end s g e m (Q : unit → S → Prop) :
  view s = (g, e, true) → (∀ s', view s' = (g, e, m) → Q tt s') → wp (critical_section_end m) s Q.
Proof.
  intros Hv HQ. unfold critical_section_end. destruct m; [by apply wp_ret, HQ|].
  eapply wp_mono, cm_enable_spec. intros [] s' Hs'. apply HQ.
  rewrite Hs'. unfold view in Hv. congruence.
Qed.

Lemma wp_pendsv s v (Q : unit → S → Prop) :
  view s = v → (∀ s', view s' = v → Q tt s') → wp pendsv_interrupt_raise s Q.
Proof. intros <- HQ. eapply wp_mono, pendsv_spec. intros []. apply HQ. Qed.

Lemma wp_modify_signals s g e m f (Q : unit → S → Prop) :
  view s = (g, e, m) → (∀ s', view s' = (f g, e, m) → Q tt s') →
  wp (modifyc f) s Q.
Proof.
  unfold view. intros [= <- <- <-] HQ. apply wp_modify, HQ. apply view_upd_signals.
Qed.


Lemma wp_item_at s g e m i it (Q : item → S → Prop) :
  view s = (g, e, m) → 0 ≤ i → items (queue g) !! Z.to_nat i = Some it → Q it s → wp (item_at i) s Q.
Proof.
  intros Hv Hi Hit HQ. unfold item_at. wp_steps. eapply wp_lift; [|done].
  rewrite (view_signals _ _ _ _ Hv). by apply aget_Some.
Qed.

(** The queue with one slot replaced. *)
Definition slot_put (i : Z) (x : item) (g : signals) : signals :=
  with_queue (SignalQueue (last_order (queue g)) (<[Z.to_nat i := x]> (items (queue g)))) g.

Lemma wp_item_put s g e m i x (Q : unit → S → Prop) :
  view s = (g, e, m) → 0 ≤ i < Z.of_nat (length (items (queue g))) →
  (∀ s', view s' = (slot_put i x g, e, m) → Q tt s') → wp (item_put i x) s Q.
Proof.
  intros Hv Hi HQ. unfold item_put. wp_steps. rewrite (view_signals _ _ _ _ Hv).
  eapply wp_lift; [by apply aset_in_range|]. by eapply wp_modify_signals.
Qed.



(** Slot [k] holds the signal [i] stamped [v]. *)
Definition holds (its : list item) (al : list (Z * siginfo)) (k : nat) (v : Z) (i : siginfo) : Prop :=
  its !! k = Some (Item i (i32 v)) ∧ (v, i) ∈ al.

Lemma holds_inj q V al k v i v' i' :
  represents q V al → holds (items q) al k v i → holds (items q) al k v' i' → v = v' ∧ i = i'.
Proof.
  intros Hr [Hk Hin] [Hk' Hin']. rewrite Hk in Hk'. injection Hk' as -> Hvv. split; [|done].
  destruct (represents_in _ _ _ _ _ Hr Hin) as (_ & Hw & _).
  destruct (represents_in _ _ _ _ _ Hr Hin') as (_ & Hw' & _).
  pose proof (serial_diff _ _ _ Hw Hw') as Hd. rewrite Hvv, Z.sub_diag in Hd.
  change (i32 0) with 0 in Hd. lia.
Qed.

(** After [j] slots: nothing of the set yet, or the oldest so far is chosen. *)
Definition scan_inv (its : list item) (al : list (Z * siginfo)) (set : Z) (j : Z) (acc : Z * Z) : Prop :=
  (acc.1 = -1 ∧ ∀ k v i, Z.of_nat k < j → holds its al k v i → ¬ in_set set i) ∨
  (0 ≤ acc.1 < j ∧ ∃ v i, holds its al (Z.to_nat acc.1) v i ∧ in_set set i ∧ acc.2 = i32 v ∧
     ∀ k v' i', Z.of_nat k < j → holds its al k v' i' → in_set set i' → v ≤ v').

(** A slot that offers nothing. *)
Lemma scan_inv_skip its al set j acc :
  0 ≤ j → (∀ v i, holds its al (Z.to_nat j) v i → ¬ in_set set i) →
  scan_inv its al set j acc → scan_inv its al set (j + 1) acc.
Proof.
  intros Hj0 Hnone [[Hc Hinv]|(Hc & v & i & Hh & Hs & Ho & Hmin)].
  - left. split; [done|]. intros k v i Hk Hh.
    destruct (decide (Z.of_nat k = j)) as [<-|]; [|apply (Hinv k v); [lia|done]].
    rewrite Nat2Z.id in Hnone. by eapply Hnone.
  - right. split; [lia|]. exists v, i. split_and!; [done..|]. intros k v' i' Hk Hh' Hs'.
    destruct (decide (Z.of_nat k = j)) as [<-|]; [|apply (Hmin k v' i'); [lia|done..]].
    rewrite Nat2Z.id in Hnone. by destruct (Hnone _ _ Hh').
Qed.

(** A slot with a signal of the set: the older of the two stays. *)
Lemma scan_inv_take q V al set j acc v i :
  represents q V al → 0 ≤ j → holds (items q) al (Z.to_nat j) v i → in_set set i →
  scan_inv (items q) al set j acc →
  scan_inv (items q) al set (j + 1)
    (if decide (acc.1 = -1) then (j, i32 v)
     else if decide (i32 (i32 v - acc.2) < 0) then (j, i32 v) else acc).
Proof.
  intros Hr Hj Hh Hs Hinv. destruct acc as [c ord]. simpl.
  destruct Hinv as [[Hc Hinv]|(Hc & v0 & i0 & Hh0 & Hs0 & Ho & Hmin)]; simpl in *.
  - rewrite decide_True by done. right. simpl. split; [lia|]. exists v, i.
    split_and!; [done..|]. intros k v' i' Hk Hh' Hs'.
    destruct (decide (Z.of_nat k = j)) as [<-|]; [|by destruct (Hinv k v' i'); [lia|..]].
    rewrite Nat2Z.id in Hh. destruct (holds_inj _ _ _ _ _ _ _ _ Hr Hh Hh'). lia.
  - rewrite decide_False by lia.
    destruct (represents_in _ _ _ _ _ Hr (proj2 Hh)) as (_ & Hw & _).
    destruct (represents_in _ _ _ _ _ Hr (proj2 Hh0)) as (_ & Hw0 & _).
    rewrite Ho, (serial_diff _ _ _ Hw Hw0).
    assert (Hmin' : ∀ k v' i', Z.of_nat k < j + 1 → holds (items q) al k v' i' → in_set set i' →
      Z.min v v0 ≤ v').
    { intros k v' i' Hk Hh' Hs'.
      destruct (decide (Z.of_nat k = j)) as [<-|].
      - rewrite Nat2Z.id in Hh. destruct (holds_inj _ _ _ _ _ _ _ _ Hr Hh Hh'). lia.
      - assert (v0 ≤ v') by (apply (Hmin k v' i'); [lia|done..]). lia. }
    right. case_decide; simpl; (split; [lia|]).
    + exists v, i. split_and!; [done..|]. intros k v' i' Hk Hh' Hs'.
      specialize (Hmin' k v' i' Hk Hh' Hs'). lia.
    + exists v0, i0. split_and!; [done..|]. intros k v' i' Hk Hh' Hs'.
      specialize (Hmin' k v' i' Hk Hh' Hs'). lia.
Qed.

Lemma wp_dequeue_scan s g e m V al set j acc :
  view s = (g, e, m) → represents (queue g) V al → 0 ≤ j < Z.of_nat SIGQUEUE_MAX →
  scan_inv (items (queue g)) al set j acc →
  wp (dequeue_scan set j acc) s (λ acc' s', s' = s ∧ scan_inv (items (queue g)) al set (j + 1) acc').
Proof.
  intros Hv Hr Hj Hinv. pose proof (rep_length _ _ _ Hr) as Hlen.
  destruct (lookup_lt_is_Some_2 (items (queue g)) (Z.to_nat j)) as [it Hit]; [lia|].
  unfold dequeue_scan. destruct acc as [c ord]. apply wp_bind. eapply wp_item_at; [done|lia|done|].
  destruct (decide (si_signo (info it) ≠ 0)) as [Hl|Hl].
  - destruct (represents_slot _ _ _ it Hr) as (v & i & Hin & ->); [by eapply list_elem_of_lookup_2|done|].
    destruct (represents_in _ _ _ _ _ Hr Hin) as (_ & _ & Hsig). simpl in *.
    destruct (sigismember_spec set _ Hsig) as (mm & Hmm & Hbit). rewrite Hmm. wp_steps.
    assert (Hh : holds (items (queue g)) al (Z.to_nat j) v i) by done.
    case_bool_decide as Hset; simpl.
    + pose proof (scan_inv_take _ _ _ set _ _ _ _ Hr (proj1 Hj) Hh (proj1 Hbit Hset) Hinv) as Hnext.
      simpl in Hnext. repeat case_decide; try case_bool_decide; try done; by apply wp_ret.
    + wp_steps. split; [done|]. apply scan_inv_skip; [lia| |done].
      intros v' i' Hh' Hs'. destruct (holds_inj _ _ _ _ _ _ _ _ Hr Hh Hh') as [-> ->].
      by apply Hbit in Hs'.
  - wp_steps. split; [done|]. apply scan_inv_skip; [lia| |done].
    intros v' i' [Hh' Hin'] _. destruct (represents_in _ _ _ _ _ Hr Hin') as (_ & _ & Hsig).
    rewrite Hit in Hh'. injection Hh' as ->. simpl in Hl. unfold valid_signo in Hsig. lia.
Qed.

Lemma represents_remove q V l1 v i l2 c y :
  represents q V (l1 ++ (v, i) :: l2) → items q !! c = Some (Item i (i32 v)) → ¬ live y →
  represents (SignalQueue (last_order q) (<[c := y]> (items q))) V (l1 ++ l2).
Proof.
  intros Hr Hc Hy. pose proof (represents_in _ _ _ v i Hr) as Hin.
  destruct Hin as (_ & _ & Hsig); [apply elem_of_app; right; left|].
  assert (Hl : live (Item i (i32 v))) by (unfold live, valid_signo in *; simpl; lia).
  destruct Hr as [Hlen Hlast Hsort Hwin Hlive]. split; simpl.
  - by rewrite length_insert.
  - done.
  - apply StronglySorted_app in Hsort as (H12 & H1 & H2). apply StronglySorted_cons in H2 as [_ H2].
    apply StronglySorted_app_2; [|done|done]. intros x1 x2 Hx1 Hx2. apply H12; [done|by right].
  - apply Forall_app in Hwin as [H1 H2]. apply Forall_cons in H2 as [_ H2]. by apply Forall_app.
  - pose proof (filter_insert_out live _ _ _ _ Hc Hl Hy) as Hp.
    rewrite Hlive, !fmap_app, fmap_cons in Hp. rewrite fmap_app.
    apply (Permutation_cons_inv (a := Item i (i32 v))). rewrite Hp.
    change (slot (v, i)) with (Item i (i32 v)). solve_Permutation.
Qed.

(** The function takes the signal the abstract queue gives, or nothing. *)
Lemma signal_dequeue_pop s g e m V al set i0 :
  view s = (g, e, m) → represents (queue g) V al →
  wp (signal_dequeue set i0) s (λ '(r, i) s', ∃ q' al',
    view s' = (with_queue q' g, e, m) ∧ represents q' V al' ∧ al' ⊆ al ∧
    (if decide (r = 0) then fifo_pop set al.*2 = (Some i, al'.*2)
     else r = -1 ∧ i = i0 ∧ q' = queue g ∧ fifo_pop set al.*2 = (None, al'.*2))).
Proof.
  intros Hv Hr. unfold signal_dequeue. pose proof (rep_length _ _ _ Hr) as Hlen.
  apply wp_bind. eapply wp_cs_begin; [done|]. clear s Hv. intros s Hv.
  apply wp_bind. eapply wp_for_fold with (I := λ j acc s', s' = s ∧ scan_inv (items (queue g)) al set j acc).
  { split; [done|]. left. split; [done|]. lia. }
  { intros j acc ? Hj [-> Hinv]. eapply wp_dequeue_scan; [done..|lia|done]. }
  intros [c ord] ? [-> [[Hc Hnone]|(Hc & v & i & Hh & Hs & _ & Hmin)]]; simpl in *.
  - rewrite decide_False by lia. wp_steps. eapply wp_cs_end; [done|]. clear s Hv. intros s Hv.
    wp_steps. exists (queue g), al. split_and!; [by destruct g|done..|].
    rewrite fifo_pop_none; [done|]. apply Forall_forall. intros [v i] Hin.
    destruct (represents_in _ _ _ _ _ Hr Hin) as ((k & Hk)%list_elem_of_lookup & _ & _).
    apply (Hnone k v i); [|done]. apply lookup_lt_Some in Hk. lia.
  - rewrite decide_True by lia. destruct Hh as [Hk Hin].
    apply wp_bind, wp_bind. eapply wp_item_at; [done|lia|done|].
    apply wp_bind. eapply wp_item_put; [done|rewrite Hlen; lia|]. clear s Hv. intros s Hv. wp_steps.
    eapply wp_cs_end; [done|]. clear s Hv. intros s Hv. wp_steps.
    destruct (fifo_pop_least set al v i (rep_sorted _ _ _ Hr) Hin Hs) as (l1 & l2 & -> & Hpop).
    { intros v' i' Hin' Hs'.
      destruct (represents_in _ _ _ _ _ Hr Hin') as ((k & Hk')%list_elem_of_lookup & _ & _).
      apply (Hmin k v' i'); [|done..]. apply lookup_lt_Some in Hk'. lia. }
    eexists _, (l1 ++ l2). split; [exact Hv|]. split; [|split; [|done]].
    + eapply represents_remove; [done..|]. by intros [].
    + intros x. rewrite !elem_of_app, elem_of_cons. tauto.
Qed.









(** [sigpending] looks at every slot. *)
Definition pending_inv (its : list item) (blocked j set : Z) : Prop :=
  ∀ n, 0 ≤ n → Z.testbit set n = true ↔
    ∃ k it, Z.of_nat k < j ∧ its !! k = Some it ∧ live it ∧ si_signo (info it) = n + 1 ∧
      Z.testbit blocked n = true.

Lemma sigaddset_spec set sig : valid_signo sig →
  ∃ set', sigaddset set sig = Done set' ∧
    ∀ n, 0 ≤ n → Z.testbit set' n = true ↔ Z.testbit set n = true ∨ sig = n + 1.
Proof.
  intros Hs. unfold sigaddset. rewrite (sigmask_valid _ Hs). eexists. split; [done|].
  intros n Hn. unfold valid_signo in Hs.
  rewrite Z.lor_spec, Z.pow2_bits_eqb, orb_true_iff, Z.eqb_eq by lia.
  split; (intros [?|?]; [by left|right; lia]).
Qed.

Lemma pending_inv_step its blocked j set it set' :
  0 ≤ j → its !! Z.to_nat j = Some it → pending_inv its blocked j set →
  (∀ n, 0 ≤ n → Z.testbit set' n = true ↔ Z.testbit set n = true ∨
     (live it ∧ si_signo (info it) = n + 1 ∧ Z.testbit blocked n = true)) →
  pending_inv its blocked (j + 1) set'.
Proof.
  intros Hj Hit Hinv Hset' n Hn. rewrite Hset', (Hinv n Hn) by done. split.
  - intros [(k & it' & Hk & ?)|?]; [exists k, it'; split; [lia|done]|].
    exists (Z.to_nat j), it. split; [lia|done].
  - intros (k & it' & Hk & Hit' & ?). destruct (decide (Z.of_nat k = j)) as [<-|].
    + right. rewrite Nat2Z.id in Hit. by assert (it' = it) as -> by congruence.
    + left. exists k, it'. split; [lia|done].
Qed.

Lemma wp_pending_scan s g e m V al blocked j set :
  view s = (g, e, m) → represents (queue g) V al → 0 ≤ j < Z.of_nat SIGQUEUE_MAX →
  pending_inv (items (queue g)) blocked j set →
  wp (pending_scan blocked j set) s (λ set' s', s' = s ∧ pending_inv (items (queue g)) blocked (j + 1) set').
Proof.
  intros Hv Hr Hj Hinv. pose proof (rep_length _ _ _ Hr) as Hlen.
  destruct (lookup_lt_is_Some_2 (items (queue g)) (Z.to_nat j)) as [it Hit]; [lia|].
  unfold pending_scan. apply wp_bind. eapply wp_item_at; [done|lia|done|].
  destruct (decide (si_signo (info it) ≠ 0)) as [Hl|Hl].
  2: { wp_steps. split; [done|]. eapply pending_inv_step; [lia|done..|]. unfold live. intros. tauto. }
  destruct (represents_slot _ _ _ it Hr) as (v & i & Hin & ->); [by eapply list_elem_of_lookup_2|done|].
  destruct (represents_in _ _ _ _ _ Hr Hin) as (_ & _ & Hsig). simpl in *.
  destruct (sigismember_spec blocked _ Hsig) as (mm & Hmm & Hbit). rewrite Hmm. wp_steps.
  - destruct (sigaddset_spec set _ Hsig) as (set' & Hset' & Hb'). rewrite Hset'. wp_steps.
    split; [done|]. eapply pending_inv_step; [lia|done..|]. intros n Hn. rewrite Hb' by done.
    unfold live. simpl. split; [|tauto]. intros [?|Heq]; [by left|right]. split_and!; [done..|].
    replace n with (si_signo i - 1) by lia. by apply Hbit.
  - split; [done|]. eapply pending_inv_step; [lia|done..|]. intros n Hn. split; [by left|].
    intros [?|(_ & Heq & Hb)]; [done|]. simpl in Heq. exfalso. replace n with (si_signo i - 1) in Hb by lia. tauto.
Qed.

(** The unblocked signals, oldest first, are what repeated dequeuing gives. *)
Lemma fifo_pop_filter set l i l' :
  fifo_pop set l = (Some i, l') →
  filter (in_set set) l = i :: filter (in_set set) l' ∧
  filter (λ i, ¬ in_set set i) l' = filter (λ i, ¬ in_set set i) l ∧ in_set set i ∧ i ∈ l ∧ l' ⊆ l ∧
  length l = Datatypes.S (length l').
Proof.
  revert l'. induction l as [|j l IH]; intros l'; [done|]. cbn [fifo_pop].
  destruct (decide (in_set set j)) as [Hj|Hj].
  - intros [= -> ->]. rewrite filter_cons_True, (filter_cons_False _ i) by tauto.
    split_and!; [done..|left|by apply list_subseteq_cons|done].
  - destruct (fifo_pop set l) as [r l''] eqn:Hpop. intros [= -> <-].
    destruct (IH _ eq_refl) as (IH1 & IH2 & IH3 & IH4 & IH5 & IH6).
    rewrite !filter_cons, !decide_False, !(decide_True (P := ¬ _)) by tauto.
    rewrite IH1, IH2. split_and!; [done..|by right|by apply list_subseteq_skip|simpl; congruence].
Qed.

Lemma fifo_pop_none_filter set l l' :
  fifo_pop set l = (None, l') →
  filter (in_set set) l = [] ∧ l' = l ∧ filter (λ i, ¬ in_set set i) l = l.
Proof.
  revert l'. induction l as [|j l IH]; intros l'; cbn [fifo_pop]; [by intros [= <-]|].
  destruct (decide (in_set set j)) as [Hj|Hj]; [done|].
  destruct (fifo_pop set l) as [r l''] eqn:Hpop. intros [= -> <-].
  destruct (IH _ eq_refl) as (IH1 & IH2 & IH3).
  rewrite !filter_cons, !decide_False, !(decide_True (P := ¬ _)) by tauto. by rewrite IH1, IH2, IH3.
Qed.
End queue_laws.

Section signal_properties.
Context {S : Type} `{!Has signals S, !Has errno S, !Cortex S, !FaultMask S, !CortexLaws S}.



Lemma in_set_not_masked mask i :
  valid_signo (si_signo i) → in_set (u32 (Z.lnot mask)) i ↔ Z.testbit mask (si_signo i - 1) = false.
Proof.
  intros Hs. unfold in_set, u32, valid_signo in *. change 4294967296 with (2 ^ 32).
  rewrite Z.mod_pow2_bits_low, Z.lnot_spec by lia. by destruct (Z.testbit mask _).
Qed.

(** [sigpending] reports exactly the signals that are queued and blocked. *)
Theorem sigpending_exact junk_int (s : S) g e m V al :
  view s = (g, e, m) → represents (queue g) V al →
  wp (sigpending junk_int) s (λ '(r, set) s', r = 0 ∧ view s' = view s ∧
    ∀ sig, valid_signo sig → Z.testbit set (sig - 1) = true ↔
      Z.testbit (procmask g) (sig - 1) = true ∧ sig ∈ si_signo <$> al.*2).
Proof.
  intros Hv Hr. rewrite Hv. unfold sigpending. apply wp_bind. eapply wp_cs_begin; [done|].
  clear s Hv. intros s Hv. unfold sigprocmask. wp_steps. rewrite (view_signals _ _ _ _ Hv).
  apply wp_bind. eapply wp_for_fold with (I := λ j set s', s' = s ∧ pending_inv (items (queue g)) (procmask g) j set).
  { split; [done|]. intros n Hn. unfold sigemptyset. rewrite Z.bits_0. split; [done|]. intros (k & _ & Hk & _). lia. }
  { intros j set ? Hj [-> Hinv]. eapply wp_pending_scan; [done..|lia|done]. }
  intros set ? [-> Hinv]. apply wp_bind. eapply wp_cs_end; [done|]. clear s Hv. intros s Hv. wp_steps.
  split_and!; [done..|]. intros sig Hsig. unfold valid_signo in Hsig. etransitivity; [apply Hinv; lia|]. split.
  - intros (k & it & _ & Hit & Hl & Heq & Hb). split; [done|].
    destruct (represents_slot _ _ _ it Hr) as (v & i & Hin & ->); [by eapply list_elem_of_lookup_2|done|].
    apply list_elem_of_fmap. exists i. simpl in Heq. split; [lia|].
    apply list_elem_of_fmap. by exists (v, i).
  - intros [Hb (i & -> & ([v i'] & -> & Hin)%list_elem_of_fmap)%list_elem_of_fmap]. simpl in *.
    destruct (represents_in _ _ _ _ _ Hr Hin) as ((k & Hk)%list_elem_of_lookup & _ & Hs).
    exists k, (Item i' (i32 v)). pose proof (rep_length _ _ _ Hr). unfold live. simpl.
    split_and!; [apply lookup_lt_Some in Hk; lia|done|lia|lia|done].
Qed.


(** Signals whose number is not valid can be queued, but not dequeued. *)
Lemma signal_dequeue_fault s g e m set i0 it :
  view s = (g, e, m) → items (queue g) !! 0%nat = Some it → SIGNAL_MAX < si_signo (info it) →
  signal_dequeue set i0 s = Fault.
Proof.
  intros Hv Hit Hsig. unfold SIGNAL_MAX in Hsig. apply bind_fault. eapply wp_cs_begin; [done|].
  clear s Hv. intros s Hv. apply bind_fault_l, bind_fault_l. unfold dequeue_scan.
  apply bind_fault. eapply wp_item_at; [done|lia|done|].
  rewrite (decide_True (P := si_signo _ ≠ 0)) by lia. apply bind_fault_l, bind_fault_l. unfold lift, sigismember, sigmask.
  by rewrite decide_False by lia.
Qed.

Lemma sigqueue_info_first s g e m y i :
  view s = (g, e, m) → items (queue g) !! 0%nat = Some y → si_signo (info y) = 0 →
  wp (sigqueue_info_signal i) s (λ r s', r = 0 ∧ ∃ q' o, view s' = (with_queue q' g, e, m) ∧
    items q' !! 0%nat = Some (Item i o)).
Proof.
  intros Hv Hit Hy. unfold sigqueue_info_signal. apply wp_bind. eapply wp_cs_begin; [done|].
  clear s Hv. intros s Hv. wp_steps. rewrite (view_signals _ _ _ _ Hv).
  change SIGQUEUE_MAX with (Datatypes.S 31). apply wp_for_find_turn.
  apply wp_bind. eapply wp_item_at; [done|lia|done|]. rewrite decide_True by done. pose proof (lookup_lt_Some _ _ _ Hit).
  apply wp_bind. eapply wp_item_put; [done|lia|]. clear s Hv. intros s Hv.
  apply wp_bind. eapply wp_modify_signals; [done|]. clear s Hv. intros s Hv.
  apply wp_bind. eapply wp_pendsv; [done|]. clear s Hv. intros s Hv. wp_steps.
  eapply wp_cs_end; [done|]. clear s Hv. intros s Hv. wp_steps. split; [done|].
  eexists _, _. split; [exact Hv|]. simpl. by apply list_lookup_insert_eq.
Qed.

(** The signal numbers given to [sigaction] are checked, those given to
    [kill] are not: a number above [SIGNAL_MAX] is queued and reported as sent,
    and the PendSV handler that should deliver it shifts a word by more than
    its width, whatever the mask is. *)
Theorem kill_invalid_signal_undefined `{!Handlers S} (s : S) sig junk fuel :
  proj s = signals_init → SIGNAL_MAX < sig →
  wp (kill getpid sig) s (λ r s', r = 0 ∧ pend_sv_handler (Datatypes.S fuel) junk s' = Fault).
Proof.
  intros Hs Hsig. unfold kill, getpid. rewrite decide_False by lia.
  rewrite decide_True by (unfold SIGNAL_MAX in *; lia). eapply wp_mono, sigqueue_info_first;
    [|unfold view; by rewrite Hs|reflexivity|done].
  intros r s' (-> & q' & o & Hv & Hit). split; [done|]. unfold pend_sv_handler.
  apply bind_fault_l, bind_fault_l. unfold signal_dequeue_procmask. apply bind_fault. wp_steps.
  by eapply signal_dequeue_fault.
Qed.
End signal_properties.

Section delivery_properties.
Context {S : Type} `{!Has signals S, !Has errno S, !Cortex S, !FaultMask S, !CortexLaws S, !Handlers S}.

(** [deliveries junk s l s']: the handler, run from [s], takes the signals [l]
    off the queue one after the other, acting on each, and finds no more. *)
Inductive deliveries : siginfo → S → list siginfo → S → Prop :=
| deliveries_nil junk s s' :
    signal_dequeue_procmask junk s = Done ((-1, junk), s') →
    deliveries junk s [] s'
| deliveries_cons junk s i s1 s2 l s' :
    signal_dequeue_procmask junk s = Done ((0, i), s1) →
    signal_act i s1 = Done (tt, s2) →
    deliveries i s2 l s' →
    deliveries junk s (i :: l) s'.

Definition unblocked (g : signals) (i : siginfo) : Prop :=
  in_set (u32 (Z.lnot (procmask g))) i.


Lemma signal_dequeue_procmask_pop s g e m V al i0 :
  view s = (g, e, m) → represents (queue g) V al →
  wp (signal_dequeue_procmask i0) s (λ '(r, i) s', ∃ q' al',
    view s' = (with_queue q' g, e, m) ∧ represents q' V al' ∧
    (if decide (r = 0) then fifo_pop (u32 (Z.lnot (procmask g))) al.*2 = (Some i, al'.*2)
     else r = -1 ∧ i = i0 ∧ fifo_pop (u32 (Z.lnot (procmask g))) al.*2 = (None, al'.*2))).
Proof.
  intros Hv Hr. unfold signal_dequeue_procmask. wp_steps. rewrite (view_signals _ _ _ _ Hv).
  eapply wp_mono, signal_dequeue_pop; [|done..].
  intros [r i] s' (q' & al' & Hv' & Hr' & _ & Hpop). exists q', al'. split_and!; [done..|].
  case_decide; [done|]. by destruct Hpop as (-> & -> & _ & ?).
Qed.

(** The actions of the pending signals that are not blocked return, and leave
    the variables of this file alone. *)
Definition actions_return (g : signals) (l : list siginfo) : Prop :=
  ∀ i s, i ∈ l → unblocked g i → signal_actions (proj s) = signal_actions g →
    wp (signal_act i) s (λ _ s', proj (C:=signals) s' = proj s).

Lemma pend_sv_loop fuel g0 junk s q e m V al :
  view s = (with_queue q g0, e, m) → represents q V al → (length al < fuel)%nat →
  actions_return g0 al.*2 →
  wp (pend_sv_handler fuel junk) s (λ _ s', ∃ al',
    deliveries junk s (filter (in_set (u32 (Z.lnot (procmask g0)))) al.*2) s' ∧
    represents (queue (proj s')) V al' ∧
    al'.*2 = filter (λ i, ¬ in_set (u32 (Z.lnot (procmask g0))) i) al.*2).
Proof.
  revert junk s q e m al. induction fuel as [|fuel IH]; intros junk s q e m al Hv Hr Hfuel Hact; [lia|].
  apply wp_loop_turn. apply wp_bind.
  pose proof (signal_dequeue_procmask_pop s _ _ _ _ _ junk Hv Hr) as Hdeq.
  apply wp_run in Hdeq as ([r i] & s1 & Hdeq & q' & al' & Hv' & Hr' & Hpop).
  eapply wp_Done; [exact Hdeq|]. simpl in Hpop |- *. set (set := u32 (Z.lnot (procmask g0))) in *.
  destruct (decide (r = 0)) as [->|Hne].
  - destruct (fifo_pop_filter _ _ _ _ Hpop) as (Hf & Hnf & Hin & Hal & Hsub & Hlen).
    rewrite !length_fmap in Hlen. apply wp_bind.
    assert (Hs1 : proj (C:=signals) s1 = with_queue q' g0) by by eapply view_signals.
    pose proof (Hact i s1 Hal Hin ltac:(by rewrite Hs1)) as Hstep.
    apply wp_run in Hstep as ([] & s2 & Hstep & Hs2). eapply wp_Done; [exact Hstep|]. wp_steps.
    eapply wp_mono, (IH i s2 q' (proj s2) (faultmask s2) al'); [|by unfold view; rewrite Hs2, Hs1|done|lia|].
    + intros [] s' (al'' & Hd & Hr'' & Hal''). exists al''. split_and!; [|done|].
      * rewrite Hf. by econstructor.
      * rewrite Hal''. apply Hnf.
    + intros j s3 Hj. apply Hact. by apply Hsub.
  - destruct Hpop as (-> & -> & Hpop). destruct (fifo_pop_none_filter _ _ _ Hpop) as (Hf & Hal & Hnf).
    wp_steps. exists al'. split_and!.
    + rewrite Hf. by constructor.
    + by rewrite (view_signals _ _ _ _ Hv').
    + rewrite Hal. symmetry. exact Hnf.
Qed.

#[export] Instance unblocked_dec g i : Decision (unblocked g i) := in_set_dec _ _.

(** C4: the PendSV handler terminates after acting on every pending signal
    that is not blocked, once and in the order they were sent, provided the
    actions return (the default action of most signals does not) and leave the
    signal state alone; the blocked ones stay queued in their order. *)
Theorem pend_sv_delivers_in_order fuel junk (s : S) V al :
  represents (queue (proj s)) V al → (length al < fuel)%nat →
  actions_return (proj s) al.*2 →
  wp (pend_sv_handler fuel junk) s (λ _ s', ∃ al',
    deliveries junk s (filter (unblocked (proj s)) al.*2) s' ∧
    represents (queue (proj s')) V al' ∧ al'.*2 = filter (λ i, ¬ unblocked (proj s) i) al.*2).
Proof.
  intros Hr Hfuel Hact. eapply pend_sv_loop; [|done..].
  unfold view. by destruct (proj s).
Qed.

(** [sigtimedwait] takes the right signal -- the oldest of the set -- but
    the value it then returns was never assigned: it is whatever the stack held. *)
Theorem sigtimedwait_result_indeterminate `{!Clock S} junk_int junk_ts fuel set i0 timeout
    (s : S) g e m V al i l' :
  (∀ id tp s', wp (clock_gettime id tp) s' (λ _ s'', view s'' = view s')) →
  view s = (g, e, m) → represents (queue g) V al → fifo_pop set al.*2 = (Some i, l') →
  wp (sigtimedwait junk_int junk_ts (Datatypes.S fuel) set i0 timeout) s (λ '(ret, i') s',
    ret = junk_int ∧ i' = i ∧ ∃ q' al', view s' = (with_queue q' g, e, m) ∧
    represents q' V al' ∧ al'.*2 = l').
Proof.
  intros Hclk Hv Hr Hpop. unfold sigtimedwait. apply wp_bind. eapply wp_mono, Hclk.
  intros [r0 start] s1 Hv1. rewrite Hv in Hv1. apply wp_loop_turn, wp_bind.
  eapply wp_mono, signal_dequeue_pop; [|done..].
  intros [r i'] s2 (q' & al' & Hv2 & Hr2 & _ & Hres). rewrite Hpop in Hres.
  destruct (decide (r = 0)) as [->|]; [|by destruct Hres as (_ & _ & _ & ?)].
  injection Hres as -> ->. rewrite decide_False by lia. wp_steps. split; [done|]. split; [done|].
  exists q', al'. done.
Qed.
End delivery_properties.

(** ** A concrete system

    The variables of this file, [errno], the mask bit, and a log of the
    handlers' calls; the clock stands still. *)
Record sig_world := SigWorld {
  w_signals : signals;
  w_errno : errno;
  w_masked : bool;
  w_log : list Z;
}.
#[export] Instance w_has_signals : Has signals sig_world :=
  {| proj := w_signals; upd := λ c w, SigWorld c (w_errno w) (w_masked w) (w_log w) |}.
#[export] Instance w_has_errno : Has errno sig_world :=
  {| proj := w_errno; upd := λ e w, SigWorld (w_signals w) e (w_masked w) (w_log w) |}.
#[export] Instance w_cortex : Cortex sig_world := {|
  cm_is_masked_faults := gets w_masked;
  cm_disable_faults := modify (λ w, SigWorld (w_signals w) (w_errno w) true (w_log w));
  cm_enable_faults := modify (λ w, SigWorld (w_signals w) (w_errno w) false (w_log w));
  scb_icsr_pendsvset := mret tt;
|}.
#[export] Instance w_faultmask : FaultMask sig_world := w_masked.
#[export] Instance w_cortex_laws : CortexLaws sig_world.
Proof. by split. Qed.
#[export] Instance w_handlers : Handlers sig_world := {|
  call_handler _ sig := modify (λ w, SigWorld (w_signals w) (w_errno w) (w_masked w) (w_log w ++ [sig]));
  call_sigaction _ sig _ := modify (λ w, SigWorld (w_signals w) (w_errno w) (w_masked w) (w_log w ++ [sig]));
|}.
#[export] Instance w_clock : Clock sig_world := λ _ _, mret (0, Timespec 1 0).

Definition w_init : sig_world := SigWorld signals_init E0 false [].

(** A signal number sent by [kill]. *)
Definition sent (sig : Z) : siginfo := with_pid getpid (with_code SI_USER (with_signo sig siginfo_zero)).

(** Two signals sent while signal 5 is blocked, both handled by a function. *)
Definition w_two : signals :=
  Signals (SignalQueue 2 (Item (sent 5) 2 :: Item (sent 7) 1 ::
             replicate 30 (Item siginfo_zero 0)))
          16 (replicate 33 (Sigaction (SIG_FUN 1) 0 0)).

Lemma represents_two : represents (queue w_two) 2 [(1, sent 7); (2, sent 5)].
Proof.
  split; [done|done| | |].
  - repeat constructor; simpl; lia.
  - repeat constructor; unfold in_window, valid_signo; simpl; lia.
  - vm_compute. apply Permutation_swap.
Qed.


Lemma sigpending_exact_witness :
  wp (sigpending 0) (SigWorld w_two E0 false []) (λ '(r, set) s', r = 0 ∧
    view s' = view (SigWorld w_two E0 false []) ∧
    ∀ sig, valid_signo sig → Z.testbit set (sig - 1) = true ↔
      Z.testbit (procmask w_two) (sig - 1) = true ∧
      sig ∈ si_signo <$> [(1, sent 7); (2, sent 5)].*2).
Proof. exact (sigpending_exact 0 (SigWorld w_two E0 false []) w_two E0 false 2 _ eq_refl represents_two). Defined.

Lemma kill_invalid_signal_undefined_witness :
  wp (kill getpid 33) w_init (λ r s', r = 0 ∧ pend_sv_handler 1 siginfo_zero s' = Fault).
Proof. apply (kill_invalid_signal_undefined w_init 33 siginfo_zero 0); reflexivity. Defined.

Lemma pend_sv_delivers_in_order_witness :
  let s := SigWorld w_two E0 false [] in
  wp (pend_sv_handler 3 siginfo_zero) s (λ _ s', ∃ al',
    deliveries siginfo_zero s (filter (unblocked (proj s)) [sent 7; sent 5]) s' ∧
    represents (queue (proj s')) 2 al' ∧ al'.*2 = filter (λ i, ¬ unblocked (proj s) i) [sent 7; sent 5]).
Proof.
  apply (pend_sv_delivers_in_order 3 siginfo_zero (SigWorld w_two E0 false []) 2 [(1, sent 7); (2, sent 5)]).
  - exact represents_two.
  - simpl. lia.
  - intros i s Hin _ Ha. simpl in Hin. unfold signal_act, wp, mbind, M_bind, getc, gets, lift.
    rewrite Ha. apply elem_of_cons in Hin as [->|Hin]; [reflexivity|].
    apply list_elem_of_singleton in Hin as ->. reflexivity.
Defined.

Lemma sigtimedwait_result_indeterminate_witness :
  let s := SigWorld w_two E0 false [] in
  wp (sigtimedwait 12345 (Timespec 0 0) 1 64 siginfo_zero (Timespec 1 0)) s (λ '(ret, i') s',
    ret = 12345 ∧ i' = sent 7 ∧ ∃ q' al', view s' = (with_queue q' w_two, E0, false) ∧
    represents q' 2 al' ∧ al'.*2 = [sent 5]).
Proof.
  apply (sigtimedwait_result_indeterminate 12345 (Timespec 0 0) 0 64 siginfo_zero (Timespec 1 0)
           (SigWorld w_two E0 false []) w_two E0 false 2 [(1, sent 7); (2, sent 5)] (sent 7) [sent 5]);
    [by intros|reflexivity|exact represents_two|reflexivity].
Defined.
