(* ===== verification/Timers.v ===== *)
(** * POSIX timers: [src/timers.c]

    The table of timers, their creation, arming and expiration. The functions
    [hw_timer_init], [hw_timer_start] and [hw_timer_stop] are empty in the
    source. Expiration sends signals through the [SigQueue] interface and calls
    notification functions through [Notify]; time is read through [Clock]. *)

From stdpp Require Import prelude list numbers.
From S2P Require Import Prelude Timespec Clock ClockDummy Signal.

(** [include/limits.h]. *)
Definition TIMER_MAX : nat := 32.

(** [sigev_notify]. *)
Inductive sigev_notify_t := SIGEV_NONE | SIGEV_SIGNAL | SIGEV_THREAD | SIGEV_OTHER (n : Z).

Record sigevent := Sigevent {
  sigev_notify : sigev_notify_t;
  sigev_signo : Z;
  sigev_value : Z;
  sigev_notify_function : Z;
}.

Record itimerspec := Itimerspec { it_interval : timespec; it_value : timespec }.

Record sys_timer := SysTimer {
  timerid : Z;
  t_clockid : clockid;
  sevp : sigevent;
  t_flags : Z;
  t_value : itimerspec;
  overrun : Z;
}.

#[export] Instance sigev_notify_eq_dec : EqDecision sigev_notify_t.
Proof. solve_decision. Defined.
#[export] Instance sigevent_eq_dec : EqDecision sigevent.
Proof. solve_decision. Defined.
#[export] Instance itimerspec_eq_dec : EqDecision itimerspec.
Proof. solve_decision. Defined.
#[export] Instance sys_timer_eq_dec : EqDecision sys_timer.
Proof. solve_decision. Defined.

(** [memset(tinfo, 0, sizeof(struct sys_timer))]; the clock number 0 is neither
    of the clocks of newlib, [CLOCK_REALTIME] (1) and [CLOCK_MONOTONIC] (4). *)
Definition timer_zero : sys_timer :=
  SysTimer 0 (CLOCK_OTHER 0) (Sigevent SIGEV_NONE 0 0 0) 0 (Itimerspec TIMESPEC_ZERO TIMESPEC_ZERO) 0.

Definition with_timerid (id : Z) (t : sys_timer) : sys_timer :=
  SysTimer id (t_clockid t) (sevp t) (t_flags t) (t_value t) (overrun t).
Definition with_clockid (c : clockid) (t : sys_timer) : sys_timer :=
  SysTimer (timerid t) c (sevp t) (t_flags t) (t_value t) (overrun t).
Definition with_sevp (e : sigevent) (t : sys_timer) : sys_timer :=
  SysTimer (timerid t) (t_clockid t) e (t_flags t) (t_value t) (overrun t).
Definition with_itimer (v : itimerspec) (t : sys_timer) : sys_timer :=
  SysTimer (timerid t) (t_clockid t) (sevp t) (t_flags t) v (overrun t).

(** [sys_timers]. *)
Record timers := Timers { sys_timers : list sys_timer }.

Definition timers_init : timers := Timers (replicate TIMER_MAX timer_zero).

(** The functions the application passes in [sigev_notify_function]. *)
Class Notify (S : Type) := call_notify : Z → Z → M S unit.

Definition SIGALRM : Z := 14.
Definition TIMER_ABSTIME : Z := 4.

Section timers.
Context {S : Type} `{!Has timers S, !Has errno S, !Clock S, !SigQueue S, !Notify S}.
(** What the uninitialised locals hold. *)
Context (junk : timespec).

Definition timer_at (td : Z) : M S sys_timer := t ← getc; lift (aget (sys_timers t) td).
Definition timer_put (td : Z) (x : sys_timer) : M S unit :=
  t ← getc;
  l ← lift (aset (sys_timers t) td x);
  modifyc (λ _, Timers l).
Definition timer_update (td : Z) (g : sys_timer → sys_timer) : M S unit :=
  t ← timer_at td; timer_put td (g t).

(** [timer_t] is [unsigned long]. *)
Definition sys_timerid2td (timerid : Z) : Z := i32 (u32 (timerid - 1)).
Definition sys_td2timerid (td : Z) : Z := u32 (td + 1).

Definition sys_timer_isallocated (td : Z) : M S bool :=
  t ← timer_at td; mret (bool_decide (timerid t ≠ 0)).

Definition sys_timer_time_to_expiration (td : Z) : M S timespec :=
  t ← timer_at td;
  '(_, now) ← clock_gettime (t_clockid t) junk;
  t ← timer_at td;
  mret (snd (timespec_diff (it_value (t_value t)) now)).

Definition sys_timer_isarmed (td : Z) : M S bool :=
  a ← sys_timer_isallocated td;
  if negb a then mret false
  else
    t ← timer_at td;
    if decide (timespec_cmp TIMESPEC_ZERO (it_value (t_value t)) = 0) then mret false
    else mret true.

Definition sys_timer_alloc : M S Z :=
  r ← for_find TIMER_MAX 0 (λ td,
    a ← sys_timer_isallocated td;
    if negb a then
      _ ← timer_put td timer_zero;
      _ ← timer_update td (with_timerid (sys_td2timerid td));
      mret (Some td)
    else mret None);
  mret (default (-1) r).

Definition sys_timer_iter (td : Z) : M S Z :=
  let td := if decide (td < 0) then 0 else td + 1 in
  r ← for_find (Z.to_nat (Z.of_nat TIMER_MAX - td)) td (λ td,
    a ← sys_timer_isarmed td;
    mret (if a : bool then Some td else None));
  mret (default (-1) r).

Definition sys_timer_expires_before (t1 t2 : Z) : M S bool :=
  to_expiration_t1 ← sys_timer_time_to_expiration t1;
  to_expiration_t2 ← sys_timer_time_to_expiration t2;
  if decide (timespec_cmp to_expiration_t1 to_expiration_t2 >= 0) then mret false
  else mret true.

(** One turn of the loop: [titer] and [td_expiring]. *)
Definition next_expiring_turn (st : Z * Z) : M S (Z * Z + Z) :=
  let '(titer, td_expiring) := st in
  if decide (titer ≠ -1) then
    td_expiring ← (if decide (td_expiring = -1) then mret titer
                   else b ← sys_timer_expires_before titer td_expiring;
                        mret (if b : bool then titer else td_expiring));
    titer ← sys_timer_iter titer;
    mret (inl (titer, td_expiring))
  else mret (inr td_expiring).

Definition sys_timer_next_expiring : M S Z :=
  titer ← sys_timer_iter (-1);
  loop (Datatypes.S TIMER_MAX) next_expiring_turn (titer, -1).

Definition hw_timer_init : M S unit := mret tt.
Definition hw_timer_start (interval : timespec) : M S unit := mret tt.
Definition hw_timer_stop : M S unit := mret tt.

Definition timer_expired (td : Z) : M S unit :=
  t ← timer_at td;
  _ ← match sigev_notify (sevp t) with
      | SIGEV_NONE => mret tt
      | SIGEV_SIGNAL =>
          let info := with_value (sigev_value (sevp t)) siginfo_zero in
          let info := with_signo (sigev_signo (sevp t)) info in
          let info := with_code SI_TIMER info in
          _ ← sigqueue_info info; mret tt
      | SIGEV_THREAD => call_notify (sigev_notify_function (sevp t)) (sigev_value (sevp t))
      | SIGEV_OTHER _ => mret tt
      end;
  t ← timer_at td;
  if decide (timespec_cmp (it_interval (t_value t)) TIMESPEC_ZERO > 0) then
    '(_, now) ← clock_gettime (t_clockid t) junk;
    timer_update td (λ t, with_itimer
      (Itimerspec (it_interval (t_value t)) (timespec_add now (it_interval (t_value t)))) t)
  else
    timer_update td (λ t, with_itimer (Itimerspec (it_interval (t_value t)) TIMESPEC_ZERO) t).

(** One turn of the loop: whether a timer expired. *)
Definition manage_turn : M S bool :=
  td_expiring ← sys_timer_next_expiring;
  if decide (td_expiring ≠ -1) then
    to_expiration ← sys_timer_time_to_expiration td_expiring;
    if decide (timespec_cmp to_expiration TIMESPEC_ZERO <= 0) then
      _ ← timer_expired td_expiring; mret true
    else _ ← hw_timer_start to_expiration; mret false
  else _ ← hw_timer_stop; mret false.

Definition sys_timers_manage (fuel : nat) : M S unit :=
  loop fuel (λ _ : unit,
    expired ← manage_turn;
    mret (if expired : bool then inl tt else inr tt)) tt.

Definition sys_timer_free (td : Z) : M S unit :=
  if decide (td >= 0 ∧ td < Z.of_nat TIMER_MAX) then timer_update td (with_timerid 0) else mret tt.

(** The argument [sevp] may be null; [id] is what [*timerid] holds. *)
Definition timer_create (clockid : clockid) (sevp_arg : option sigevent) (id : Z) : M S (Z * Z) :=
  if decide (clockid = CLOCK_MONOTONIC ∨ clockid = CLOCK_REALTIME) then
    td ← sys_timer_alloc;
    if decide (td ≠ -1) then
      _ ← timer_update td (with_clockid clockid);
      _ ← timer_update td (λ tinfo, with_sevp
        (match sevp_arg with
         | Some e => e
         | None => Sigevent SIGEV_SIGNAL SIGALRM (timerid tinfo)
                     (sigev_notify_function (sevp tinfo))
         end) tinfo);
      tinfo ← timer_at td;
      mret (0, timerid tinfo)
    else _ ← set_errno EAGAIN; mret (-1, id)
  else _ ← set_errno EINVAL; mret (-1, id).

Definition timer_delete (timerid : Z) : M S Z :=
  let td := sys_timerid2td timerid in
  a ← sys_timer_isallocated td;
  if a : bool then _ ← sys_timer_free td; mret 0
  else _ ← set_errno EINVAL; mret (-1).

(** What is stored in [*old_value] and [*curr_value]. *)
Definition timer_remaining (td : Z) : M S itimerspec :=
  armed ← sys_timer_isarmed td;
  if armed : bool then
    v ← sys_timer_time_to_expiration td;
    t ← timer_at td;
    mret (Itimerspec (it_interval (t_value t)) v)
  else t ← timer_at td; mret (t_value t).

Definition timer_settime (fuel : nat) (timerid flags : Z) (new_value : itimerspec)
    (old_value : option itimerspec) : M S (Z * option itimerspec) :=
  let td := sys_timerid2td timerid in
  a ← sys_timer_isallocated td;
  if a : bool then
    old_value ← match old_value with
                | Some _ => v ← timer_remaining td; mret (Some v)
                | None => mret None
                end;
    _ ← (if decide (timespec_cmp (it_value new_value) TIMESPEC_ZERO ≠ 0 ∧
                    Z.land flags TIMER_ABSTIME = 0) then
           t ← timer_at td;
           '(_, now) ← clock_gettime (t_clockid t) junk;
           timer_update td (with_itimer (Itimerspec (it_interval new_value)
                              (timespec_add now (it_value new_value))))
         else timer_update td (with_itimer new_value));
    _ ← sys_timers_manage fuel;
    mret (0, old_value)
  else _ ← set_errno EINVAL; mret (-1, old_value).

Definition timer_gettime (timerid : Z) (curr_value : itimerspec) : M S (Z * itimerspec) :=
  let td := sys_timerid2td timerid in
  a ← sys_timer_isallocated td;
  if a : bool then v ← timer_remaining td; mret (0, v)
  else _ ← set_errno EINVAL; mret (-1, curr_value).

Definition timer_getoverrun (timerid : Z) : M S Z :=
  let td := sys_timerid2td timerid in
  a ← sys_timer_isallocated td;
  if a : bool then t ← timer_at td; mret (overrun t)
  else _ ← set_errno EINVAL; mret (-1).
End timers.

(** ** Properties *)

(** Sending a signal and calling a notification function return, and leave the
    timers and the clock as they are. *)
Class NotifyFrame (S : Type) `{!Has timers S, !Clock S, !ClockLaws S, !SigQueue S, !Notify S} : Prop := {
  sigqueue_frame i s : clk_ok s → wp (sigqueue_info i) s (λ _ s',
    proj (C:=timers) s' = proj s ∧ clk_ok s' ∧ ∀ id, clk_now id s' = clk_now id s);
  notify_frame f v s : clk_ok s → wp (call_notify f v) s (λ _ s',
    proj (C:=timers) s' = proj s ∧ clk_ok s' ∧ ∀ id, clk_now id s' = clk_now id s);
}.

Definition tget (g : timers) (td : Z) : option sys_timer := sys_timers g !! Z.to_nat td.
Definition tset (td : Z) (x : sys_timer) (g : timers) : timers :=
  Timers (<[Z.to_nat td := x]> (sys_timers g)).

Definition table_size (g : timers) : Prop := length (sys_timers g) = TIMER_MAX.

Definition in_table (td : Z) : Prop := 0 ≤ td < Z.of_nat TIMER_MAX.

(** An expiration time that a clock with steps of at most [hi] can reach. *)
Definition good_value (hi : Z) (v : timespec) : Prop := normal v ∧ 0 ≤ ns v ≤ clk_limit - hi.

Definition armed_timer (t : sys_timer) : Prop :=
  timerid t ≠ 0 ∧ it_value (t_value t) ≠ TIMESPEC_ZERO.
#[export] Instance armed_timer_dec t : Decision (armed_timer t).
Proof. unfold armed_timer. apply _. Defined.

Definition armed (g : timers) (td : Z) : Prop :=
  in_table td ∧ ∃ t, tget g td = Some t ∧ armed_timer t.

(** The expiration time of a timer, in nanoseconds. *)
Definition deadline (g : timers) (td : Z) : Z :=
  match tget g td with Some t => ns (it_value (t_value t)) | None => 0 end.

(** Every timer in use is a one-shot timer of the clock [cid]. *)
Definition one_shot (hi : Z) (cid : clockid) (g : timers) : Prop :=
  table_size g ∧ ∀ td t, in_table td → tget g td = Some t → timerid t ≠ 0 →
    t_clockid t = cid ∧ it_interval (t_value t) = TIMESPEC_ZERO ∧ good_value hi (it_value (t_value t)).

Lemma tget_tset_eq g td x : table_size g → in_table td → tget (tset td x g) td = Some x.
Proof. unfold table_size, in_table. intros. apply list_lookup_insert_eq. lia. Qed.
Lemma tget_tset_ne g td td' x : in_table td → in_table td' → td ≠ td' → tget (tset td x g) td' = tget g td'.
Proof. unfold in_table. intros. apply list_lookup_insert_ne. lia. Qed.
Lemma tset_size g td x : table_size g → table_size (tset td x g).
Proof. unfold table_size. simpl. by rewrite length_insert. Qed.
Lemma tset_tset g td x y : tset td x (tset td y g) = tset td x g.
Proof. unfold tset. simpl. by rewrite list_insert_insert_eq. Qed.
Lemma tget_in_table g td : table_size g → in_table td → ∃ t, tget g td = Some t.
Proof. unfold table_size, in_table. intros. apply lookup_lt_is_Some_2. lia. Qed.

Section timer_laws.
Context {S : Type} `{!Has timers S, !HasLaws timers S, !Has errno S, !Clock S, !SigQueue S, !Notify S}.
Context (junk : timespec).

Lemma wp_timer_at (s : S) g td t (Q : sys_timer → S → Prop) :
  proj s = g → in_table td → tget g td = Some t → Q t s → wp (timer_at td) s Q.
Proof.
  intros <- Htd Ht HQ. unfold timer_at. wp_steps. eapply wp_lift; [|done].
  apply aget_Some. unfold in_table in Htd. split; [lia|done].
Qed.

Lemma wp_timer_put (s : S) g td x (Q : unit → S → Prop) :
  proj s = g → table_size g → in_table td → Q tt (upd (tset td x g) s) → wp (timer_put td x) s Q.
Proof.
  intros <- Hg Htd HQ. unfold timer_put. wp_steps.
  eapply wp_lift; [apply aset_in_range; unfold table_size, in_table in *; lia|]. by wp_steps.
Qed.

Lemma wp_timer_update (s : S) g td h t (Q : unit → S → Prop) :
  proj s = g → table_size g → in_table td → tget g td = Some t →
  Q tt (upd (tset td (h t) g) s) → wp (timer_update td h) s Q.
Proof. intros. apply wp_bind. eapply wp_timer_at; [done..|]. by eapply wp_timer_put. Qed.

Lemma wp_isallocated (s : S) g td t (Q : bool → S → Prop) :
  proj s = g → in_table td → tget g td = Some t → Q (bool_decide (timerid t ≠ 0)) s →
  wp (sys_timer_isallocated td) s Q.
Proof. intros. apply wp_bind. by eapply wp_timer_at. Qed.

(** [timer_create] for a known clock takes the lowest timer that is not in
    use and fills the whole entry -- what a deleted timer left there cannot
    show -- returning its number plus one; without a free timer it fails with
    [EAGAIN] and for another clock with [EINVAL], changing nothing else. *)
Theorem timer_create_spec (clock : clockid) (ev : option sigevent) id (s : S) :
  table_size (proj s) →
  wp (timer_create clock ev id) s (λ '(r, id') s',
    if decide (known_clock clock) then
      (r = 0 ∧ ∃ td t, in_table td ∧ tget (proj s) td = Some t ∧ timerid t = 0 ∧ id' = td + 1 ∧
         (∀ j t', 0 ≤ j < td → tget (proj s) j = Some t' → timerid t' ≠ 0) ∧
         proj s' = tset td (SysTimer id' clock (default (Sigevent SIGEV_SIGNAL SIGALRM id' 0) ev) 0
                     (Itimerspec TIMESPEC_ZERO TIMESPEC_ZERO) 0) (proj s)) ∨
      (r = -1 ∧ id' = id ∧ s' = upd EAGAIN s ∧
         ∀ j t', in_table j → tget (proj s) j = Some t' → timerid t' ≠ 0)
    else r = -1 ∧ id' = id ∧ s' = upd EINVAL s).
Proof.
  intros Hg. unfold timer_create, known_clock.
  destruct (decide (clock = CLOCK_MONOTONIC ∨ clock = CLOCK_REALTIME)) as [Hc|Hc].
  2: { wp_steps. done. }
  apply wp_bind, wp_bind.
  apply wp_for_find with (I := λ j s', s' = s ∧
    ∀ i t', 0 ≤ i < j → tget (proj s) i = Some t' → timerid t' ≠ 0).
  - split; [done|]. lia.
  - intros td ? Htd [-> Hlow]. assert (Hin : in_table td) by (unfold in_table; lia).
    destruct (tget_in_table _ _ Hg Hin) as [t Ht].
    apply wp_bind. eapply wp_isallocated; [done..|]. case_bool_decide as Ha; simpl.
    + wp_steps. split; [done|]. intros i t' Hi. destruct (decide (i = td)) as [->|]; [|apply Hlow; lia].
      congruence.
    + assert (Ht0 : timerid t = 0) by lia.
      apply wp_bind. eapply wp_timer_put; [done..|]. apply wp_bind.
      eapply wp_timer_update; [apply proj_upd|by apply tset_size|done|by apply tget_tset_eq|].
      rewrite tset_tset, upd_upd. apply wp_ret, wp_ret.
      assert (Hid : sys_td2timerid td = td + 1).
      { apply u32_id. unfold is_u32, in_table, TIMER_MAX in *. lia. }
      change (default (-1) (Some td)) with td. rewrite decide_True by (unfold in_table in Hin; lia).
      apply wp_bind.
      eapply wp_timer_update; [apply proj_upd|by apply tset_size|done|by apply tget_tset_eq|].
      rewrite tset_tset, upd_upd. apply wp_bind.
      eapply wp_timer_update; [apply proj_upd|by apply tset_size|done|by apply tget_tset_eq|].
      rewrite tset_tset, upd_upd. apply wp_bind.
      eapply wp_timer_at; [apply proj_upd|done|by apply tget_tset_eq|]. wp_steps.
      left. split; [done|]. exists td, t. simpl. rewrite Hid, proj_upd. split_and!; done.
  - intros ? [-> Hall]. apply wp_ret. simpl.
    wp_steps. right. split_and!; [done..|]. intros j t' Hj. apply Hall. unfold in_table in Hj. lia.
Qed.

(** Timer identifiers are used as indices unchecked: 0, which no timer
    has, and every number above [TIMER_MAX] (below [2^31]) make all the
    functions on a timer access memory outside the table. *)
Theorem timer_ids_unchecked id fuel flags nv ov cv (s : S) :
  table_size (proj s) → id = 0 ∨ Z.of_nat TIMER_MAX < id ≤ INT_MAX →
  timer_delete id s = Fault ∧ timer_settime junk fuel id flags nv ov s = Fault ∧
  timer_gettime junk id cv s = Fault ∧ timer_getoverrun id s = Fault.
Proof.
  intros Hg Hid. assert (Hat : sys_timer_isallocated (sys_timerid2td id) s = Fault).
  { apply bind_fault_l. apply bind_fault. wp_steps. unfold lift. rewrite aget_out; [done|].
    unfold table_size in Hg. rewrite Hg. unfold TIMER_MAX, INT_MAX in *.
    unfold sys_timerid2td, u32, i32. zlia. }
  split_and!; by apply bind_fault_l.
Qed.
End timer_laws.

Section expiration.
Context {S : Type} `{!Has timers S, !HasLaws timers S, !Has errno S, !Clock S, !ClockLaws S,
  !ClockFrame timers S, !SigQueue S, !Notify S, !NotifyFrame S}.
Context (junk : timespec) (cid : clockid) (Hcid : known_clock cid).

Lemma armed_cmp v : good_value clk_hi v → timespec_cmp TIMESPEC_ZERO v = 0 ↔ v = TIMESPEC_ZERO.
Proof.
  intros [Hn Hr]. pose proof clk_lo_pos. rewrite timespec_cmp_eq; [done|apply normal_zero|done|].
  unfold clk_limit in *. destruct v. ts_unfold. simpl in *. lia.
Qed.

(** The test is exact on every timer of the table. *)
Lemma wp_isarmed (s : S) g td (Q : bool → S → Prop) :
  proj s = g → one_shot clk_hi cid g → in_table td →
  (∀ b : bool, (b = true ↔ armed g td) → Q b s) → wp (sys_timer_isarmed td) s Q.
Proof.
  intros Hs [Hg Hos] Htd HQ. destruct (tget_in_table _ _ Hg Htd) as [t Ht].
  apply wp_bind. eapply wp_isallocated; [done..|]. case_bool_decide as Ha; simpl.
  - destruct (Hos _ _ Htd Ht Ha) as (_ & _ & Hv).
    apply wp_bind. eapply wp_timer_at; [done..|].
    case_decide as Hc; rewrite (armed_cmp _ Hv) in Hc; apply wp_ret, HQ.
    + split; [done|]. intros (_ & t' & Ht' & _ & ?). congruence.
    + split; [|done]. intros _. split; [done|]. by exists t.
  - apply wp_ret, HQ. split; [done|]. intros (_ & t' & Ht' & ? & _). destruct Ha. congruence.
Qed.

(** The next armed timer. *)
Lemma wp_timer_iter (s : S) g td (Q : Z → S → Prop) :
  proj s = g → one_shot clk_hi cid g → -1 ≤ td < Z.of_nat TIMER_MAX →
  (∀ r, (r = -1 ∧ ∀ j, td < j → ¬ armed g j) ∨
        (td < r ∧ armed g r ∧ ∀ j, td < j < r → ¬ armed g j) → Q r s) →
  wp (sys_timer_iter td) s Q.
Proof.
  intros Hs Hos Htd HQ. unfold sys_timer_iter.
  replace (if decide (td < 0) then 0 else td + 1) with (td + 1) by (case_decide; lia).
  apply wp_bind.
  apply wp_for_find with (I := λ j s', s' = s ∧ ∀ i, td < i < j → ¬ armed g i).
  - split; [done|]. lia.
  - intros j ? Hj [-> Hlow]. apply wp_bind. eapply wp_isarmed; [done..|unfold in_table; lia|].
    intros [] Hb; apply wp_ret.
    + apply wp_ret, HQ. simpl. right. split; [lia|]. split; [by apply Hb|done].
    + split; [done|]. intros i Hi. destruct (decide (i = j)) as [->|]; [|apply Hlow; lia].
      intros Ha. by apply Hb in Ha.
  - intros ? [-> Hlow]. apply wp_ret, HQ. simpl. left. split; [done|]. intros j Hj Ha.
    apply (Hlow j); [|done]. destruct Ha as [Hin _]. unfold in_table in Hin. lia.
Qed.

(** What is known of the clock while the timers [g] are examined: since the
    reading [n0] it took at most [k] readings. *)
Definition clk_since (n0 k : Z) (s : S) : Prop :=
  clk_ok s ∧ 0 ≤ n0 ≤ clk_now cid s ∧ clk_now cid s ≤ n0 + k * clk_hi.

Lemma wp_time_to_expiration (s : S) g td n0 k (Q : timespec → S → Prop) :
  proj s = g → one_shot clk_hi cid g → armed g td → clk_since n0 k s → n0 + (k + 1) * clk_hi ≤ clk_limit →
  (∀ s', proj s' = g → clk_since n0 (k + 1) s' →
     clk_now cid s ≤ clk_now cid s' ≤ clk_now cid s + clk_hi →
     Q (of_ns (deadline g td - clk_now cid s')) s') →
  wp (sys_timer_time_to_expiration junk td) s Q.
Proof.
  intros Hs [Hg Hos] (Htd & t & Ht & Ha & _) (Hok & Hn0 & Hn) Hlim HQ. pose proof clk_lo_pos.
  destruct (Hos _ _ Htd Ht Ha) as (Hc & _ & Hv & Hns).
  apply wp_bind. eapply wp_timer_at; [done..|]. rewrite Hc. apply wp_bind.
  eapply wp_clock_frame; [done..|lia|lia|]. intros s' Hok' Hn' Hs'. rewrite Hs in Hs'.
  apply wp_bind. eapply wp_timer_at; [done..|]. apply wp_ret.
  assert (Hlim' : 0 ≤ clk_now cid s' ≤ clk_limit) by lia.
  rewrite timespec_diff_of_ns; [|done|by apply normal_of_ns|].
  - rewrite ns_of_ns. replace (ns (it_value (t_value t))) with (deadline g td)
      by (unfold deadline; by rewrite Ht).
    apply HQ; [done| |lia]. split; [done|]. lia.
  - unfold clk_limit in *. destruct (it_value (t_value t)). ts_unfold. simpl in *. zlia.
Qed.

Lemma good_deadline g td : one_shot clk_hi cid g → armed g td → 0 ≤ deadline g td ≤ clk_limit - clk_hi.
Proof.
  intros [_ Hos] (Htd & t & Ht & Ha & _). destruct (Hos _ _ Htd Ht Ha) as (_ & _ & _ & ?).
  unfold deadline. by rewrite Ht.
Qed.

(** The order is that of the expiration times, up to the time one reading of
    the clock takes. *)
Lemma wp_expires_before (s : S) g t1 t2 n0 k (Q : bool → S → Prop) :
  proj s = g → one_shot clk_hi cid g → armed g t1 → armed g t2 →
  clk_since n0 k s → n0 + (k + 2) * clk_hi ≤ clk_limit →
  (∀ (b : bool) s', proj s' = g → clk_since n0 (k + 2) s' →
     (if b then deadline g t1 < deadline g t2 else deadline g t2 ≤ deadline g t1 + clk_hi) →
     Q b s') →
  wp (sys_timer_expires_before junk t1 t2) s Q.
Proof.
  intros Hs Hos H1 H2 Hn Hlim HQ. pose proof clk_lo_pos.
  apply wp_bind. eapply wp_time_to_expiration; [done..|lia|]. intros s1 Hs1 Hn1 Hd1.
  apply wp_bind. eapply wp_time_to_expiration; [done..|lia|]. intros s2 Hs2 Hn2 Hd2.
  pose proof (good_deadline _ _ Hos H1). pose proof (good_deadline _ _ Hos H2).
  replace (k + 1 + 1) with (k + 2) in Hn2 by lia.
  destruct Hn as (_ & Hn & _), Hn1 as (_ & Hn1 & Hn1'). pose proof Hn2 as (_ & Hn2' & Hn2'').
  assert (Hcmp : Z.sgn (timespec_cmp (of_ns (deadline g t1 - clk_now cid s1))
      (of_ns (deadline g t2 - clk_now cid s2))) =
    Z.sgn (deadline g t1 - clk_now cid s1 - (deadline g t2 - clk_now cid s2))).
  { apply cmp_of_ns; lia. }
  case_decide; apply wp_ret, HQ; try done; lia.
Qed.

(** [td] is armed and no armed timer below [m] expires more than one clock
    reading before it. *)
Definition earliest (g : timers) (m td : Z) : Prop :=
  armed g td ∧ ∀ j, j < m → armed g j → deadline g td ≤ deadline g j + clk_hi.

(** The loop has looked at the timers below [m]. *)
Definition next_inv (g : timers) (n0 k0 : Z) (st : Z * Z) (s : S) : Prop :=
  proj s = g ∧ ∃ m, 0 ≤ m ≤ Z.of_nat TIMER_MAX ∧ clk_since n0 (k0 + 2 * m) s ∧
    ((st.1 = -1 ∧ m = Z.of_nat TIMER_MAX) ∨ (st.1 = m ∧ armed g st.1)) ∧
    ((st.2 = -1 ∧ ∀ j, j < m → ¬ armed g j) ∨ earliest g m st.2).

Definition next_left (st : Z * Z) (s : S) : nat :=
  if decide (st.1 = -1) then 0 else Z.to_nat (Z.of_nat TIMER_MAX - st.1).

Lemma clk_since_mono n0 k k' s : k ≤ k' → clk_since n0 k s → clk_since n0 k' s.
Proof. intros Hk (? & ? & ?). pose proof clk_lo_pos.
  split; [done|]. split; [done|nia]. Qed.

Lemma armed_bounds g td : armed g td → 0 ≤ td < Z.of_nat TIMER_MAX.
Proof. by intros [? _]. Qed.

(** After the choice between the current timer and the next one. *)
Lemma next_choice g m cur titer (b : bool) :
  armed g titer → titer = m → earliest g m cur →
  (if b then deadline g titer < deadline g cur else deadline g cur ≤ deadline g titer + clk_hi) →
  earliest g (m + 1) (if b then titer else cur).
Proof.
  intros Ha -> [Hcur Hmin] Hb. pose proof clk_lo_pos. split; [by destruct b|]. intros j Hj Haj.
  destruct (decide (j = m)) as [->|]; [destruct b; lia|].
  specialize (Hmin j ltac:(lia) Haj). destruct b; lia.
Qed.

Lemma wp_next_turn g n0 k0 st s :
  one_shot clk_hi cid g → n0 + (k0 + 64) * clk_hi ≤ clk_limit → next_inv g n0 k0 st s →
  wp (next_expiring_turn junk st) s (λ r s', match r with
    | inl st' => next_inv g n0 k0 st' s' ∧ (next_left st' s' < next_left st s)%nat
    | inr td => proj s' = g ∧ clk_since n0 (k0 + 64) s' ∧
        ((td = -1 ∧ ∀ j, ¬ armed g j) ∨ earliest g (Z.of_nat TIMER_MAX) td) end).
Proof.
  intros Hos Hlim (Hs & m & Hm & Hn & Hiter & Hcur). destruct st as [titer cur]. simpl in *.
  pose proof clk_lo_pos. case_decide as Ht.
  2: { apply wp_ret. destruct Hiter as [[_ ->]|[-> ?]]; [|lia]. split_and!; [done|done|].
       destruct Hcur as [[-> Hno]|?]; [left|by right]. split; [done|]. intros j Ha.
       by apply (Hno j); [apply armed_bounds in Ha; lia|]. }
  destruct Hiter as [[-> _]|[Hiter Ha]]; [done|]. pose proof (armed_bounds _ _ Ha).
  apply wp_bind.
  assert (Hnext : ∀ td s', proj s' = g → clk_since n0 (k0 + 2 * (m + 1)) s' → earliest g (m + 1) td →
    wp (sys_timer_iter titer) s' (λ titer' s'', next_inv g n0 k0 (titer', td) s'' ∧
      (next_left (titer', td) s'' < next_left (titer, cur) s)%nat)).
  { intros td s' Hs' Hn' Htd. eapply wp_timer_iter; [done..|lia|]. unfold next_left. simpl.
    intros r [[-> Hno]|(Hr & Har & Hno)].
    - split; [|repeat case_decide; simpl; lia].
      split; [done|]. exists (Z.of_nat TIMER_MAX). split_and!; [lia..| |by left|right].
      + eapply clk_since_mono, Hn'. lia.
      + destruct Htd as [Hatd Hmin]. split; [done|]. intros j Hj Haj. apply Hmin; [|done].
        destruct (decide (titer < j)); [by destruct (Hno j)|lia].
    - pose proof (armed_bounds _ _ Har). split; [|repeat case_decide; lia].
      split; [done|]. exists r. split_and!; [lia..| |by right|right].
      + eapply clk_since_mono, Hn'. lia.
      + destruct Htd as [Hatd Hmin]. split; [done|]. intros j Hj Haj. apply Hmin; [|done].
        destruct (decide (titer < j)); [by destruct (Hno j); [lia|]|lia]. }
  assert (Hturn : ∀ td s', proj s' = g → clk_since n0 (k0 + 2 * (m + 1)) s' → earliest g (m + 1) td →
    wp (titer ← sys_timer_iter titer; mret (inl (titer, td))) s' (λ r s', match r with
      | inl st' => next_inv g n0 k0 st' s' ∧ (next_left st' s' < next_left (titer, cur) s)%nat
      | inr td => proj s' = g ∧ clk_since n0 (k0 + 64) s' ∧
        ((td = -1 ∧ ∀ j, ¬ armed g j) ∨ earliest g (Z.of_nat TIMER_MAX) td) end)).
  { intros td s' Hs' Hn' Htd. apply wp_bind. eapply wp_mono, Hnext; [|done..].
    intros titer' s'' ?. by apply wp_ret. }
  case_decide as Hc.
  - apply wp_ret, Hturn; [done|eapply clk_since_mono, Hn; lia|]. subst titer.
    destruct Hcur as [[_ Hno]|[Hcur _]]; [|apply armed_bounds in Hcur; lia].
    split; [done|]. intros j Hj Haj. destruct (decide (j = m)) as [->|]; [lia|].
    by destruct (Hno j); [lia|].
  - destruct Hcur as [[? _]|Hcur]; [done|]. apply wp_bind.
    eapply wp_expires_before; [done|done|done|apply Hcur|exact Hn| |]; [unfold TIMER_MAX in *; nia|].
    intros b s' Hs' Hn' Hb. apply wp_ret, Hturn; [done|eapply clk_since_mono, Hn'; lia|].
    by eapply next_choice.
Qed.

Lemma wp_next_expiring g n0 k s (Q : Z → S → Prop) :
  proj s = g → one_shot clk_hi cid g → clk_since n0 k s → n0 + (k + 64) * clk_hi ≤ clk_limit →
  (∀ td s', proj s' = g → clk_since n0 (k + 64) s' →
     ((td = -1 ∧ ∀ j, ¬ armed g j) ∨ earliest g (Z.of_nat TIMER_MAX) td) → Q td s') →
  wp (sys_timer_next_expiring junk) s Q.
Proof.
  intros Hs Hos Hn Hlim HQ. pose proof clk_lo_pos. apply wp_bind. eapply wp_timer_iter; [done..|lia|].
  intros r Hr.
  apply wp_loop with (I := next_inv g n0 k) (μ := next_left).
  - split; [done|]. destruct Hr as [[-> Hno]|(? & Har & Hno)].
    + exists (Z.of_nat TIMER_MAX). split_and!; [lia..| |by left|left].
      * eapply clk_since_mono, Hn. lia.
      * split; [done|]. intros j _ Ha. pose proof (armed_bounds _ _ Ha). by apply (Hno j); [lia|].
    + pose proof (armed_bounds _ _ Har). exists r. split_and!; [lia..| |by right|left].
      * eapply clk_since_mono, Hn. lia.
      * split; [done|]. intros j Hj Ha. pose proof (armed_bounds _ _ Ha). by apply (Hno j); [lia|].
  - unfold next_left. simpl. case_decide; [unfold TIMER_MAX; lia|].
    destruct Hr as [[-> _]|(? & Har & _)]; [done|]. pose proof (armed_bounds _ _ Har). lia.
  - intros st s' Hinv. eapply wp_mono, wp_next_turn; [|done..].
    intros [st'|td] s''; [done|]. intros (? & ? & ?). by apply HQ.
Qed.

(** ** Expiration of one-shot timers *)

(** The table with the timer disarmed. *)
Definition disarm (g : timers) (td : Z) : timers :=
  match tget g td with
  | Some t => tset td (with_itimer (Itimerspec (it_interval (t_value t)) TIMESPEC_ZERO) t) g
  | None => g
  end.

Lemma disarm_armed g td j :
  table_size g → in_table td → armed (disarm g td) j →
  j ≠ td ∧ armed g j ∧ deadline (disarm g td) j = deadline g j.
Proof.
  intros Hg Htd (Hj & t' & Ht' & Ha). destruct (tget_in_table _ _ Hg Htd) as [t Ht].
  unfold deadline, disarm in *. rewrite Ht in *. destruct (decide (j = td)) as [->|Hne].
  - rewrite tget_tset_eq in Ht' by done. injection Ht' as <-. by destruct Ha as [_ []].
  - rewrite tget_tset_ne in * by done. split; [done|]. split; [|done]. split; [done|]. by exists t'.
Qed.

Lemma disarm_one_shot g td :
  clk_hi ≤ clk_limit → in_table td → one_shot clk_hi cid g → one_shot clk_hi cid (disarm g td).
Proof.
  intros Hhi Htd [Hg Hos]. destruct (tget_in_table _ _ Hg Htd) as [t Ht]. unfold disarm. rewrite Ht.
  split; [by apply tset_size|]. intros j t' Hj Ht' Hid. destruct (decide (j = td)) as [->|Hne].
  - rewrite tget_tset_eq in Ht' by done. injection Ht' as <-. simpl in *.
    destruct (Hos _ _ Htd Ht Hid) as (-> & -> & _). split; [done|]. split; [done|].
    split; [apply normal_zero|]. unfold ns. simpl. lia.
  - rewrite tget_tset_ne in Ht' by done. by apply (Hos j).
Qed.

(** The number of armed timers. *)
Definition armed_count (g : timers) : nat := length (filter armed_timer (sys_timers g)).

Lemma disarm_count g td : armed g td → armed_count g = Datatypes.S (armed_count (disarm g td)).
Proof.
  intros (_ & t & Ht & Ha). unfold disarm. rewrite Ht. unfold armed_count. simpl.
  rewrite <- (filter_insert_out armed_timer _ _
    (with_itimer (Itimerspec (it_interval (t_value t)) TIMESPEC_ZERO) t) _ Ht Ha); [done|].
  by intros [_ []].
Qed.

Lemma armed_count_max g : table_size g → (armed_count g ≤ TIMER_MAX)%nat.
Proof. intros <-. apply length_filter. Qed.

Lemma wp_timer_expired s g td n0 k :
  proj s = g → one_shot clk_hi cid g → armed g td → clk_since n0 k s →
  wp (timer_expired junk td) s (λ _ s',
    proj s' = disarm g td ∧ clk_since n0 k s' ∧ clk_now cid s' = clk_now cid s).
Proof.
  intros Hs [Hg Hos] (Htd & t & Ht & Ha & _) (Hok & Hn & Hn').
  destruct (Hos _ _ Htd Ht Ha) as (_ & Hint & _).
  assert (Hrest : ∀ s', proj s' = g → clk_ok s' → (∀ id, clk_now id s' = clk_now id s) →
    wp (t ← timer_at td;
        if decide (timespec_cmp (it_interval (t_value t)) TIMESPEC_ZERO > 0) then
          '(_, now) ← clock_gettime (t_clockid t) junk;
          timer_update td (λ t, with_itimer
            (Itimerspec (it_interval (t_value t)) (timespec_add now (it_interval (t_value t)))) t)
        else
          timer_update td (λ t, with_itimer (Itimerspec (it_interval (t_value t)) TIMESPEC_ZERO) t))
      s' (λ _ s', proj s' = disarm g td ∧ clk_since n0 k s' ∧ clk_now cid s' = clk_now cid s)).
  { intros s' Hs' Hok' Hnow. apply wp_bind. eapply wp_timer_at; [done..|].
    rewrite decide_False by (by rewrite Hint). eapply wp_timer_update; [done..|].
    unfold disarm, clk_since. rewrite proj_upd, Ht, clk_now_upd, Hnow.
    split; [done|]. split; [|done]. split; [by apply clk_ok_upd|done]. }
  apply wp_bind. eapply wp_timer_at; [done..|]. apply wp_bind.
  destruct (sigev_notify (sevp t)).
  - by apply wp_ret, Hrest.
  - apply wp_bind. eapply wp_mono, sigqueue_frame; [|done]. intros _ s' (Hs' & Hok' & Hnow).
    apply wp_ret, Hrest; [by rewrite Hs'|done..].
  - eapply wp_mono, notify_frame; [|done]. intros _ s' (Hs' & Hok' & Hnow).
    apply Hrest; [by rewrite Hs'|done..].
  - by apply wp_ret, Hrest.
Qed.

(** A turn that expires a timer, and a turn that ends the loop. *)
Lemma wp_manage_turn s g n0 k :
  proj s = g → one_shot clk_hi cid g → clk_since n0 k s → n0 + (k + 65) * clk_hi ≤ clk_limit →
  wp (manage_turn junk) s (λ b s', clk_since n0 (k + 65) s' ∧
    if b : bool then ∃ td s1, armed g td ∧ deadline g td ≤ clk_now cid s' ∧
      timer_expired junk td s1 = Done (tt, s') ∧ proj s' = disarm g td
    else proj s' = g ∧ ∀ j, armed g j → clk_now cid s' - clk_hi < deadline g j).
Proof.
  intros Hs Hos Hn Hlim. pose proof clk_lo_pos. apply wp_bind.
  eapply wp_next_expiring; [done|done|exact Hn|lia|]. intros td s1 Hs1 Hn1 Htd.
  case_decide as Hd.
  2: { apply wp_bind, wp_ret, wp_ret. split; [eapply clk_since_mono, Hn1; lia|]. split; [done|].
       intros j Ha. destruct Htd as [[_ Hno]|[Ha' _]]; [by destruct (Hno j)|].
       apply armed_bounds in Ha'. lia. }
  destruct Htd as [[? _]|[Ha Hmin]]; [done|]. apply wp_bind.
  eapply wp_time_to_expiration; [done|done|done|exact Hn1|lia|]. intros s2 Hs2 Hn2 _.
  replace (k + 64 + 1) with (k + 65) in Hn2 by lia.
  pose proof (good_deadline _ _ Hos Ha). pose proof Hn2 as (_ & Hn2' & Hn2'').
  assert (Hcmp : Z.sgn (timespec_cmp (of_ns (deadline g td - clk_now cid s2)) TIMESPEC_ZERO) =
    Z.sgn (deadline g td - clk_now cid s2 - 0)).
  { change TIMESPEC_ZERO with (of_ns 0). apply cmp_of_ns; lia. }
  case_decide; apply wp_bind.
  - pose proof (wp_timer_expired _ _ _ _ _ Hs2 Hos Ha Hn2) as He.
    apply wp_run in He as ([] & s3 & He & Hs3 & Hn3 & Hnow). eapply wp_Done; [exact He|].
    apply wp_ret. split; [done|]. exists td, s2. split_and!; [done|lia|done|done].
  - apply wp_ret, wp_ret. split; [done|]. split; [done|]. intros j Hj.
    pose proof (armed_bounds _ _ Hj). specialize (Hmin j ltac:(lia) Hj). lia.
Qed.

(** [expirations s tds s']: from [s] the loop makes the timers [tds] expire, in
    this order, and stops in [s']. *)
Inductive expirations : S → list Z → S → Prop :=
| expirations_stop s s' :
    manage_turn junk s = Done (false, s') →
    expirations s [] s'
| expirations_fire s s1 s2 td tds s' :
    manage_turn junk s = Done (true, s2) →
    timer_expired junk td s1 = Done (tt, s2) →
    expirations s2 tds s' →
    expirations s (td :: tds) s'.

Definition due_only (g : timers) (tds : list Z) (now : Z) : Prop :=
  NoDup tds ∧ ∀ td, td ∈ tds → armed g td ∧ deadline g td ≤ now.

Lemma due_only_cons g td tds now :
  table_size g → armed g td → deadline g td ≤ now →
  due_only (disarm g td) tds now → due_only g (td :: tds) now.
Proof.
  intros Hg Ha Hd [Hnd Hdue]. assert (Htd : in_table td) by apply Ha. split.
  - apply NoDup_cons_2; [|done]. intros Hin.
    destruct (Hdue _ Hin) as [Ha' _]. by destruct (disarm_armed _ _ _ Hg Htd Ha') as [[] _].
  - intros td' [->|Hin]%elem_of_cons; [done|]. destruct (Hdue _ Hin) as [Ha' Hd'].
    destruct (disarm_armed _ _ _ Hg Htd Ha') as (_ & ? & <-). done.
Qed.

Lemma wp_manage fuel s g n0 k :
  proj s = g → one_shot clk_hi cid g → clk_since n0 k s → (armed_count g < fuel)%nat →
  n0 + (k + 65 * (Z.of_nat (armed_count g) + 1)) * clk_hi ≤ clk_limit →
  wp (sys_timers_manage junk fuel) s (λ _ s', ∃ tds,
    expirations s tds s' ∧ proj s' = foldl disarm g tds ∧ due_only g tds (clk_now cid s') ∧
    clk_now cid s ≤ clk_now cid s' ∧
    ∀ j, armed (proj s') j → clk_now cid s' - clk_hi < deadline (proj s') j).
Proof.
  pose proof clk_lo_pos.
  revert s g k. induction fuel as [|fuel IH]; intros s g k Hs Hos Hn Hfuel Hlim; [lia|].
  apply wp_loop_turn, wp_bind.
  pose proof Hn as (Hok & Hn0 & Hn').
  assert (Hn1 : clk_since (clk_now cid s) 0 s) by (split; [done|lia]).
  pose proof (wp_manage_turn s g _ 0 Hs Hos Hn1 ltac:(nia)) as Hturn.
  apply wp_run in Hturn as (b & s1 & Hrun & Hs1n & Hb). eapply wp_Done; [exact Hrun|].
  assert (Hle : clk_now cid s ≤ clk_now cid s1) by (destruct Hs1n as (_ & ? & _); lia).
  assert (Hn2 : clk_since n0 (k + 65) s1).
  { destruct Hs1n as (? & ? & ?). split; [done|]. split; [lia|nia]. }
  destruct b; apply wp_ret.
  - destruct Hb as (td & s0 & Ha & Hd & He & Hs1). pose proof Hos as [Hg _].
    rewrite (disarm_count _ _ Ha) in Hfuel, Hlim.
    eapply wp_mono, (IH s1 (disarm g td) (k + 65)); [|done| |done|lia|lia].
    + intros [] s' (tds & Hexp & Hs' & Hdue & Hnow & Hleft). exists (td :: tds).
      split; [by econstructor|]. split; [done|]. split; [|split; [lia|done]].
      apply due_only_cons; [done|done|lia|done].
    + apply disarm_one_shot; [|apply Ha|done]. destruct Hn as (_ & ? & _). nia.
  - destruct Hb as [Hs1 Hleft]. exists []. split; [by constructor|]. split; [done|].
    split; [split; [constructor|by intros td Htd%elem_of_nil]|]. split; [done|]. by rewrite Hs1.
Qed.

(** C6: the expiration loop terminates when the timers in use are one-shot
    timers of one clock -- at most one turn per armed timer -- and then it has
    made only due timers expire, each once (none fires early), has disarmed
    exactly these, and leaves no armed timer overdue by as much as one reading
    of the clock. *)
Theorem sys_timers_manage_expires fuel (s : S) :
  clk_ok s → 0 ≤ clk_now cid s → clk_now cid s + 65 * 33 * clk_hi ≤ clk_limit →
  one_shot clk_hi cid (proj s) → (TIMER_MAX < fuel)%nat →
  wp (sys_timers_manage junk fuel) s (λ _ s', ∃ tds,
    expirations s tds s' ∧ NoDup tds ∧ proj s' = foldl disarm (proj s) tds ∧
    (∀ td, td ∈ tds → armed (proj s) td ∧ deadline (proj s) td ≤ clk_now cid s') ∧
    ∀ j, armed (proj s') j → clk_now cid s' - clk_hi < deadline (proj s') j).
Proof.
  intros Hok H0 Hlim Hos Hfuel. pose proof clk_lo_pos. pose proof Hos as [Hg _].
  pose proof (armed_count_max _ Hg). unfold TIMER_MAX in *.
  eapply wp_mono, (wp_manage fuel s _ (clk_now cid s) 0); [|done|done| |lia|nia].
  - intros [] s' (tds & ? & ? & [? ?] & _ & ?). by exists tds.
  - split; [done|lia].
Qed.
End expiration.

(** ** A concrete system: the dummy clock, and a count of the signals sent *)
Record timer_world := TimerWorld {
  tw_timers : timers;
  tw_errno : errno;
  tw_clock : clock_dummy;
  tw_sent : nat;
}.
#[export] Instance tw_has_timers : Has timers timer_world :=
  {| proj := tw_timers; upd := λ c w, TimerWorld c (tw_errno w) (tw_clock w) (tw_sent w) |}.
#[export] Instance tw_has_errno : Has errno timer_world :=
  {| proj := tw_errno; upd := λ e w, TimerWorld (tw_timers w) e (tw_clock w) (tw_sent w) |}.
#[export] Instance tw_has_clock : Has clock_dummy timer_world :=
  {| proj := tw_clock; upd := λ c w, TimerWorld (tw_timers w) (tw_errno w) c (tw_sent w) |}.
#[export] Instance tw_laws_timers : HasLaws timers timer_world.
Proof. split; [done|by intros []|done]. Qed.
#[export] Instance tw_laws_clock : HasLaws clock_dummy timer_world.
Proof. split; [done|by intros []|done]. Qed.
#[export] Instance tw_indep1 : Indep timers clock_dummy timer_world.
Proof. done. Qed.
#[export] Instance tw_indep2 : Indep clock_dummy timers timer_world.
Proof. done. Qed.
#[export] Instance tw_clock_inst : Clock timer_world := embedded_clock.
#[export] Instance tw_clock_laws : ClockLaws timer_world := embedded_laws.
#[export] Instance tw_clock_frame : ClockFrame timers timer_world := embedded_frame.
#[export] Instance tw_sigqueue : SigQueue timer_world := λ _ w,
  Done (0, TimerWorld (tw_timers w) (tw_errno w) (tw_clock w) (Datatypes.S (tw_sent w))).
#[export] Instance tw_notify : Notify timer_world := λ _ _, mret tt.
#[export] Instance tw_notify_frame : NotifyFrame timer_world.
Proof. by split. Qed.

(** A one-shot timer of the monotonic clock that expires at [v]. *)
Definition shot (id : Z) (v : timespec) : sys_timer :=
  SysTimer id CLOCK_MONOTONIC (Sigevent SIGEV_SIGNAL SIGALRM id 0) 0 (Itimerspec TIMESPEC_ZERO v) 0.

(** Three timers: one due, one disarmed, one far in the future. *)
Definition tw_three : timer_world :=
  TimerWorld (Timers (shot 1 (Timespec 5 0) :: shot 2 (Timespec 0 0) :: shot 3 (Timespec 9 0) ::
                replicate 29 timer_zero))
             E0 (ClockDummy TIMESPEC_ZERO (Timespec 6 0) E0) 0.

Lemma tw_three_one_shot : one_shot 1000 CLOCK_MONOTONIC (tw_timers tw_three).
Proof.
  split; [done|]. intros td t Htd Ht Hid.
  assert (Hgood : ∀ v, v ∈ [0; 5; 9] → good_value 1000 (Timespec v 0)).
  { intros v Hv. unfold good_value, clk_limit. ts_unfold. simpl.
    rewrite !elem_of_cons, elem_of_nil in Hv. lia. }
  unfold tget, tw_three in Ht. simpl in Ht.
  destruct (Z.to_nat td) as [|[|[|n]]]; simpl in Ht;
    [injection Ht as <-; split_and!; [done..|apply Hgood; repeat (left || right)]..|].
  change (replicate 29 timer_zero !! n = Some t) in Ht.
  apply lookup_replicate in Ht as [-> _]. by destruct Hid.
Qed.

Lemma timer_create_spec_witness :
  wp (timer_create CLOCK_MONOTONIC None 7) tw_three (λ '(r, id') s',
    if decide (known_clock CLOCK_MONOTONIC) then
      (r = 0 ∧ ∃ td t, in_table td ∧ tget (proj tw_three) td = Some t ∧ timerid t = 0 ∧ id' = td + 1 ∧
         (∀ j t', 0 ≤ j < td → tget (proj tw_three) j = Some t' → timerid t' ≠ 0) ∧
         proj s' = tset td (SysTimer id' CLOCK_MONOTONIC (default (Sigevent SIGEV_SIGNAL SIGALRM id' 0) None) 0
                     (Itimerspec TIMESPEC_ZERO TIMESPEC_ZERO) 0) (proj tw_three)) ∨
      (r = -1 ∧ id' = 7 ∧ s' = upd EAGAIN tw_three ∧
         ∀ j t', in_table j → tget (proj tw_three) j = Some t' → timerid t' ≠ 0)
    else r = -1 ∧ id' = 7 ∧ s' = upd EINVAL tw_three).
Proof. apply (timer_create_spec CLOCK_MONOTONIC None 7 tw_three). reflexivity. Defined.

Lemma timer_ids_unchecked_witness :
  let nv := Itimerspec TIMESPEC_ZERO (Timespec 1 0) in
  timer_delete 33 tw_three = Fault ∧ timer_settime TIMESPEC_ZERO 40 33 0 nv None tw_three = Fault ∧
  timer_gettime TIMESPEC_ZERO 33 nv tw_three = Fault ∧ timer_getoverrun 33 tw_three = Fault.
Proof.
  apply (timer_ids_unchecked TIMESPEC_ZERO 33 40 0 (Itimerspec TIMESPEC_ZERO (Timespec 1 0)) None
    (Itimerspec TIMESPEC_ZERO (Timespec 1 0)) tw_three); [reflexivity|].
  right. vm_compute. by split.
Defined.

Lemma sys_timers_manage_expires_witness :
  wp (sys_timers_manage TIMESPEC_ZERO 33) tw_three (λ _ s', ∃ tds,
    expirations TIMESPEC_ZERO tw_three tds s' ∧ NoDup tds ∧
    proj s' = foldl disarm (proj tw_three) tds ∧
    (∀ td, td ∈ tds → armed (proj tw_three) td ∧
       deadline (proj tw_three) td ≤ clk_now CLOCK_MONOTONIC s') ∧
    ∀ j, armed (proj s') j → clk_now CLOCK_MONOTONIC s' - clk_hi < deadline (proj s') j).
Proof.
  apply (sys_timers_manage_expires TIMESPEC_ZERO CLOCK_MONOTONIC).
  - by left.
  - split; vm_compute; split; congruence.
  - vm_compute. congruence.
  - vm_compute. congruence.
  - exact tw_three_one_shot.
  - unfold TIMER_MAX. lia.
Defined.
