(* ===== verification/Poll.v ===== *)
(** * poll: [src/poll.c]

    Polling a set of descriptors through the [poll] functions of their table
    entries, with a timeout measured on the [Clock] interface. The caller's
    array is passed and returned as a list. *)

From stdpp Require Import prelude list numbers.
From S2P Require Import Prelude Timespec Clock ClockDummy Files.

(** [include/poll.h]. *)
Definition POLLIN : Z := 1.
Definition POLLRDNORM : Z := 2.
Definition POLLRDBAND : Z := 4.
Definition POLLPRI : Z := 8.
Definition POLLOUT : Z := 16.
Definition POLLWRNORM : Z := POLLOUT.
Definition POLLWRBAND : Z := 64.
Definition POLLERR : Z := 128.
Definition POLLHUP : Z := 256.
Definition POLLNVAL : Z := 512.

Record pollfd := Pollfd { pfd : Z; events : Z; revents : Z }.

#[export] Instance pollfd_eq_dec : EqDecision pollfd.
Proof. solve_decision. Defined.

Definition with_revents (r : Z) (p : pollfd) : pollfd := Pollfd (pfd p) (events p) r.

Section poll.
Context {S : Type} `{!Has ftable S, !Drivers S}.

Definition poll_one (p : pollfd) : M S (Z * pollfd) :=
  revents ← (if decide (pfd p < 0) then mret 0
             else match file_struct_get (pfd p) with
             | None => mret POLLNVAL
             | Some f =>
                 e ← fd_at f;
                 match fd_poll e with
                 | None => mret POLLNVAL
                 | Some d =>
                     r ← drv_poll d (pfd p);
                     let r := i16 r in
                     mret (if decide (r = -1) then POLLNVAL else r)
                 end
             end);
  if decide (revents >= 0) then
    let ev := i16 (Z.lor (events p) (Z.lor (Z.lor POLLHUP POLLERR) POLLNVAL)) in
    let revents := i16 (Z.land revents ev) in
    mret (revents, with_revents revents p)
  else mret (revents, p).

(** [nfds] is unsigned. *)
Definition poll_tentative (fds : list pollfd) (nfds : Z) : M S (Z * list pollfd) :=
  '((fds, nfiles_ready), full) ← for_break (Z.to_nat nfds) 0 (λ i '(fds, nfiles_ready),
    p ← lift (aget fds i);
    '(revents, p) ← poll_one p;
    fds ← lift (aset fds i p);
    if decide (revents = -1) then mret (inr (fds, nfiles_ready))
    else if decide (revents > 0) then mret (inl (fds, nfiles_ready + 1))
    else mret (inl (fds, nfiles_ready))) (fds, 0);
  mret (if full : bool then nfiles_ready else -1, fds).

Context `{!Clock S}.
(** What the uninitialised locals hold. *)
Context (junk : timespec).

(** The loop, until something is ready or the time [tend] has passed. *)
Definition poll_until (fuel : nat) (tend : timespec) (fds : list pollfd) (nfds : Z)
    : M S (Z * list pollfd) :=
  loop fuel (λ fds,
    '(ret, tcurrent) ← clock_gettime CLOCK_MONOTONIC junk;
    if decide (ret ≠ 0) then mret (inr (ret, fds))
    else
      '(ret, fds) ← poll_tentative fds nfds;
      if decide (ret ≠ 0) then mret (inr (ret, fds))
      else if decide (timespec_cmp tcurrent tend >= 0) then mret (inr (ret, fds))
      else mret (inl fds)) fds.

Definition poll (fuel : nat) (fds : list pollfd) (nfds : Z) (timeout : Z) : M S (Z * list pollfd) :=
  if decide (timeout = 0) then poll_tentative fds nfds
  else if decide (timeout = -1) then poll_until fuel TIMESPEC_INFINITY fds nfds
  else
    let sec := Z.quot timeout MSECS_IN_SEC in
    let timeout := i32 (timeout - i32 (sec * MSECS_IN_SEC)) in
    let timeout_ts := Timespec sec (i32 (timeout * (NSECS_IN_SEC / MSECS_IN_SEC))) in
    '(_, tcurrent) ← clock_gettime CLOCK_MONOTONIC junk;
    let tend := timespec_add tcurrent timeout_ts in
    poll_until fuel tend fds nfds.
End poll.

(** ** Properties *)

(** The [poll] functions of the drivers answer [ready], and only change what
    the invariant [J] allows. *)
Definition poll_answers {S} `{!Has ftable S, !Drivers S} (J : S → Prop) (ready : driver → Z → Z) : Prop :=
  ∀ d fd s, J s → wp (drv_poll d fd) s (λ r s', r = ready d fd ∧ J s' ∧ proj (C:=ftable) s' = proj s).

(** Answers are [-1] or a set of the poll bits. *)
Definition poll_bits (ready : driver → Z → Z) : Prop :=
  ∀ d fd, ready d fd = -1 ∨ 0 ≤ ready d fd < 1024.

(** What the code makes of the answers of the drivers: the events among those
    asked for, with [POLLHUP], [POLLERR] and [POLLNVAL] always, of an entry that
    has a [poll] function; [POLLNVAL] for the others, and for an answer of -1;
    nothing for a negative number. *)
Definition poll_answer (g : ftable) (ready : driver → Z → Z) (p : pollfd) : Z :=
  if decide (pfd p < 0) then 0
  else match files g !! Z.to_nat (pfd p) with
  | Some e =>
      match fd_poll e with
      | Some d => if decide (ready d (pfd p) = -1) then POLLNVAL
                  else Z.land (ready d (pfd p)) (Z.lor (events p) (Z.lor (Z.lor POLLHUP POLLERR) POLLNVAL))
      | None => POLLNVAL
      end
  | None => POLLNVAL
  end.

Definition poll_answered (g : ftable) (ready : driver → Z → Z) (fds : list pollfd) : list pollfd :=
  (λ p, with_revents (poll_answer g ready p) p) <$> fds.

Definition poll_count (g : ftable) (ready : driver → Z → Z) (fds : list pollfd) : Z :=
  Z.of_nat (length (filter (λ p, poll_answer g ready p ≠ 0) fds)).

(** [events] is a non-negative [short]: bit 15 is no event. *)
Definition pollfd_ok (p : pollfd) : Prop := 0 ≤ events p < 32768.

(** The milliseconds of the argument as the code splits them. *)
Lemma poll_timeout_of_ns timeout : 0 < timeout ≤ INT_MAX →
  Timespec (Z.quot timeout MSECS_IN_SEC)
    (i32 (i32 (timeout - i32 (Z.quot timeout MSECS_IN_SEC * MSECS_IN_SEC)) * (NSECS_IN_SEC / MSECS_IN_SEC))) =
  of_ns (timeout * 1000000).
Proof.
  intros Ht. unfold INT_MAX, of_ns, MSECS_IN_SEC, NSECS_IN_SEC in *. rewrite Z.quot_div_nonneg by lia.
  change (1000000000 / 1000) with 1000000. rewrite (i32_id (timeout / 1000 * 1000)) by (unfold is_i32; zlia).
  rewrite (i32_id (timeout - timeout / 1000 * 1000)) by (unfold is_i32; zlia).
  rewrite i32_id by (unfold is_i32; zlia). f_equal; zlia.
Qed.

Section poll_laws.
Context {S : Type} `{!Has ftable S, !Drivers S}.
Context (J : S → Prop) (ready : driver → Z → Z).
Context (Hready : poll_answers J ready) (Hbits : poll_bits ready).

Lemma i16_id z : 0 ≤ z < 32768 → i16 z = z.
Proof. unfold i16. intros. rewrite Z.mod_small; lia. Qed.

Lemma land_bound a b : 0 ≤ a < 1024 → 0 ≤ Z.land a b < 1024.
Proof.
  intros Ha. assert (Z.land a b = Z.land a b mod 2 ^ 10) as ->.
  { rewrite <- Z.land_ones by lia.
    rewrite <- Z.land_assoc, (Z.land_comm b), Z.land_assoc, (Z.land_ones a) by lia.
    by rewrite (Z.mod_small a) by lia. }
  apply Z.mod_pos_bound. lia.
Qed.

Lemma wp_poll_one (s : S) g p :
  proj s = g → length (files g) = OPEN_MAX → J s → pollfd_ok p →
  wp (poll_one p) s (λ '(r, p') s', r = poll_answer g ready p ∧ 0 ≤ r < 1024 ∧
    p' = with_revents r p ∧ J s' ∧ proj (C:=ftable) s' = g).
Proof.
  intros Hs Hg HJ Hp. unfold poll_one, poll_answer. apply wp_bind.
  set (ev := Z.lor (events p) (Z.lor (Z.lor POLLHUP POLLERR) POLLNVAL)).
  assert (Hev : i16 ev = ev).
  { apply i16_id. apply (lor_range 15); [lia|exact Hp|by vm_compute]. }
  assert (Hend : ∀ r r' s', 0 ≤ r < 1024 → r' = Z.land r ev → J s' → proj s' = g →
    wp (if decide (r >= 0) then
          let ev := i16 ev in let revents := i16 (Z.land r ev) in
          mret (revents, with_revents revents p)
        else mret (r, p)) s'
      (λ '(r, p') s', r = r' ∧ 0 ≤ r < 1024 ∧ p' = with_revents r p ∧ J s' ∧ proj (C:=ftable) s' = g)).
  { intros r r' s' Hr -> HJ' Hs'. rewrite decide_True by lia. cbv zeta. rewrite Hev.
    pose proof (land_bound r ev Hr). rewrite i16_id by lia. by apply wp_ret. }
  assert (Hnval : Z.land POLLNVAL ev = POLLNVAL).
  { unfold ev, POLLNVAL. apply Z.bits_inj'. intros n Hn. rewrite Z.land_spec, !Z.lor_spec.
    destruct (Z.testbit 512 n); [|done]. by rewrite !orb_true_r. }
  destruct (decide (pfd p < 0)) as [Hneg|Hneg]; [by apply wp_ret, Hend|].
  unfold file_struct_get. case_decide as Hmax.
  - rewrite lookup_ge_None_2 by lia. apply wp_ret, Hend; [by vm_compute|done..].
  - destruct (lookup_lt_is_Some_2 (files g) (Z.to_nat (pfd p))) as [e He]; [lia|]. rewrite He.
    apply wp_bind. eapply wp_fd_at; [lia|unfold entry; by rewrite Hs|].
    destruct (fd_poll e) as [d|]; [|apply wp_ret, Hend; [by vm_compute|done..]].
    apply wp_bind. eapply wp_mono, Hready; [|done]. intros r s' (-> & HJ' & Hs').
    rewrite Hs in Hs'. apply wp_ret. destruct (Hbits d (pfd p)) as [Hr|Hr].
    + rewrite !Hr. apply Hend; [by vm_compute|done..].
    + rewrite i16_id by lia. destruct (decide (ready d (pfd p) = -1)); [lia|].
      by apply Hend.
Qed.

Lemma poll_count_app g fds p :
  poll_count g ready (fds ++ [p]) =
    poll_count g ready fds + (if decide (poll_answer g ready p ≠ 0) then 1 else 0).
Proof.
  unfold poll_count. rewrite list.filter_app, length_app, Nat2Z.inj_add. f_equal.
  rewrite list.filter_cons. by case_decide.
Qed.

Lemma wp_poll_tentative (s : S) fds :
  length (files (proj s)) = OPEN_MAX → J s → Forall pollfd_ok fds →
  wp (poll_tentative fds (Z.of_nat (length fds))) s (λ '(r, fds') s',
    fds' = poll_answered (proj s) ready fds ∧ r = poll_count (proj s) ready fds ∧
    J s' ∧ proj (C:=ftable) s' = proj s).
Proof.
  intros Hg HJ Hfds. unfold poll_tentative. rewrite Nat2Z.id. set (g := proj s).
  apply wp_bind.
  apply wp_for_break with (I := λ j '(fds', n) s',
    fds' = poll_answered g ready (take (Z.to_nat j) fds) ++ drop (Z.to_nat j) fds ∧
    n = poll_count g ready (take (Z.to_nat j) fds) ∧ J s' ∧ proj s' = g).
  - done.
  - intros j [fds' n] s' Hj (-> & -> & HJ' & Hs').
    destruct (lookup_lt_is_Some_2 fds (Z.to_nat j)) as [p Hp]; [lia|].
    pose proof (lookup_lt_Some _ _ _ Hp) as Hlt.
    assert (Hlen : length (poll_answered g ready (take (Z.to_nat j) fds)) = Z.to_nat j).
    { unfold poll_answered. rewrite length_fmap, length_take. lia. }
    apply wp_bind. eapply wp_lift.
    { apply aget_Some. split; [lia|]. rewrite lookup_app_r, Hlen, Nat.sub_diag by lia.
      rewrite lookup_drop, Nat.add_0_r. exact Hp. }
    apply wp_bind. eapply wp_mono, wp_poll_one; [|done|done|done|by eapply Forall_lookup_1].
    intros [r p'] s'' (-> & Hr & -> & HJ'' & Hs'').
    apply wp_bind. eapply wp_lift.
    { apply aset_in_range. rewrite length_app, length_drop, Hlen. lia. }
    assert (Hnext : <[Z.to_nat j:=with_revents (poll_answer g ready p) p]>
        (poll_answered g ready (take (Z.to_nat j) fds) ++ drop (Z.to_nat j) fds) =
      poll_answered g ready (take (Z.to_nat (j + 1)) fds) ++ drop (Z.to_nat (j + 1)) fds).
    { replace (Z.to_nat (j + 1)) with (Datatypes.S (Z.to_nat j)) by lia.
      rewrite (take_S_r _ _ _ Hp), (drop_S _ _ _ Hp). unfold poll_answered in *.
      rewrite fmap_app, <- (assoc_L (++)). rewrite insert_app_r_alt, Hlen, Nat.sub_diag by lia. done. }
    rewrite Hnext. replace (Z.to_nat (j + 1)) with (Datatypes.S (Z.to_nat j)) by lia.
    rewrite (take_S_r _ _ _ Hp), poll_count_app. rewrite decide_False by lia.
    case_decide; apply wp_ret; split_and!; try done; case_decide; lia.
  - intros [fds' n] s' (-> & -> & HJ' & Hs'). rewrite Z.add_0_l, Nat2Z.id, take_ge, drop_ge by lia.
    apply wp_ret. by rewrite app_nil_r.
Qed.
End poll_laws.

(** ** What POSIX asks

    [conds fd] are the conditions that hold for the open file of [fd]. A regular
    file is always ready for reading and writing. *)
Definition open_entry (g : ftable) (fd : Z) : option fd_t :=
  e ← files g !! Z.to_nat fd; if isopen e then Some e else None.

Definition file_conds (conds : Z → Z) (fd : Z) (e : fd_t) : Z :=
  if S_ISREG (fd_stat e)
  then Z.lor (Z.lor POLLIN POLLRDNORM) (Z.lor POLLOUT POLLWRNORM) else conds fd.

(** [revents]: nothing for a negative number; [POLLNVAL] for a number that is no
    open descriptor; for an open one the conditions that hold among those asked
    for, with [POLLHUP] and [POLLERR] always. *)
Definition posix_revents (g : ftable) (conds : Z → Z) (p : pollfd) : Z :=
  if decide (pfd p < 0) then 0
  else match open_entry g (pfd p) with
  | Some e => Z.land (file_conds conds (pfd p) e) (Z.lor (events p) (Z.lor POLLHUP POLLERR))
  | None => POLLNVAL
  end.

Definition posix_polled (g : ftable) (conds : Z → Z) (fds : list pollfd) : list pollfd :=
  (λ p, with_revents (posix_revents g conds p) p) <$> fds.

Definition posix_count (g : ftable) (conds : Z → Z) (fds : list pollfd) : Z :=
  Z.of_nat (length (filter (λ p, posix_revents g conds p ≠ 0) fds)).

(** What the [poll] function of a driver owes: the conditions of an open
    descriptor, among which [POLLNVAL] is not; -1 or [POLLNVAL] for a descriptor
    it has closed, whose entry keeps the function. *)
Definition drivers_answer (g : ftable) (ready : driver → Z → Z) (conds : Z → Z) : Prop :=
  ∀ fd e d, 0 ≤ fd → files g !! Z.to_nat fd = Some e → fd_poll e = Some d →
    if isopen e then ready d fd = conds fd ∧ 0 ≤ conds fd < POLLNVAL
    else ready d fd = -1 ∨ ready d fd = POLLNVAL.

(** The entry is of no regular file and, when it is open, has a [poll] function:
    of the open descriptors, the sockets. *)
Definition pollable (g : ftable) (p : pollfd) : Prop :=
  pollfd_ok p ∧
  ∀ e, 0 ≤ pfd p → open_entry g (pfd p) = Some e → S_ISREG (fd_stat e) = false ∧ is_Some (fd_poll e).

Lemma land_no_nval a b : 0 ≤ a < POLLNVAL → Z.land a (Z.lor b POLLNVAL) = Z.land a b.
Proof.
  intros Ha. apply Z.bits_inj'. intros n Hn. rewrite !Z.land_spec, Z.lor_spec.
  change POLLNVAL with (2 ^ 9) in *. destruct (decide (n = 9)) as [->|Hne].
  - rewrite (Z.bits_above_log2 a 9); [done|lia|].
    destruct (decide (a = 0)) as [->|]; [done|]. apply Z.log2_lt_pow2; lia.
  - by rewrite Z.pow2_bits_false, orb_false_r by done.
Qed.

Lemma land_nval_asked a : Z.land POLLNVAL (Z.lor a (Z.lor (Z.lor POLLHUP POLLERR) POLLNVAL)) = POLLNVAL.
Proof.
  apply Z.bits_inj'. intros n Hn. rewrite Z.land_spec, !Z.lor_spec.
  destruct (Z.testbit POLLNVAL n); [|done]. by rewrite !orb_true_r.
Qed.

(** The answer of the code is the one POSIX asks for. *)
Lemma poll_answer_posix g ready conds p :
  drivers_answer g ready conds → pollable g p → poll_answer g ready p = posix_revents g conds p.
Proof.
  intros Hdrv [_ Hp]. unfold poll_answer, posix_revents in *. case_decide as Hneg; [done|].
  specialize (λ e, Hp e ltac:(lia)). unfold open_entry in *.
  destruct (files g !! Z.to_nat (pfd p)) as [e|] eqn:He; [|done]. simpl in *.
  destruct (fd_poll e) as [d|] eqn:Ed.
  - specialize (Hdrv (pfd p) e d ltac:(lia) He Ed). destruct (isopen e).
    + destruct Hdrv as [-> Hc]. destruct (Hp e eq_refl) as [Hreg _]. rewrite decide_False by lia.
      unfold file_conds. by rewrite Hreg, !(Z.lor_assoc (events p)), land_no_nval.
    + destruct Hdrv as [->| ->]; [done|]. rewrite decide_False by done. apply land_nval_asked.
  - destruct (isopen e); [|done]. destruct (Hp e eq_refl) as [_ [? Hd]]. congruence.
Qed.

Lemma poll_answered_posix g ready conds fds :
  drivers_answer g ready conds → Forall (pollable g) fds →
  poll_answered g ready fds = posix_polled g conds fds ∧ poll_count g ready fds = posix_count g conds fds.
Proof.
  intros Hdrv Hfds. unfold poll_answered, posix_polled, poll_count, posix_count.
  induction Hfds as [|p fds Hp _ [IH1 IH2]]; [done|].
  pose proof (poll_answer_posix g ready conds p Hdrv Hp) as Hans.
  rewrite !fmap_cons, !list.filter_cons, IH1, Hans. split; [done|].
  case_decide; simpl; lia.
Qed.

Lemma pollable_ok g fds : Forall (pollable g) fds → Forall pollfd_ok fds.
Proof. apply Forall_impl. by intros p []. Qed.

(** An open descriptor without a [poll] function, the console and the files, is
    answered [POLLNVAL]. *)
Lemma open_without_poll g ready conds p e :
  0 ≤ pfd p → open_entry g (pfd p) = Some e → fd_poll e = None →
  poll_answer g ready p = POLLNVAL ∧
  (S_ISREG (fd_stat e) = true → events p = POLLIN → posix_revents g conds p = POLLIN).
Proof.
  intros Hp He Ep. unfold poll_answer, posix_revents. rewrite !decide_False by lia. rewrite He. split.
  - unfold open_entry in He. destruct (files g !! Z.to_nat (pfd p)) as [e'|]; [|done].
    simpl in He. destruct (isopen e'); [|done]. injection He as ->. by rewrite Ep.
  - intros Hreg ->. unfold file_conds. by rewrite Hreg.
Qed.

Section posix_poll.
Context {S : Type} `{!Has ftable S, !Drivers S}.
Context (J : S → Prop) (ready : driver → Z → Z) (conds : Z → Z).
Context (Hready : poll_answers J ready) (Hbits : poll_bits ready).

(** C20: over drivers that answer sets of poll bits, as [drivers_answer] says they
    owe, and leave the table alone, one pass over an array whose open descriptors
    have a [poll] function and are no regular files ([pollable]; no negative
    [events]) fills every [revents]
    with what POSIX asks for: 0 for a negative number, [POLLNVAL] for a number
    that is no open descriptor, else the conditions that hold among those asked
    for, with errors and hang-ups always. It returns the number of entries with
    events, and no answer of a driver makes it fail. *)
Theorem poll_tentative_answers (s : S) fds :
  length (files (proj s)) = OPEN_MAX → J s → drivers_answer (proj s) ready conds →
  Forall (pollable (proj s)) fds →
  wp (poll_tentative fds (Z.of_nat (length fds))) s (λ '(r, fds') s',
    fds' = posix_polled (proj s) conds fds ∧ r = posix_count (proj s) conds fds ∧
    J s' ∧ proj (C:=ftable) s' = proj s).
Proof.
  intros Hg HJ Hdrv Hfds. destruct (poll_answered_posix _ _ _ _ Hdrv Hfds) as [<- <-].
  eauto using wp_poll_tentative, pollable_ok.
Qed.
End posix_poll.

(** ** Waiting *)

Lemma poll_answered_twice g ready ready' fds :
  poll_answered g ready (poll_answered g ready' fds) = poll_answered g ready fds.
Proof. unfold poll_answered. rewrite <- list_fmap_compose. by apply list_fmap_ext. Qed.

Lemma poll_count_answered g ready ready' fds :
  poll_count g ready (poll_answered g ready' fds) = poll_count g ready fds.
Proof.
  unfold poll_count, poll_answered. f_equal. induction fds as [|p fds IH]; [done|].
  rewrite fmap_cons, !list.filter_cons.
  change (poll_answer g ready (with_revents ?r p)) with (poll_answer g ready p).
  case_decide; simpl; congruence.
Qed.

Section poll_timeout.
Context {S : Type} `{!Has ftable S, !Drivers S, !Clock S, !ClockLaws S}.
(** What the drivers answer, and which conditions hold, at each instant. *)
Context (junk : timespec) (J : S → Prop) (ready : Z → driver → Z → Z) (conds : Z → Z → Z).

(** The instants, each between one reading of the clock and the next. *)
Fixpoint spaced (t0 : Z) (ts : list Z) : Prop :=
  match ts with
  | [] => True
  | t :: ts => t0 + clk_lo ≤ t ≤ t0 + clk_hi ∧ spaced t ts
  end.

(** Polling takes no time of the clock, and reading the clock does not disturb
    the drivers. *)
Definition now_is (n : Z) (s : S) : Prop := J s ∧ clk_ok s ∧ clk_now CLOCK_MONOTONIC s = n.

Definition clock_quiet : Prop := ∀ tp s r s',
  clock_gettime CLOCK_MONOTONIC tp s = Done (r, s') → J s → J s' ∧ proj (C:=ftable) s' = proj s.

Context (Hready : ∀ n, poll_answers (now_is n) (ready n)) (Hbits : ∀ n, poll_bits (ready n)).
Context (Hclk : clock_quiet).

(** The instants before the last were without events and before the time [d],
    the last had events or reached [d]. *)
Lemma wp_poll_until fuel d fds (s : S) g :
  proj s = g → length (files g) = OPEN_MAX → J s → clk_ok s → Forall pollfd_ok fds →
  0 ≤ clk_now CLOCK_MONOTONIC s → 0 ≤ d → Z.max d (clk_now CLOCK_MONOTONIC s) + clk_hi ≤ clk_limit →
  (0 < fuel)%nat → d - clk_now CLOCK_MONOTONIC s ≤ Z.of_nat fuel * clk_lo →
  wp (poll_until junk fuel (of_ns d) fds (Z.of_nat (length fds))) s (λ '(r, fds') s',
    let t := clk_now CLOCK_MONOTONIC s' in
    ∃ ts, spaced (clk_now CLOCK_MONOTONIC s) (ts ++ [t]) ∧
      Forall (λ u, u < d ∧ poll_count g (ready u) fds = 0) ts ∧
      fds' = poll_answered g (ready t) fds ∧ r = poll_count g (ready t) fds ∧ (r = 0 → d ≤ t)).
Proof.
  intros Hs Hg. pose proof clk_lo_pos. revert fds s Hs.
  induction fuel as [|fuel IH]; intros fds s Hs HJ Hok Hfds Hnow Hd Hlim Hpos Hfuel; [lia|].
  apply wp_loop_turn, wp_bind.
  destruct (clk_read CLOCK_MONOTONIC junk s) as (s1 & Hok1 & Hrun & Hb); [by left|done|lia|lia|].
  destruct (Hclk _ _ _ _ Hrun HJ) as [HJ1 Hs1]. rewrite Hs in Hs1.
  eapply wp_Done; [exact Hrun|]. simpl. apply wp_bind. set (t1 := clk_now CLOCK_MONOTONIC s1) in *.
  eapply wp_mono, (wp_poll_tentative _ _ (Hready t1) (Hbits t1)); [|by rewrite Hs1|done|done].
  rewrite Hs1. intros [r fds'] s2 (-> & -> & (HJ2 & Hok2 & Hn2) & Hs2).
  case_decide as Hr.
  { apply wp_ret. rewrite Hn2. exists []. split_and!; try done; simpl; lia. }
  assert (Hc : poll_count g (ready t1) fds = 0) by lia.
  assert (Hcmp : Z.sgn (timespec_cmp (of_ns t1) (of_ns d)) = Z.sgn (t1 - d)) by (apply cmp_of_ns; lia).
  case_decide.
  { apply wp_ret. rewrite Hn2. exists []. split_and!; try done; simpl; lia. }
  apply wp_ret. replace (length fds) with (length (poll_answered g (ready t1) fds)) by apply length_fmap.
  eapply wp_mono, (IH (poll_answered g (ready t1) fds) s2); [|done|done|done| |lia..].
  - intros [r fds'] s3 (ts & Hsp & Hts & -> & -> & Hend). rewrite Hn2 in Hsp.
    rewrite poll_answered_twice, poll_count_answered in *.
    exists (t1 :: ts). split_and!; try done. constructor; [lia|].
    revert Hts. apply Forall_impl. intros u. by rewrite poll_count_answered.
  - unfold poll_answered. apply Forall_fmap. exact Hfds.
Qed.

Lemma spaced_after t0 ts t u : spaced t0 (ts ++ [t]) → Forall (λ v, v < u) ts →
  t ≤ Z.max (t0 + clk_hi) (u + clk_hi).
Proof.
  revert t0. induction ts as [|v ts IH]; intros t0; simpl; [lia|].
  intros [Hv Hsp] [Hu Hts]%Forall_cons_1. specialize (IH v Hsp Hts). lia.
Qed.

(** C19: [poll] with a positive timeout completes, on an array and drivers as in
    the theorem on one pass, when the conditions of the descriptors are a function
    of the time on the clock, which fits [time_t] until then. It polls at a sequence
    of instants [ts ++ [t]] that follow each other by the time of one reading of
    the clock; no entry had events at those before the last; the answers and
    the number it returns are those POSIX asks for at the last, [t]. It returns 0
    not before the timeout, and returns at the latest three readings of the clock
    after it; events that last from an instant [u] on are reported at the latest
    one reading after [u], or two after the call. *)
Theorem poll_waits fuel fds timeout (s : S) :
  length (files (proj s)) = OPEN_MAX → J s → clk_ok s → Forall (pollable (proj s)) fds →
  (∀ n, drivers_answer (proj s) (ready n) (conds n)) →
  0 < timeout ≤ INT_MAX → 0 ≤ clk_now CLOCK_MONOTONIC s →
  clk_now CLOCK_MONOTONIC s + timeout * 1000000 + 3 * clk_hi ≤ clk_limit →
  timeout * 1000000 + clk_lo ≤ Z.of_nat fuel * clk_lo →
  wp (poll junk fuel fds (Z.of_nat (length fds)) timeout) s (λ '(r, fds') s',
    let now := clk_now CLOCK_MONOTONIC s in
    let t := clk_now CLOCK_MONOTONIC s' in
    (∃ t0 ts, spaced now (t0 :: ts ++ [t]) ∧ Forall (λ u, posix_count (proj s) (conds u) fds = 0) ts) ∧
    fds' = posix_polled (proj s) (conds t) fds ∧ r = posix_count (proj s) (conds t) fds ∧
    (r = 0 → now + timeout * 1000000 ≤ t) ∧ t ≤ now + timeout * 1000000 + 3 * clk_hi ∧
    (∀ u, (∀ v, u ≤ v → posix_count (proj s) (conds v) fds ≠ 0) →
       t ≤ Z.max (now + 2 * clk_hi) (u + clk_hi))).
Proof.
  intros Hg HJ Hok Hfds Hdrv Ht Hnow Hlim Hfuel. pose proof clk_lo_pos. unfold poll, INT_MAX in *.
  rewrite !decide_False by lia. apply wp_bind.
  destruct (clk_read CLOCK_MONOTONIC junk s) as (s1 & Hok1 & Hrun & Hb); [by left|done|lia|lia|].
  destruct (Hclk _ _ _ _ Hrun HJ) as [HJ1 Hs1]. eapply wp_Done; [exact Hrun|].
  cbv beta iota zeta. rewrite poll_timeout_of_ns by (unfold INT_MAX; lia). rewrite timespec_add_of_ns.
  2-3: apply normal_of_ns; lia.
  2: { unfold clk_limit, sum_safe in *. ts_unfold. simpl. zlia. }
  rewrite !ns_of_ns. pose proof (λ n, poll_answered_posix _ _ _ fds (Hdrv n) Hfds) as Hposix.
  eapply wp_mono, (wp_poll_until fuel _ fds s1 (proj s));
    [|done|done|done|done|by eapply pollable_ok|lia|lia|lia|nia|nia].
  intros [r fds'] s' (ts & Hsp & Hts & -> & -> & Hd). destruct (Hposix (clk_now CLOCK_MONOTONIC s')) as [-> Hn].
  rewrite Hn in Hd |- *. split_and!; try done; [|lia| |].
  - eexists _, ts. split; [by split|]. revert Hts. apply Forall_impl. intros u [_ <-].
    symmetry. apply Hposix.
  - apply (spaced_after _ _ _ (clk_now CLOCK_MONOTONIC s1 + timeout * 1000000)) in Hsp; [lia|].
    revert Hts. apply Forall_impl. by intros u [? _].
  - intros u Hu. apply (spaced_after _ _ _ u) in Hsp; [lia|]. revert Hts. apply Forall_impl.
    intros v [_ Hv]. rewrite (proj2 (Hposix v)) in Hv. destruct (decide (v < u)); [done|].
    destruct (Hu v); [lia|done].
Qed.
End poll_timeout.

(** ** A concrete system

    The dummy clock, the sockets 3, to which data comes 4000 ns after the start,
    and 4, which has data, and an open file 5. *)
Record poll_world := PollWorld {
  pw_table : ftable;
  pw_errno : errno;
  pw_clock : clock_dummy;
}.
#[export] Instance pw_has_table : Has ftable poll_world :=
  {| proj := pw_table; upd := λ c w, PollWorld c (pw_errno w) (pw_clock w) |}.
#[export] Instance pw_has_errno : Has errno poll_world :=
  {| proj := pw_errno; upd := λ e w, PollWorld (pw_table w) e (pw_clock w) |}.
#[export] Instance pw_has_clock : Has clock_dummy poll_world :=
  {| proj := pw_clock; upd := λ c w, PollWorld (pw_table w) (pw_errno w) c |}.
#[export] Instance pw_laws_clock : HasLaws clock_dummy poll_world.
Proof. split; [done|by intros []|done]. Qed.
#[export] Instance pw_indep1 : Indep ftable clock_dummy poll_world.
Proof. done. Qed.
#[export] Instance pw_indep2 : Indep clock_dummy ftable poll_world.
Proof. done. Qed.
#[export] Instance pw_clock_inst : Clock poll_world := embedded_clock.
#[export] Instance pw_clock_laws : ClockLaws poll_world := embedded_laws.

(** The answers of the sockets at the instant [n]. *)
Definition pw_conds (n fd : Z) : Z :=
  if decide (fd = 4) then 17 else if decide (fd = 3 ∧ 4000 ≤ n) then 1 else 0.
Definition pw_ready (n : Z) (d : driver) (fd : Z) : Z := pw_conds n fd.

Definition pw_now (w : poll_world) : Z := clk_now CLOCK_MONOTONIC w.

#[export] Instance pw_drivers : Drivers poll_world := {|
  drv_write _ _ ptr := mret (Z.of_nat (length ptr));
  drv_read _ _ _ := mret (0, []);
  drv_close _ _ := mret 0;
  drv_poll d fd := n ← gets pw_now; mret (pw_ready n d fd);
|}.

Definition pw_socket (fd : Z) : fd_t :=
  Fd fd (Stat S_IFSOCK 0 0 0) false true (Some DrvSocket) (Some DrvSocket) (Some DrvSocket)
     (Some DrvSocket) true 0 0 None.

Definition pw_file (fd : Z) : fd_t :=
  Fd fd (Stat S_IFREG 0 5 0) false true (Some DrvFatfs) (Some DrvFatfs) (Some DrvFatfs) None true 0 0 None.

Definition pw_init : poll_world :=
  PollWorld (Ftable (replicate 3 fd_zero ++ [pw_socket 3; pw_socket 4; pw_file 5] ++ replicate 14 fd_zero))
            E0 (ClockDummy TIMESPEC_ZERO TIMESPEC_ZERO E0).

Lemma pw_poll_answers n (J : poll_world → Prop) :
  (∀ w, J w → pw_now w = n) → poll_answers J (pw_ready n).
Proof. intros HJ d fd s Hs. unfold drv_poll, pw_drivers. wp_steps. by rewrite (HJ s Hs). Qed.

Lemma pw_poll_bits n : poll_bits (pw_ready n).
Proof. intros d fd. right. unfold pw_ready, pw_conds. repeat case_decide; lia. Qed.

Lemma pw_drivers_answer n : drivers_answer (pw_table pw_init) (pw_ready n) (pw_conds n).
Proof.
  intros fd e d _ He Hd.
  assert (Hall : Forall (λ e, is_Some (fd_poll e) → isopen e = true) (files (pw_table pw_init))).
  { repeat constructor; by intros [? [=]]. }
  rewrite (Forall_lookup_1 _ _ _ _ Hall He) by by eexists.
  split; [done|]. unfold pw_conds, POLLNVAL. repeat case_decide; lia.
Qed.

Lemma pw_clock_quiet : clock_quiet (λ _ : poll_world, True).
Proof.
  intros tp s r s' Hrun _. split; [done|].
  apply (clock_frame (ClockFrame := embedded_frame) _ _ _ _ _ Hrun).
Qed.

(** Descriptor 4, number 9 which nobody opened, and a negative number. *)
Definition pw_fds : list pollfd := [Pollfd 4 1 0; Pollfd 9 1 0; Pollfd (-1) 1 7].

Lemma pw_fds_ok : Forall (pollable (pw_table pw_init)) pw_fds.
Proof.
  repeat apply Forall_cons_2; try apply Forall_nil_2;
    (split; [by vm_compute|intros e He Hopen; vm_compute in Hopen]); try congruence.
  injection Hopen as <-. split; [done|by eexists].
Qed.

Lemma poll_tentative_answers_witness :
  wp (poll_tentative pw_fds (Z.of_nat (length pw_fds))) pw_init (λ '(r, fds') s',
    fds' = posix_polled (proj pw_init) (pw_conds 0) pw_fds ∧
    r = posix_count (proj pw_init) (pw_conds 0) pw_fds ∧ pw_now s' = 0 ∧ proj (C:=ftable) s' = proj pw_init) ∧
  posix_polled (proj pw_init) (pw_conds 0) pw_fds = [Pollfd 4 1 1; Pollfd 9 1 512; Pollfd (-1) 1 0].
Proof.
  split; [|vm_compute; reflexivity].
  apply (poll_tentative_answers (λ w, pw_now w = 0) (pw_ready 0) (pw_conds 0) (pw_poll_answers 0 _ (λ _, id))
           (pw_poll_bits 0)); [reflexivity|reflexivity|exact (pw_drivers_answer 0)|exact pw_fds_ok].
Defined.

(** The open file 5 is always ready, and is answered [POLLNVAL]. *)
Lemma open_without_poll_example :
  poll_answer (pw_table pw_init) (pw_ready 0) (Pollfd 5 POLLIN 0) = POLLNVAL ∧
  posix_revents (pw_table pw_init) (pw_conds 0) (Pollfd 5 POLLIN 0) = POLLIN.
Proof. done. Qed.

(** Socket 3 has nothing at the first poll, and data from 4000 ns on: a poll of
    2 ms returns 1 at that instant. *)
Definition pw_wait : list pollfd := [Pollfd 3 1 0].

Lemma pw_wait_ok : Forall (pollable (pw_table pw_init)) pw_wait.
Proof.
  apply Forall_cons_2, Forall_nil_2. split; [by vm_compute|]. intros e _ [= <-]. split; [done|by eexists].
Qed.

Lemma poll_waits_witness :
  wp (poll TIMESPEC_ZERO 2001 pw_wait (Z.of_nat (length pw_wait)) 2) pw_init (λ '(r, fds') s',
    let now := clk_now CLOCK_MONOTONIC pw_init in
    let t := clk_now CLOCK_MONOTONIC s' in
    (∃ t0 ts, spaced now (t0 :: ts ++ [t]) ∧ Forall (λ u, posix_count (proj pw_init) (pw_conds u) pw_wait = 0) ts) ∧
    fds' = posix_polled (proj pw_init) (pw_conds t) pw_wait ∧ r = posix_count (proj pw_init) (pw_conds t) pw_wait ∧
    (r = 0 → now + 2 * 1000000 ≤ t) ∧ t ≤ now + 2 * 1000000 + 3 * clk_hi ∧
    (∀ u, (∀ v, u ≤ v → posix_count (proj pw_init) (pw_conds v) pw_wait ≠ 0) →
       t ≤ Z.max (now + 2 * clk_hi) (u + clk_hi))) ∧
  ∃ s', poll TIMESPEC_ZERO 2001 pw_wait 1 2 pw_init = Done ((1, [Pollfd 3 1 1]), s') ∧ pw_now s' = 4000.
Proof.
  split; [|eexists; split; vm_compute; reflexivity].
  apply (poll_waits TIMESPEC_ZERO (λ _, True) pw_ready pw_conds
           (λ n, pw_poll_answers n _ (λ w H, proj2 (proj2 H))) pw_poll_bits pw_clock_quiet);
    try (vm_compute; split; congruence); try (vm_compute; congruence).
  - split; vm_compute; split; congruence.
  - exact pw_wait_ok.
  - exact pw_drivers_answer.
Defined.
