(* ===== verification/Select.v ===== *)
(** * select: [src/select.c], [include/sys/select.h]

    The sets of descriptors, and [pselect] and [select] on top of [poll]. A
    pointer to a set is an option; sets passed by pointer are returned. *)

From stdpp Require Import prelude list numbers.
From S2P Require Import Prelude Timespec Clock ClockDummy Files Poll.

Definition FD_SETSIZE : Z := Z.of_nat OPEN_MAX.

(** [mask], an array of 32-bit words. *)
Definition fd_set : Type := list Z.

Definition FD_SET_WORDS : nat := Z.to_nat ((FD_SETSIZE + 32 - 1) / 32).

Definition get_fd_set_mask_idx (fd : Z) : Z := u32 fd / 32.
Definition get_fd_set_mask_bitmask (fd : Z) : Z :=
  let fd := Z.land fd (32 - 1) in u32 (Z.shiftl 1 fd).

Definition in_range (fd : Z) : bool := bool_decide (fd >= 0 ∧ fd < FD_SETSIZE).

Definition FD_CLR (fd : Z) (fdset : option fd_set) : outcome (option fd_set) :=
  match fdset with
  | Some s =>
      if in_range fd then
        let i := get_fd_set_mask_idx fd in
        let bitmask := get_fd_set_mask_bitmask fd in
        m ← aget s i;
        s ← aset s i (Z.land m (u32 (Z.lnot bitmask)));
        Done (Some s)
      else Done fdset
  | None => Done None
  end.

Definition FD_ISSET (fd : Z) (fdset : option fd_set) : outcome bool :=
  match fdset with
  | Some s =>
      if in_range fd then
        let i := get_fd_set_mask_idx fd in
        let bitmask := get_fd_set_mask_bitmask fd in
        m ← aget s i;
        Done (bool_decide (Z.land m bitmask ≠ 0))
      else Done false
  | None => Done false
  end.

Definition FD_SET (fd : Z) (fdset : option fd_set) : outcome (option fd_set) :=
  match fdset with
  | Some s =>
      if in_range fd then
        let i := get_fd_set_mask_idx fd in
        let bitmask := get_fd_set_mask_bitmask fd in
        m ← aget s i;
        s ← aset s i (Z.lor m bitmask);
        Done (Some s)
      else Done fdset
  | None => Done None
  end.

Definition FD_ZERO (fdset : option fd_set) : option fd_set :=
  match fdset with Some _ => Some (replicate FD_SET_WORDS 0) | None => None end.

(** The three sets of a call. *)
Definition fd_sets : Type := option fd_set * option fd_set * option fd_set.

Definition any_set (fd : Z) (sets : fd_sets) : outcome bool :=
  let '(readfds, writefds, errorfds) := sets in
  r ← FD_ISSET fd readfds;
  if r : bool then Done true
  else
    w ← FD_ISSET fd writefds;
    if w : bool then Done true else FD_ISSET fd errorfds.

Section select.
Context {S : Type} `{!Has ftable S, !Has errno S, !Drivers S, !Clock S}.
(** What the uninitialised locals hold. *)
Context (junk : timespec) (junk_revents : Z).

Definition pselect_events : Z :=
  Z.lor (Z.lor (Z.lor (Z.lor POLLIN POLLRDNORM) (Z.lor POLLRDBAND POLLPRI))
    (Z.lor (Z.lor POLLOUT POLLWRNORM) POLLWRBAND))
    (Z.lor (Z.lor POLLERR POLLHUP) POLLNVAL).

Definition pselect_one (fd : Z) (sets : fd_sets) : M S (Z * fd_sets) :=
  any ← lift (any_set fd sets);
  if any : bool then
    '(pollret, ps) ← poll junk 1 [Pollfd fd pselect_events junk_revents] 1 0;
    p ← lift (aget ps 0);
    if decide (pollret = -1 ∨ Z.land (revents p) POLLNVAL ≠ 0) then
      _ ← set_errno EBADF; mret (-1, sets)
    else
      let '(readfds, writefds, errorfds) := sets in
      readfds ← (if decide (Z.land (revents p) (Z.lor (Z.lor POLLIN POLLRDNORM) (Z.lor POLLERR POLLHUP)) = 0)
                 then lift (FD_CLR fd readfds) else mret readfds);
      writefds ← (if decide (Z.land (revents p) (Z.lor (Z.lor POLLOUT POLLWRNORM) (Z.lor POLLERR POLLHUP)) = 0)
                  then lift (FD_CLR fd writefds) else mret writefds);
      errorfds ← (if decide (Z.land (revents p) (Z.lor (Z.lor POLLRDBAND POLLWRBAND) POLLPRI) = 0)
                  then lift (FD_CLR fd errorfds) else mret errorfds);
      any ← lift (any_set fd (readfds, writefds, errorfds));
      mret (if any : bool then 1 else 0, (readfds, writefds, errorfds))
  else mret (0, sets).

Definition pselect_tentative (nfds : Z) (sets : fd_sets) : M S (Z * fd_sets) :=
  '((ret, sets), _) ← for_break (Z.to_nat nfds) 0 (λ fd '(ret, sets),
    '(ret_one, sets) ← pselect_one fd sets;
    if decide (ret_one = -1) then mret (inr (-1, sets))
    else mret (inl (ret + ret_one, sets))) (0, sets);
  mret (ret, sets).

Definition pselect (fuel : nat) (nfds : Z) (sets : fd_sets) (timeout : option timespec)
    : M S (Z * fd_sets) :=
  tend ← match timeout with
         | None => mret TIMESPEC_INFINITY
         | Some t =>
             '(_, tend) ← clock_gettime CLOCK_MONOTONIC junk;
             mret (timespec_add tend t)
         end;
  let '(readfds, writefds, errorfds) := sets in
  readfds_in ← lift (deref readfds);
  writefds_in ← lift (deref writefds);
  errorfds_in ← lift (deref errorfds);
  loop fuel (λ sets,
    '(ret, tcurrent) ← clock_gettime CLOCK_MONOTONIC junk;
    if decide (ret ≠ 0) then mret (inr (ret, sets))
    else
      '(ret, sets) ← pselect_tentative nfds sets;
      if decide (ret ≠ 0) then mret (inr (ret, sets))
      else if decide (timespec_cmp tcurrent tend >= 0) then mret (inr (ret, sets))
      else mret (inl (Some readfds_in, Some writefds_in, Some errorfds_in))) sets.

Definition select (fuel : nat) (nfds : Z) (sets : fd_sets) (timeout : option timeval)
    : M S (Z * fd_sets) :=
  tv ← lift (deref timeout);
  pselect fuel nfds sets (Some (timeval_to_timespec tv)).
End select.

(** ** Properties *)

(** The word of a set. *)
Definition fd_word (fdset : option fd_set) : Z :=
  match fdset with Some (m :: _) => m | _ => 0 end.

Definition is_fd_set (fdset : option fd_set) : Prop := ∃ m, fdset = Some [m] ∧ is_u32 m.

Definition member (fd : Z) (fdset : option fd_set) : bool := Z.testbit (fd_word fdset) fd.

Definition fd_valid (fd : Z) : Prop := 0 ≤ fd < FD_SETSIZE.

Lemma fd_mask fd : fd_valid fd →
  in_range fd = true ∧ get_fd_set_mask_idx fd = 0 ∧ get_fd_set_mask_bitmask fd = 2 ^ fd.
Proof.
  unfold fd_valid, in_range, get_fd_set_mask_idx, get_fd_set_mask_bitmask, FD_SETSIZE, OPEN_MAX.
  intros Hfd. split; [apply bool_decide_eq_true_2; lia|]. split; [unfold u32; zlia|].
  change (32 - 1) with (Z.ones 5). rewrite Z.land_ones, Z.mod_small by lia.
  rewrite Z.shiftl_1_l. apply u32_id. unfold is_u32. change 4294967296 with (2 ^ 32).
  split; [apply Z.pow_nonneg; lia|apply Z.pow_lt_mono_r; lia].
Qed.

Lemma pow2_u32 fd : fd_valid fd → 0 ≤ 2 ^ fd < 2 ^ 32.
Proof.
  unfold fd_valid, FD_SETSIZE, OPEN_MAX. intros.
  split; [apply Z.pow_nonneg; lia|apply Z.pow_lt_mono_r; lia].
Qed.

Lemma FD_ISSET_spec fd s : is_fd_set s → fd_valid fd → FD_ISSET fd s = Done (member fd s).
Proof.
  intros (m & -> & Hm) Hfd. destruct (fd_mask fd Hfd) as (Hr & Hi & Hb).
  unfold FD_ISSET. rewrite Hr, Hi, Hb. simpl. f_equal. unfold member. simpl.
  assert (Z.land m (2 ^ fd) = if Z.testbit m fd then 2 ^ fd else 0) as ->.
  { apply Z.bits_inj'. intros n Hn. unfold fd_valid in Hfd. rewrite Z.land_spec, Z.pow2_bits_eqb by lia.
    destruct (Z.eqb_spec fd n) as [->|Hne].
    - rewrite andb_true_r. destruct (Z.testbit m n); [|by rewrite Z.bits_0]. by rewrite Z.pow2_bits_true by lia.
    - rewrite andb_false_r. destruct (Z.testbit m fd); [|by rewrite Z.bits_0].
      by rewrite Z.pow2_bits_false by lia. }
  destruct (Z.testbit m fd); [|done]. apply bool_decide_eq_true_2. unfold fd_valid in Hfd.
  apply Z.pow_nonzero; lia.
Qed.

Lemma FD_SET_spec fd s : is_fd_set s → fd_valid fd → ∃ s', FD_SET fd s = Done s' ∧ is_fd_set s' ∧
  ∀ j, 0 ≤ j → member j s' = (bool_decide (j = fd) || member j s).
Proof.
  intros (m & -> & Hm) Hfd. destruct (fd_mask fd Hfd) as (Hr & Hi & Hb).
  unfold FD_SET. rewrite Hr, Hi, Hb. simpl. eexists. split; [done|]. split.
  - eexists. split; [done|]. apply (lor_range 32); [lia|exact Hm|by apply pow2_u32].
  - intros j Hj. unfold member, fd_valid in *. simpl. rewrite Z.lor_spec, Z.pow2_bits_eqb by lia.
    rewrite orb_comm. f_equal. by destruct (Z.eqb_spec fd j), (bool_decide_reflect (j = fd)); subst.
Qed.

Lemma FD_CLR_spec fd s : is_fd_set s → fd_valid fd → ∃ s', FD_CLR fd s = Done s' ∧ is_fd_set s' ∧
  ∀ j, 0 ≤ j < 32 → member j s' = (negb (bool_decide (j = fd)) && member j s).
Proof.
  intros (m & -> & Hm) Hfd. destruct (fd_mask fd Hfd) as (Hr & Hi & Hb).
  unfold FD_CLR. rewrite Hr, Hi, Hb. simpl. eexists. split; [done|]. split.
  - eexists. split; [done|]. unfold is_u32. change 4294967296 with (2 ^ 32).
    rewrite <- (Z.mod_small m (2 ^ 32)) by exact Hm.
    rewrite <- Z.land_ones, <- Z.land_assoc, (Z.land_comm (Z.ones 32)), Z.land_assoc, Z.land_ones by lia.
    apply Z.mod_pos_bound. lia.
  - intros j Hj. unfold member, fd_valid in *. simpl. rewrite Z.land_spec. unfold u32.
    change 4294967296 with (2 ^ 32). rewrite Z.mod_pow2_bits_low, Z.lnot_spec, Z.pow2_bits_eqb by lia.
    rewrite andb_comm. f_equal. f_equal.
    by destruct (Z.eqb_spec fd j), (bool_decide_reflect (j = fd)); subst.
Qed.

(** The macros are the set operations on the numbers below [FD_SETSIZE],
    each on its own bit of the words; they ignore numbers outside that range
    and never index outside the set. *)
Theorem fd_set_operations fd s :
  is_fd_set s →
  (FD_ZERO s = Some [0]) ∧
  (¬ fd_valid fd → FD_SET fd s = Done s ∧ FD_CLR fd s = Done s ∧ FD_ISSET fd s = Done false) ∧
  (fd_valid fd →
    FD_ISSET fd s = Done (member fd s) ∧
    (∃ s', FD_SET fd s = Done s' ∧ is_fd_set s' ∧
       ∀ j, fd_valid j → member j s' = (bool_decide (j = fd) || member j s)) ∧
    (∃ s', FD_CLR fd s = Done s' ∧ is_fd_set s' ∧
       ∀ j, fd_valid j → member j s' = (negb (bool_decide (j = fd)) && member j s))).
Proof.
  intros Hs. split; [by destruct Hs as (m & -> & _)|]. split.
  - intros Hfd. assert (Hr : in_range fd = false).
    { apply bool_decide_eq_false_2. unfold fd_valid in Hfd. lia. }
    destruct Hs as (m & -> & _). unfold FD_SET, FD_CLR, FD_ISSET. by rewrite Hr.
  - intros Hfd. split; [by apply FD_ISSET_spec|]. unfold fd_valid, FD_SETSIZE, OPEN_MAX in *. split.
    + destruct (FD_SET_spec fd s Hs Hfd) as (s' & ? & ? & Hm). exists s'. split_and!; [done..|].
      intros j Hj. apply Hm. lia.
    + destruct (FD_CLR_spec fd s Hs Hfd) as (s' & ? & ? & Hm). exists s'. split_and!; [done..|].
      intros j Hj. apply Hm. lia.
Qed.

Lemma fd_set_operations_witness :
  let s := Some [9] in
  (FD_ZERO s = Some [0]) ∧
  (¬ fd_valid 3 → FD_SET 3 s = Done s ∧ FD_CLR 3 s = Done s ∧ FD_ISSET 3 s = Done false) ∧
  (fd_valid 3 →
    FD_ISSET 3 s = Done (member 3 s) ∧
    (∃ s', FD_SET 3 s = Done s' ∧ is_fd_set s' ∧
       ∀ j, fd_valid j → member j s' = (bool_decide (j = 3) || member j s)) ∧
    (∃ s', FD_CLR 3 s = Done s' ∧ is_fd_set s' ∧
       ∀ j, fd_valid j → member j s' = (negb (bool_decide (j = 3)) && member j s))).
Proof.
  apply (fd_set_operations 3 (Some [9])). exists 9. split; [reflexivity|].
  split; vm_compute; congruence.
Defined.

(** The events that keep a descriptor in each set. *)
Definition sel_read : Z := Z.lor (Z.lor POLLIN POLLRDNORM) (Z.lor POLLERR POLLHUP).
Definition sel_write : Z := Z.lor (Z.lor POLLOUT POLLWRNORM) (Z.lor POLLERR POLLHUP).
Definition sel_error : Z := Z.lor (Z.lor POLLRDBAND POLLWRBAND) POLLPRI.

(** A descriptor stays in a set when it was in it and one of the events is there. *)
Definition selected (ans : Z → Z) (bits : Z) (set : option fd_set) (fd : Z) : bool :=
  member fd set && bool_decide (Z.land (ans fd) bits ≠ 0).

Definition requested (sets : fd_sets) (fd : Z) : bool :=
  let '(r, w, e) := sets in member fd r || member fd w || member fd e.

Definition still_selected (ans : Z → Z) (sets : fd_sets) (fd : Z) : bool :=
  let '(r, w, e) := sets in
  selected ans sel_read r fd || selected ans sel_write w fd || selected ans sel_error e fd.

Definition are_fd_sets (sets : fd_sets) : Prop :=
  let '(r, w, e) := sets in is_fd_set r ∧ is_fd_set w ∧ is_fd_set e.

(** [set'] is [set] with the numbers of [l] filtered by their events. *)
Definition filtered (ans : Z → Z) (bits : Z) (l : Z → Prop) `{!∀ z, Decision (l z)}
    (set set' : option fd_set) : Prop :=
  ∀ j, 0 ≤ j < 32 → member j set' = if decide (l j) then selected ans bits set j else member j set.

Definition sets_filtered (ans : Z → Z) (l : Z → Prop) `{!∀ z, Decision (l z)} (sets sets' : fd_sets) : Prop :=
  let '(r, w, e) := sets in let '(r', w', e') := sets' in
  filtered ans sel_read l r r' ∧ filtered ans sel_write l w w' ∧ filtered ans sel_error l e e'.

Lemma any_set_spec fd sets :
  are_fd_sets sets → fd_valid fd → any_set fd sets = Done (requested sets fd).
Proof.
  destruct sets as [[r w] e]. intros (Hr & Hw & He) Hfd. unfold any_set, requested.
  rewrite !FD_ISSET_spec by done. simpl.
  destruct (member fd r); [done|]. simpl. by destruct (member fd w).
Qed.

Section select_laws.
Context {S : Type} `{!Has ftable S, !Has errno S, !Drivers S, !Clock S}.
Context (junk : timespec) (junk_revents : Z) (J : S → Prop) (ready : driver → Z → Z).
Context (Hready : poll_answers J ready) (Hbits : poll_bits ready).
Context (g : ftable) (Hg : length (files g) = OPEN_MAX).

(** The answer of [poll] about a descriptor, asked for all events. *)
Definition sel_answer (fd : Z) : Z := poll_answer g ready (Pollfd fd pselect_events junk_revents).

Lemma wp_filter_set (s : S) bits fd x (Q : option fd_set → S → Prop) :
  is_fd_set x → fd_valid fd →
  (∀ x', is_fd_set x' → filtered sel_answer bits (.= fd) x x' → Q x' s) →
  wp (if decide (Z.land (sel_answer fd) bits = 0) then lift (FD_CLR fd x) else mret x) s Q.
Proof.
  intros Hx Hfd HQ. case_decide as Hb.
  - destruct (FD_CLR_spec fd x Hx Hfd) as (x' & Heq & Hx' & Hm). eapply wp_lift; [done|].
    apply HQ; [done|]. intros j Hj. rewrite Hm by done. unfold selected. case_decide as Hjf; subst.
    + rewrite bool_decide_eq_true_2, Hb by done. by rewrite andb_comm.
    + by rewrite bool_decide_eq_false_2.
  - apply wp_ret, HQ; [done|]. intros j Hj. unfold selected. case_decide as Hjf; subst; [|done].
    rewrite bool_decide_eq_true_2 by done. by rewrite andb_true_r.
Qed.

(** One descriptor. *)
Lemma wp_pselect_one (s : S) fd sets (Q : Z * fd_sets → S → Prop) :
  proj s = g → J s → are_fd_sets sets → fd_valid fd →
  (∀ s', requested sets fd = true → Z.land (sel_answer fd) POLLNVAL ≠ 0 → Q (-1, sets) s') →
  (∀ s' sets', proj s' = g → J s' → are_fd_sets sets' → sets_filtered sel_answer (.= fd) sets sets' →
     (requested sets fd = true → Z.land (sel_answer fd) POLLNVAL = 0) →
     Q (if still_selected sel_answer sets fd then 1 else 0, sets') s') →
  wp (pselect_one junk junk_revents fd sets) s Q.
Proof.
  intros Hs HJ Hsets Hfd Hbad Hok. unfold pselect_one. apply wp_bind.
  eapply wp_lift; [by apply any_set_spec|]. destruct sets as [[r w] e].
  destruct (requested (r, w, e) fd) eqn:Hreq.
  2: { apply wp_ret. simpl in Hreq. apply orb_false_iff in Hreq as [[Hr Hw]%orb_false_iff He].
       assert (Hsel : still_selected sel_answer (r, w, e) fd = false).
       { unfold still_selected, selected. by rewrite Hr, Hw, He. }
       specialize (Hok s (r, w, e) Hs HJ Hsets). rewrite Hsel in Hok. apply Hok; [|done].
       split_and!; intros j _; case_decide; subst; unfold selected; by rewrite ?Hr, ?Hw, ?He. }
  apply wp_bind. unfold poll. rewrite decide_True by done.
  eapply wp_mono, (wp_poll_tentative J ready Hready Hbits s [Pollfd fd pselect_events junk_revents]);
    [|by rewrite Hs|done|by repeat constructor].
  rewrite Hs. intros [ret ps] s' (-> & -> & HJ' & Hs'). apply wp_bind. eapply wp_lift; [done|].
  change (revents _) with (sel_answer fd). destruct Hsets as (Hr & Hw & He).
  assert (Hcnt : poll_count g ready [Pollfd fd pselect_events junk_revents] ≠ -1)
    by (unfold poll_count; lia).
  destruct (decide (Z.land (sel_answer fd) POLLNVAL ≠ 0)) as [Hn|Hn].
  - rewrite decide_True by auto. wp_steps. by apply Hbad.
  - rewrite decide_False by tauto. cbv beta iota zeta.
    apply wp_bind. eapply wp_filter_set; [done..|]. intros r' Hr' Hfr.
    apply wp_bind. eapply wp_filter_set; [done..|]. intros w' Hw' Hfw.
    apply wp_bind. eapply wp_filter_set; [done..|]. intros e' He' Hfe.
    apply wp_bind. eapply wp_lift; [by apply any_set_spec|]. apply wp_ret.
    assert (Hstill : requested (r', w', e') fd = still_selected sel_answer (r, w, e) fd).
    { unfold fd_valid, FD_SETSIZE, OPEN_MAX in Hfd. unfold requested, still_selected.
      rewrite Hfr, Hfw, Hfe, !decide_True by (done || lia). done. }
    rewrite Hstill. apply Hok; [done..|by split|by split|intros _; lia].
Qed.

(** The number of descriptors below [n] that stay in some set. *)
Definition sel_count (sets : fd_sets) (n : Z) : Z :=
  Z.of_nat (length (filter (λ fd, still_selected sel_answer sets fd = true) (seqZ 0 n))).

Lemma sel_count_succ sets n : 0 ≤ n →
  sel_count sets (n + 1) = sel_count sets n + (if still_selected sel_answer sets n then 1 else 0).
Proof.
  intros Hn. unfold sel_count. rewrite seqZ_app by lia. rewrite list.filter_app, length_app, Nat2Z.inj_add.
  f_equal. change (seqZ (0 + n) 1) with [0 + n]. rewrite Z.add_0_l, list.filter_cons.
  by destruct (still_selected sel_answer sets n).
Qed.

Lemma filtered_step bits n set1 set2 set3 :
  filtered sel_answer bits (λ j, j < n) set1 set2 → filtered sel_answer bits (.= n) set2 set3 →
  filtered sel_answer bits (λ j, j < n + 1) set1 set3.
Proof.
  intros H12 H23 j Hj. rewrite H23 by done. unfold selected. rewrite (H12 j Hj).
  destruct (decide (j = n)), (decide (j < n)), (decide (j < n + 1)); try lia; done.
Qed.

Lemma sets_filtered_step n sets1 sets2 sets3 :
  sets_filtered sel_answer (λ j, j < n) sets1 sets2 → sets_filtered sel_answer (.= n) sets2 sets3 →
  sets_filtered sel_answer (λ j, j < n + 1) sets1 sets3.
Proof.
  destruct sets1 as [[??]?], sets2 as [[??]?], sets3 as [[??]?].
  intros (?&?&?) (?&?&?). split_and!; by eapply filtered_step.
Qed.

(** Descriptors not yet looked at are as in the caller's sets. *)
Lemma sets_filtered_ahead n sets sets' :
  0 ≤ n < 32 → sets_filtered sel_answer (λ j, j < n) sets sets' →
  requested sets' n = requested sets n ∧
  still_selected sel_answer sets' n = still_selected sel_answer sets n.
Proof.
  destruct sets as [[r w] e], sets' as [[r' w'] e']. intros Hn (Hr & Hw & He).
  unfold requested, still_selected, selected.
  rewrite Hr, Hw, He, !decide_False by lia. done.
Qed.

(** C21: one pass of [pselect] over the descriptors below [nfds]: when every
    requested one can be polled, each set keeps exactly the descriptors with an
    event of its kind (those from [nfds] on are left alone), and the result is
    the number of descriptors that stay in some set; otherwise it fails. *)
Theorem pselect_tentative_filters (s : S) nfds sets :
  proj s = g → J s → are_fd_sets sets → 0 ≤ nfds ≤ FD_SETSIZE →
  wp (pselect_tentative junk junk_revents nfds sets) s (λ '(ret, sets') s',
    (ret = -1 ∧ ∃ fd, 0 ≤ fd < nfds ∧ requested sets fd = true ∧ Z.land (sel_answer fd) POLLNVAL ≠ 0) ∨
    (ret = sel_count sets nfds ∧ sets_filtered sel_answer (λ j, j < nfds) sets sets' ∧
     are_fd_sets sets' ∧ J s' ∧ proj (C:=ftable) s' = g ∧
     ∀ fd, 0 ≤ fd < nfds → requested sets fd = true → Z.land (sel_answer fd) POLLNVAL = 0)).
Proof.
  intros Hs HJ Hsets Hn. unfold pselect_tentative, FD_SETSIZE, OPEN_MAX in *. apply wp_bind.
  apply wp_for_break with (I := λ n '(ret, sets') s',
    ret = sel_count sets n ∧ sets_filtered sel_answer (λ j, j < n) sets sets' ∧
    are_fd_sets sets' ∧ J s' ∧ proj (C:=ftable) s' = g ∧
    ∀ fd, 0 ≤ fd < n → requested sets fd = true → Z.land (sel_answer fd) POLLNVAL = 0).
  - split; [done|]. split; [|split_and!; [done..|lia]]. destruct sets as [[r w] e].
    split_and!; intros j Hj; by rewrite decide_False by lia.
  - intros fd [ret sets'] s' Hfd (-> & Hfil & Hsets' & HJ' & Hs' & Hval).
    destruct (sets_filtered_ahead fd sets sets') as [Hreq Hsel]; [lia|done|].
    apply wp_bind. eapply wp_pselect_one; [done..|unfold fd_valid, FD_SETSIZE, OPEN_MAX; lia| |].
    + intros s'' Hr Hnv. rewrite decide_True by done. apply wp_ret, wp_ret. left. split; [done|].
      exists fd. rewrite <- Hreq. split_and!; [lia|lia|done|done].
    + intros s'' sets'' Hs'' HJ'' Hsets'' Hfil'' Hval''. rewrite decide_False by (by destruct still_selected).
      apply wp_ret. split; [|split_and!; [by eapply sets_filtered_step|done..|]].
      * rewrite sel_count_succ, Hsel by lia. done.
      * intros fd' Hfd' Hr'. destruct (decide (fd' = fd)) as [->|]; [apply Hval''; congruence|].
        apply Hval; [lia|done].
  - intros [ret sets'] s' (-> & Hrest). apply wp_ret. right.
    replace (0 + Z.of_nat (Z.to_nat nfds)) with nfds in * by lia. by split.
Qed.
End select_laws.

(** The sets and the timeout that POSIX allows to be null are
    dereferenced: [pselect] without one of the three sets, and [select] without
    a timeout, are undefined. *)
Theorem select_null_undefined {S} `{!Has ftable S, !Has errno S, !Drivers S, !Clock S, !ClockLaws S}
    junk junk_revents fuel nfds r w e timeout tv (s : S) :
  clk_ok s → 0 ≤ clk_now CLOCK_MONOTONIC s → clk_now CLOCK_MONOTONIC s + clk_hi ≤ clk_limit →
  r = None ∨ w = None ∨ e = None →
  pselect junk junk_revents fuel nfds (r, w, e) timeout s = Fault ∧
  select junk junk_revents fuel nfds (r, w, e) tv s = Fault ∧
  ∀ sets, select junk junk_revents fuel nfds sets None s = Fault.
Proof.
  intros Hok H0 Hlim Hnull.
  assert (Hp : ∀ timeout, pselect junk junk_revents fuel nfds (r, w, e) timeout s = Fault).
  { intros to. unfold pselect.
    assert (Hsets : ∀ (s' : S) tend, (λ tend,
        readfds_in ← lift (deref r); writefds_in ← lift (deref w); errorfds_in ← lift (deref e);
        loop fuel (λ sets,
          '(ret, tcurrent) ← clock_gettime CLOCK_MONOTONIC junk;
          if decide (ret ≠ 0) then mret (inr (ret, sets))
          else
            '(ret, sets) ← pselect_tentative junk junk_revents nfds sets;
            if decide (ret ≠ 0) then mret (inr (ret, sets))
            else if decide (timespec_cmp tcurrent tend >= 0) then mret (inr (ret, sets))
            else mret (inl (Some readfds_in, Some writefds_in, Some errorfds_in))) (r, w, e)) tend s' = Fault).
    { intros s' tend. by destruct Hnull as [-> | [-> | ->]]; [|destruct r|destruct r, w]. }
    destruct to as [t|]; [|apply Hsets]. apply bind_fault, wp_bind, wp_clock_gettime; [by left|done..|].
    intros s' _ _. apply wp_ret. apply Hsets. }
  split; [apply Hp|]. split; [|done]. unfold select. destruct tv as [tv|]; [|done]. apply Hp.
Qed.

Lemma pw_sets_ok : are_fd_sets (Some [24], Some [8], Some [0]).
Proof. split_and!; (eexists; split; [reflexivity|]; split; vm_compute; congruence). Qed.

(** Descriptors 3 and 4 wait for input, 3 for output too: 4 is readable. *)
Lemma pselect_tentative_filters_witness :
  let g := pw_table pw_init in
  let sets := (Some [24], Some [8], Some [0]) in
  wp (pselect_tentative TIMESPEC_ZERO 0 5 sets) pw_init (λ '(ret, sets') s',
    (ret = -1 ∧ ∃ fd, 0 ≤ fd < 5 ∧ requested sets fd = true ∧
       Z.land (sel_answer 0 (pw_ready 0) g fd) POLLNVAL ≠ 0) ∨
    (ret = sel_count 0 (pw_ready 0) g sets 5 ∧
     sets_filtered (sel_answer 0 (pw_ready 0) g) (λ j, j < 5) sets sets' ∧
     are_fd_sets sets' ∧ pw_now s' = 0 ∧ proj (C:=ftable) s' = g ∧
     ∀ fd, 0 ≤ fd < 5 → requested sets fd = true → Z.land (sel_answer 0 (pw_ready 0) g fd) POLLNVAL = 0)).
Proof.
  apply (pselect_tentative_filters TIMESPEC_ZERO 0 (λ w, pw_now w = 0) (pw_ready 0)
           (pw_poll_answers 0 _ (λ _, id)) (pw_poll_bits 0) (pw_table pw_init) eq_refl pw_init);
    [reflexivity|reflexivity|exact pw_sets_ok|].
  vm_compute. split; congruence.
Defined.

Lemma select_null_undefined_witness :
  let sets := (Some [8], None, None) in
  pselect TIMESPEC_ZERO 0 10 4 sets None pw_init = Fault ∧
  select TIMESPEC_ZERO 0 10 4 sets (Some (Timeval 1 0)) pw_init = Fault ∧
  ∀ sets, select TIMESPEC_ZERO 0 10 4 sets None pw_init = Fault.
Proof.
  apply (select_null_undefined TIMESPEC_ZERO 0 10 4 (Some [8]) None None None (Some (Timeval 1 0)) pw_init).
  - split; vm_compute; split; congruence.
  - vm_compute. congruence.
  - vm_compute. congruence.
  - right. by left.
Defined.
