(* ===== verification/Sockets.v ===== *)
(** * The socket interface: [include/sys/socket.h], [include/netinet/in.h]

    What the network clients (DHCP, DNS, SNTP, RFC 868) expect of the socket
    layer that is linked into the program. A buffer passed by pointer is passed
    with its contents and returned; calls with null addresses and flags 0, the
    only ones the clients make, are represented. *)

From stdpp Require Import prelude list numbers gmap.
From S2P Require Import Prelude Timespec.

Definition AF_INET : Z := 1.
Definition AF_INET6 : Z := 2.
Definition AF_UNIX : Z := 3.
Definition AF_UNSPEC : Z := 4.
Definition SOCK_STREAM : Z := 1.
Definition SOCK_DGRAM : Z := 2.
Definition IPPROTO_TCP : Z := 5.
Definition IPPROTO_UDP : Z := 6.
Definition INADDR_ANY : Z := 0.
Definition INADDR_BROADCAST : Z := 4294967295.

(** Port and address are in network byte order. *)
Record sockaddr_in := SockaddrIn { sin_family : Z; sin_port : Z; sin_addr : Z }.

(** [setsockopt] with its option and value, at the level [SOL_SOCKET]. *)
Inductive sockopt :=
| SO_RCVTIMEO (t : timeval)
| SO_SNDTIMEO (t : timeval)
| SO_BROADCAST (on : Z).

Class Sockets (S : Type) := {
  socket : Z → Z → Z → M S Z;
  setsockopt : Z → sockopt → M S Z;
  bind : Z → sockaddr_in → M S Z;
  connect : Z → sockaddr_in → M S Z;
  send : Z → list Z → M S Z;
  sendto : Z → list Z → sockaddr_in → M S Z;
  recv : Z → list Z → M S (Z * list Z);
  recvfrom : Z → list Z → M S (Z * list Z);
  close : Z → M S Z;
}.

(** [rand] of the C library: a value of type [int]. *)
Class Rand (S : Type) := rand : M S Z.

(** ** The promise to a client whose state is the component [C]

    The calls leave the client's variables alone; [socket] adds a new open
    socket, [close] removes one; what a receiving socket delivers is bytes and
    fits the buffer (or is the 1 of a socket that is not connected). The promise comes in the strengths of [twp]: in the [Total]
    reading every call returns, and a receiving socket has a timeout: [inbox]
    bounds the datagrams it delivers before it fails, [net_burst] bounds
    [inbox]. In the [Partial] reading this is what holds of the calls that
    return. *)
Class SocketsLaws (t : reading) (C S : Type) `{!Has C S, !Sockets S} := {
  net_ok : S → Prop;
  open_socks : S → gset Z;
  inbox : S → nat;
  net_burst : nat;
  inbox_burst s : net_ok s → (inbox s ≤ net_burst)%nat;
  socket_law d ty p s : net_ok s → twp t (socket d ty p) s (λ r s',
    net_ok s' ∧ proj (C:=C) s' = proj s ∧
    ((r = -1 ∧ open_socks s' = open_socks s) ∨
     (0 ≤ r ∧ (r ∉ open_socks s) ∧ open_socks s' = ({[r]} ∪ open_socks s))));
  setsockopt_law fd o s : net_ok s → twp t (setsockopt fd o) s (λ _ s',
    net_ok s' ∧ proj (C:=C) s' = proj s ∧ open_socks s' = open_socks s);
  bind_law fd a s : net_ok s → twp t (bind fd a) s (λ _ s',
    net_ok s' ∧ proj (C:=C) s' = proj s ∧ open_socks s' = open_socks s);
  connect_law fd a s : net_ok s → twp t (connect fd a) s (λ _ s',
    net_ok s' ∧ proj (C:=C) s' = proj s ∧ open_socks s' = open_socks s);
  send_law fd bs s : net_ok s → twp t (send fd bs) s (λ _ s',
    net_ok s' ∧ proj (C:=C) s' = proj s ∧ open_socks s' = open_socks s);
  sendto_law fd bs a s : net_ok s → twp t (sendto fd bs a) s (λ _ s',
    net_ok s' ∧ proj (C:=C) s' = proj s ∧ open_socks s' = open_socks s);
  recv_law fd buf s : net_ok s → twp t (recv fd buf) s (λ '(r, buf') s',
    net_ok s' ∧ proj (C:=C) s' = proj s ∧ open_socks s' = open_socks s ∧
    length buf' = length buf ∧ (Forall is_u8 buf → Forall is_u8 buf') ∧ r ≤ Z.max 1 (Z.of_nat (length buf)) ∧
    (t = Total → 0 ≤ r → (inbox s' < inbox s)%nat));
  recvfrom_law fd buf s : net_ok s → twp t (recvfrom fd buf) s (λ '(r, buf') s',
    net_ok s' ∧ proj (C:=C) s' = proj s ∧ open_socks s' = open_socks s ∧
    length buf' = length buf ∧ (Forall is_u8 buf → Forall is_u8 buf') ∧ r ≤ Z.max 1 (Z.of_nat (length buf)) ∧
    (t = Total → 0 ≤ r → (inbox s' < inbox s)%nat));
  close_law fd s : net_ok s → twp t (close fd) s (λ _ s',
    net_ok s' ∧ proj (C:=C) s' = proj s ∧ open_socks s' = (open_socks s ∖ {[fd]}));
  net_upd (c : C) s : net_ok s →
    net_ok (upd c s) ∧ open_socks (upd c s) = open_socks s ∧ inbox (upd c s) = inbox s;
}.

(** What holds of the calls in any reading holds of those that return. *)
Definition partial_laws {C S : Type} `{!Has C S, !Sockets S} {t : reading} `{!SocketsLaws t C S} :
  SocketsLaws Partial C S.
Proof.
  refine {| net_ok := net_ok (t:=t) (C:=C); open_socks := open_socks (t:=t) (C:=C); inbox := inbox (t:=t) (C:=C);
    net_burst := net_burst (t:=t) (C:=C); inbox_burst := inbox_burst (t:=t) (C:=C);
    net_upd := net_upd (t:=t) |};
    intros; eapply twp_partial.
  - by apply socket_law.
  - by apply setsockopt_law.
  - by apply bind_law.
  - by apply connect_law.
  - by apply send_law.
  - by apply sendto_law.
  - eapply twp_mono, recv_law; [|done]. intros [r buf'] s' Hr. intuition congruence.
  - eapply twp_mono, recvfrom_law; [|done]. intros [r buf'] s' Hr. intuition congruence.
  - by apply close_law.
Defined.

(** The calls keep a preorder on states, whatever they are given. *)
Class KeepsSockets {S : Type} `{!Sockets S} (R : S → S → Prop) : Prop := {
  ks_socket d ty p : keeps R (socket d ty p);
  ks_setsockopt fd o : keeps R (setsockopt fd o);
  ks_bind fd a : keeps R (bind fd a);
  ks_connect fd a : keeps R (connect fd a);
  ks_send fd bs : keeps R (send fd bs);
  ks_sendto fd bs a : keeps R (sendto fd bs a);
  ks_recv fd buf : keeps R (recv fd buf);
  ks_recvfrom fd buf : keeps R (recvfrom fd buf);
  ks_close fd : keeps R (close fd);
}.
Class KeepsRand {S : Type} `{!Rand S} (R : S → S → Prop) : Prop := keeps_rand : keeps R rand.

#[export] Hint Resolve ks_socket ks_setsockopt ks_bind ks_connect ks_send ks_sendto ks_recv ks_recvfrom ks_close
  keeps_rand : keeps.

Lemma keeps_sockets_and {S : Type} `{!Sockets S} (R1 R2 R : S → S → Prop) :
  KeepsSockets R1 → KeepsSockets R2 → (∀ s s', R1 s s' → R2 s s' → R s s') → KeepsSockets R.
Proof.
  intros H1 H2 HR. split; intros; (apply keeps_and with R1 R2; [auto with keeps..|exact HR]).
Qed.

(** ** Programs that leave the sockets as they were *)
Section same_network.
Context {C S : Type} `{!Has C S, !Sockets S} {t : reading} `{!SocketsLaws t C S}.

Definition same_network (s s' : S) : Prop := net_ok s → net_ok s' ∧ open_socks s' = open_socks s.

#[export] Instance same_network_order : PreOrder same_network.
Proof.
  split; [done|]. intros s1 s2 s3 H12 H23 H1. destruct (H12 H1) as [H2 E]. destruct (H23 H2) as [H3 E'].
  split; [done|congruence].
Qed.

Lemma keeps_network {A} (m : M S A) :
  (∀ s, net_ok s → twp Partial m s (λ _ s', net_ok s' ∧ open_socks s' = open_socks s)) → keeps same_network m.
Proof.
  intros Hm s. specialize (Hm s). unfold twp in Hm. destruct (m s) as [[a s']| |]; [|done..]. exact Hm.
Qed.

Lemma twp_network {A} (m : M S A) s : keeps same_network m → net_ok s →
  twp Partial m s (λ _ s', net_ok s' ∧ open_socks s' = open_socks s).
Proof. intros Hm Hn. eapply twp_mono; [|by apply keeps_twp]. intros a s' Hs. by apply Hs. Qed.

#[export] Instance same_network_var : KeepsVar C same_network.
Proof. intros g. apply keeps_modifyc. intros s Hn. by destruct (net_upd (g (proj s)) s Hn) as (? & ? & _). Qed.

Local Ltac from_law law := apply keeps_network; intros s Hn; eapply twp_mono; [|by eapply twp_partial, law]; naive_solver.

Lemma network_setsockopt fd o : keeps same_network (setsockopt fd o).
Proof. from_law setsockopt_law. Qed.
Lemma network_bind fd a : keeps same_network (bind fd a).
Proof. from_law bind_law. Qed.
Lemma network_connect fd a : keeps same_network (connect fd a).
Proof. from_law connect_law. Qed.
Lemma network_send fd bs : keeps same_network (send fd bs).
Proof. from_law send_law. Qed.
Lemma network_sendto fd bs a : keeps same_network (sendto fd bs a).
Proof. from_law sendto_law. Qed.
Lemma network_recv fd buf : keeps same_network (recv fd buf).
Proof. apply keeps_network. intros s Hn. eapply twp_mono; [|by eapply twp_partial, recv_law]. intros [] s'. naive_solver. Qed.
Lemma network_recvfrom fd buf : keeps same_network (recvfrom fd buf).
Proof. apply keeps_network. intros s Hn. eapply twp_mono; [|by eapply twp_partial, recvfrom_law]. intros [] s'. naive_solver. Qed.

(** The life of a client's socket: one that [make] returns is new and open, or
    everything is as before; [use] does not open or close any; it is closed. *)
Definition made (s : S) (sock : Z) (s' : S) : Prop :=
  net_ok s' ∧ ((sock = -1 ∧ open_socks s' = open_socks s) ∨
    (0 ≤ sock ∧ (sock ∉ open_socks s) ∧ open_socks s' = {[sock]} ∪ open_socks s)).

Lemma made_close {A} (a : A) s sock s' (Q : A → S → Prop) : made s sock s' → sock ≠ -1 →
  (∀ s2, net_ok s2 → open_socks s2 = open_socks s → Q a s2) → twp Partial (_ ← close sock; mret a) s' Q.
Proof.
  intros (Hn & [[-> _]|(_ & Hnin & Ho)]) Hne HQ; [done|]. apply twp_bind.
  eapply twp_mono; [|by eapply twp_partial, close_law]. intros r s2 (Hn2 & _ & Ho2). apply twp_ret, HQ; [done|].
  rewrite Ho2, Ho. set_solver.
Qed.

(** A use of the socket. *)
Lemma made_use {A} (m : M S A) s sock s1 (Q : A → S → Prop) : made s sock s1 → keeps same_network m →
  (∀ a s2, made s sock s2 → Q a s2) → twp Partial m s1 Q.
Proof.
  intros [Hn Ho] Hm HQ. eapply twp_mono; [|by apply twp_network]. intros a s2 [Hn2 E]. apply HQ.
  split; [done|]. by rewrite E.
Qed.
End same_network.

#[export] Hint Resolve network_setsockopt network_bind network_connect network_send network_sendto network_recv
  network_recvfrom : keeps.

(** ** A scripted network, for the witnesses

    Datagrams wait in a list; sockets are numbered from 3. *)
Record net := Net { net_queue : list (list Z); net_open : gset Z; net_sent : list (list Z) }.

Definition net_recv (buf : list Z) (n : net) : Z * list Z * net :=
  match net_queue n with
  | [] => (-1, buf, n)
  | d :: q =>
      let d := take (length buf) d in
      (Z.of_nat (length d), d ++ drop (length d) buf, Net q (net_open n) (net_sent n))
  end.

Definition net_good (n : net) : Prop :=
  Forall (λ d, Forall is_u8 d ∧ (length d ≤ 543)%nat) (net_queue n) ∧ (length (net_queue n) ≤ 8)%nat.

Section scripted.
Context {S : Type} `{!Has net S}.

Definition scripted_recv (buf : list Z) : M S (Z * list Z) :=
  n ← getc;
  let '(r, buf, n) := net_recv buf n in
  _ ← modifyc (λ _, n); mret (r, buf).

Definition scripted_send (bs : list Z) : M S Z :=
  _ ← modifyc (λ n, Net (net_queue n) (net_open n) (net_sent n ++ [bs]));
  mret (Z.of_nat (length bs)).

Definition scripted_sockets : Sockets S := {|
  socket _ _ _ :=
    n ← getc;
    let fd := fresh (net_open n) in
    if decide (0 ≤ fd) then
      _ ← modifyc (λ n, Net (net_queue n) ({[fd]} ∪ net_open n) (net_sent n)); mret fd
    else mret (-1);
  setsockopt _ _ := mret 0;
  bind _ _ := mret 0;
  connect _ _ := mret 0;
  send _ bs := scripted_send bs;
  sendto _ bs _ := scripted_send bs;
  recv _ buf := scripted_recv buf;
  recvfrom _ buf := scripted_recv buf;
  close fd :=
    _ ← modifyc (λ n, Net (net_queue n) (net_open n ∖ {[fd]}) (net_sent n)); mret 0;
|}.
End scripted.

Section scripted_laws.
Context {C S : Type} `{!Has C S, !Has net S, !HasLaws net S, !Indep C net S, !Indep net C S}.

#[local] Existing Instance scripted_sockets.

Lemma scripted_recv_law buf (s : S) : net_good (proj s) →
  wp (scripted_recv buf) s (λ '(r, buf') s',
    net_good (proj s') ∧ proj (C:=C) s' = proj s ∧ net_open (proj s') = net_open (proj s) ∧
    length buf' = length buf ∧ (Forall is_u8 buf → Forall is_u8 buf') ∧ r ≤ Z.min 543 (Z.of_nat (length buf)) ∧
    (0 ≤ r → (length (net_queue (proj s')) < length (net_queue (proj s)))%nat)).
Proof.
  intros [Hq Hl]. unfold scripted_recv. wp_steps. unfold net_recv, net_good.
  destruct (net_queue (proj s)) as [|d q] eqn:Hn; wp_steps; rewrite proj_upd, indep_proj; simpl.
  - rewrite Hn. split_and!; [done|simpl; lia|done..|lia|lia].
  - apply Forall_cons in Hq as [[Hd Hdl] Hq]. simpl in Hl.
    rewrite length_app, length_drop, length_take. split_and!; [done|lia|done|done|lia| |lia|lia].
    intros Hbuf. apply Forall_app. split; [by apply Forall_take|by apply Forall_drop].
Qed.

(** The script's datagrams are short. *)
Lemma wp_scripted_size buf (s : S) : net_good (proj s) →
  wp (scripted_recv buf) s (λ '(r, _) _, r ≤ 543).
Proof.
  intros [Hq Hl]. unfold scripted_recv. wp_steps. unfold net_recv.
  destruct (net_queue (proj s)) as [|d q]; wp_steps; [lia|].
  apply Forall_cons in Hq as [[_ Hd] _]. rewrite length_take. lia.
Qed.

Lemma scripted_send_law bs (s : S) : net_good (proj s) →
  wp (scripted_send bs) s (λ _ s',
    net_good (proj s') ∧ proj (C:=C) s' = proj s ∧ net_open (proj s') = net_open (proj s)).
Proof. intros Hg. unfold scripted_send. wp_steps. by rewrite proj_upd, indep_proj. Qed.

Program Definition scripted_laws : SocketsLaws Total C S := {|
  net_ok s := net_good (proj s);
  open_socks s := net_open (proj s);
  inbox s := length (net_queue (proj s));
  net_burst := 8%nat;
|}.
Next Obligation. by intros s [_ ?]. Qed.
Next Obligation.
  intros d ty p s Hok. simpl in *. apply twp_of_wp. wp_steps; rewrite ?proj_upd, ?indep_proj; simpl.
  - split_and!; [apply Hok..|done|]. right. split_and!; [done|apply is_fresh|done].
  - split_and!; [apply Hok..|done|]. by left.
Qed.
Next Obligation. done. Qed.
Next Obligation. done. Qed.
Next Obligation. done. Qed.
Next Obligation. intros fd bs s Hok. by apply twp_of_wp, scripted_send_law. Qed.
Next Obligation. intros fd bs a s Hok. by apply twp_of_wp, scripted_send_law. Qed.
Next Obligation.
  intros fd buf s Hok. apply twp_of_wp. eapply wp_mono, scripted_recv_law; [|done..].
  intros [r buf'] s' (? & ? & ? & ? & ? & ? & ?). split_and!; [done..|lia|auto].
Qed.
Next Obligation.
  intros fd buf s Hok. apply twp_of_wp. eapply wp_mono, scripted_recv_law; [|done..].
  intros [r buf'] s' (? & ? & ? & ? & ? & ? & ?). split_and!; [done..|lia|auto].
Qed.
Next Obligation. intros fd s Hok. simpl in *. apply twp_of_wp. wp_steps. by rewrite proj_upd, indep_proj. Qed.
Next Obligation. intros c s Hok. simpl. by rewrite indep_proj. Qed.
End scripted_laws.
