(* ===== verification/Dhcp.v ===== *)
(** * The DHCP client: [src/dhcp_client.c]

    The client keeps its state in a [struct dhcp_binding] (the component
    [dhcp_binding] of the state) and exchanges BOOTP messages through the
    [Sockets] interface. A message is the array of its bytes; a pointer into it
    is an index, and an access outside the array is a [Fault]. *)

From stdpp Require Import prelude list numbers gmap.
From S2P Require Import Prelude Timespec Clock ClockDummy Inet Sockets.

Definition DHCP_ALLOCATE_RETRIES : nat := 3.
Definition DHCP_DISCOVER_RETRIES : nat := 3.
Definition DHCP_REQUEST_RETRIES : nat := 3.
Definition DHCP_MAC_ADDR_LEN : nat := 6.

Definition BOOTREQUEST : Z := 1.
Definition BOOTREPLY : Z := 2.

(** Message field offsets and lengths. *)
Definition OFFSET_OP : Z := 0.
Definition OFFSET_HTYPE : Z := 1.
Definition OFFSET_HLEN : Z := 2.
Definition OFFSET_HOPS : Z := 3.
Definition OFFSET_XID : Z := 4.
Definition OFFSET_SECS : Z := 8.
Definition OFFSET_FLAGS : Z := 10.
Definition OFFSET_CIADDR : Z := 12.
Definition OFFSET_YIADDR : Z := 16.
Definition OFFSET_SIADDR : Z := 20.
Definition OFFSET_GIADDR : Z := 24.
Definition OFFSET_CHADDR : Z := 28.
Definition OFFSET_OPTIONS : Z := 236.
Definition LEN_CHADDR : nat := 16.
Definition LEN_SNAME : nat := 64.
Definition LEN_FILE : nat := 128.
Definition DHCP_MESSAGE_HEADER_LEN : nat :=
  1 + 1 + 1 + 1 + 4 + 2 + 2 + 4 + 4 + 4 + 4 + LEN_CHADDR + LEN_SNAME + LEN_FILE.

Definition OPT_PAD : Z := 0.
Definition OPT_END : Z := 255.
Definition OPT_SUBNET : Z := 1.
Definition OPT_ROUTER : Z := 3.
Definition OPT_DOMAIN_NAME_SERVER : Z := 6.
Definition OPT_REQUESTED_IP_ADDRESS : Z := 50.
Definition OPT_IP_ADDRESS_LEASE_TIME : Z := 51.
Definition OPT_DHCP_MESSAGE_TYPE : Z := 53.
Definition OPT_SERVER_IDENTIFIER : Z := 54.
Definition OPT_PARAMETER_REQUEST_LIST : Z := 55.

Definition DHCPDISCOVER : Z := 1.
Definition DHCPOFFER : Z := 2.
Definition DHCPREQUEST : Z := 3.
Definition DHCPACK : Z := 5.
Definition DHCPNAK : Z := 6.

Definition MAGIC : Z := htonl 1669485411.
Definition LEN_MAGIC : nat := 4.
Definition FLAG_BROADCAST : Z := htons 32768.
Definition XID : Z := htonl 3735928544.

Definition DHCP_OPTIONS_LEN_MAX : nat := 312.
Definition DHCP_MESSAGE_LEN_MAX : nat := DHCP_MESSAGE_HEADER_LEN + DHCP_OPTIONS_LEN_MAX.

Definition DHCP_ESYSCALL : Z := -2.
Definition DHCP_ENOSERVERID : Z := -5.
Definition DHCP_ENOGATEWAY : Z := -6.
Definition DHCP_ENOSUBNET : Z := -7.

Inductive dhcp_state :=
| DHCP_INIT | DHCP_SELECTING | DHCP_REQUESTING | DHCP_BOUND
| DHCP_INIT_REBOOT | DHCP_REBOOTING | DHCP_RENEWING | DHCP_REBINDING.

#[export] Instance dhcp_state_eq_dec : EqDecision dhcp_state.
Proof. solve_decision. Defined.

Record dhcp_binding := DhcpBinding {
  state : dhcp_state;
  mac_addr : list Z;
  client : Z;
  dhcp_server : Z;
  gateway : Z;
  subnet : Z;
  dns_server : Z;
  xid : Z;
  lease_t1 : timespec;
  lease_t2 : timespec;
}.

Definition binding_zero : dhcp_binding :=
  DhcpBinding DHCP_INIT (replicate DHCP_MAC_ADDR_LEN 0) 0 0 0 0 0 0 TIMESPEC_ZERO TIMESPEC_ZERO.

Definition with_state (x : dhcp_state) (b : dhcp_binding) : dhcp_binding :=
  DhcpBinding x (mac_addr b) (client b) (dhcp_server b) (gateway b) (subnet b) (dns_server b)
    (xid b) (lease_t1 b) (lease_t2 b).
Definition with_mac (x : list Z) (b : dhcp_binding) : dhcp_binding :=
  DhcpBinding (state b) x (client b) (dhcp_server b) (gateway b) (subnet b) (dns_server b)
    (xid b) (lease_t1 b) (lease_t2 b).
Definition with_client (x : Z) (b : dhcp_binding) : dhcp_binding :=
  DhcpBinding (state b) (mac_addr b) x (dhcp_server b) (gateway b) (subnet b) (dns_server b)
    (xid b) (lease_t1 b) (lease_t2 b).
Definition with_server (x : Z) (b : dhcp_binding) : dhcp_binding :=
  DhcpBinding (state b) (mac_addr b) (client b) x (gateway b) (subnet b) (dns_server b)
    (xid b) (lease_t1 b) (lease_t2 b).
Definition with_gateway (x : Z) (b : dhcp_binding) : dhcp_binding :=
  DhcpBinding (state b) (mac_addr b) (client b) (dhcp_server b) x (subnet b) (dns_server b)
    (xid b) (lease_t1 b) (lease_t2 b).
Definition with_subnet (x : Z) (b : dhcp_binding) : dhcp_binding :=
  DhcpBinding (state b) (mac_addr b) (client b) (dhcp_server b) (gateway b) x (dns_server b)
    (xid b) (lease_t1 b) (lease_t2 b).
Definition with_dns (x : Z) (b : dhcp_binding) : dhcp_binding :=
  DhcpBinding (state b) (mac_addr b) (client b) (dhcp_server b) (gateway b) (subnet b) x
    (xid b) (lease_t1 b) (lease_t2 b).
Definition with_xid (x : Z) (b : dhcp_binding) : dhcp_binding :=
  DhcpBinding (state b) (mac_addr b) (client b) (dhcp_server b) (gateway b) (subnet b) (dns_server b)
    x (lease_t1 b) (lease_t2 b).
Definition with_leases (t1 t2 : timespec) (b : dhcp_binding) : dhcp_binding :=
  DhcpBinding (state b) (mac_addr b) (client b) (dhcp_server b) (gateway b) (subnet b) (dns_server b)
    (xid b) t1 t2.

(** ** Messages *)

Definition setfield16 (msg : list Z) (field val : Z) : outcome (list Z) :=
  mem_write msg field (le_bytes 2 val).
Definition setfield32 (msg : list Z) (field val : Z) : outcome (list Z) :=
  mem_write msg field (le_bytes 4 val).

(** The offset of the first field that is not as expected. *)
Definition bootp_check_reply (msg : list Z) (mac : list Z) (xid : Z) : outcome Z :=
  op ← aget msg OFFSET_OP;
  if decide (op ≠ BOOTREPLY) then Done OFFSET_OP
  else
    htype ← aget msg OFFSET_HTYPE;
    if decide (htype ≠ 1) then Done OFFSET_HTYPE
    else
      hlen ← aget msg OFFSET_HLEN;
      if decide (hlen ≠ Z.of_nat DHCP_MAC_ADDR_LEN) then Done OFFSET_HLEN
      else
        x ← mem_read msg OFFSET_XID 4;
        if decide (x ≠ le_bytes 4 xid) then Done OFFSET_XID
        else
          ch ← mem_read msg OFFSET_CHADDR DHCP_MAC_ADDR_LEN;
          if decide (ch ≠ mac) then Done OFFSET_CHADDR
          else
            mg ← mem_read msg OFFSET_OPTIONS LEN_MAGIC;
            if decide (mg ≠ le_bytes 4 MAGIC) then Done OFFSET_OPTIONS
            else Done (OFFSET_OPTIONS + Z.of_nat LEN_MAGIC).

(** [memcpy(&x, p, 4)] into a 32-bit object. *)
Definition getfield32 (msg : list Z) (p : Z) : outcome Z := bs ← mem_read msg p 4; Done (le_val bs).

Section parse.
Context {S : Type} `{!Clock S}.
(** What the uninitialised locals hold. *)
Context (junk_ts : timespec).

(** The state of the loop: [p_options], [len_error], [*type], [*binding]. *)
Record parse_state := ParseState { p_options : Z; len_error : bool; msg_type : Z; opts : dhcp_binding }.

(** The [switch]: [p] is where the value of the option starts. *)
Definition parse_option (msg : list Z) (option len p : Z) (st : parse_state) : M S parse_state :=
  let err (b : bool) := len_error st || b in
  let ne4 := negb (bool_decide (len = 4)) in
  if decide (option = OPT_DHCP_MESSAGE_TYPE) then
    t ← lift (aget msg p);
    mret (ParseState p (err (negb (bool_decide (len = 1)))) t (opts st))
  else if decide (option = OPT_SERVER_IDENTIFIER) then
    x ← lift (getfield32 msg p);
    mret (ParseState p (err ne4) (msg_type st) (with_server x (opts st)))
  else if decide (option = OPT_IP_ADDRESS_LEASE_TIME) then
    x ← lift (getfield32 msg p);
    let lease := ntohl x in
    if decide (lease >= INT_MAX) then
      mret (ParseState p (err ne4) (msg_type st) (with_leases TIMESPEC_INFINITY TIMESPEC_INFINITY (opts st)))
    else
      let t1 := Timespec (lease / 2) 0 in
      let t2 := Timespec (lease - lease / 8) 0 in
      '(_, now) ← clock_gettime CLOCK_REALTIME junk_ts;
      mret (ParseState p (err ne4) (msg_type st)
              (with_leases (timespec_add now t1) (timespec_add now t2) (opts st)))
  else if decide (option = OPT_SUBNET) then
    x ← lift (getfield32 msg p);
    mret (ParseState p (err ne4) (msg_type st) (with_subnet x (opts st)))
  else if decide (option = OPT_ROUTER) then
    x ← lift (getfield32 msg p);
    mret (ParseState p (err ne4) (msg_type st) (with_gateway x (opts st)))
  else if decide (option = OPT_DOMAIN_NAME_SERVER) then
    x ← lift (getfield32 msg p);
    mret (ParseState p (err (negb (bool_decide (len mod 4 = 0)))) (msg_type st) (with_dns x (opts st)))
  else mret (ParseState p (len_error st) (msg_type st) (opts st)).

Definition parse_turn (msg : list Z) (p_end : Z) (st : parse_state) : M S (parse_state + parse_state) :=
  if decide (p_options st < p_end) then
    option ← lift (aget msg (p_options st));
    let p := p_options st + 1 in
    if decide (option = OPT_PAD) then
      mret (inl (ParseState p (len_error st) (msg_type st) (opts st)))
    else if decide (option = OPT_END) then mret (inr st)
    else
      len ← lift (aget msg p);
      let p := p + 1 in
      st ← parse_option msg option len p st;
      mret (inl (ParseState (p_options st + len) (len_error st) (msg_type st) (opts st)))
  else mret (inr st).

(** [options_size] is a [size_t]; the end of the options is computed with the
    wrap-around of addresses, so a negative size is an end before the start. *)
Definition dhcp_parse_options (msg : list Z) (start options_size : Z) (type : Z) (binding : dhcp_binding)
    : M S (Z * Z * dhcp_binding) :=
  let p_end := start + i32 options_size in
  st ← loop (Z.to_nat (p_end - start) + 1) (parse_turn msg p_end) (ParseState start false type binding);
  mret (if len_error st then -1 else 0, msg_type st, opts st).
End parse.

Definition dhcp_check_options (options : dhcp_binding) : Z * dhcp_binding :=
  if decide (dhcp_server options = INADDR_ANY) then (DHCP_ENOSERVERID, options)
  else if decide (gateway options = INADDR_ANY) then (DHCP_ENOGATEWAY, options)
  else if decide (subnet options = INADDR_ANY) then (DHCP_ENOSUBNET, options)
  else
    let t1 := if decide (timespec_cmp TIMESPEC_ZERO (lease_t1 options) = 0)
              then TIMESPEC_INFINITY else lease_t1 options in
    let t2 := if decide (timespec_cmp TIMESPEC_ZERO (lease_t2 options) = 0)
              then TIMESPEC_INFINITY else lease_t2 options in
    (0, with_leases t1 t2 options).

(** [rand()] is the argument [r]. *)
Definition gen_xid (mac : list Z) (r : Z) : Z :=
  Z.lxor (foldl (λ xid b, u32 (u32 (xid * b) + b)) XID (take DHCP_MAC_ADDR_LEN mac)) (u32 r).

(** [fill_bootp_request] returns where the options start. *)
Definition fill_bootp_request (msg : list Z) : outcome (list Z * Z) :=
  msg ← aset msg OFFSET_OP BOOTREQUEST;
  msg ← aset msg OFFSET_HTYPE 1;
  msg ← aset msg OFFSET_HLEN (Z.of_nat DHCP_MAC_ADDR_LEN);
  msg ← aset msg OFFSET_HOPS 0;
  msg ← setfield16 msg OFFSET_SECS 0;
  msg ← setfield16 msg OFFSET_FLAGS FLAG_BROADCAST;
  msg ← setfield32 msg OFFSET_YIADDR 0;
  msg ← setfield32 msg OFFSET_SIADDR 0;
  msg ← setfield32 msg OFFSET_GIADDR 0;
  msg ← mem_write msg (OFFSET_CHADDR + Z.of_nat DHCP_MAC_ADDR_LEN)
    (replicate ((LEN_CHADDR - DHCP_MAC_ADDR_LEN) + LEN_SNAME + LEN_FILE) 0);
  msg ← setfield32 msg OFFSET_OPTIONS MAGIC;
  Done (msg, OFFSET_OPTIONS + Z.of_nat LEN_MAGIC).

(** [*p++ = b] for each of the bytes. *)
Definition append_bytes (mp : list Z * Z) (bs : list Z) : outcome (list Z * Z) :=
  let '(msg, p) := mp in
  msg ← mem_write msg p bs; Done (msg, p + Z.of_nat (length bs)).

Definition dhcp_append_option32 (mp : list Z * Z) (opt val : Z) : outcome (list Z * Z) :=
  mp ← append_bytes mp [opt];
  mp ← append_bytes mp [4];
  append_bytes mp (le_bytes 4 val).

Definition dhcp_append_common_options (mp : list Z * Z) (type : Z) : outcome (list Z * Z) :=
  mp ← append_bytes mp [OPT_DHCP_MESSAGE_TYPE; 1; type];
  mp ← append_bytes mp [OPT_PARAMETER_REQUEST_LIST; 3; OPT_ROUTER; OPT_SUBNET; OPT_DOMAIN_NAME_SERVER];
  dhcp_append_option32 mp OPT_IP_ADDRESS_LEASE_TIME 4294967295.

(** ** The state machine *)

Definition dhcp_update_state_noresp (b : dhcp_binding) : dhcp_binding :=
  let newstate := DHCP_INIT in
  if decide (newstate ≠ state b) then with_state newstate b else b.

Definition dhcp_next_state (st : dhcp_state) (dhcp_message_type : Z) : dhcp_state :=
  match st with
  | DHCP_INIT => if decide (dhcp_message_type = DHCPDISCOVER) then DHCP_SELECTING else st
  | DHCP_SELECTING => if decide (dhcp_message_type = DHCPREQUEST) then DHCP_REQUESTING else st
  | DHCP_REQUESTING | DHCP_REBINDING | DHCP_RENEWING | DHCP_REBOOTING =>
      if decide (dhcp_message_type = DHCPACK) then DHCP_BOUND
      else if decide (dhcp_message_type = DHCPNAK) then DHCP_INIT else st
  | DHCP_BOUND => if decide (dhcp_message_type = DHCPREQUEST) then DHCP_RENEWING else st
  | DHCP_INIT_REBOOT => if decide (dhcp_message_type = DHCPREQUEST) then DHCP_REBOOTING else st
  end.

Definition dhcp_update_state (dhcp_message_type : Z) (b : dhcp_binding) : dhcp_binding :=
  let newstate := dhcp_next_state (state b) dhcp_message_type in
  if decide (newstate ≠ state b) then with_state newstate b else b.

(** The message [send_bootp_request] builds on its uninitialised array, and the
    DHCP message type it carries. *)
Definition bootp_request (b : dhcp_binding) (msg : list Z) : outcome (list Z * Z) :=
  msg ← setfield32 msg OFFSET_XID (xid b);
  let ciaddr :=
    if decide (state b = DHCP_BOUND ∨ state b = DHCP_RENEWING ∨ state b = DHCP_REBINDING)
    then client b else 0 in
  msg ← setfield32 msg OFFSET_CIADDR ciaddr;
  msg ← mem_write msg OFFSET_CHADDR (mac_addr b);
  mp ← fill_bootp_request msg;
  let type := match state b with
              | DHCP_INIT => DHCPDISCOVER
              | DHCP_SELECTING | DHCP_BOUND | DHCP_RENEWING => DHCPREQUEST
              | _ => DHCPREQUEST
              end in
  mp ← dhcp_append_common_options mp type;
  mp ← (if decide (state b = DHCP_SELECTING)
        then dhcp_append_option32 mp OPT_SERVER_IDENTIFIER (dhcp_server b) else Done mp);
  mp ← (if decide (state b = DHCP_SELECTING)
        then dhcp_append_option32 mp OPT_REQUESTED_IP_ADDRESS (client b) else Done mp);
  '(msg, p) ← append_bytes mp [OPT_END];
  msg ← mem_write msg p (replicate (length msg - Z.to_nat p) 0);
  Done (msg, type).

(** ** Transactions *)
Section client.
Context {S : Type} `{!Has dhcp_binding S, !Sockets S, !Clock S, !Rand S}.
(** What the uninitialised locals hold. *)
Context (junk_ts : timespec) (junk_msg : list Z).

Definition send_bootp_request (sock : Z) : M S Z :=
  b ← getc;
  _ ← (if decide (state b ≠ DHCP_SELECTING) then
         r ← rand; modifyc (λ b, with_xid (gen_xid (mac_addr b) r) b)
       else mret tt);
  b ← getc;
  '(dhcp_message, type) ← lift (bootp_request b junk_msg);
  n ← send sock dhcp_message;
  if decide (n < 0) then mret DHCP_ESYSCALL
  else _ ← modifyc (dhcp_update_state type); mret 0.

(** What a reply of this type does to the binding, and the result. *)
Definition bootp_reply_action (type yiaddr : Z) (options b : dhcp_binding) : Z * dhcp_binding :=
  if decide (type = DHCPOFFER ∧ state b = DHCP_SELECTING) then
    let '(ret, options) := dhcp_check_options options in
    if decide (ret = 0) then (ret, with_server (dhcp_server options) (with_client yiaddr b))
    else (ret, b)
  else if decide (state b = DHCP_REQUESTING ∨ state b = DHCP_RENEWING ∨
                  state b = DHCP_REBINDING ∨ state b = DHCP_REBOOTING) then
    if decide (type = DHCPACK) then
      let '(ret, options) := dhcp_check_options options in
      let b := with_client yiaddr b in
      let b := with_server (dhcp_server options) b in
      let b := with_gateway (gateway options) b in
      let b := with_subnet (subnet options) b in
      let b := with_dns (dns_server options) b in
      (ret, with_leases (lease_t1 options) (lease_t2 options) b)
    else if decide (type = DHCPNAK) then (0, with_server INADDR_ANY (with_client INADDR_ANY b))
    else (0, b)
  else (0, b).

(** One turn of the loop; the array is the loop's state. *)
Definition recv_turn (sock : Z) (dhcp_message : list Z) : M S (list Z + Z) :=
  '(dhcp_message_size, dhcp_message) ← recvfrom sock dhcp_message;
  if decide (dhcp_message_size < 0) then mret (inr DHCP_ESYSCALL)
  else if decide (dhcp_message_size = 0) then mret (inl dhcp_message)
  else
    b ← getc;
    chk ← lift (bootp_check_reply dhcp_message (mac_addr b) (xid b));
    if decide (chk <= OFFSET_OPTIONS) then mret (inl dhcp_message)
    else
      '(len_error, type, options) ←
        dhcp_parse_options junk_ts dhcp_message (OFFSET_OPTIONS + Z.of_nat LEN_MAGIC)
          (u32 (dhcp_message_size - (OFFSET_OPTIONS + Z.of_nat LEN_MAGIC))) 0 binding_zero;
      if decide (len_error = -1) then mret (inl dhcp_message)
      else
        yiaddr ← lift (getfield32 dhcp_message OFFSET_YIADDR);
        b ← getc;
        let '(ret, b) := bootp_reply_action type yiaddr options b in
        _ ← modifyc (λ _, b);
        _ ← (if decide (ret = 0) then modifyc (dhcp_update_state type) else mret tt);
        mret (inr ret).

Definition recv_bootp_reply (fuel : nat) (sock : Z) : M S Z :=
  loop fuel (recv_turn sock) junk_msg.

Definition bootp_socket_create : M S Z :=
  b ← getc;
  let timeout := Timeval 1 0 in
  sock ← socket AF_INET SOCK_DGRAM 0;
  if decide (sock = -1) then mret DHCP_ESYSCALL
  else
    r ← setsockopt sock (SO_RCVTIMEO timeout);
    if decide (r = -1) then _ ← close sock; mret DHCP_ESYSCALL
    else
      r ← setsockopt sock (SO_SNDTIMEO timeout);
      if decide (r = -1) then _ ← close sock; mret DHCP_ESYSCALL
      else
        r ← bind sock (SockaddrIn AF_INET (htons 68) (client b));
        if decide (r = -1) then _ ← close sock; mret DHCP_ESYSCALL
        else
          server_addr ← (if decide (state b = DHCP_BOUND) then mret (Some (dhcp_server b))
                         else
                           r ← setsockopt sock (SO_BROADCAST 1);
                           mret (if decide (r = -1) then None else Some INADDR_BROADCAST));
          match server_addr with
          | None => _ ← close sock; mret DHCP_ESYSCALL
          | Some s_addr =>
              r ← connect sock (SockaddrIn AF_INET (htons 67) s_addr);
              if decide (r = -1) then _ ← close sock; mret DHCP_ESYSCALL
              else mret sock
          end.

Definition bootp_transaction (fuel : nat) : M S Z :=
  sock ← bootp_socket_create;
  if decide (sock < 0) then mret sock
  else
    '(ret, _) ← for_break DHCP_DISCOVER_RETRIES 0 (λ _ _,
      ret ← send_bootp_request sock;
      if decide (ret ≠ 0) then mret (inl ret)
      else
        ret ← recv_bootp_reply fuel sock;
        if decide (ret ≠ 0) then _ ← modifyc dhcp_update_state_noresp; mret (inl ret)
        else mret (inr ret)) 0;
    _ ← close sock;
    mret ret.

Definition get_dhcp_next_event : M S Z :=
  b ← getc;
  if decide (state b = DHCP_BOUND ∨ state b = DHCP_RENEWING) then
    '(_, now) ← clock_gettime CLOCK_REALTIME junk_ts;
    b ← getc;
    let '(r1, diff_t1) := timespec_diff (lease_t1 b) now in
    let '(r2, diff_t2) := timespec_diff (lease_t2 b) now in
    let expired_t1 := bool_decide (r1 <= 0) in
    let expired_t2 := bool_decide (r2 <= 0) in
    if decide (state b = DHCP_BOUND) then
      mret (if expired_t1 then 0 else tv_sec diff_t1)
    else if decide (state b = DHCP_RENEWING) then
      mret (if expired_t2 then 0 else tv_sec diff_t2)
    else mret 0
  else mret 0.

Definition dhcp_init (mac : list Z) : M S unit :=
  modifyc (λ _, with_mac (take DHCP_MAC_ADDR_LEN mac) (with_state DHCP_INIT binding_zero)).

Definition isbound (b : dhcp_binding) : bool :=
  bool_decide (state b = DHCP_BOUND ∨ state b = DHCP_RENEWING ∨ state b = DHCP_REBINDING).

Definition dhcp_isbound : M S bool := b ← getc; mret (isbound b).

Definition dhcp_step (fuel : nat) : M S Z :=
  next ← get_dhcp_next_event;
  if decide (next = 0) then
    ret ← bootp_transaction fuel;
    if decide (ret ≠ 0) then mret ret else get_dhcp_next_event
  else mret next.

(** [dhcp_bind] repeats [dhcp_step] until the client is bound; the fuel counts
    the steps. *)
Definition dhcp_bind (steps fuel : nat) : M S Z :=
  loop steps (λ _ : unit,
    next ← dhcp_step fuel;
    b ← dhcp_isbound;
    mret (if b : bool then inr next else inl tt)) tt.
End client.

(** ** Properties: messages *)

Lemma mem_write_ok {A : Type} (l : list A) off bs :
  0 ≤ off → off + Z.of_nat (length bs) ≤ Z.of_nat (length l) →
  ∃ l', mem_write l off bs = Done l' ∧ length l' = length l.
Proof.
  intros. unfold mem_write. rewrite decide_True by lia. eexists. split; [done|].
  rewrite !length_app, length_take, length_drop. lia.
Qed.


(** The message as RFC 2131 lays it out. *)
Definition request_type (b : dhcp_binding) : Z :=
  match state b with DHCP_INIT => DHCPDISCOVER | _ => DHCPREQUEST end.

Definition request_options (b : dhcp_binding) : list Z :=
  [OPT_DHCP_MESSAGE_TYPE; 1; request_type b] ++
  [OPT_PARAMETER_REQUEST_LIST; 3; OPT_ROUTER; OPT_SUBNET; OPT_DOMAIN_NAME_SERVER] ++
  [OPT_IP_ADDRESS_LEASE_TIME; 4; 255; 255; 255; 255] ++
  (if decide (state b = DHCP_SELECTING)
   then [OPT_SERVER_IDENTIFIER; 4] ++ le_bytes 4 (dhcp_server b) ++
        [OPT_REQUESTED_IP_ADDRESS; 4] ++ le_bytes 4 (client b)
   else []) ++
  [OPT_END].

Definition request_message (b : dhcp_binding) : list Z :=
  [BOOTREQUEST; 1; 6; 0] ++ le_bytes 4 (xid b) ++ [0; 0] ++ [128; 0] ++
  le_bytes 4 (if isbound b then client b else 0) ++ replicate 12 0 ++
  mac_addr b ++ replicate 202 0 ++ [99; 130; 83; 99] ++
  request_options b ++ replicate (308 - length (request_options b)) 0.

(** A list as the list of its elements, for computation. *)
Lemma list_as_map {A : Type} (d : A) (l : list A) n :
  length l = n → ∃ f : nat → A, l = f <$> seq 0 n.
Proof.
  intros <-. exists (λ i, default d (l !! i)). apply list_eq. intros i. rewrite list_lookup_fmap.
  destruct (decide (i < length l)%nat) as [Hi|Hi].
  - rewrite lookup_seq_lt by done. simpl. destruct (lookup_lt_is_Some_2 l i Hi) as [x Hx].
    by rewrite Hx.
  - rewrite lookup_ge_None_2, lookup_seq_ge by lia. done.
Qed.

(** Replaces a list of known length by its elements. *)
Ltac list_cells l H :=
  let f := fresh "cell" in
  destruct (list_as_map 0 l _ H) as [f ->]; clear H.

Definition binding_wf (b : dhcp_binding) : Prop :=
  length (mac_addr b) = DHCP_MAC_ADDR_LEN ∧ is_u32 (dhcp_server b) ∧ is_u32 (client b).

(** Every byte of the array is set, whatever it held. *)
Lemma bootp_request_bytes b junk :
  length (mac_addr b) = DHCP_MAC_ADDR_LEN → length junk = DHCP_MESSAGE_LEN_MAX →
  bootp_request b junk = Done (request_message b, request_type b).
Proof.
  intros Hmac Hjunk. unfold bootp_request, request_message, request_options, request_type, isbound,
    dhcp_append_option32, dhcp_append_common_options, setfield32.
  rewrite decide_bool_decide.
  pose proof (length_le_bytes 4 (xid b)) as Hx. revert Hx. generalize (le_bytes 4 (xid b)) as X.
  set (ci := if bool_decide _ then client b else 0).
  pose proof (length_le_bytes 4 ci) as Hc. revert Hc. generalize (le_bytes 4 ci) as C. clear ci.
  pose proof (length_le_bytes 4 (dhcp_server b)) as Hs. revert Hs. generalize (le_bytes 4 (dhcp_server b)) as SV.
  pose proof (length_le_bytes 4 (client b)) as Hl. revert Hl. generalize (le_bytes 4 (client b)) as CL.
  intros CL Hl SV Hs C Hc X Hx. revert Hmac. generalize (mac_addr b) as mac. intros mac Hmac.
  list_cells CL Hl. list_cells SV Hs. list_cells C Hc. list_cells X Hx. list_cells mac Hmac.
  list_cells junk Hjunk.
  destruct (state b); vm_compute; reflexivity.
Qed.

(** C30: what the client sends is what the protocol expects: whatever the
    array held, the message has its full length, the values of the binding in
    their places, and -- read back by the client's own functions, with the
    operation turned into a reply -- the transaction number, the hardware
    address, the message type, an infinite lease time and, when selecting, the
    server's address. *)
Theorem bootp_request_roundtrip {S} `{!Clock S} (s : S) junk_ts b junk :
  binding_wf b → length junk = DHCP_MESSAGE_LEN_MAX →
  ∃ m, bootp_request b junk = Done (m, request_type b) ∧ length m = DHCP_MESSAGE_LEN_MAX ∧
    bootp_check_reply (<[0%nat := BOOTREPLY]> m) (mac_addr b) (xid b) = Done 240 ∧
    getfield32 m OFFSET_CIADDR = Done (le_val (le_bytes 4 (if isbound b then client b else 0))) ∧
    dhcp_parse_options junk_ts m 240 308 0 binding_zero s =
      Done ((0, request_type b, with_leases TIMESPEC_INFINITY TIMESPEC_INFINITY
        (if decide (state b = DHCP_SELECTING) then with_server (dhcp_server b) binding_zero
         else binding_zero)), s).
Proof.
  intros Hwf Hjunk. exists (request_message b). split; [apply bootp_request_bytes; [apply Hwf|done]|].
  destruct Hwf as (Hmac & Hserver & _).
  assert (Hsv : le_val (le_bytes 4 (dhcp_server b)) = dhcp_server b).
  { rewrite le_val_bytes. by apply Z.mod_small. }
  rewrite <- Hsv. clear Hjunk Hserver Hsv. unfold request_message, request_options.
  unfold bootp_check_reply.
  pose proof (length_le_bytes 4 (xid b)) as Hx. revert Hx. generalize (le_bytes 4 (xid b)) as X.
  pose proof (length_le_bytes 4 (if isbound b then client b else 0)) as Hc. revert Hc.
  generalize (le_bytes 4 (if isbound b then client b else 0)) as C.
  pose proof (length_le_bytes 4 (dhcp_server b)) as Hs. revert Hs. generalize (le_bytes 4 (dhcp_server b)) as SV.
  pose proof (length_le_bytes 4 (client b)) as Hl. revert Hl. generalize (le_bytes 4 (client b)) as CL.
  revert Hmac. generalize (mac_addr b) as mac.
  intros mac Hmac CL Hl SV Hs C Hc X Hx.
  list_cells CL Hl. list_cells SV Hs. list_cells C Hc. list_cells X Hx. list_cells mac Hmac.
  split; [destruct (state b); reflexivity|].
  split; [|split; [destruct (state b); vm_compute; reflexivity|destruct (state b); vm_compute; reflexivity]].
  set (m := <[0%nat := BOOTREPLY]> _).
  assert (aget m OFFSET_OP = Done 2 ∧ aget m OFFSET_HTYPE = Done 1 ∧ aget m OFFSET_HLEN = Done 6 ∧
    mem_read m OFFSET_XID 4 = Done (cell2 <$> seq 0 4) ∧
    mem_read m OFFSET_CHADDR DHCP_MAC_ADDR_LEN = Done (cell3 <$> seq 0 6) ∧
    mem_read m OFFSET_OPTIONS LEN_MAGIC = Done [99; 130; 83; 99]) as (-> & -> & -> & Hxid & Hch & Hmg)
    by (unfold m; destruct (state b); vm_compute; repeat split).
  cbn [mbind outcome_bind].
  repeat first [rewrite decide_False by (intros Hne; by apply Hne)
               | progress rewrite ?Hxid, ?Hch, ?Hmg; cbn [mbind outcome_bind]].
  reflexivity.
Qed.

(** ** Properties: parsing *)

(** The bytes of the value the parser reads: the type, a field of four bytes, or
    nothing of an option it does not know. *)
Definition value_width (option : Z) : Z :=
  if decide (option = OPT_DHCP_MESSAGE_TYPE) then 1
  else if decide (option ∈ [OPT_SERVER_IDENTIFIER; OPT_IP_ADDRESS_LEASE_TIME; OPT_SUBNET; OPT_ROUTER;
                            OPT_DOMAIN_NAME_SERVER]) then 4
  else 0.

(** The options from [p] on lie in the array: each one's header and what is read
    of its value, up to the end option or [p_end]. The fuel is that of the parser. *)
Fixpoint options_fit (n : nat) (msg : list Z) (p p_end : Z) : bool :=
  match n with
  | O => false
  | S n =>
      if decide (p_end <= p) then true
      else match aget msg p with
      | Done o =>
          if decide (o = OPT_PAD) then options_fit n msg (p + 1) p_end
          else if decide (o = OPT_END) then true
          else match aget msg (p + 1) with
          | Done len => bool_decide (p + 2 + value_width o ≤ Z.of_nat (length msg)) &&
                        options_fit n msg (p + 2 + len) p_end
          | _ => false
          end
      | _ => false
      end
  end.

Definition options_within (msg : list Z) (start p_end : Z) : Prop :=
  options_fit (Z.to_nat (p_end - start) + 1) msg start p_end = true.

Lemma value_width_bounds o : 0 ≤ value_width o ≤ 4.
Proof. unfold value_width. repeat case_decide; lia. Qed.

(** They do, whatever the bytes are, when five bytes of the array are free. *)
Lemma options_fit_short n msg p p_end :
  Forall is_u8 msg → 0 ≤ p → p_end + 5 ≤ Z.of_nat (length msg) → p_end - p < Z.of_nat n →
  (0 < n)%nat → options_fit n msg p p_end = true.
Proof.
  intros Hu8. revert p. induction n as [|n IH]; intros p Hp Hend Hn Hpos; [lia|]. cbn [options_fit].
  case_decide; [done|]. destruct (aget_in_range msg p) as (o & -> & _); [lia|].
  case_decide; [apply IH; lia|]. case_decide; [done|].
  destruct (aget_in_range msg (p + 1)) as (len & -> & Hlen); [lia|].
  pose proof (Forall_lookup_1 _ _ _ _ Hu8 Hlen) as Hr. unfold is_u8 in Hr.
  pose proof (value_width_bounds o). rewrite bool_decide_eq_true_2 by lia. apply IH; lia.
Qed.

(** What a reply that takes [size] bytes of the array [msg] contains. *)
Definition reply_fits (size : Z) (msg : list Z) : Prop :=
  options_within msg 240 (240 + i32 (u32 (size - 240))).

Lemma reply_fits_short size msg :
  length msg = DHCP_MESSAGE_LEN_MAX → Forall is_u8 msg → 0 ≤ size ≤ 543 → reply_fits size msg.
Proof.
  intros Hlen Hu8 Hsize. assert (i32 (u32 (size - 240)) = size - 240) as E by (unfold u32, i32; zlia).
  unfold reply_fits, options_within. rewrite E. apply options_fit_short; [done|lia| |lia..].
  rewrite Hlen. change (Z.of_nat DHCP_MESSAGE_LEN_MAX) with 548. lia.
Qed.

Section parse_laws.
Context {S : Type} `{!Clock S} (junk_ts : timespec) (t : reading).
(** What reading the clock keeps. *)
Context (Inv : S → Prop).
Context (Hclock : ∀ id tp s, Inv s → twp t (clock_gettime id tp) s (λ _ s', Inv s')).

Lemma getfield32_ok msg p :
  0 ≤ p → p + 4 ≤ Z.of_nat (length msg) → ∃ x, getfield32 msg p = Done x.
Proof.
  intros. unfold getfield32, mem_read. rewrite decide_True by lia. by eexists.
Qed.

(** The value of an option is read within its width, whatever its length says. *)
Lemma twp_parse_option msg option len p st s :
  0 ≤ p → p + value_width option ≤ Z.of_nat (length msg) → Inv s →
  twp t (parse_option junk_ts msg option len p st) s (λ st' s', p_options st' = p ∧ Inv s').
Proof.
  intros Hp Hlen HI. unfold parse_option. cbv zeta.
  destruct (decide (option = OPT_DHCP_MESSAGE_TYPE)) as [->|Htype].
  { destruct (aget_in_range msg p) as (ty & -> & _); [change (value_width _) with 1 in Hlen; lia|]. by twp_steps. }
  assert (Hget : option ∈ [OPT_SERVER_IDENTIFIER; OPT_IP_ADDRESS_LEASE_TIME; OPT_SUBNET; OPT_ROUTER;
                           OPT_DOMAIN_NAME_SERVER] → ∃ x, getfield32 msg p = Done x).
  { intros Hin. apply getfield32_ok; [done|]. unfold value_width in Hlen.
    by rewrite decide_False, decide_True in Hlen. }
  repeat (case_decide; [destruct Hget as [x ->]; [set_solver|]; repeat case_decide; twp_steps; try done|]);
    [..|by apply twp_ret].
  all: eapply twp_mono, Hclock; [|done]; intros [r now] s' HI'; by apply twp_ret.
Qed.

Lemma twp_parse_loop n msg p_end st s :
  options_fit n msg (p_options st) p_end = true → 0 ≤ p_options st → Forall is_u8 msg → Inv s →
  twp t (loop n (parse_turn junk_ts msg p_end) st) s (λ _ s', Inv s').
Proof.
  revert st s. induction n as [|n IH]; intros st s Hfit Hp Hu8 HI; [done|].
  apply twp_loop_turn. unfold parse_turn. cbn [options_fit] in Hfit.
  destruct (decide (p_end <= p_options st)).
  { rewrite decide_False by lia. by apply twp_ret. }
  rewrite decide_True by lia. apply twp_bind.
  destruct (aget msg (p_options st)) as [o| |] eqn:Ho; [|done..]. eapply twp_lift; [done|]. cbv zeta.
  case_decide; [apply twp_ret, IH; simpl; (done || lia)|]. case_decide; [by apply twp_ret|].
  destruct (aget msg (p_options st + 1)) as [len| |] eqn:Hlen; [|done..].
  apply andb_prop in Hfit as [Hw%bool_decide_eq_true Hfit].
  assert (0 ≤ len).
  { apply aget_Some in Hlen as [_ Hl]. pose proof (Forall_lookup_1 _ _ _ _ Hu8 Hl) as Hr. unfold is_u8 in Hr. lia. }
  apply twp_bind. eapply twp_lift; [done|]. apply twp_bind.
  eapply twp_mono, twp_parse_option; [|lia|lia|done]. intros st' s' [Hst' HI']. apply twp_ret.
  apply IH; simpl; rewrite ?Hst'; [|lia|done..]. by replace (p_options st + 1 + 1 + len) with (p_options st + 2 + len) by lia.
Qed.

(** A run that returns keeps it on every message. *)
Lemma keeps_parse_options_inv msg start size type b :
  t = Partial → keeps (λ s s', Inv s → Inv s') (dhcp_parse_options junk_ts msg start size type b).
Proof.
  intros ->. assert (PreOrder (λ s s' : S, Inv s → Inv s')) by (split; [by intros ?|intros ???; auto]).
  assert (Hck : ∀ id tp, keeps (λ s s', Inv s → Inv s') (clock_gettime id tp)).
  { intros id tp s. specialize (Hclock id tp s). unfold twp in Hclock.
    destruct (clock_gettime id tp s) as [[r s']| |]; [exact Hclock|done..]. }
  unfold dhcp_parse_options, parse_turn, parse_option.
  repeat (first [keeps_step | apply Hck]).
Qed.

Lemma twp_dhcp_parse_options msg start size type b s :
  Forall is_u8 msg → 0 ≤ start → (t ≠ Partial → options_within msg start (start + i32 size)) → Inv s →
  twp t (dhcp_parse_options junk_ts msg start size type b) s (λ _ s', Inv s').
Proof.
  intros Hu8 Hstart Hfit HI. destruct (decide (t = Partial)) as [Ht|Ht].
  { pose proof (keeps_parse_options_inv msg start size type b Ht s) as Hk. unfold twp.
    destruct (dhcp_parse_options junk_ts msg start size type b s) as [[r s']| |]; [auto|done|by rewrite Ht]. }
  apply twp_bind. eapply twp_mono, twp_parse_loop; [|by apply Hfit|done..]. intros st s' HI'. by apply twp_ret.
Qed.
End parse_laws.

(** A full-size message that ends with a truncated option. *)
Definition truncated_reply : list Z := replicate 547 0 ++ [OPT_SUBNET].

(** C40: parsing terminates on every content of the array, and stays within
    it for datagrams that leave at least five bytes of the array free; the
    lengths of options are not checked against the end of the message, and a
    datagram that fills the array makes the parser read past its end. *)
Theorem dhcp_parse_options_bounds {S} `{!Clock S} (junk_ts : timespec) msg size type b (s : S) :
  (∀ id tp s, wp (clock_gettime id tp) s (λ _ _, True)) →
  Forall is_u8 msg → length msg = DHCP_MESSAGE_LEN_MAX → 0 ≤ size ≤ 543 →
  wp (dhcp_parse_options junk_ts msg 240 (u32 (size - 240)) type b) s (λ _ _, True) ∧
  dhcp_parse_options junk_ts truncated_reply 240 (u32 (548 - 240)) type b s = Fault.
Proof.
  intros Hclk Hu8 Hlen Hsize. split.
  - apply wp_of_twp, (twp_dhcp_parse_options junk_ts Total (λ _, True)); [|done|lia| |done].
    { intros id tp s' _. apply twp_of_wp, Hclk. }
    intros _. by apply reply_fits_short.
  - vm_compute. reflexivity.
Qed.

(** The renewal time T1 is half the lease and the rebinding time T2 seven
    eighths of it, both from now, so T1 is not after T2; a lease of [INT_MAX]
    seconds or more never expires. This takes a lease that ends within
    [time_t]. *)
Theorem lease_times {S} `{!Clock S} junk_ts msg p st (s s' : S) now lease :
  mem_read msg p 4 = Done (le_bytes 4 (htonl lease)) → is_u32 lease →
  clock_gettime CLOCK_REALTIME junk_ts s = Done ((0, now), s') → normal now → 0 ≤ tv_sec now →
  (lease < INT_MAX → tv_sec now + lease < INT_MAX) →
  ∃ st', parse_option junk_ts msg OPT_IP_ADDRESS_LEASE_TIME 4 p st s =
      Done (st', if decide (lease >= INT_MAX) then s else s') ∧
    (if decide (lease >= INT_MAX)
     then lease_t1 (opts st') = TIMESPEC_INFINITY ∧ lease_t2 (opts st') = TIMESPEC_INFINITY
     else ns (lease_t1 (opts st')) = ns now + lease / 2 * NSECS_IN_SEC ∧
          ns (lease_t2 (opts st')) = ns now + (lease - lease / 8) * NSECS_IN_SEC ∧
          timespec_cmp (lease_t1 (opts st')) (lease_t2 (opts st')) ≤ 0).
Proof.
  intros Hread Hlease Hclk Hnow Hnow0 Hfit. unfold parse_option. cbv zeta.
  rewrite (decide_False (P := OPT_IP_ADDRESS_LEASE_TIME = OPT_DHCP_MESSAGE_TYPE)) by done.
  rewrite (decide_False (P := OPT_IP_ADDRESS_LEASE_TIME = OPT_SERVER_IDENTIFIER)) by done.
  rewrite decide_True by done.
  assert (Hx : getfield32 msg p = Done (htonl lease)).
  { unfold getfield32. rewrite Hread. simpl. f_equal. unfold htonl. change (_ + 256 * _) with
      (le_val (le_bytes 4 (bswap32 lease))). rewrite le_val_bytes. apply Z.mod_small, bswap32_range. }
  rewrite Hx. unfold lift, mbind, M_bind, ntohl, htonl. rewrite bswap32_involutive by done.
  destruct (decide (lease >= INT_MAX)) as [Hl|Hl]; [eexists; split; [done|done]|]. rewrite Hclk.
  eexists. split; [done|]. cbn [opts lease_t1 lease_t2 with_leases].
  assert (Hinf : lease < INT_MAX) by lia. specialize (Hfit Hinf). unfold is_u32, INT_MAX in *.
  assert (Ht : ∀ z, 0 ≤ z ≤ lease → normal (Timespec z 0) ∧ sum_safe (tv_sec now + z)).
  { intros z Hz. destruct Hnow as [Hi Hn]. ts_unfold. simpl. lia. }
  destruct (Ht (lease / 2)) as [Hn1 Hs1]; [zlia|].
  destruct (Ht (lease - lease / 8)) as [Hn2 Hs2]; [zlia|].
  destruct (timespec_add_spec now _ Hnow Hn1 Hs1) as [Hr1 He1].
  destruct (timespec_add_spec now _ Hnow Hn2 Hs2) as [Hr2 He2].
  assert (Hns : ∀ z, ns (Timespec z 0) = z * NSECS_IN_SEC) by (intros; unfold ns; simpl; lia).
  rewrite Hns in He1, He2. split; [done|]. split; [done|].
  destruct (timespec_diff_spec _ _ Hr1 Hr2) as (_ & _ & Hcmp).
  { destruct Hr1 as [_ Hr1], Hr2 as [_ Hr2]. revert He1 He2. ts_unfold. intros. zlia. }
  rewrite He1, He2 in Hcmp. unfold NSECS_IN_SEC in Hcmp. zlia.
Qed.

(** ** Properties: the state machine *)

Definition complete (b : dhcp_binding) : Prop :=
  dhcp_server b ≠ INADDR_ANY ∧ gateway b ≠ INADDR_ANY ∧ subnet b ≠ INADDR_ANY ∧
  lease_t1 b ≠ TIMESPEC_ZERO ∧ lease_t2 b ≠ TIMESPEC_ZERO.

(** The states the client reaches, and what a bound client knows. *)
Definition client_inv (b : dhcp_binding) : Prop :=
  length (mac_addr b) = DHCP_MAC_ADDR_LEN ∧
  (state b = DHCP_INIT ∨ state b = DHCP_SELECTING ∨ state b = DHCP_REQUESTING ∨
   ((state b = DHCP_BOUND ∨ state b = DHCP_RENEWING) ∧ complete b)).

Lemma check_options_complete o : let '(ret, o') := dhcp_check_options o in
  ret = 0 → complete o' ∧ dhcp_server o' = dhcp_server o.
Proof.
  unfold dhcp_check_options. repeat case_decide; try (by intros); intros _;
    (split; [|done]); unfold complete; simpl; split_and!; try done;
    (intros Hz; match goal with H : ¬ timespec_cmp _ _ = 0 |- _ => by apply H; rewrite Hz end).
Qed.

Lemma client_inv_noresp b : length (mac_addr b) = DHCP_MAC_ADDR_LEN →
  client_inv (dhcp_update_state_noresp b).
Proof.
  intros Hm. unfold dhcp_update_state_noresp. case_decide as Hs; (split; [done|]).
  - by left.
  - left. destruct (state b); try done; by destruct Hs.
Qed.

Lemma client_inv_xid x b : client_inv b → client_inv (with_xid x b).
Proof. done. Qed.

(** Sending a request moves the machine to a state that waits for its reply. *)
Lemma client_inv_send b : client_inv b → client_inv (dhcp_update_state (request_type b) b).
Proof.
  intros [Hm Hst]. unfold dhcp_update_state, request_type.
  destruct Hst as [Hs|[Hs|[Hs|[[Hs|Hs] Hc]]]]; rewrite Hs; cbv [dhcp_next_state]; simpl;
    (split; [done|]); simpl; rewrite ?Hs; auto 10.
Qed.

(** A message type moves the machine between these states; only an
    acknowledgement could lead to a binding that is not complete. *)
Lemma client_inv_update type b :
  client_inv b → (type = DHCPACK → state b ≠ DHCP_REQUESTING) → client_inv (dhcp_update_state type b).
Proof.
  intros [Hm Hst] Hack. unfold dhcp_update_state.
  destruct Hst as [Hs|[Hs|[Hs|[[Hs|Hs] Hc]]]]; rewrite Hs in *; cbn [dhcp_next_state];
    repeat case_decide; (split; [done|]); simpl; rewrite ?Hs; auto 10; by destruct Hack.
Qed.

(** A reply that is accepted keeps the invariant. *)
Lemma client_inv_reply type yiaddr o b :
  client_inv b → let '(ret, b') := bootp_reply_action type yiaddr o b in
  length (mac_addr b') = DHCP_MAC_ADDR_LEN ∧ (ret = 0 → client_inv (dhcp_update_state type b')).
Proof.
  intros Hinv. pose proof Hinv as [Hm Hst]. unfold bootp_reply_action.
  pose proof (check_options_complete o) as Hc. destruct (dhcp_check_options o) as [ret o'].
  case_decide as Hoffer.
  { destruct Hoffer as [-> Hs]. case_decide as Hr; [|by split]. split; [done|]. intros _.
    apply client_inv_update; [|done]. split; [done|]. right. by left. }
  case_decide as Hreq; [|split; [done|]; intros _; apply client_inv_update; [done|intros _ Hs; by apply Hreq; left]].
  case_decide as Hack; [|case_decide as Hnak].
  - split; [done|]. intros Hr. destruct (Hc Hr) as [Hco _].
    assert (Hnext : dhcp_next_state (state b) type = DHCP_BOUND).
    { rewrite Hack. by destruct Hreq as [-> | [-> | [-> | ->]]]. }
    unfold dhcp_update_state. cbn [state with_leases with_dns with_subnet with_gateway with_server with_client].
    rewrite Hnext. rewrite decide_True by (destruct Hreq as [-> | [-> | [-> | ->]]]; done).
    split; [done|]. right. right. right. split; [by left|exact Hco].
  - split; [done|]. intros _.
    assert (Hnext : dhcp_next_state (state b) type = DHCP_INIT).
    { rewrite Hnak. by destruct Hreq as [-> | [-> | [-> | ->]]]. }
    unfold dhcp_update_state. cbn [state with_server with_client].
    rewrite Hnext. rewrite decide_True by (destruct Hreq as [-> | [-> | [-> | ->]]]; done).
    split; [done|]. by left.
  - split; [done|]. intros _. by apply client_inv_update.
Qed.

Lemma check_reply_total msg mac x :
  length msg = DHCP_MESSAGE_LEN_MAX → ∃ r, bootp_check_reply msg mac x = Done r.
Proof.
  intros Hlen. unfold bootp_check_reply.
  assert (Hget : ∀ i, 0 ≤ i < 548 → ∃ v, aget msg i = Done v).
  { intros i Hi. destruct (aget_in_range msg i) as (v & Hv & _); [rewrite Hlen; done|]. by exists v. }
  assert (Hread : ∀ off n, 0 ≤ off → off + Z.of_nat n ≤ 548 → ∃ v, mem_read msg off n = Done v).
  { intros off n H0 Hn. unfold mem_read. rewrite decide_True by (rewrite Hlen; done). by eexists. }
  destruct (Hget OFFSET_OP) as [? ->]; [done|]. destruct (Hget OFFSET_HTYPE) as [? ->]; [done|].
  destruct (Hget OFFSET_HLEN) as [? ->]; [done|].
  destruct (Hread OFFSET_XID 4%nat) as [? ->]; [done..|].
  destruct (Hread OFFSET_CHADDR DHCP_MAC_ADDR_LEN) as [? ->]; [done..|].
  destruct (Hread OFFSET_OPTIONS LEN_MAGIC) as [? ->]; [done..|].
  cbn [mbind outcome_bind]. repeat case_decide; by eexists.
Qed.

Section client_laws.
Context {S : Type} `{!Has dhcp_binding S, !HasLaws dhcp_binding S, !Sockets S,
  !Clock S, !Rand S} (t : reading) `{!SocketsLaws t dhcp_binding S}.
Context (junk_ts : timespec) (junk_msg : list Z).
Context (Hjunk_len : length junk_msg = DHCP_MESSAGE_LEN_MAX) (Hjunk : Forall is_u8 junk_msg).

(** The same network and the same binding. *)
Definition quiet (s s' : S) : Prop :=
  net_ok s' ∧ open_socks s' = open_socks s ∧ (inbox s' ≤ inbox s)%nat ∧
  proj (C:=dhcp_binding) s' = proj s.

(** Reading the clock and drawing random numbers do not touch the network. *)
Context (Hclock : ∀ id tp s, net_ok s → twp t (clock_gettime id tp) s (λ _ s', quiet s s')).
Context (Hrand : ∀ s, net_ok s → twp t rand s (λ _ s', quiet s s')).

(** The options of the datagrams lie in the array. *)
Context (Hfit : t ≠ Partial → ∀ fd buf s, net_ok s → length buf = DHCP_MESSAGE_LEN_MAX → Forall is_u8 buf →
  twp t (recvfrom fd buf) s (λ '(r, buf') _, 0 ≤ r → reply_fits r buf')).

Implicit Types (s : S) (O : gset Z).

(** The invariant of a client with the sockets [O] open. *)
Definition client_ok (O : gset Z) (s : S) : Prop :=
  net_ok s ∧ open_socks s = O ∧ client_inv (proj s).

Lemma client_ok_quiet O s s' : quiet s s' → client_ok O s → client_ok O s'.
Proof. intros (? & Ho & _ & Hp) (_ & ? & ?). unfold client_ok. rewrite Ho, Hp. done. Qed.

Lemma client_ok_upd O s b : client_ok O s → client_inv b → client_ok O (upd b s).
Proof.
  intros (Hn & Ho & _) Hb. destruct (net_upd b s Hn) as (? & Ho' & _).
  unfold client_ok. rewrite Ho', proj_upd. done.
Qed.

Lemma twp_rand s (Q : Z → S → Prop) :
  net_ok s → (∀ r s', quiet s s' → Q r s') → twp t rand s Q.
Proof. intros Hn HQ. eapply twp_mono, Hrand; [|done]. intros r s'. apply HQ. Qed.

(** Sending, once the transaction number is chosen. *)
Lemma twp_send_request O sock s :
  client_ok O s →
  twp t (b ← getc; '(dhcp_message, type) ← lift (bootp_request b junk_msg);
      n ← send sock dhcp_message;
      if decide (n < 0) then mret DHCP_ESYSCALL
      else _ ← modifyc (dhcp_update_state type); mret 0) s (λ _ s', client_ok O s').
Proof.
  intros Hok. pose proof Hok as (Hn & Ho & Hinv). twp_steps.
  eapply twp_lift; [apply bootp_request_bytes; [apply Hinv|done]|]. apply twp_bind.
  eapply twp_mono, send_law; [|done]. intros n s' (Hn' & Hp & Ho').
  assert (Hok' : client_ok O s') by (unfold client_ok; by rewrite Ho', Hp).
  twp_steps; [done|]. apply client_ok_upd; [done|]. rewrite Hp. by apply client_inv_send.
Qed.

Lemma twp_send_bootp_request O sock s :
  client_ok O s → twp t (send_bootp_request junk_msg sock) s (λ _ s', client_ok O s').
Proof.
  intros Hok. apply twp_bind, twp_gets, twp_bind. case_decide; [|by apply twp_ret, twp_send_request].
  apply twp_bind, twp_rand; [apply Hok|]. intros r s' Hq.
  pose proof (client_ok_quiet _ _ _ Hq Hok) as Hok'. apply twp_modify, twp_send_request.
  apply client_ok_upd; [done|]. apply client_inv_xid, Hok'.
Qed.

(** Waiting for the reply: every datagram that is not for this transaction, or
    is malformed, uses up one of those the network can deliver. *)
Definition recv_inv (O : gset Z) (buf : list Z) (s : S) : Prop :=
  client_ok O s ∧ length buf = DHCP_MESSAGE_LEN_MAX ∧ Forall is_u8 buf.

(** After the reply: the invariant holds again, at the latest when the machine
    is sent back to its initial state. *)
Definition replied (O : gset Z) (ret : Z) (s : S) : Prop :=
  net_ok s ∧ open_socks s = O ∧ length (mac_addr (proj s)) = DHCP_MAC_ADDR_LEN ∧
  (ret = 0 → client_inv (proj s)).

Lemma client_ok_replied O ret s : client_ok O s → replied O ret s.
Proof. intros (? & ? & ?). split_and!; [done..|apply H1|done]. Qed.

Lemma twp_reply_action O type yiaddr o s :
  client_ok O s →
  twp t (b ← getc;
      let '(ret, b) := bootp_reply_action type yiaddr o b in
      _ ← modifyc (λ _, b);
      _ ← (if decide (ret = 0) then modifyc (dhcp_update_state type) else mret tt);
      mret (inr (A:=list Z) ret)) s (λ r s', ∃ ret, r = inr ret ∧ replied O ret s').
Proof.
  intros (Hn & Ho & Hinv). apply twp_bind, twp_gets.
  pose proof (client_inv_reply type yiaddr o _ Hinv) as Hr.
  destruct (bootp_reply_action type yiaddr o (proj s)) as [ret b]. destruct Hr as [Hm Hr].
  apply twp_bind, twp_modify, twp_bind. destruct (net_upd b s Hn) as (Hn1 & Ho1 & _).
  case_decide as Hret; twp_steps; exists ret; (split; [done|]); unfold replied.
  - rewrite proj_upd. destruct (net_upd (dhcp_update_state type b) _ Hn1) as (Hn2 & Ho2 & _).
    rewrite Ho2, Ho1, proj_upd. split_and!; [done|done|apply Hr, Hret|auto].
  - rewrite Ho1, proj_upd. split_and!; done.
Qed.

Lemma twp_recv_turn O sock buf s :
  recv_inv O buf s →
  twp t (recv_turn junk_ts sock buf) s (λ r s', match r with
    | inl buf' => recv_inv O buf' s' ∧ (t = Total → (inbox s' < inbox s)%nat)
    | inr ret => replied O ret s' end).
Proof.
  intros (Hok & Hlen & Hu8). pose proof Hok as (Hn & Ho & Hinv). apply twp_bind.
  eapply twp_mono, (twp_and _ _ _ _ _ (recvfrom_law sock buf s Hn)), (λ Ht, Hfit Ht sock buf s Hn Hlen Hu8).
  intros [size buf'] s1 [(Hn1 & Hp1 & Ho1 & Hlen1 & Hu1 & _ & Hin1) Hsize]. simpl. specialize (Hu1 Hu8).
  assert (Hok1 : client_ok O s1) by (unfold client_ok; by rewrite Ho1, Hp1).
  assert (Hinv1 : recv_inv O buf' s1) by (split_and!; [apply Hok1..|congruence|auto]).
  case_decide as Hneg; [by apply twp_ret, client_ok_replied|].
  case_decide as Hz; [apply twp_ret; split; [done|intros Ht; specialize (Hin1 Ht ltac:(lia)); lia]|].
  apply twp_bind, twp_gets, twp_bind.
  destruct (check_reply_total buf' (mac_addr (proj s1)) (xid (proj s1))) as [chk Hchk]; [congruence|].
  eapply twp_lift; [exact Hchk|]. case_decide; [apply twp_ret; split; [done|intros Ht; specialize (Hin1 Ht ltac:(lia)); lia]|].
  apply twp_bind. eapply twp_mono, (twp_dhcp_parse_options junk_ts t
    (λ s', client_ok O s' ∧ (inbox s' ≤ inbox s1)%nat)); [| |done|done| |done].
  - intros [[e type] o] s2 [Hok2 Hin2].
    case_decide; [apply twp_ret; split; [split_and!; [apply Hok2..|congruence|done]|intros Ht; specialize (Hin1 Ht ltac:(lia)); lia]|].
    apply twp_bind. destruct (getfield32_ok buf' OFFSET_YIADDR) as [y Hy];
      [done|rewrite Hlen1, Hlen; by vm_compute|].
    eapply twp_lift; [exact Hy|]. eapply twp_mono, twp_reply_action; [|done].
    intros r s3 (ret & -> & Hr). done.
  - intros id tp s2 [Hok2 Hin2]. eapply twp_mono, Hclock; [|apply Hok2].
    intros r s3 Hq. split; [exact (client_ok_quiet _ _ _ Hq Hok2)|]. destruct Hq as (_ & _ & ? & _). lia.
  - intros Ht. by apply Hsize; [|lia].
Qed.

Lemma twp_recv_bootp_reply O fuel sock s :
  (t = Total → (net_burst < fuel)%nat) → client_ok O s →
  twp t (recv_bootp_reply junk_ts junk_msg fuel sock) s (λ ret s', replied O ret s').
Proof.
  intros Hfuel Hok. apply twp_loop with (I := λ buf s, recv_inv O buf s) (μ := λ _ s, inbox s).
  - done.
  - intros Ht. pose proof (inbox_burst s (proj1 Hok)). specialize (Hfuel Ht). lia.
  - intros buf s' Hinv. eapply twp_mono, twp_recv_turn; [|done]. by intros [buf'|ret] s''.
Qed.

(** A call that only concerns the network. *)
Lemma twp_net {A} (m : M S A) O s (Q : A → S → Prop) :
  client_ok O s →
  twp t m s (λ _ s', net_ok s' ∧ proj (C:=dhcp_binding) s' = proj s ∧ open_socks s' = open_socks s) →
  (∀ a s', client_ok O s' → Q a s') → twp t m s Q.
Proof.
  intros (Hn & Ho & Hinv) Hm HQ. eapply twp_mono, Hm. intros a s' (Hn' & Hp & Ho'). apply HQ.
  unfold client_ok. by rewrite Hp, Ho'.
Qed.

Lemma twp_close O sock s (Q : Z → S → Prop) :
  client_ok O s → (∀ r s', client_ok (O ∖ {[sock]}) s' → Q r s') → twp t (close sock) s Q.
Proof.
  intros (Hn & Ho & Hinv) HQ. eapply twp_mono, close_law; [|done]. intros r s' (Hn' & Hp & Ho').
  apply HQ. unfold client_ok. by rewrite Hp, Ho', Ho.
Qed.

(** Closing the socket of a transaction. *)
Lemma twp_close_fail O sock e s (Q : Z → S → Prop) :
  sock ∉ O → client_ok ({[sock]} ∪ O) s → (∀ s', client_ok O s' → Q e s') →
  twp t (_ ← close sock; mret e) s Q.
Proof.
  intros Hnin Hok HQ. apply twp_bind. eapply twp_close; [done|]. intros r s' Hok'. apply twp_ret, HQ.
  by replace (({[sock]} ∪ O) ∖ {[sock]}) with O in Hok' by set_solver.
Qed.

(** On every failure the socket is closed again. *)
Lemma twp_bootp_socket_create O s :
  client_ok O s → twp t bootp_socket_create s (λ sock s',
    (sock = DHCP_ESYSCALL ∧ client_ok O s') ∨
    (0 ≤ sock ∧ (sock ∉ O) ∧ client_ok ({[sock]} ∪ O) s')).
Proof.
  intros Hok. apply twp_bind, twp_gets. cbv zeta. apply twp_bind. pose proof Hok as (Hn & Ho & Hinv).
  eapply twp_mono, socket_law; [|done].
  intros sock s1 (Hn1 & Hp1 & [[-> Ho1]|(Hpos & Hnin & Ho1)]); rewrite Ho in *.
  { rewrite decide_True by done. apply twp_ret. left. split; [done|]. unfold client_ok. by rewrite Hp1. }
  rewrite decide_False by lia.
  assert (Hok1 : client_ok ({[sock]} ∪ O) s1) by (unfold client_ok; by rewrite Hp1).
  assert (Hfail : ∀ s', client_ok ({[sock]} ∪ O) s' → twp t (_ ← close sock; mret DHCP_ESYSCALL) s'
    (λ sock' s', (sock' = DHCP_ESYSCALL ∧ client_ok O s') ∨
       (0 ≤ sock' ∧ (sock' ∉ O) ∧ client_ok ({[sock']} ∪ O) s'))).
  { intros s' Hok'. eapply twp_close_fail; [done..|]. by left. }
  apply twp_bind. eapply twp_net; [done|by apply setsockopt_law, Hok1|]. clear Hok1. intros r s' Hok1.
  case_decide; [by apply Hfail|].
  apply twp_bind. eapply twp_net; [done|by apply setsockopt_law, Hok1|]. clear Hok1. intros r' s'' Hok1.
  case_decide; [by apply Hfail|].
  apply twp_bind. eapply twp_net; [done|by apply bind_law, Hok1|]. clear Hok1. intros r'' s3 Hok1.
  case_decide; [by apply Hfail|]. apply twp_bind.
  assert (Hconn : ∀ a (s' : S), client_ok ({[sock]} ∪ O) s' →
    twp t (r ← connect sock a; if decide (r = -1) then _ ← close sock; mret DHCP_ESYSCALL else mret sock) s'
      (λ sock' s', (sock' = DHCP_ESYSCALL ∧ client_ok O s') ∨
         (0 ≤ sock' ∧ (sock' ∉ O) ∧ client_ok ({[sock']} ∪ O) s'))).
  { intros a s4' Hok'. apply twp_bind. eapply twp_net; [done|by apply connect_law, Hok'|].
    intros r3 s4 Hok4. case_decide; [by apply Hfail|]. apply twp_ret. by right. }
  case_decide; [by apply twp_ret, Hconn|].
  apply twp_bind. eapply twp_net; [done|by apply setsockopt_law, Hok1|]. intros r3 s4 Hok4.
  apply twp_ret. case_decide; [by apply Hfail|by apply Hconn].
Qed.

(** At most [DHCP_DISCOVER_RETRIES] exchanges, and the socket is closed. *)
Lemma twp_bootp_transaction O fuel s :
  (t = Total → (net_burst < fuel)%nat) → client_ok O s →
  twp t (bootp_transaction junk_ts junk_msg fuel) s (λ _ s', client_ok O s').
Proof.
  intros Hfuel Hok. apply twp_bind. eapply twp_mono, twp_bootp_socket_create; [|done].
  intros sock s1 [[-> Hok1]|(Hpos & Hnin & Hok1)]; [by apply twp_ret|].
  rewrite decide_False by lia. apply twp_bind.
  assert (Hend : ∀ (x : Z * bool) s', client_ok ({[sock]} ∪ O) s' →
    twp t (let '(ret, _) := x in _ ← close sock; mret ret) s' (λ _ s', client_ok O s')).
  { intros [ret fin] s' Hok'. by eapply twp_close_fail. }
  apply twp_for_break with (I := λ _ _ s, client_ok ({[sock]} ∪ O) s); [done| |intros ret s' Hok'; exact (Hend (ret, true) _ Hok')].
  intros j ret s2 _ Hok2. apply twp_bind. eapply twp_mono, twp_send_bootp_request; [|done].
  intros r s3 Hok3. case_decide; [by apply twp_ret|]. apply twp_bind.
  eapply twp_mono, (twp_recv_bootp_reply ({[sock]} ∪ O)); [|done..]. intros r' s4 (Hn4 & Ho4 & Hm4 & Hinv4).
  case_decide as Hr.
  - apply twp_bind, twp_modify, twp_ret. destruct (net_upd (dhcp_update_state_noresp (proj s4)) s4 Hn4) as (? & Ho5 & _).
    unfold client_ok. rewrite proj_upd, Ho5. split_and!; [done|done|]. by apply client_inv_noresp.
  - apply twp_ret, (Hend (r', false)). split_and!; [done|done|]. apply Hinv4. lia.
Qed.

Lemma twp_next_event O s :
  client_ok O s → twp t (get_dhcp_next_event junk_ts) s (λ _ s', client_ok O s').
Proof.
  intros Hok. apply twp_bind, twp_gets. case_decide; [|by apply twp_ret].
  apply twp_bind. eapply twp_mono, Hclock; [|apply Hok]. intros [r now] s1 Hq.
  pose proof (client_ok_quiet _ _ _ Hq Hok) as Hok1. apply twp_bind, twp_gets.
  destruct (timespec_diff (lease_t1 _) now) as [r1 d1], (timespec_diff (lease_t2 _) now) as [r2 d2].
  repeat case_decide; by apply twp_ret.
Qed.

(** A step keeps what the client relies on. *)
Lemma twp_dhcp_step O fuel s :
  client_ok O s → (t = Total → (net_burst < fuel)%nat) →
  twp t (dhcp_step junk_ts junk_msg fuel) s (λ _ s', client_ok O s').
Proof.
  intros Hok Hfuel. apply twp_bind. eapply twp_mono, twp_next_event; [|done]. intros next s1 Hok1.
  case_decide; [|by apply twp_ret].
  apply twp_bind. eapply twp_mono, (twp_bootp_transaction O); [|done..]. intros ret s2 Hok2.
  case_decide; [by apply twp_ret|by apply twp_next_event].
Qed.
End client_laws.

Section dhcp_properties.
Context {S : Type} `{!Has dhcp_binding S, !HasLaws dhcp_binding S, !Sockets S,
  !Clock S, !Rand S, !SocketsLaws Total dhcp_binding S}.
Context (junk_ts : timespec) (junk_msg : list Z).
Context (Hjunk_len : length junk_msg = DHCP_MESSAGE_LEN_MAX) (Hjunk : Forall is_u8 junk_msg).
Context (Hclock : ∀ id tp (s : S), net_ok s → wp (clock_gettime id tp) s (λ _ s', quiet Total s s')).
Context (Hrand : ∀ s : S, net_ok s → wp rand s (λ _ s', quiet Total s s')).

(** The options of every datagram the network delivers lie in the array: it
    leaves five bytes of it free ([reply_fits_short]), or its options are
    complete. *)
Definition replies_fit : Prop := ∀ fd buf (s : S),
  net_ok s → length buf = DHCP_MESSAGE_LEN_MAX → Forall is_u8 buf →
  wp (recvfrom fd buf) s (λ '(r, buf') _, 0 ≤ r → reply_fits r buf').

Lemma replies_fit_short :
  (∀ fd buf (s : S), net_ok s → wp (recvfrom fd buf) s (λ '(r, _) _, r ≤ 543)) → replies_fit.
Proof.
  clear Hjunk_len Hjunk. intros Hshort fd buf s Hn Hlen Hu8. apply wp_of_twp.
  eapply twp_mono, (twp_both _ _ _ _ _ (recvfrom_law fd buf s Hn)), twp_of_wp, (Hshort fd buf s Hn).
  intros [r buf'] s' [(_ & _ & _ & Hlen' & Hu & _) Hr] Hpos. apply reply_fits_short; [congruence|auto|lia].
Qed.

(** C22: over socket calls that keep the laws of [Sockets], a step of the client
    that returns keeps the invariant of the machine, whatever the network
    delivers: only the states INIT, SELECTING, REQUESTING, BOUND and RENEWING occur;
    a bound client knows its server, its gateway, its network mask and both lease
    times; and every socket that was opened is closed, on the error paths too. It
    returns when at most [net_burst] datagrams arrive before a timeout, a number
    the fuel exceeds, and the options of every datagram the network delivers lie in
    the array they are received in ([replies_fit]), as those of a datagram of at
    most 543 bytes do; otherwise it may read past the array, which
    [dhcp_parse_options_bounds] shows. *)
Theorem dhcp_step_invariant fuel (s : S) :
  net_ok s → client_inv (proj s) → (net_burst < fuel)%nat →
  let kept s' := client_inv (proj s') ∧ open_socks s' = open_socks s ∧ net_ok s' in
  (∀ r s', dhcp_step junk_ts junk_msg fuel s = Done (r, s') → kept s') ∧
  (replies_fit → ∃ r s', dhcp_step junk_ts junk_msg fuel s = Done (r, s')).
Proof.
  intros Hn Hinv Hfuel kept. split.
  - intros r s' Hrun.
    pose proof (twp_dhcp_step (SocketsLaws0 := partial_laws) Partial junk_ts junk_msg Hjunk_len Hjunk
      (λ id tp s Hs, twp_of_wp _ _ _ _ (Hclock id tp s Hs)) (λ s Hs, twp_of_wp _ _ _ _ (Hrand s Hs))
      (λ Hp, False_ind _ (Hp eq_refl)) (open_socks s) fuel s
      (conj Hn (conj eq_refl Hinv)) (λ _, Hfuel)) as Hstep.
    unfold twp in Hstep. rewrite Hrun in Hstep. by destruct Hstep as (? & ? & ?).
  - intros Hfit.
    pose proof (twp_dhcp_step Total junk_ts junk_msg Hjunk_len Hjunk
      (λ id tp s Hs, twp_of_wp _ _ _ _ (Hclock id tp s Hs)) (λ s Hs, twp_of_wp _ _ _ _ (Hrand s Hs))
      (λ _ fd buf s Hs Hb Hu, twp_of_wp _ _ _ _ (Hfit fd buf s Hs Hb Hu)) (open_socks s) fuel s
      (conj Hn (conj eq_refl Hinv)) (λ _, Hfuel)) as Hstep.
    unfold twp in Hstep. destruct (dhcp_step junk_ts junk_msg fuel s) as [[r s']| |]; [by eexists _, _|done..].
Qed.
End dhcp_properties.

Lemma client_inv_init mac : length mac = DHCP_MAC_ADDR_LEN →
  client_inv (with_mac (take DHCP_MAC_ADDR_LEN mac) (with_state DHCP_INIT binding_zero)).
Proof. intros Hm. split; [simpl; by rewrite length_take, Hm|by left]. Qed.

(** A full-size reply with complete options fits; the truncated one does not. *)
Example full_reply_fits :
  reply_fits 548 (replicate 240 0 ++ [OPT_DHCP_MESSAGE_TYPE; 1; DHCPACK] ++ replicate 304 OPT_PAD ++ [OPT_END]) ∧
  ¬ reply_fits 548 truncated_reply.
Proof. split; vm_compute; congruence. Qed.

(** ** A concrete system: a scripted network, the dummy clock *)
Record dhcp_world := DhcpWorld { dw_binding : dhcp_binding; dw_net : net; dw_clock : clock_dummy }.
#[export] Instance dw_has_binding : Has dhcp_binding dhcp_world :=
  {| proj := dw_binding; upd := λ c w, DhcpWorld c (dw_net w) (dw_clock w) |}.
#[export] Instance dw_has_net : Has net dhcp_world :=
  {| proj := dw_net; upd := λ c w, DhcpWorld (dw_binding w) c (dw_clock w) |}.
#[export] Instance dw_has_clock : Has clock_dummy dhcp_world :=
  {| proj := dw_clock; upd := λ c w, DhcpWorld (dw_binding w) (dw_net w) c |}.
#[export] Instance dw_laws_binding : HasLaws dhcp_binding dhcp_world.
Proof. split; [done|by intros []|done]. Qed.
#[export] Instance dw_laws_net : HasLaws net dhcp_world.
Proof. split; [done|by intros []|done]. Qed.
#[export] Instance dw_indep1 : Indep dhcp_binding net dhcp_world.
Proof. done. Qed.
#[export] Instance dw_indep2 : Indep net dhcp_binding dhcp_world.
Proof. done. Qed.
#[export] Instance dw_clock_inst : Clock dhcp_world := embedded_clock.
#[export] Instance dw_sockets : Sockets dhcp_world := scripted_sockets.
#[export] Instance dw_sockets_laws : SocketsLaws Total dhcp_binding dhcp_world := scripted_laws.
#[export] Instance dw_rand : Rand dhcp_world := mret 4.

(** Datagrams of at most 543 bytes. *)
Definition dw_mac : list Z := [2; 0; 0; 0; 0; 7].

Definition dw_reply (type x yiaddr : Z) : list Z :=
  [2; 1; 6; 0] ++ le_bytes 4 x ++ replicate 8 0 ++ le_bytes 4 yiaddr ++ replicate 8 0 ++
  dw_mac ++ replicate 202 0 ++ [99; 130; 83; 99] ++
  [53; 1; type; 54; 4; 192; 168; 0; 1; 51; 4; 0; 0; 14; 16; 1; 4; 255; 255; 255; 0;
   3; 4; 192; 168; 0; 1; 6; 4; 192; 168; 0; 1; 255].

Definition dw_xid : Z := gen_xid dw_mac 4.

(** A server that offers 192.168.0.9 for an hour and then acknowledges it, with
    a datagram of someone else in between. *)
Definition dw_init : dhcp_world :=
  DhcpWorld (with_mac dw_mac binding_zero)
    (Net [dw_reply DHCPOFFER dw_xid 151038144; dw_reply DHCPOFFER 1 1; dw_reply DHCPACK dw_xid 151038144] ∅ [])
    (ClockDummy (Timespec 1000 0) TIMESPEC_ZERO E0).

Example dhcp_handshake :
  match dhcp_bind TIMESPEC_ZERO (replicate 548 0) 3 9 dw_init with
  | Done (next, w) => next = 1799 ∧ state (dw_binding w) = DHCP_BOUND ∧
      client (dw_binding w) = 151038144 ∧ gateway (dw_binding w) = 16820416 ∧
      lease_t1 (dw_binding w) = Timespec 2800 2000 ∧ length (net_sent (dw_net w)) = 2%nat
  | _ => False
  end.
Proof. vm_compute. repeat split. Qed.

Lemma bootp_request_roundtrip_witness :
  let b := with_server 16820416 (with_client 151038144 (with_xid dw_xid
             (with_mac dw_mac (with_state DHCP_SELECTING binding_zero)))) in
  ∃ m, bootp_request b (replicate 548 85) = Done (m, request_type b) ∧ length m = DHCP_MESSAGE_LEN_MAX ∧
    bootp_check_reply (<[0%nat := BOOTREPLY]> m) (mac_addr b) (xid b) = Done 240 ∧
    getfield32 m OFFSET_CIADDR = Done (le_val (le_bytes 4 (if isbound b then client b else 0))) ∧
    dhcp_parse_options TIMESPEC_ZERO m 240 308 0 binding_zero dw_init =
      Done ((0, request_type b, with_leases TIMESPEC_INFINITY TIMESPEC_INFINITY
        (if decide (state b = DHCP_SELECTING) then with_server (dhcp_server b) binding_zero
         else binding_zero)), dw_init).
Proof.
  apply (bootp_request_roundtrip dw_init TIMESPEC_ZERO
    (with_server 16820416 (with_client 151038144 (with_xid dw_xid
       (with_mac dw_mac (with_state DHCP_SELECTING binding_zero))))) (replicate 548 85)); [|reflexivity].
  split; [reflexivity|]. split; vm_compute; split; congruence.
Defined.

Lemma dw_clock_quiet (P : dhcp_world → dhcp_world → Prop) id tp (s : dhcp_world) :
  (∀ c, P s (upd (c : clock_dummy) s)) → wp (clock_gettime id tp) s (λ _ s', P s s').
Proof.
  intros HP. unfold clock_gettime, dw_clock_inst, embedded_clock, wp.
  assert (∃ r c, clock_gettime_dummy id tp (proj s) = Done (r, c)) as (r & c & ->).
  { destruct s as [? ? []], id; by eexists _, _. }
  apply HP.
Qed.

Lemma dhcp_parse_options_bounds_witness :
  wp (dhcp_parse_options TIMESPEC_ZERO truncated_reply 240 (u32 (300 - 240)) 0 binding_zero) dw_init
    (λ _ _, True) ∧
  dhcp_parse_options TIMESPEC_ZERO truncated_reply 240 (u32 (548 - 240)) 0 binding_zero dw_init = Fault.
Proof.
  apply (dhcp_parse_options_bounds TIMESPEC_ZERO truncated_reply 300 0 binding_zero dw_init).
  - intros id tp s. by apply (dw_clock_quiet (λ _ _, True)).
  - repeat constructor; vm_compute; congruence.
  - reflexivity.
  - lia.
Defined.

Lemma lease_times_witness :
  let s' := upd (ClockDummy (Timespec 1000 1000) (Timespec 0 1000) E0) dw_init in
  ∃ st', parse_option TIMESPEC_ZERO [0; 0; 14; 16] OPT_IP_ADDRESS_LEASE_TIME 4 0
      (ParseState 0 false 0 binding_zero) dw_init =
      Done (st', if decide (3600 >= INT_MAX) then dw_init else s') ∧
    (if decide (3600 >= INT_MAX)
     then lease_t1 (opts st') = TIMESPEC_INFINITY ∧ lease_t2 (opts st') = TIMESPEC_INFINITY
     else ns (lease_t1 (opts st')) = ns (Timespec 1000 1000) + 3600 / 2 * NSECS_IN_SEC ∧
          ns (lease_t2 (opts st')) = ns (Timespec 1000 1000) + (3600 - 3600 / 8) * NSECS_IN_SEC ∧
          timespec_cmp (lease_t1 (opts st')) (lease_t2 (opts st')) ≤ 0).
Proof.
  apply (lease_times TIMESPEC_ZERO [0; 0; 14; 16] 0 (ParseState 0 false 0 binding_zero) dw_init
    (upd (ClockDummy (Timespec 1000 1000) (Timespec 0 1000) E0) dw_init) (Timespec 1000 1000) 3600);
    try reflexivity; try (vm_compute; split; congruence); try (vm_compute; congruence).
  split; vm_compute; split; congruence.
Defined.

Lemma dw_init_ok : net_ok dw_init ∧ client_inv (dw_binding dw_init).
Proof.
  split; [|split; [done|by left]]. split; [|by vm_compute; lia].
  repeat (apply Forall_cons; split; [split; [|by vm_compute; lia]|]); [| | |done];
    repeat (apply Forall_cons; split; [vm_compute; split; congruence|]); done.
Qed.

Lemma dw_quiet_clock id tp (s : dhcp_world) : net_ok s → wp (clock_gettime id tp) s (λ _ s', quiet Total s s').
Proof. intros Hn. apply dw_clock_quiet. intros c. by split_and!. Qed.
Lemma dw_quiet_rand (s : dhcp_world) : net_ok s → wp rand s (λ _ s', quiet Total s s').
Proof. intros Hn. apply wp_ret. by split_and!. Qed.
Lemma dw_junk_bytes : Forall is_u8 (replicate 548 0).
Proof. apply Forall_replicate. split; vm_compute; congruence. Qed.

Lemma dw_replies_fit : replies_fit (S:=dhcp_world).
Proof.
  apply replies_fit_short. intros fd buf s Hn. eapply wp_mono, (wp_scripted_size buf s Hn). by intros [r b] s'.
Qed.

Lemma dhcp_step_invariant_witness :
  let kept s' := client_inv (proj s') ∧ open_socks s' = open_socks dw_init ∧ net_ok s' in
  (∀ r s', dhcp_step TIMESPEC_ZERO (replicate 548 0) 9 dw_init = Done (r, s') → kept s') ∧
  (replies_fit (S:=dhcp_world) → ∃ r s', dhcp_step TIMESPEC_ZERO (replicate 548 0) 9 dw_init = Done (r, s')) ∧
  ∃ r s', dhcp_step TIMESPEC_ZERO (replicate 548 0) 9 dw_init = Done (r, s').
Proof.
  destruct (dhcp_step_invariant TIMESPEC_ZERO (replicate 548 0) eq_refl dw_junk_bytes dw_quiet_clock dw_quiet_rand
              9 dw_init (proj1 dw_init_ok) (proj2 dw_init_ok) ltac:(simpl; lia)) as [H1 H2].
  split; [exact H1|]. split; [exact H2|exact (H2 dw_replies_fit)].
Defined.
