(* ===== verification/Sntp.v ===== *)
(** * The SNTP client: [src/sntp.c]

    NTP timestamps in 32.32 fixed point, the estimation of the clock offset from
    the four timestamps of an exchange, and the exchange itself over the
    [Sockets] interface. *)

From stdpp Require Import prelude list numbers gmap.
From S2P Require Import Prelude Timespec Clock ClockDummy Inet Sockets.

Definition SNTP_SERVER_NIST_C : Z := 504301185.
Definition DEFAULT_SNTP_SERVER : Z := SNTP_SERVER_NIST_C.

(** Seconds from 1900 to 1970. *)
Definition SECS_TO_EPOCH : Z := 2208988800.

Definition NTP_MESSAGE_WORDS : nat := 12.
Definition NTP_TRANSMIT_ORIGINATE_OFFSET : Z := 6.
Definition NTP_TRANSMIT_RECEIVE_OFFSET : Z := 8.
Definition NTP_TRANSMIT_TIMESTAMP_OFFSET : Z := 10.
Definition NTP_MODE_BITPOS : Z := 24.
Definition NTP_MODE_BITMASK : Z := Z.shiftl 7 NTP_MODE_BITPOS.
Definition NTP_VERSION_BITPOS : Z := 27.
Definition NTP_VERSION_BITMASK : Z := Z.shiftl 7 NTP_VERSION_BITPOS.
Definition NTP_VERSION : Z := 4.
Definition NTP_MODE_CLIENT : Z := 3.
Definition NTP_MODE_SERVER : Z := 4.

(** In network byte order. *)
Record ntp_timestamp := NtpTimestamp { ntp_sec : Z; ntp_fract : Z }.

(** The file-scope variable. *)
Record sntp := Sntp { sntp_server : Z }.

(** ** Fixed-point conversions *)

(** Logic shift right with rounding. *)
Definition lsrr (v shift : Z) : Z :=
  if decide (shift > 0) then
    let round := u32 (Z.shiftl 1 (shift - 1)) in
    let v := if decide (v < u32 (UINT32_MAX - round)) then u32 (v + round) else v in
    Z.shiftr v shift
  else v.

Definition ntp_to_timespec (nt : ntp_timestamp) : timespec :=
  let sec := ntohl (ntp_sec nt) in
  let fract := ntohl (ntp_fract nt) in
  let sec := u32 (sec - SECS_TO_EPOCH) in
  let fract_shift := 18 in
  let fract := lsrr fract fract_shift in
  let nsec := u32 (fract * lsrr NSECS_IN_SEC (32 - fract_shift)) in
  Timespec (i32 sec) (i32 nsec).

Definition timespec_to_ntp (ts : timespec) : ntp_timestamp :=
  let inv_nsecs_in_sec := 281475 in
  let sec := u32 (tv_sec ts + SECS_TO_EPOCH) in
  let fract_shift := 16 in
  let nsec := lsrr (u32 (tv_nsec ts)) fract_shift in
  let fract := u32 (nsec * inv_nsecs_in_sec) in
  NtpTimestamp (htonl sec) (htonl fract).

(** Division rounds to zero, as [/] does. *)
Definition timespec_half (t : timespec) : timespec :=
  let t := if decide (Z.land (tv_sec t) 1 ≠ 0)
           then Timespec (i32 (tv_sec t - 1)) (i32 (tv_nsec t + NSECS_IN_SEC)) else t in
  Timespec (Z.quot (tv_sec t) 2) (Z.quot (tv_nsec t) 2).

Definition system_clock_estimate (t1 t2 t3 t4 : timespec) : timespec :=
  let t2_1 := snd (timespec_diff t2 t1) in
  let t3_4 := snd (timespec_diff t3 t4) in
  let t2_1 := timespec_half t2_1 in
  let t3_4 := timespec_half t3_4 in
  let offset := timespec_add t2_1 t3_4 in
  timespec_add t4 offset.

(** ** The exchange *)
Section sntp.
Context {S : Type} `{!Has sntp S, !Sockets S, !Clock S}.
(** What the uninitialised locals hold. *)
Context (junk_ts : timespec) (junk_msg : list Z).

(** The message in memory: its words in network byte order. *)
Definition message_bytes (words : list Z) : list Z := words ≫= le_bytes 4.

Definition word_at (msg : list Z) (i : Z) : outcome Z :=
  bs ← mem_read msg (4 * i) 4; Done (le_val bs).

Definition timestamp_at (msg : list Z) (i : Z) : outcome ntp_timestamp :=
  s ← word_at msg i;
  f ← word_at msg (i + 1);
  Done (NtpTimestamp s f).

Definition sntp_request (sock server : Z) : M S Z :=
  let addr := SockaddrIn AF_INET (htons 123) server in
  let ntp_message := replicate NTP_MESSAGE_WORDS 0 in
  let hdr := Z.lor (Z.lor 0 (Z.shiftl NTP_MODE_CLIENT NTP_MODE_BITPOS))
                   (Z.shiftl NTP_VERSION NTP_VERSION_BITPOS) in
  ntp_message ← lift (aset ntp_message 0 (htonl hdr));
  '(_, transmit_ts) ← clock_gettime CLOCK_REALTIME junk_ts;
  let transmit_nt := timespec_to_ntp transmit_ts in
  ntp_message ← lift (mem_write ntp_message NTP_TRANSMIT_TIMESTAMP_OFFSET
                        [ntp_sec transmit_nt; ntp_fract transmit_nt]);
  send_res ← sendto sock (message_bytes ntp_message) addr;
  mret (if decide (send_res = 48) then 0 else -1).

(** [ts] is what the caller's structure holds. *)
Definition sntp_reply (sock : Z) (ts : timespec) : M S (Z * timespec) :=
  '(recv_res, ntp_message) ← recv sock junk_msg;
  if decide (recv_res = 48) then
    w ← lift (word_at ntp_message 0);
    let hdr := ntohl w in
    if decide (Z.shiftr (Z.land hdr NTP_MODE_BITMASK) NTP_MODE_BITPOS ≠ NTP_MODE_SERVER) then
      mret (-1, ts)
    else if decide (Z.shiftr (Z.land hdr NTP_VERSION_BITMASK) NTP_VERSION_BITPOS ≠ NTP_VERSION) then
      mret (-1, ts)
    else
      '(_, t4) ← clock_gettime CLOCK_REALTIME junk_ts;
      nt ← lift (timestamp_at ntp_message NTP_TRANSMIT_ORIGINATE_OFFSET);
      let t1 := ntp_to_timespec nt in
      nt ← lift (timestamp_at ntp_message NTP_TRANSMIT_RECEIVE_OFFSET);
      let t2 := ntp_to_timespec nt in
      nt ← lift (timestamp_at ntp_message NTP_TRANSMIT_TIMESTAMP_OFFSET);
      let t3 := ntp_to_timespec nt in
      mret (0, system_clock_estimate t1 t2 t3 t4)
  else mret (-1, ts).

Definition sntp_socket : M S Z :=
  sock ← socket AF_INET SOCK_DGRAM 0;
  if decide (sock >= 0) then
    let timeout := Timeval 1 0 in
    r ← setsockopt sock (SO_RCVTIMEO timeout);
    if decide (r = -1) then _ ← close sock; mret (-1)
    else
      r ← setsockopt sock (SO_SNDTIMEO timeout);
      if decide (r = -1) then _ ← close sock; mret (-1)
      else mret sock
  else mret sock.

Definition sntp_gettime (ts : timespec) : M S (Z * timespec) :=
  sock ← sntp_socket;
  if decide (sock >= 0) then
    v ← getc;
    res ← sntp_request sock (sntp_server v);
    r ← (if decide (res = 0) then sntp_reply sock ts else mret (res, ts));
    _ ← close sock;
    mret r
  else mret (-1, ts).

Definition sntp_timeserver_set (server : Z) : M S unit := modifyc (λ _, Sntp server).
Definition sntp_timeserver_get : M S Z := v ← getc; mret (sntp_server v).
End sntp.

(** ** Properties *)

(** The rounded shift is the nearest integer, but for the values so close to
    2^32 that rounding up would overflow. *)
Lemma lsrr_spec v k :
  is_u32 v → 0 < k < 32 →
  lsrr v k = if decide (v < 4294967295 - 2 ^ (k - 1)) then (v + 2 ^ (k - 1)) / 2 ^ k else v / 2 ^ k.
Proof.
  intros Hv Hk. unfold lsrr. rewrite decide_True by lia. rewrite Z.shiftl_1_l.
  assert (H0 : 0 < 2 ^ (k - 1)) by (apply Z.pow_pos_nonneg; lia).
  assert (H1 : 2 ^ (k - 1) < 2 ^ 32) by (apply Z.pow_lt_mono_r; lia).
  change (2 ^ 32) with 4294967296 in H1. rewrite (u32_id (2 ^ (k - 1))) by (unfold is_u32; lia).
  unfold UINT32_MAX. rewrite (u32_id (4294967295 - _)) by (unfold is_u32; lia).
  rewrite Z.shiftr_div_pow2 by lia. case_decide; [|done]. rewrite u32_id; [done|].
  unfold is_u32 in *. lia.
Qed.

(** A received timestamp of the years 1901 to 2036 becomes a normal time
    value with the exact second, and a fraction within 64 microseconds. *)
Theorem ntp_to_timespec_accurate sec fract :
  61505152 ≤ sec < 4294967296 → is_u32 fract →
  let t := ntp_to_timespec (NtpTimestamp (htonl sec) (htonl fract)) in
  normal t ∧ tv_sec t = sec - SECS_TO_EPOCH ∧
  Z.abs (tv_nsec t * 4294967296 - fract * NSECS_IN_SEC) ≤ 64000 * 4294967296.
Proof.
  intros Hsec Hf. unfold ntp_to_timespec, ntohl, htonl. cbn [ntp_sec ntp_fract].
  rewrite !bswap32_involutive by (unfold is_u32 in *; lia).
  change (lsrr NSECS_IN_SEC (32 - 18)) with 61035. unfold SECS_TO_EPOCH.
  assert (Hs : i32 (u32 (sec - 2208988800)) = sec - 2208988800) by (unfold i32, u32; zlia).
  rewrite Hs, lsrr_spec by (done || lia). change (2 ^ (18 - 1)) with 131072. change (2 ^ 18) with 262144.
  unfold is_u32 in Hf. set (q := if decide _ then _ else _).
  assert (Hq : 0 ≤ q ≤ 16383 ∧ Z.abs (q * 262144 - fract) ≤ 262144)
    by (unfold q; case_decide; split; zlia).
  rewrite u32_id, i32_id by (unfold is_u32, is_i32; lia).
  unfold normal, is_i32, NSECS_IN_SEC. cbn [tv_sec tv_nsec]. split; [lia|]. split; [done|]. lia.
Qed.

(** Sending: the second is exact and the fraction within 33 microseconds,
    except in the last 19 microseconds of each second, where the product with
    the Q48 constant exceeds 32 bits: the fraction falls back to about zero, and
    the timestamp is nearly one second too early. *)
Theorem timespec_to_ntp_fraction t :
  normal t → 0 ≤ tv_sec t →
  ntp_sec (timespec_to_ntp t) = htonl (u32 (tv_sec t + SECS_TO_EPOCH)) ∧
  ∃ fract, ntp_fract (timespec_to_ntp t) = htonl fract ∧ is_u32 fract ∧
    if decide (tv_nsec t < 999981056)
    then Z.abs (fract * NSECS_IN_SEC - tv_nsec t * 4294967296) ≤ 33000 * 4294967296
    else fract = 59729.
Proof.
  intros [_ Hn] _. split; [done|]. unfold timespec_to_ntp. cbn [ntp_fract]. eexists. split; [done|].
  split; [apply u32_range|]. unfold NSECS_IN_SEC in *.
  rewrite (u32_id (tv_nsec t)) by (unfold is_u32; lia).
  rewrite lsrr_spec by (unfold is_u32; lia). change (2 ^ (16 - 1)) with 32768. change (2 ^ 16) with 65536.
  rewrite (decide_True (P := tv_nsec t < 4294967295 - 32768)) by lia.
  set (q := (tv_nsec t + 32768) / 65536).
  case_decide as Hl.
  - assert (Hq : 0 ≤ q ≤ 15258 ∧ Z.abs (q * 65536 - tv_nsec t) ≤ 32768) by (unfold q; split; zlia).
    rewrite u32_id by (unfold is_u32; lia). lia.
  - assert (q = 15259) as -> by (unfold q; zlia). reflexivity.
Qed.

(** Halving rounds down, on both sides of zero. *)
Lemma timespec_half_spec t : normal t → sec_safe (tv_sec t) →
  normal (timespec_half t) ∧ ns (timespec_half t) = ns t / 2 ∧ tv_sec (timespec_half t) = tv_sec t / 2.
Proof.
  destruct t as [s n]. intros [Hs Hn] Hsafe. unfold timespec_half.
  change (Z.land (tv_sec (Timespec s n)) 1) with (Z.land s (Z.ones 1)). rewrite Z.land_ones by lia.
  change (2 ^ 1) with 2. unfold ns, normal, is_i32, sec_safe, NSECS_IN_SEC in *. cbn [tv_sec tv_nsec] in *.
  assert (Hh : ∀ z, Z.quot (2 * z) 2 = z) by (intros; rewrite Z.mul_comm; apply Z.quot_mul; lia).
  case_decide as Ho; cbn [tv_sec tv_nsec].
  - rewrite !i32_id by (unfold is_i32; lia).
    replace (s - 1) with (2 * (s / 2)) by zlia. rewrite Hh, Z.quot_div_nonneg by lia. zlia.
  - replace (Z.quot s 2) with (s / 2); [rewrite Z.quot_div_nonneg by lia; zlia|].
    replace s with (2 * (s / 2)) at 2 by zlia. by rewrite Hh.
Qed.

(** Times since the epoch that leave room for the arithmetic of the estimate. *)
Definition since_epoch (t : timespec) : Prop := normal t ∧ 0 ≤ tv_sec t < 2147483646.

Lemma half_diff to from : since_epoch to → since_epoch from →
  let d := timespec_half (snd (timespec_diff to from)) in
  normal d ∧ ns d = (ns to - ns from) / 2 ∧ -1073741824 ≤ tv_sec d < 1073741824.
Proof.
  intros [Hto Ht] [Hfrom Hf]. destruct (timespec_diff_spec to from) as (Hd & Hns & _);
    [done|done|unfold sec_safe; lia|].
  assert (Hb : -2147483647 ≤ tv_sec (snd (timespec_diff to from)) ≤ 2147483646)
    by (destruct Hd, Hto, Hfrom; ts_unfold; lia).
  destruct (timespec_half_spec _ Hd) as (Hn & Hh & Hs); [unfold sec_safe; lia|].
  cbv zeta. split; [done|]. rewrite Hh, Hs, Hns. split; [done|zlia].
Qed.

(** The estimate, on the nanosecond line. *)
Lemma system_clock_estimate_ns t1 t2 t3 t4 :
  since_epoch t1 → since_epoch t2 → since_epoch t3 → since_epoch t4 →
  ns t4 + ((ns t2 - ns t1) / 2 + (ns t3 - ns t4) / 2) < 2147483647 * NSECS_IN_SEC →
  normal (system_clock_estimate t1 t2 t3 t4) ∧
  ns (system_clock_estimate t1 t2 t3 t4) = ns t4 + ((ns t2 - ns t1) / 2 + (ns t3 - ns t4) / 2).
Proof.
  intros H1 H2 H3 H4 Hlim. destruct (half_diff t2 t1 H2 H1) as (Hna & Ha & Hsa).
  destruct (half_diff t3 t4 H3 H4) as (Hnb & Hb & Hsb). unfold system_clock_estimate.
  cbv zeta in *. 
  set (a := timespec_half (snd (timespec_diff t2 t1))) in *.
  set (b := timespec_half (snd (timespec_diff t3 t4))) in *.
  destruct (timespec_add_spec a b Hna Hnb) as [Hn Hs]; [unfold sum_safe; lia|].
  rewrite <- Ha, <- Hb in *. clear Ha Hb. destruct H4 as [H4 H4']. set (o := timespec_add a b) in *.
  destruct (timespec_add_spec t4 o H4 Hn) as [? ->]; [|by rewrite Hs].
  clearbody o a b. destruct H4, Hn, Hna, Hnb. ts_unfold. lia.
Qed.

(** C37: the estimate is right up to half the asymmetry of the two network
    delays. The server's clock is [theta] ahead, the request takes [d1] and the
    reply [d2] nanoseconds: what the client computes differs from the server's
    clock at the time of arrival by at most half of [d1 - d2], and one
    nanosecond of rounding. *)
Theorem system_clock_estimate_offset t1 t2 t3 t4 theta d1 d2 :
  since_epoch t1 → since_epoch t2 → since_epoch t3 → since_epoch t4 →
  ns t2 = ns t1 + theta + d1 → ns t3 = ns t4 + theta - d2 → 0 ≤ d1 → 0 ≤ d2 →
  ns t4 + theta + d1 < 2147483647 * NSECS_IN_SEC →
  normal (system_clock_estimate t1 t2 t3 t4) ∧
  2 * Z.abs (ns (system_clock_estimate t1 t2 t3 t4) - (ns t4 + theta)) ≤ Z.abs (d1 - d2) + 2.
Proof.
  intros H1 H2 H3 H4 E2 E3 Hd1 Hd2 Hlim.
  destruct (system_clock_estimate_ns t1 t2 t3 t4) as [Hn ->]; [done..|zlia|]. split; [done|zlia].
Qed.

(** ** The exchange *)

(** Big-endian words of a message, as the protocol defines them. *)
Definition be_word (msg : list Z) (off : nat) : Z := le_val (rev (take 4 (drop off msg))).

(** A reply of a server that speaks version 4. *)
Definition server_reply (msg : list Z) : Prop :=
  ∃ b, head msg = Some b ∧ b mod 8 = NTP_MODE_SERVER ∧ b / 8 mod 8 = NTP_VERSION.

(** The timestamp at the byte [off] of a message. *)
Definition stamp (msg : list Z) (off : nat) : timespec :=
  ntp_to_timespec (NtpTimestamp (htonl (be_word msg off)) (htonl (be_word msg (off + 4)))).

Section exchange.
Implicit Types (msg : list Z).

Lemma word_at_be msg (i : nat) :
  length msg = 48%nat → Forall is_u8 msg → (i < 12)%nat →
  word_at msg (Z.of_nat i) = Done (htonl (be_word msg (4 * i))).
Proof.
  intros Hlen Hu Hi. unfold word_at, mem_read. rewrite decide_True by lia. simpl. f_equal.
  replace (Z.to_nat (4 * Z.of_nat i)) with (4 * i)%nat by lia. unfold htonl, bswap32, be_word.
  set (bs := take 4 _).
  assert (Hl : length (rev bs) = 4%nat) by (unfold bs; rewrite length_rev, length_take, length_drop; lia).
  assert (Hb : Forall is_u8 (rev bs)) by (apply Forall_rev, Forall_take, Forall_drop, Hu).
  rewrite <- Hl. by rewrite le_bytes_val, rev_involutive.
Qed.

Lemma timestamp_at_be msg (i : nat) :
  length msg = 48%nat → Forall is_u8 msg → (i < 11)%nat →
  mbind (λ nt, Done (ntp_to_timespec nt)) (timestamp_at msg (Z.of_nat i)) = Done (stamp msg (4 * i)).
Proof.
  intros Hlen Hu Hi. unfold timestamp_at. rewrite word_at_be by (done || lia).
  cbn [mbind outcome_bind].
  replace (Z.of_nat i + 1) with (Z.of_nat (Datatypes.S i)) by lia. rewrite word_at_be by (done || lia).
  unfold stamp. by replace (4 * i + 4)%nat with (4 * Datatypes.S i)%nat by lia.
Qed.

Lemma be_word_range msg off : Forall is_u8 msg → is_u32 (be_word msg off).
Proof.
  intros Hu. unfold be_word. pose proof (le_val_range (rev (take 4 (drop off msg)))) as H.
  assert (Hb : Forall is_u8 (rev (take 4 (drop off msg)))) by (apply Forall_rev, Forall_take, Forall_drop, Hu).
  specialize (H Hb). rewrite length_rev, length_take in H. unfold is_u32.
  change 4294967296 with (256 ^ 4). split; [lia|]. eapply Z.lt_le_trans; [apply H|].
  apply Z.pow_le_mono_r; lia.
Qed.

(** The masks of the header look at the two fields of the first byte. *)
Lemma field_mask h k : 0 ≤ k → 0 ≤ h →
  Z.shiftr (Z.land h (Z.shiftl 7 k)) k = h / 2 ^ k mod 8.
Proof.
  intros Hk Hh. rewrite Z.shiftr_land, Z.shiftr_shiftl_l, Z.sub_diag, Z.shiftl_0_r by lia.
  change 7 with (Z.ones 3). rewrite Z.land_ones, Z.shiftr_div_pow2 by lia. done.
Qed.

Lemma header_fields msg : length msg = 48%nat → Forall is_u8 msg →
  let hdr := be_word msg 0 in
  (Z.shiftr (Z.land hdr NTP_MODE_BITMASK) NTP_MODE_BITPOS = NTP_MODE_SERVER ∧
   Z.shiftr (Z.land hdr NTP_VERSION_BITMASK) NTP_VERSION_BITPOS = NTP_VERSION) ↔ server_reply msg.
Proof.
  intros Hlen Hu. cbv zeta. pose proof (be_word_range msg 0 Hu) as Hr. unfold is_u32 in Hr.
  unfold NTP_MODE_BITMASK, NTP_VERSION_BITMASK. rewrite !field_mask by (done || apply Hr).
  destruct msg as [|b0 [|b1 [|b2 [|b3 msg]]]]; try done.
  repeat (apply Forall_cons in Hu as [? Hu]). unfold is_u8 in *.
  assert (E : be_word (b0 :: b1 :: b2 :: b3 :: msg) 0 = b3 + 256 * (b2 + 256 * (b1 + 256 * b0)))
    by (unfold be_word; simpl; destruct msg; simpl; lia).
  rewrite E. change (2 ^ NTP_MODE_BITPOS) with 16777216. change (2 ^ NTP_VERSION_BITPOS) with 134217728.
  replace ((b3 + 256 * (b2 + 256 * (b1 + 256 * b0))) / 16777216) with b0 by zlia.
  replace ((b3 + 256 * (b2 + 256 * (b1 + 256 * b0))) / 134217728) with (b0 / 8) by zlia.
  unfold server_reply. split; [intros [? ?]; by exists b0|intros (b & [= <-] & ? & ?); done].
Qed.
End exchange.

(** The request: version 4, mode 3, and the time of sending. *)
Definition sntp_packet (now : timespec) : list Z :=
  35 :: replicate 39 0 ++ le_bytes 4 (ntp_sec (timespec_to_ntp now)) ++ le_bytes 4 (ntp_fract (timespec_to_ntp now)).
Definition sntp_peer (server : Z) : sockaddr_in := SockaddrIn AF_INET (htons 123) server.

(** What a reply that came at [t4] says. *)
Definition sntp_estimate (msg : list Z) (t4 : timespec) : timespec :=
  system_clock_estimate (stamp msg 24) (stamp msg 32) (stamp msg 40) t4.

(** The two halves of the exchange, over whatever the calls do. *)
Section halves.
Context {S : Type} `{!Has sntp S, !Sockets S, !Clock S} (t : reading) (junk_ts : timespec) (junk_msg : list Z).
Implicit Types (s : S).

Lemma twp_sntp_ask sock server s (Q : Z → S → Prop) :
  twp t (clock_gettime CLOCK_REALTIME junk_ts) s (λ '(_, now) s1,
    twp t (sendto sock (sntp_packet now) (sntp_peer server)) s1 (λ r, Q (if decide (r = 48) then 0 else -1))) →
  twp t (sntp_request junk_ts sock server) s Q.
Proof.
  intros HQ. unfold sntp_request. apply twp_bind. eapply twp_lift; [done|]. apply twp_bind.
  eapply twp_mono, HQ. intros [r now] s1 Hsend. cbv zeta. apply twp_bind. eapply twp_lift; [done|]. apply twp_bind.
  eapply twp_mono, Hsend. intros r' s2 Hr. by apply twp_ret.
Qed.

Lemma twp_sntp_hear sock ts s (P : Z → list Z → S → Prop) (Q : Z * timespec → S → Prop) :
  twp t (recv sock junk_msg) s (λ '(n, msg) s1, length msg = 48%nat ∧ Forall is_u8 msg ∧ P n msg s1) →
  (∀ n msg s1, P n msg s1 → Q (-1, ts) s1) →
  (∀ msg s1, P 48 msg s1 → server_reply msg →
     twp t (clock_gettime CLOCK_REALTIME junk_ts) s1 (λ '(_, t4), Q (0, sntp_estimate msg t4))) →
  twp t (sntp_reply junk_ts junk_msg sock ts) s Q.
Proof.
  intros Hrecv Hfail Hok. apply twp_bind. eapply twp_mono, Hrecv. intros [n msg] s1 (Hlen & Hu & HP).
  specialize (Hfail n msg s1 HP).
  cbv beta iota. case_decide; [subst n|by apply twp_ret]. apply twp_bind. eapply twp_lift; [by apply (word_at_be msg 0); [..|lia]|].
  unfold ntohl, htonl. rewrite bswap32_involutive by apply be_word_range, Hu.
  pose proof (header_fields msg Hlen Hu) as Hhdr. simpl Nat.mul in *. cbv zeta in *.
  do 2 (case_decide; [by apply twp_ret|]). apply twp_bind.
  eapply twp_mono, (Hok msg s1); [|done|by apply Hhdr]. intros [e t4] s2 HQ.
  pose proof (timestamp_at_be msg 6 Hlen Hu ltac:(lia)) as H6. pose proof (timestamp_at_be msg 8 Hlen Hu ltac:(lia)) as H8.
  pose proof (timestamp_at_be msg 10 Hlen Hu ltac:(lia)) as H10.
  unfold NTP_TRANSMIT_ORIGINATE_OFFSET, NTP_TRANSMIT_RECEIVE_OFFSET, NTP_TRANSMIT_TIMESTAMP_OFFSET.
  change 6 with (Z.of_nat 6). change 8 with (Z.of_nat 8). change 10 with (Z.of_nat 10).
  destruct (timestamp_at msg (Z.of_nat 6)) as [n1| |], (timestamp_at msg (Z.of_nat 8)) as [n2| |],
    (timestamp_at msg (Z.of_nat 10)) as [n3| |]; try discriminate.
  do 3 (apply twp_bind; eapply twp_lift; [reflexivity|]; cbv zeta). apply twp_ret.
  assert (Hd : ∀ a b : timespec, Done a = Done b → a = b) by congruence.
  by rewrite (Hd _ _ H6), (Hd _ _ H8), (Hd _ _ H10).
Qed.
End halves.

Section gettime.
Context {S : Type} `{!Has sntp S, !Sockets S, !Clock S} (t : reading) `{!SocketsLaws t sntp S}.
Context (junk_ts : timespec) (junk_msg : list Z).
Context (Hjunk_len : length junk_msg = 48%nat) (Hjunk : Forall is_u8 junk_msg).

(** Reading the clock does not touch the network. *)
Context (Hclock : ∀ id tp s, net_ok s → twp t (clock_gettime id tp) s (λ _ s',
  net_ok s' ∧ open_socks s' = open_socks s ∧ proj (C:=sntp) s' = proj s)).

Implicit Types (s : S).

(** The sockets [O] are open, the server is [v]. *)
Definition sntp_ok (O : gset Z) (v : sntp) (s : S) : Prop :=
  net_ok s ∧ open_socks s = O ∧ proj s = v.

(** What the caller gets: the estimate from a reply and the time it came, or
    its own structure back. *)
Definition sntp_answer (sock : Z) (ts : timespec) (r : Z * timespec) : Prop :=
  r = (-1, ts) ∨
  ∃ s1 s2 s3 msg e t4,
    recv sock junk_msg s1 = Done ((48, msg), s2) ∧
    clock_gettime CLOCK_REALTIME junk_ts s2 = Done ((e, t4), s3) ∧
    server_reply msg ∧
    r = (0, sntp_estimate msg t4).

(** A call that only concerns the network. *)
Lemma twp_sntp_net {A} (m : M S A) O v s (Q : A → S → Prop) :
  sntp_ok O v s →
  twp t m s (λ _ s', net_ok s' ∧ proj (C:=sntp) s' = proj s ∧ open_socks s' = open_socks s) →
  (∀ a s', sntp_ok O v s' → Q a s') → twp t m s Q.
Proof.
  intros (Hn & Ho & Hv) Hm HQ. eapply twp_mono, Hm. intros a s' (Hn' & Hp & Ho'). apply HQ.
  unfold sntp_ok. by rewrite Hp, Ho'.
Qed.

Lemma twp_sntp_close {A} (a : A) O v sock s (Q : A → S → Prop) :
  sock ∉ O → sntp_ok ({[sock]} ∪ O) v s → (∀ s', sntp_ok O v s' → Q a s') →
  twp t (_ ← close sock; mret a) s Q.
Proof.
  intros Hnin (Hn & Ho & Hv) HQ. apply twp_bind. eapply twp_mono, close_law; [|done].
  intros r s' (Hn' & Hp & Ho'). apply twp_ret, HQ. unfold sntp_ok. rewrite Hp, Ho', Ho.
  split; [done|]. split; [|done]. clear -Hnin. set_solver.
Qed.

Lemma twp_sntp_socket O v s : sntp_ok O v s →
  twp t sntp_socket s (λ sock s',
    (sock = -1 ∧ sntp_ok O v s') ∨ (0 ≤ sock ∧ (sock ∉ O) ∧ sntp_ok ({[sock]} ∪ O) v s')).
Proof.
  intros (Hn & Ho & Hv). apply twp_bind. eapply twp_mono, socket_law; [|done].
  intros sock s1 (Hn1 & Hp1 & [[-> Ho1]|(Hpos & Hnin & Ho1)]); rewrite Ho in *.
  { rewrite decide_False by lia. apply twp_ret. left. split; [done|]. unfold sntp_ok. by rewrite Hp1. }
  rewrite decide_True by lia. cbv zeta.
  assert (Hok1 : sntp_ok ({[sock]} ∪ O) v s1) by (unfold sntp_ok; by rewrite Hp1).
  apply twp_bind. eapply twp_sntp_net; [done|by apply setsockopt_law|]. clear Hok1. intros r s2 Hok2.
  case_decide; [eapply twp_sntp_close; [done..|]; by left|].
  apply twp_bind. eapply twp_sntp_net; [done|by apply setsockopt_law, Hok2|]. intros r' s3 Hok3.
  case_decide; [eapply twp_sntp_close; [done..|]; by left|]. apply twp_ret. by right.
Qed.

Lemma twp_sntp_request O v sock server s : sntp_ok O v s →
  twp t (sntp_request junk_ts sock server) s (λ r s', sntp_ok O v s' ∧ (r = 0 ∨ r = -1)).
Proof.
  intros Hok. pose proof Hok as (Hn & Ho & Hv). apply twp_sntp_ask.
  eapply twp_mono, Hclock; [|done]. intros [r now] s1 (Hn1 & Ho1 & Hv1).
  assert (Hok1 : sntp_ok O v s1) by (unfold sntp_ok; by rewrite Ho1, Hv1).
  eapply twp_sntp_net; [done|by apply sendto_law|]. intros r' s2 Hok2.
  split; [done|]. case_decide; [by left|by right].
Qed.

Lemma twp_sntp_reply O v sock ts s : sntp_ok O v s →
  twp t (sntp_reply junk_ts junk_msg sock ts) s (λ r s', sntp_ok O v s' ∧ sntp_answer sock ts r).
Proof.
  intros (Hn & Ho & Hv).
  apply (twp_sntp_hear t junk_ts junk_msg sock ts s) with
    (P := λ n msg s1, recv sock junk_msg s = Done ((n, msg), s1) ∧ sntp_ok O v s1).
  - eapply twp_mono_run, recv_law; [|done..]. intros [n msg] s1 Hrun (Hn1 & Hp1 & Ho1 & Hlen & Hu & _).
    rewrite Hjunk_len in Hlen. split; [done|]. split; [by apply Hu|]. split; [done|]. unfold sntp_ok. by rewrite Ho1, Hp1.
  - intros n msg s1 [_ Hok1]. split; [done|by left].
  - intros msg s1 [Hrun Hok1] Hreply. pose proof Hok1 as (Hn1 & Ho1 & Hp1).
    eapply twp_mono_run, Hclock; [|done]. intros [e t4] s2 Hrun2 (Hn2 & Ho2 & Hp2).
    split; [unfold sntp_ok; by rewrite Ho2, Hp2, Ho1, Hp1|]. right. by exists s, s1, s2, msg, e, t4.
Qed.

(** Every path closes the socket. *)
Lemma twp_sntp_gettime ts s :
  net_ok s →
  twp t (sntp_gettime junk_ts junk_msg ts) s (λ r s',
    net_ok s' ∧ open_socks s' = open_socks s ∧ proj (C:=sntp) s' = proj s ∧
    ∃ sock, sntp_answer sock ts r).
Proof.
  intros Hn. assert (Hok : sntp_ok (open_socks s) (proj s) s) by done. apply twp_bind.
  eapply twp_mono, twp_sntp_socket; [|done]. intros sock s1 [[-> Hok1]|(Hpos & Hnin & Hok1)].
  { rewrite decide_False by lia. apply twp_ret. destruct Hok1 as (? & ? & ?).
    do 3 (split; [done|]). exists 0. by left. }
  rewrite decide_True by lia. apply twp_bind, twp_gets, twp_bind.
  eapply twp_mono, twp_sntp_request; [|done]. intros res s2 [Hok2 Hres]. apply twp_bind.
  assert (Hend : ∀ r s3, sntp_ok ({[sock]} ∪ open_socks s) (proj s) s3 → sntp_answer sock ts r →
    twp t (_ ← close sock; mret r) s3 (λ r s', net_ok s' ∧ open_socks s' = open_socks s ∧
      proj (C:=sntp) s' = proj s ∧ ∃ sock, sntp_answer sock ts r)).
  { intros r s3 Hok3 Hr. eapply twp_sntp_close; [done..|]. intros s4 (? & ? & ?).
    do 3 (split; [done|]). by exists sock. }
  case_decide.
  - eapply twp_mono, twp_sntp_reply; [|done]. intros r s3 [? ?]. by apply Hend.
  - apply twp_ret, Hend; [done|]. left. by destruct Hres as [-> | ->].
Qed.
End gettime.

(** What the socket calls and the clock keep, the client keeps. *)
Section keeps_sntp.
Context {S : Type} `{!Has sntp S, !Sockets S, !Clock S} (R : S → S → Prop)
  `{!PreOrder R, !KeepsSockets R, !KeepsClock R}.
Context (junk_ts : timespec) (junk_msg : list Z).

Lemma keeps_sntp_gettime ts : keeps R (sntp_gettime junk_ts junk_msg ts).
Proof. unfold sntp_gettime, sntp_socket, sntp_request, sntp_reply. keeps_solve. Qed.
End keeps_sntp.

(** C36: [sntp_gettime] completes whatever the network does, closes the socket
    it opened, on the error paths too, and leaves the server address alone. It
    answers -1 and leaves the caller's structure untouched, or it answers 0 with
    the estimate from the timestamps of a 48-byte version 4 server message and
    the clock reading that directly followed its arrival. *)
Theorem sntp_gettime_exchange {S : Type} `{!Has sntp S, !Sockets S, !Clock S, !SocketsLaws Total sntp S}
    junk_ts junk_msg ts (s : S) :
  length junk_msg = 48%nat → Forall is_u8 junk_msg →
  (∀ id tp (s : S), net_ok s → wp (clock_gettime id tp) s (λ _ s',
    net_ok s' ∧ open_socks s' = open_socks s ∧ proj (C:=sntp) s' = proj s)) →
  net_ok s →
  wp (sntp_gettime junk_ts junk_msg ts) s (λ r s',
    net_ok s' ∧ open_socks s' = open_socks s ∧ proj (C:=sntp) s' = proj s ∧
    ∃ sock, sntp_answer junk_ts junk_msg sock ts r).
Proof.
  intros Hlen Hu Hclock Hn. apply wp_of_twp, twp_sntp_gettime; [done|done| |done].
  intros. by apply twp_of_wp, Hclock.
Qed.

(** ** A concrete system: a scripted network and the dummy clock *)
Record sntp_world := SntpWorld { sw_sntp : sntp; sw_net : net; sw_clock : clock_dummy }.
#[export] Instance sw_has_sntp : Has sntp sntp_world :=
  {| proj := sw_sntp; upd := λ c w, SntpWorld c (sw_net w) (sw_clock w) |}.
#[export] Instance sw_has_net : Has net sntp_world :=
  {| proj := sw_net; upd := λ c w, SntpWorld (sw_sntp w) c (sw_clock w) |}.
#[export] Instance sw_has_clock : Has clock_dummy sntp_world :=
  {| proj := sw_clock; upd := λ c w, SntpWorld (sw_sntp w) (sw_net w) c |}.
#[export] Instance sw_laws_sntp : HasLaws sntp sntp_world.
Proof. split; [done|by intros []|done]. Qed.
#[export] Instance sw_laws_net : HasLaws net sntp_world.
Proof. split; [done|by intros []|done]. Qed.
#[export] Instance sw_indep1 : Indep sntp net sntp_world.
Proof. done. Qed.
#[export] Instance sw_indep2 : Indep net sntp sntp_world.
Proof. done. Qed.
#[export] Instance sw_clock_inst : Clock sntp_world := embedded_clock.
#[export] Instance sw_sockets : Sockets sntp_world := scripted_sockets.
#[export] Instance sw_sockets_laws : SocketsLaws Total sntp sntp_world := scripted_laws.

(** A reply: the client sent at 1000 s of its clock, the server received at
    1600.5 s and answered at 1601 s. *)
Definition sw_word (z : Z) : list Z := rev (le_bytes 4 z).
Definition sw_reply : list Z :=
  [36; 1; 0; 0] ++ replicate 20 0 ++
  sw_word (1000 + SECS_TO_EPOCH) ++ sw_word 0 ++
  sw_word (1600 + SECS_TO_EPOCH) ++ sw_word 2147483648 ++
  sw_word (1601 + SECS_TO_EPOCH) ++ sw_word 0.
Definition sw_init : sntp_world :=
  SntpWorld (Sntp DEFAULT_SNTP_SERVER) (Net [sw_reply] ∅ []) (ClockDummy (Timespec 1001 0) TIMESPEC_ZERO E0).

Example sntp_exchange :
  wp (sntp_gettime TIMESPEC_ZERO (replicate 48 0) TIMESPEC_ZERO) sw_init
    (λ r _, r = (0, Timespec 1601 250000360)).
Proof. vm_compute. reflexivity. Qed.

Lemma ntp_to_timespec_accurate_witness :
  let t := ntp_to_timespec (NtpTimestamp (htonl 3658123816) (htonl 1073741824)) in
  normal t ∧ tv_sec t = 3658123816 - SECS_TO_EPOCH ∧
  Z.abs (tv_nsec t * 4294967296 - 1073741824 * NSECS_IN_SEC) ≤ 64000 * 4294967296.
Proof.
  apply (ntp_to_timespec_accurate 3658123816 1073741824); [lia|split; vm_compute; congruence].
Defined.

Lemma timespec_to_ntp_fraction_witness :
  ntp_sec (timespec_to_ntp (Timespec 1449135016 999990000)) = htonl (u32 (1449135016 + SECS_TO_EPOCH)) ∧
  ∃ fract, ntp_fract (timespec_to_ntp (Timespec 1449135016 999990000)) = htonl fract ∧ is_u32 fract ∧
    if decide (999990000 < 999981056)
    then Z.abs (fract * NSECS_IN_SEC - 999990000 * 4294967296) ≤ 33000 * 4294967296
    else fract = 59729.
Proof.
  apply (timespec_to_ntp_fraction (Timespec 1449135016 999990000)); [|simpl; lia].
  unfold normal, is_i32, NSECS_IN_SEC. simpl. lia.
Defined.

Lemma system_clock_estimate_offset_witness :
  normal (system_clock_estimate (Timespec 1000 0) (Timespec 1600 500000000)
            (Timespec 1601 0) (Timespec 1001 700000000)) ∧
  2 * Z.abs (ns (system_clock_estimate (Timespec 1000 0) (Timespec 1600 500000000)
              (Timespec 1601 0) (Timespec 1001 700000000)) - (ns (Timespec 1001 700000000) + 600000000000))
    ≤ Z.abs (500000000 - 700000000) + 2.
Proof.
  apply (system_clock_estimate_offset (Timespec 1000 0) (Timespec 1600 500000000)
    (Timespec 1601 0) (Timespec 1001 700000000) 600000000000 500000000 700000000);
    repeat split; vm_compute; (reflexivity || congruence).
Defined.

Lemma sntp_gettime_exchange_witness :
  wp (sntp_gettime TIMESPEC_ZERO (replicate 48 0) TIMESPEC_ZERO) sw_init (λ r s',
    net_ok s' ∧ open_socks s' = open_socks sw_init ∧ proj (C:=sntp) s' = proj sw_init ∧
    ∃ sock, sntp_answer TIMESPEC_ZERO (replicate 48 0) sock TIMESPEC_ZERO r).
Proof.
  apply (sntp_gettime_exchange TIMESPEC_ZERO (replicate 48 0)).
  - reflexivity.
  - apply Forall_replicate. split; vm_compute; congruence.
  - intros id tp s Hn. unfold clock_gettime, sw_clock_inst, embedded_clock, wp.
    assert (∃ r c, clock_gettime_dummy id tp (proj s) = Done (r, c)) as (r & c & ->)
      by (destruct s as [? ? []], id; by eexists _, _).
    split; [exact Hn|]. split; reflexivity.
  - split; [|by vm_compute; lia]. apply Forall_cons. split; [|done].
    split; [|by vm_compute; lia].
    repeat (apply Forall_cons; split; [vm_compute; split; congruence|]); done.
Defined.
