(* ===== verification/Rfc868.v ===== *)
(** * The RFC 868 time client: [src/rfc868_time.c]

    One 32-bit count of seconds since 1900 from a server, converted to the POSIX
    epoch in [time_t] arithmetic. The file is modelled with its default
    configuration, [RFC868_TYPE_UDP]. *)

From stdpp Require Import prelude list numbers gmap.
From S2P Require Import Prelude Timespec Inet Sockets.

Definition RFC868_SERVER_NIST_C : Z := 504301185.
Definition DEFAULT_RFC868_SERVER : Z := RFC868_SERVER_NIST_C.

(** The file-scope variable. *)
Record rfc868 := Rfc868 { rfc868_server : Z }.

Section rfc868.
Context {S : Type} `{!Has rfc868 S, !Sockets S}.
(** What the uninitialised [secs_net] holds. *)
Context (junk_word : list Z).

Definition recv_time32 (sock : Z) : M S Z :=
  '(recv_res, secs_net) ← recv sock junk_word;
  mret (if decide (recv_res = 4) then ntohl (le_val secs_net) else 0).

Definition rfc868_connect (sock server : Z) : M S Z :=
  let addr := SockaddrIn AF_INET (htons 37) server in
  let dummy := 0 in
  let len := 1 in
  sendto_res ← sendto sock [dummy] addr;
  mret (if decide (sendto_res = len) then 0 else -1).

Definition rfc868_gettime32 (server : Z) : M S Z :=
  let sock_type := SOCK_DGRAM in
  sock ← socket AF_INET sock_type 0;
  if decide (sock >= 0) then
    res ← rfc868_connect sock server;
    secs ← (if decide (res = 0) then recv_time32 sock else mret 0);
    _ ← close sock;
    mret secs
  else mret 0.

Definition timespec_correct (ts : timespec) : timespec :=
  Timespec (tv_sec ts) (Z.quot NSECS_IN_SEC 2).

(** [ts] is what the caller's structure holds. The subtraction of the epoch is
    one of signed numbers. *)
Definition rfc868_gettime (ts : timespec) : M S (Z * timespec) :=
  let secs_to_epoch := i32 2208988800 in
  v ← getc;
  secs ← rfc868_gettime32 (rfc868_server v);
  let tp_secs := i32 secs in
  if decide (tp_secs = 0) then mret (-1, ts)
  else if decide (tp_secs < secs_to_epoch) then mret (-1, ts)
  else
    let posix_secs := i32 (tp_secs - secs_to_epoch) in
    let ts := Timespec posix_secs 0 in
    mret (0, timespec_correct ts).

Definition rfc868_timeserver_set (server : Z) : M S unit := modifyc (λ _, Rfc868 server).
Definition rfc868_timeserver_get : M S Z := v ← getc; mret (rfc868_server v).
End rfc868.

(** ** Properties *)

(** The seconds from 1900 to 1970. *)
Definition epoch_1970 : Z := 2208988800.

Section laws.
Context {S : Type} `{!Has rfc868 S, !Sockets S} (t : reading) `{!SocketsLaws t rfc868 S}.
Context (junk_word : list Z).
Implicit Types (s : S).

Lemma twp_recv_time32 sock s : net_ok s →
  twp t (recv_time32 junk_word sock) s (λ n s',
    net_ok s' ∧ open_socks s' = open_socks s ∧ proj (C:=rfc868) s' = proj s ∧ is_u32 n).
Proof.
  intros Hn. apply twp_bind. eapply twp_mono, recv_law; [|done..].
  intros [r w] s' (Hn' & Hp & Ho & _). apply twp_ret. do 3 (split; [done|]).
  case_decide; [apply bswap32_range|done].
Qed.

(** The conversation: it completes and its socket is closed. *)
Lemma twp_rfc868_gettime32 server s : net_ok s →
  twp t (rfc868_gettime32 junk_word server) s (λ n s',
    net_ok s' ∧ open_socks s' = open_socks s ∧ proj (C:=rfc868) s' = proj s ∧ is_u32 n).
Proof.
  intros Hn. apply twp_bind. eapply twp_mono, socket_law; [|done].
  intros sock s1 (Hn1 & Hp1 & [[-> Ho1]|(Hpos & Hnin & Ho1)]).
  { rewrite decide_False by lia. by apply twp_ret. }
  rewrite decide_True by lia. apply twp_bind. unfold rfc868_connect. apply twp_bind.
  eapply twp_mono, sendto_law; [|done]. intros r s2 (Hn2 & Hp2 & Ho2). apply twp_ret.
  assert (Hclose : ∀ n s3, net_ok s3 → open_socks s3 = open_socks s2 → proj (C:=rfc868) s3 = proj s2 →
    is_u32 n → twp t (_ ← close sock; mret n) s3 (λ n s',
      net_ok s' ∧ open_socks s' = open_socks s ∧ proj (C:=rfc868) s' = proj s ∧ is_u32 n)).
  { intros n s3 Hn3 Ho3 Hp3 Hu. apply twp_bind. eapply twp_mono, close_law; [|done].
    intros r' s4 (Hn4 & Hp4 & Ho4). apply twp_ret. rewrite Ho4, Hp4, Ho3, Hp3, Ho2, Hp2, Ho1, Hp1.
    split; [done|]. split; [|done]. clear -Hnin. set_solver. }
  apply twp_bind. case_decide; [|by apply twp_ret, Hclose].
  eapply twp_mono, twp_recv_time32; [|done]. intros n s3 (? & ? & ? & ?). by apply Hclose.
Qed.
End laws.

(** What the socket calls keep, the client keeps. *)
Section keeps_rfc868.
Context {S : Type} `{!Has rfc868 S, !Sockets S} (R : S → S → Prop) `{!PreOrder R, !KeepsSockets R}.
Context (junk_word : list Z).

Lemma keeps_rfc868_gettime ts : keeps R (rfc868_gettime junk_word ts).
Proof. unfold rfc868_gettime, rfc868_gettime32, rfc868_connect, recv_time32. keeps_solve. Qed.
End keeps_rfc868.

(** What becomes of the server's answer [n]. No answer, and the numbers
    from 2^31 up to the epoch, are errors that leave the caller's structure
    alone; the years 1970 to 2036 and, in the next era of the 32-bit count, 2036
    to 2038 are exact; but the numbers between, which stand for 1901 to 1968,
    pass the test although the code calls them definitely wrong: the signed
    comparison does not see them, and the result is a time before 1970. *)
Theorem rfc868_gettime_conversion {S : Type} `{!Has rfc868 S, !Sockets S, !SocketsLaws Total rfc868 S}
    junk_word ts (s : S) :
  net_ok s →
  wp (rfc868_gettime junk_word ts) s (λ r s',
    open_socks s' = open_socks s ∧ proj (C:=rfc868) s' = proj s ∧
    ∃ n, rfc868_gettime32 junk_word (rfc868_server (proj s)) s = Done (n, s') ∧
      r = if decide (n = 0 ∨ 2147483648 ≤ n < epoch_1970) then (-1, ts)
          else if decide (n < 61505152) then (0, Timespec (n + 4294967296 - epoch_1970) 500000000)
          else (0, Timespec (n - epoch_1970) 500000000)).
Proof.
  intros Hn. apply wp_bind, wp_gets, wp_bind.
  pose proof (wp_of_twp _ _ _ (twp_rfc868_gettime32 Total junk_word (rfc868_server (proj s)) s Hn)) as Hrun.
  apply wp_run in Hrun as (n & s' & Hrun & Hn' & Ho & Hp & Hu). eapply wp_Done; [exact Hrun|].
  change (i32 2208988800) with (-2085978496). unfold is_u32, epoch_1970 in *. cbv zeta.
  assert (Hi : i32 n = if decide (n < 2147483648) then n else n - 4294967296)
    by (unfold i32; case_decide; zlia).
  rewrite Hi. change (timespec_correct (Timespec ?x 0)) with (Timespec x 500000000).
  assert (Hi2 : ∀ z, -2147483648 ≤ z < 2147483648 → i32 z = z) by (intros; by apply i32_id).
  assert (Hi3 : ∀ z, 2147483648 ≤ z < 6442450944 → i32 z = z - 4294967296) by (intros; unfold i32; zlia).
  repeat case_decide; try lia; apply wp_ret; (split; [done|]); (split; [done|]); exists n;
    (split; [done|]); repeat case_decide; try lia; try done; do 2 f_equal;
    first [rewrite Hi2 by lia|rewrite Hi3 by lia]; lia.
Qed.

(** ** A concrete system: a scripted network *)
Record rfc868_world := Rfc868World { rw_rfc868 : rfc868; rw_net : net }.
#[export] Instance rw_has_rfc868 : Has rfc868 rfc868_world :=
  {| proj := rw_rfc868; upd := λ c w, Rfc868World c (rw_net w) |}.
#[export] Instance rw_has_net : Has net rfc868_world :=
  {| proj := rw_net; upd := λ c w, Rfc868World (rw_rfc868 w) c |}.
#[export] Instance rw_laws_net : HasLaws net rfc868_world.
Proof. split; [done|by intros []|done]. Qed.
#[export] Instance rw_indep1 : Indep rfc868 net rfc868_world.
Proof. done. Qed.
#[export] Instance rw_indep2 : Indep net rfc868 rfc868_world.
Proof. done. Qed.
#[export] Instance rw_sockets : Sockets rfc868_world := scripted_sockets.
#[export] Instance rw_sockets_laws : SocketsLaws Total rfc868 rfc868_world := scripted_laws.

(** The answer 100000000 is a time of March 1903. *)
Definition rw_init : rfc868_world :=
  Rfc868World (Rfc868 DEFAULT_RFC868_SERVER) (Net [[5; 245; 225; 0]] ∅ []).

Example rfc868_year_1903 :
  wp (rfc868_gettime [0; 0; 0; 0] TIMESPEC_ZERO) rw_init
    (λ r _, r = (0, Timespec (-2108988800) 500000000)).
Proof. vm_compute. reflexivity. Qed.

Lemma rfc868_gettime_conversion_witness :
  wp (rfc868_gettime [0; 0; 0; 0] TIMESPEC_ZERO) rw_init (λ r s',
    open_socks s' = open_socks rw_init ∧ proj (C:=rfc868) s' = proj rw_init ∧
    ∃ n, rfc868_gettime32 [0; 0; 0; 0] (rfc868_server (proj rw_init)) rw_init = Done (n, s') ∧
      r = if decide (n = 0 ∨ 2147483648 ≤ n < epoch_1970) then (-1, TIMESPEC_ZERO)
          else if decide (n < 61505152) then (0, Timespec (n + 4294967296 - epoch_1970) 500000000)
          else (0, Timespec (n - epoch_1970) 500000000)).
Proof.
  apply (rfc868_gettime_conversion [0; 0; 0; 0]).
  split; [|by vm_compute; lia]. apply Forall_cons. split; [|done].
  split; [|by vm_compute; lia]. repeat constructor; vm_compute; congruence.
Defined.
