(* ===== verification/Timesync.v ===== *)
(** * Clock synchronisation: [src/timesync.c]

    Once a day the real-time clock is set from a time server, by one of the two
    clients: the configuration [TIMESYNC_METHOD] is a parameter. *)

From stdpp Require Import prelude list numbers gmap.
From S2P Require Import Prelude Timespec Clock ClockDummy Inet Sockets Sntp Rfc868.

Inductive timesync_method := TIMESYNC_METHOD_RFC868 | TIMESYNC_METHOD_SNTP.

Definition TIMESYNC_INTERVAL : Z := 60 * 60 * 24.

(** The file-scope variable that changes, and the one that does not. *)
Record syncing := Syncing { next_sync : timespec }.
Definition sync_interval : timespec := Timespec TIMESYNC_INTERVAL 0.
Definition syncing_init : syncing := Syncing (Timespec 0 0).

(** [clock_settime] of the clock linked into the program. *)
Class ClockSettime (S : Type) := clock_settime : clockid → timespec → M S Z.
Class KeepsSettime {S : Type} `{!ClockSettime S} (R : S → S → Prop) : Prop :=
  keeps_settime id tp : keeps R (clock_settime id tp).
#[export] Hint Resolve keeps_settime : keeps.

Section timesync.
Context {S : Type} `{!Has syncing S, !Has sntp S, !Has rfc868 S, !Sockets S, !Clock S, !ClockSettime S}.
Context (TIMESYNC_METHOD : timesync_method).
(** What the uninitialised locals hold. *)
Context (junk_ts : timespec) (junk_msg junk_word : list Z).

(** [None] is the null pointer. *)
Definition time_to_sync (now : option timespec) : M S bool :=
  match now with
  | None => mret true
  | Some now => v ← getc; mret (bool_decide (timespec_cmp now (next_sync v) >= 0))
  end.

Definition timesync_gettime (now : timespec) : M S (Z * timespec) :=
  match TIMESYNC_METHOD with
  | TIMESYNC_METHOD_RFC868 => rfc868_gettime junk_word now
  | TIMESYNC_METHOD_SNTP => sntp_gettime junk_ts junk_msg now
  end.

Definition timesync_now_timespec (out : option timespec) : M S (Z * option timespec) :=
  '(gettime_ret, now) ← timesync_gettime junk_ts;
  if decide (gettime_ret = 0) then
    clk_ret ← clock_settime CLOCK_REALTIME now;
    if decide (clk_ret = 0) then
      let out := match out with Some _ => Some now | None => None end in
      _ ← modifyc (λ _, Syncing (timespec_add now sync_interval));
      mret (1, out)
    else mret (-1, out)
  else mret (-1, out).

Definition timesync_timespec (now : option timespec) : M S (Z * option timespec) :=
  t ← time_to_sync now;
  if (t : bool) then timesync_now_timespec now else mret (0, now).

Definition timesync : M S Z :=
  '(_, now) ← clock_gettime CLOCK_REALTIME junk_ts;
  '(res, _) ← timesync_timespec (Some now);
  mret res.

Definition timesync_now : M S Z :=
  '(res, _) ← timesync_now_timespec None;
  mret res.
End timesync.

(** ** Properties *)

(** What the clients, the clock and its setting keep, the synchronisation keeps. *)
Section keeps_timesync.
Context {S : Type} `{!Has syncing S, !Has sntp S, !Has rfc868 S, !Sockets S, !Clock S, !ClockSettime S}
  (R : S → S → Prop) `{!PreOrder R, !KeepsClock R, !KeepsSettime R, !KeepsVar syncing R}.
Context (meth : timesync_method) (junk_ts : timespec) (junk_msg junk_word : list Z).

Lemma keeps_timesync : (∀ ts, keeps R (rfc868_gettime junk_word ts)) →
  (∀ ts, keeps R (sntp_gettime junk_ts junk_msg ts)) → keeps R (timesync meth junk_ts junk_msg junk_word).
Proof.
  intros. unfold timesync, timesync_timespec, time_to_sync, timesync_now_timespec, timesync_gettime. keeps_solve.
Qed.
End keeps_timesync.

Section laws.
Context {S : Type} `{!Has syncing S, !HasLaws syncing S, !Has sntp S, !Has rfc868 S, !Sockets S,
  !Clock S, !ClockSettime S}.
Context (meth : timesync_method) (junk_ts : timespec) (junk_msg junk_word : list Z).
Implicit Types (s : S).

#[local] Abbreviation sync := (timesync_timespec meth junk_ts junk_msg junk_word).
#[local] Abbreviation sync_now := (timesync_now_timespec meth junk_ts junk_msg junk_word).
#[local] Abbreviation source := (timesync_gettime meth junk_ts junk_msg junk_word junk_ts).

(** When it is time, measured on the nanosecond line. *)
Lemma sync_due now next s :
  since_epoch now → since_epoch next → next_sync (proj s) = next →
  sync (Some now) s = if decide (ns next ≤ ns now) then sync_now (Some now) s else Done ((0, Some now), s).
Proof.
  intros [Hn Hn0] [Hx Hx0] Hnext. unfold timesync_timespec, time_to_sync, getc, gets, mbind, M_bind, mret, M_ret.
  rewrite Hnext. pose proof (timespec_cmp_lt now next Hn Hx) as Hcmp.
  assert (sec_safe (tv_sec now - tv_sec next)) by (unfold sec_safe; lia).
  case_bool_decide; case_decide; intuition lia.
Qed.

(** Synchronising, from the answers of the time source and of the clock. *)
Lemma sync_now_failed out now ret s s1 :
  source s = Done ((ret, now), s1) → ret ≠ 0 → sync_now out s = Done ((-1, out), s1).
Proof. intros Hs Hr. unfold timesync_now_timespec, mbind, M_bind. by rewrite Hs, decide_False. Qed.

Lemma sync_now_set out now clk s s1 s2 :
  source s = Done ((0, now), s1) → clock_settime CLOCK_REALTIME now s1 = Done (clk, s2) →
  sync_now out s =
    if decide (clk = 0)
    then Done ((1, (λ _, now) <$> out), upd (Syncing (timespec_add now sync_interval)) s2)
    else Done ((-1, out), s2).
Proof.
  intros Hs Hc. unfold timesync_now_timespec, mbind, M_bind. rewrite Hs, decide_True, Hc by done.
  case_decide; [by destruct out|done].
Qed.

(** One synchronisation a day. Whatever the time source and the clock
    answer, [timesync_now_timespec] has this effect: if both succeed, it returns
    1, gives the caller the new time, and from then on [timesync_timespec]
    touches nothing and returns 0 for every time of the following 86400
    seconds, to synchronise again at the first time after them; if one fails,
    it returns -1, the caller's structure keeps its content, and the state is
    the one the failing call left: the next due time is not moved. *)
Theorem timesync_daily out now ret s s1 :
  source s = Done ((ret, now), s1) →
  (ret ≠ 0 → sync_now out s = Done ((-1, out), s1)) ∧
  (∀ clk s2, ret = 0 → clock_settime CLOCK_REALTIME now s1 = Done (clk, s2) →
    if decide (clk = 0) then
      ∃ s3, sync_now out s = Done ((1, (λ _, now) <$> out), s3) ∧ (s3 = upd (proj s3 : syncing) s2) ∧
        (since_epoch now → tv_sec now < 2147483646 - TIMESYNC_INTERVAL →
         ∀ t s4, since_epoch t → proj (C:=syncing) s4 = proj s3 →
           sync (Some t) s4 =
             if decide (ns now + 86400 * NSECS_IN_SEC ≤ ns t) then sync_now (Some t) s4
             else Done ((0, Some t), s4))
    else sync_now out s = Done ((-1, out), s2)).
Proof.
  intros Hsrc. split; [by apply (sync_now_failed _ now)|]. intros clk s2 -> Hset.
  rewrite (sync_now_set _ _ _ _ _ _ Hsrc Hset). case_decide; [|done].
  eexists. split; [done|]. rewrite proj_upd. split; [done|].
  intros [Hn Hn0] Hlim t s4 Ht Hs4.
  destruct (timespec_add_spec now sync_interval) as [Hx Hxs]; [done|by vm_compute| |].
  { unfold sum_safe, sync_interval, TIMESYNC_INTERVAL in *. simpl. lia. }
  rewrite (sync_due t (timespec_add now sync_interval)); [|done| |by rewrite Hs4].
  - rewrite Hxs. done.
  - split; [done|]. destruct Hx as [_ Hx], Hn as [_ Hn]. unfold sync_interval in *.
    unfold ns, NSECS_IN_SEC, TIMESYNC_INTERVAL in *. cbn [tv_sec tv_nsec] in *. lia.
Qed.
End laws.

(** ** A concrete system: SNTP over a scripted network, the dummy clock *)
Record sync_world := SyncWorld {
  yw_sync : syncing; yw_sntp : sntp; yw_rfc868 : rfc868; yw_net : net; yw_clock : clock_dummy }.
#[export] Instance yw_has_sync : Has syncing sync_world :=
  {| proj := yw_sync; upd := λ c w, SyncWorld c (yw_sntp w) (yw_rfc868 w) (yw_net w) (yw_clock w) |}.
#[export] Instance yw_has_sntp : Has sntp sync_world :=
  {| proj := yw_sntp; upd := λ c w, SyncWorld (yw_sync w) c (yw_rfc868 w) (yw_net w) (yw_clock w) |}.
#[export] Instance yw_has_rfc868 : Has rfc868 sync_world :=
  {| proj := yw_rfc868; upd := λ c w, SyncWorld (yw_sync w) (yw_sntp w) c (yw_net w) (yw_clock w) |}.
#[export] Instance yw_has_net : Has net sync_world :=
  {| proj := yw_net; upd := λ c w, SyncWorld (yw_sync w) (yw_sntp w) (yw_rfc868 w) c (yw_clock w) |}.
#[export] Instance yw_has_clock : Has clock_dummy sync_world :=
  {| proj := yw_clock; upd := λ c w, SyncWorld (yw_sync w) (yw_sntp w) (yw_rfc868 w) (yw_net w) c |}.
#[export] Instance yw_laws_sync : HasLaws syncing sync_world.
Proof. split; [done|by intros []|done]. Qed.
#[export] Instance yw_clock_inst : Clock sync_world := embedded_clock.
#[export] Instance yw_sockets : Sockets sync_world := scripted_sockets.
#[export] Instance yw_settime : ClockSettime sync_world := λ id tp s,
  match ClockDummy.clock_settime id (Some tp) (proj s) with
  | Done (r, c) => Done (match r with OK => 0 | Error _ => 22 end, upd c s)
  | Fault => Fault
  | Hang => Hang
  end.

Definition yw_init : sync_world :=
  SyncWorld syncing_init (Sntp DEFAULT_SNTP_SERVER) (Rfc868 DEFAULT_RFC868_SERVER)
    (Net [sw_reply] ∅ []) (ClockDummy (Timespec 1001 0) TIMESPEC_ZERO E0).
Definition yw_now : timespec := Timespec 1601 250000360.
(** After the answer of the source, and after setting the clock. *)
Definition yw_answered : sync_world :=
  SyncWorld syncing_init (Sntp DEFAULT_SNTP_SERVER) (Rfc868 DEFAULT_RFC868_SERVER)
    (Net [] ∅ [message_bytes ([35; 0; 0; 0; 0; 0; 0; 0; 0; 0; htonl (1001 + SECS_TO_EPOCH); 0])])
    (ClockDummy (Timespec 1001 2000) (Timespec 0 2000) E0).
Definition yw_set : sync_world :=
  SyncWorld (yw_sync yw_answered) (yw_sntp yw_answered) (yw_rfc868 yw_answered) (yw_net yw_answered)
    (ClockDummy yw_now (Timespec 0 2000) E0).

#[local] Abbreviation yw_sync_now := (timesync_now_timespec TIMESYNC_METHOD_SNTP TIMESPEC_ZERO
  (replicate 48 0) (replicate 4 0)).
#[local] Abbreviation yw_sync_at := (timesync_timespec TIMESYNC_METHOD_SNTP TIMESPEC_ZERO
  (replicate 48 0) (replicate 4 0)).

Lemma timesync_daily_witness :
  ∃ s3, yw_sync_now None yw_init = Done ((1, None), s3) ∧ s3 = upd (proj s3 : syncing) yw_set ∧
    (since_epoch yw_now → tv_sec yw_now < 2147483646 - TIMESYNC_INTERVAL →
     ∀ t s4, since_epoch t → proj (C:=syncing) s4 = proj s3 →
       yw_sync_at (Some t) s4 =
         if decide (ns yw_now + 86400 * NSECS_IN_SEC ≤ ns t) then yw_sync_now (Some t) s4
         else Done ((0, Some t), s4)).
Proof.
  destruct (timesync_daily TIMESYNC_METHOD_SNTP TIMESPEC_ZERO (replicate 48 0) (replicate 4 0)
    None yw_now 0 yw_init yw_answered) as [_ H]; [vm_compute; reflexivity|].
  apply (H 0 yw_set eq_refl). vm_compute. reflexivity.
Defined.
