(* ===== verification/Dns.v ===== *)
(** * DNS messages: the first half of [src/getaddrinfo.c]

    Names in DNS messages: labels, compression pointers, the parser that first
    counts and then copies, and the construction of a query. A message is the
    array of its bytes; a pointer into it is an index, an access outside the
    array is a [Fault]. *)

From stdpp Require Import prelude list numbers.
From S2P Require Import Prelude Inet.

Definition DNS_HEADER_LEN : Z := 12.
Definition TYPE_A : Z := 1.
Definition CLASS_IN : Z := 1.
Definition OPCODE_QUERY : Z := Z.shiftl 0 3.
Definition RD : Z := Z.shiftl 1 0.
Definition OFFSET_ID : Z := 0.
Definition OFFSET_OPCODE : Z := 2.
Definition OFFSET_RCODE : Z := 3.
Definition OFFSET_QDCOUNT : Z := 4.
Definition OFFSET_ANCOUNT : Z := 6.
Definition OFFSET_NSCOUNT : Z := 8.
Definition OFFSET_ARCOUNT : Z := 10.
Definition OFFSET_QUESTION : Z := 12.

(** The size of the message buffers. *)
Definition dns_buffer : nat := 512.

(** The result also has the advanced pointer. *)
Definition dns_query_append16 (msg : list Z) (pq hval : Z) : outcome (list Z * Z) :=
  let nval := htons (u16 hval) in
  msg ← mem_write msg pq (le_bytes 2 nval);
  Done (msg, pq + 2).

Definition dns_response_get16 (msg : list Z) (pr : Z) : outcome Z :=
  bs ← mem_read msg pr 2;
  Done (ntohs (le_val bs)).

(** ** Labels

    The functions that look at the first byte [l] of a label. *)
Definition label_ispointer (l : Z) : bool := bool_decide (Z.land l 192 = 192).
Definition label_isend (l : Z) : bool := bool_decide (l = 0).
Definition label_isstr (l : Z) : bool := bool_decide (l > 0 ∧ l < 192).

Definition get_label_offset (msg : list Z) (label : Z) : outcome Z :=
  offset ← dns_response_get16 msg label;
  Done (Z.land offset (u16 (Z.lnot 49152))).

Definition get_label_len (l : Z) : Z := u8 (Z.land l (Z.lnot 192)).

Section names.
Context {S : Type}.

(** [None] is the null pointer. *)
Definition skip_turn (msg : list Z) (label : Z) : outcome (Z + option Z) :=
  l ← aget msg label;
  if label_isend l then Done (inr (Some (label + 1)))
  else if label_ispointer l then Done (inr (Some (label + 2)))
  else if label_isstr l then Done (inl (label + (get_label_len l + 1)))
  else Done (inr None).

Definition skip_labels (fuel : nat) (msg : list Z) (label : Z) : M S (option Z) :=
  loop fuel (λ label, lift (skip_turn msg label)) label.

(** A destination: the size of the block and the characters written so far. *)
Definition dest : Type := option (nat * list Z).

Definition dest_put (dst : dest) (cs : list Z) : outcome dest :=
  match dst with
  | None => Done None
  | Some (cap, out) =>
      if decide (length out + length cs ≤ cap)%nat then Done (Some (cap, out ++ cs)) else Fault
  end.

(** The dot before every label but the first, and the label's characters, which
    are only read when there is a destination. *)
Definition label_separator (first : bool) (str_len : Z) (dst : dest) : outcome (Z * dest) :=
  if first then Done (str_len, dst)
  else dst ← dest_put dst [46]; Done (u16 (str_len + 1), dst).

Definition label_copy (msg : list Z) (str label_len : Z) (dst : dest) : outcome dest :=
  match dst with
  | None => Done None
  | Some _ => cs ← mem_read msg str (Z.to_nat label_len); dest_put dst cs
  end.

(** The variables of the loop of [parse_name]. *)
Record name_state := NameState { label : Z; str_len : Z; first_label_str : bool; dst : dest }.

Definition parse_turn_name (msg : list Z) (st : name_state) : outcome (name_state + Z * dest) :=
  l ← aget msg (label st);
  if label_ispointer l then
    off ← get_label_offset msg (label st);
    Done (inl (NameState off (str_len st) (first_label_str st) (dst st)))
  else if label_isend l then
    d ← dest_put (dst st) [0];
    Done (inr (u16 (str_len st + 1), d))
  else if label_isstr l then
    let label_len := get_label_len l in
    '(n, d) ← label_separator (first_label_str st) (str_len st) (dst st);
    d ← label_copy msg (label st + 1) label_len d;
    Done (inl (NameState (label st + (label_len + 1)) (u16 (n + label_len)) false d))
  else Done (inr (0, dst st)).

Definition parse_name (fuel : nat) (msg : list Z) (pstart : Z) (dst : dest) : M S (Z * dest) :=
  loop fuel (λ st, lift (parse_turn_name msg st)) (NameState pstart 0 true dst).

Definition get_name_size (fuel : nat) (msg : list Z) (pstart : Z) : M S Z :=
  '(n, _) ← parse_name fuel msg pstart None;
  mret n.

(** [presp = NULL] once a name is malformed. *)
Definition skip_questions (fuel : nat) (dns_response : list Z) : M S (option Z) :=
  qdcount ← lift (dns_response_get16 dns_response OFFSET_QDCOUNT);
  '(presp, complete) ← for_break (Z.to_nat qdcount) 0 (λ _ presp,
    p ← lift (deref presp);
    presp ← skip_labels fuel dns_response p;
    mret (match presp with
          | None => inr None
          | Some p => inl (Some (p + (2 + 2)))
          end)) (Some OFFSET_QUESTION);
  mret (if complete : bool then presp else None).

(** ** The query *)

(** Copying the characters of one label. *)
Definition query_char (st : list Z * Z * list Z) : outcome (list Z * Z * list Z + list Z * Z * list Z) :=
  let '(dns_query, pq, pname) := st in
  c ← peek pname;
  if decide (c ≠ 46 ∧ c ≠ 0) then
    dns_query ← aset dns_query pq c;
    Done (inl (dns_query, pq + 1, drop 1 pname))
  else Done (inr st).

Definition query_label (st : list Z * Z * list Z) : M S (list Z * Z * list Z + list Z * Z) :=
  let '(dns_query, pq, pname) := st in
  c ← lift (peek pname);
  if decide (c ≠ 0) then
    let plen := pq in
    '(dns_query, pq, pname) ← loop (length pname) (λ st, lift (query_char st)) (dns_query, pq + 1, pname);
    dns_query ← lift (aset dns_query plen (u8 (pq - plen - 1)));
    c ← lift (peek pname);
    let pname := if decide (c = 46) then drop 1 pname else pname in
    mret (inl (dns_query, pq, pname))
  else mret (inr (dns_query, pq)).

(** [send_dns_query] up to the call of [send]: the buffer and the length. *)
Definition dns_query_message (id : Z) (nodename : list Z) : M S (list Z * Z) :=
  let dns_query := replicate dns_buffer 0 in
  '(dns_query, _) ← lift (dns_query_append16 dns_query OFFSET_ID id);
  dns_query ← lift (aset dns_query OFFSET_OPCODE (Z.lor OPCODE_QUERY RD));
  dns_query ← lift (aset dns_query OFFSET_RCODE 0);
  '(dns_query, _) ← lift (dns_query_append16 dns_query OFFSET_QDCOUNT 1);
  '(dns_query, _) ← lift (dns_query_append16 dns_query OFFSET_ANCOUNT 0);
  '(dns_query, _) ← lift (dns_query_append16 dns_query OFFSET_NSCOUNT 0);
  '(dns_query, _) ← lift (dns_query_append16 dns_query OFFSET_ARCOUNT 0);
  '(dns_query, pq) ← loop (length nodename) query_label (dns_query, OFFSET_QUESTION, nodename);
  dns_query ← lift (aset dns_query pq 0);
  let pq := pq + 1 in
  '(dns_query, pq) ← lift (dns_query_append16 dns_query pq TYPE_A);
  '(dns_query, pq) ← lift (dns_query_append16 dns_query pq CLASS_IN);
  mret (dns_query, pq).
End names.

(** ** Properties: parsing *)

(** A test of every byte value. *)
Lemma u8_cases (P : Z → bool) : forallb P (seqZ 0 256) = true → ∀ l, is_u8 l → P l = true.
Proof.
  intros H l Hl. rewrite forallb_forall in H. apply H, list_elem_of_In, elem_of_seqZ. unfold is_u8 in Hl. lia.
Qed.

Lemma label_ispointer_spec l : is_u8 l → label_ispointer l = bool_decide (192 ≤ l).
Proof.
  intros Hl. apply Bool.eqb_prop.
  exact (u8_cases (λ l, eqb (label_ispointer l) (bool_decide (192 ≤ l))) eq_refl l Hl).
Qed.

Lemma get_label_len_spec l : is_u8 l → get_label_len l = l mod 64.
Proof. intros Hl. apply Z.eqb_eq. exact (u8_cases (λ l, get_label_len l =? l mod 64) eq_refl l Hl). Qed.

Section parsing.
Context (msg : list Z) (Hmsg : Forall is_u8 msg).
Implicit Types (p q : Z).

Lemma msg_byte p l : aget msg p = Done l → is_u8 l ∧ 0 ≤ p < Z.of_nat (length msg).
Proof.
  intros [Hp Hl]%aget_Some. split; [by eapply Forall_lookup_1|]. apply lookup_lt_Some in Hl. lia.
Qed.

(** The reference: the text of the name at [p], with its NUL, following at most
    [fuel] labels and pointers. *)
Fixpoint name_at (fuel : nat) (p : Z) (first : bool) : outcome (list Z) :=
  match fuel with
  | O => Hang
  | S fuel =>
      l ← aget msg p;
      if decide (192 ≤ l) then off ← get_label_offset msg p; name_at fuel off first
      else if decide (l = 0) then Done [0]
      else
        rest ← name_at fuel (p + l mod 64 + 1) false;
        cs ← mem_read msg (p + 1) (Z.to_nat (l mod 64));
        Done ((if first then [] else [46]) ++ cs ++ rest)
  end.

(** The next label. *)
Definition next_label (p : Z) : option Z :=
  match aget msg p with
  | Done l =>
      if decide (192 ≤ l) then match get_label_offset msg p with Done off => Some off | _ => None end
      else if decide (l = 0) then None
      else Some (p + l mod 64 + 1)
  | _ => None
  end.

Fixpoint orbit (n : nat) (p : Z) : option Z :=
  match n with
  | O => Some p
  | S n => q ← next_label p; orbit n q
  end.

Lemma orbit_add a b p : orbit (a + b) p = orbit a p ≫= orbit b.
Proof.
  revert p. induction a as [|a IH]; intros p; [done|]. simpl.
  destruct (next_label p) as [q|]; [apply IH|done].
Qed.

Lemma orbit_prefix a n p : (a ≤ n)%nat → is_Some (orbit n p) → is_Some (orbit a p).
Proof.
  intros Ha. replace n with (a + (n - a))%nat by lia. rewrite orbit_add. intros [q Hq].
  destruct (orbit a p); [by eexists|done].
Qed.

(** A label visited twice is visited forever. *)
Lemma orbit_cycle i d p q :
  orbit i p = Some q → orbit (i + S d) p = Some q → ∀ k, is_Some (orbit k p).
Proof.
  intros Hi Hd k. induction (lt_wf k) as [k _ IH].
  destruct (decide (k ≤ i + S d)%nat) as [Hk|Hk]; [by eapply orbit_prefix; [exact Hk|eexists]|].
  destruct (IH (k - S d)%nat ltac:(lia)) as [x Hx]. exists x.
  replace k with (i + S d + (k - i - S d))%nat by lia. rewrite orbit_add, Hd. simpl.
  replace (k - S d)%nat with (i + (k - i - S d))%nat in Hx by lia. by rewrite orbit_add, Hi in Hx.
Qed.

Lemma orbit_range n p : is_Some (orbit (S n) p) → ∃ q, orbit n p = Some q ∧ 0 ≤ q < Z.of_nat (length msg).
Proof.
  replace (S n) with (n + 1)%nat by lia. rewrite orbit_add. intros [x Hx].
  destruct (orbit n p) as [q|]; [|done]. exists q. split; [done|]. simpl in Hx. unfold next_label in Hx.
  destruct (aget msg q) as [l| |] eqn:Hl; [|done..]. by apply msg_byte in Hl as [_ ?].
Qed.

(** A walk that ends visits each byte of the message at most once. *)
Lemma orbit_end k p : orbit k p = None → orbit (S (length msg)) p = None.
Proof.
  intros Hk. destruct (orbit (S (length msg)) p) as [x|] eqn:Hx; [|done]. exfalso.
  set (n := length msg) in *.
  assert (Hpos : ∀ i, (i < S n)%nat → ∃ q, orbit i p = Some q ∧ 0 ≤ q < Z.of_nat n).
  { intros i Hi. apply orbit_range. eapply (orbit_prefix _ (S n)); [lia|by eexists]. }
  set (ps := map (λ i, default 0 (orbit i p)) (seq 0 (S n))).
  assert (Hnd : NoDup ps).
  { apply NoDup_alt. intros i j q Hi Hj. unfold ps in *. rewrite list_lookup_fmap in *.
    destruct (lookup_lt_is_Some_2 (seq 0 (S n)) i) as [i' Hi'].
    { apply lookup_lt_is_Some. destruct (seq 0 (S n) !! i); [by eexists|done]. }
    destruct (lookup_lt_is_Some_2 (seq 0 (S n)) j) as [j' Hj'].
    { apply lookup_lt_is_Some. destruct (seq 0 (S n) !! j); [by eexists|done]. }
    rewrite Hi' in Hi. rewrite Hj' in Hj. apply lookup_seq in Hi' as [-> Hi'], Hj' as [-> Hj'].
    simpl in *. destruct (Hpos i Hi') as (qi & Hqi & _), (Hpos j Hj') as (qj & Hqj & _).
    rewrite Hqi in Hi. rewrite Hqj in Hj. simplify_eq/=.
    destruct (Nat.lt_trichotomy i j) as [Hij|[Hij|Hij]]; [|done|]; exfalso.
    - destruct (orbit_cycle i (j - i - 1) p q Hqi) with k as [? ?]; [|congruence].
      by replace (i + S (j - i - 1))%nat with j by lia.
    - destruct (orbit_cycle j (i - j - 1) p q Hqj) with k as [? ?]; [|congruence].
      by replace (j + S (i - j - 1))%nat with i by lia. }
  assert (Hsub : ps ⊆+ seqZ 0 (Z.of_nat n)).
  { apply NoDup_submseteq; [done|]. intros q Hq. unfold ps in Hq.
    apply list_elem_of_fmap in Hq as (i & -> & Hi). apply elem_of_seq in Hi.
    destruct (Hpos i) as (q & Hq & Hr); [lia|]. rewrite Hq. simpl. apply elem_of_seqZ. lia. }
  apply submseteq_length in Hsub. unfold ps in Hsub. rewrite length_fmap, length_seq, length_seqZ in Hsub. lia.
Qed.

Lemma name_at_hang fuel p first : name_at fuel p first = Hang ↔ is_Some (orbit fuel p).
Proof.
  revert p first. induction fuel as [|fuel IH]; intros p first; [split; [by eexists|done]|].
  simpl. unfold next_label. destruct (aget msg p) as [l| |] eqn:Hl; simpl.
  2: split; [done|by intros []]. 2: { unfold aget, deref in Hl. repeat case_match; done. }
  case_decide.
  - destruct (get_label_offset msg p) as [off| |] eqn:Hoff; simpl; [apply IH|split; [done|by intros []]|].
    unfold get_label_offset, dns_response_get16, mem_read in Hoff. case_decide; done.
  - case_decide; [split; [done|by intros []]|]. simpl. rewrite <- (IH _ false).
    destruct (name_at fuel _ false) as [rest| |]; simpl; [|done..].
    unfold mem_read. case_decide; done.
Qed.

Lemma name_at_mono n m p first : (n ≤ m)%nat → name_at n p first ≠ Hang → name_at m p first = name_at n p first.
Proof.
  revert m p first. induction n as [|n IH]; intros [|m] p first Hm Hn; try done; [lia|]. simpl in *.
  destruct (aget msg p) as [l| |]; simpl in *; [|done..]. case_decide.
  - destruct (get_label_offset msg p); simpl in *; [|done..]. apply IH; [lia|done].
  - case_decide; [done|]. rewrite IH; [done|lia|]. intros E. by rewrite E in Hn.
Qed.

(** The text ends with its NUL and is not longer than 64 characters per label. *)
Lemma name_at_shape fuel p first t :
  name_at fuel p first = Done t → (∃ u, t = u ++ [0]) ∧ (1 ≤ length t ≤ 64 * fuel)%nat.
Proof.
  revert p first t. induction fuel as [|fuel IH]; intros p first t; [done|]. simpl.
  destruct (aget msg p) as [l| |] eqn:Hl; simpl; [|done..]. apply msg_byte in Hl as [Hl _].
  case_decide; [destruct (get_label_offset msg p); simpl; [|done..]; intros Ht; apply IH in Ht; lia || (split; [apply Ht|lia])|].
  case_decide; [intros [= <-]; simpl; split; [by exists []|lia]|].
  destruct (name_at fuel _ false) as [rest| |] eqn:Hr; simpl; [|done..]. apply IH in Hr as [[u ->] Hlen].
  unfold mem_read. case_decide; simpl; [|done]. intros [= <-]. split.
  - eexists. by rewrite !app_assoc.
  - rewrite !length_app, length_take, length_drop in *. assert (0 ≤ l mod 64 < 64) by (apply Z.mod_pos_bound; lia).
    destruct first; simpl in *; lia.
Qed.

Lemma name_at_inside fuel p first t : name_at fuel p first = Done t → 0 ≤ p < Z.of_nat (length msg).
Proof.
  destruct fuel as [|fuel]; [done|]. simpl. destruct (aget msg p) as [l| |] eqn:Hl; [|done..].
  intros _. by apply msg_byte in Hl as [_ ?].
Qed.

(** The two uses of [parse_name]: counting, and copying into a block that is
    large enough. *)
Definition counted (n : Z) (d : dest) (t : list Z) : Z * dest :=
  (u16 (n + Z.of_nat (length t)),
   match d with None => None | Some (cap, out) => Some (cap, out ++ t) end).

Definition fits (d : dest) (t : list Z) : Prop :=
  match d with None => True | Some (cap, out) => (length out + length t ≤ cap)%nat end.

Lemma dest_put_fits d cs t : fits d (cs ++ t) →
  ∃ d', dest_put d cs = Done d' ∧ fits d' t ∧ ∀ n,
    counted (u16 (n + Z.of_nat (length cs))) d' t = counted n d (cs ++ t).
Proof.
  assert (Hn : ∀ n, u16 (u16 (n + Z.of_nat (length cs)) + Z.of_nat (length t)) =
    u16 (n + Z.of_nat (length (cs ++ t)))) by (intros; rewrite u16_add, length_app; f_equal; lia).
  destruct d as [[cap out]|]; unfold fits, counted; simpl.
  - intros Hf. rewrite length_app in Hf. rewrite decide_True by lia. eexists. split; [done|].
    split; [simpl; rewrite length_app; lia|]. intros n. simpl. by rewrite Hn, app_assoc.
  - intros _. eexists. split; [done|]. split; [done|]. intros n. simpl. by rewrite Hn.
Qed.

(** The destination after one label. *)
Lemma label_put (d : dest) (first : bool) (len : Z) cs rest (n off : Z) :
  mem_read msg off (Z.to_nat len) = Done cs → 0 ≤ len < 64 →
  fits d ((if first then [] else [46]) ++ cs ++ rest) →
  ∃ (n' : Z) (d1 d' : dest),
    label_separator first n d = Done (n', d1) ∧ label_copy msg off len d1 = Done d' ∧ fits d' rest ∧
    counted (u16 (n' + len)) d' rest = counted n d ((if first then [] else [46]) ++ cs ++ rest).
Proof.
  intros Hcs Hlen Hf.
  assert (Hl : Z.of_nat (length cs) = len).
  { unfold mem_read in Hcs. case_decide; [|done]. injection Hcs as <-. rewrite length_take, length_drop. lia. }
  assert (Hput : ∀ d1, label_copy msg off len d1 = dest_put d1 cs)
    by (intros [[]|]; unfold label_copy; [by rewrite Hcs|done]).
  destruct first; simpl in Hf; unfold label_separator.
  - destruct (dest_put_fits d cs rest Hf) as (d' & Hd & Hf' & Hc). exists n, d, d'.
    rewrite Hput, <- Hl. done.
  - destruct (dest_put_fits d [46] (cs ++ rest) Hf) as (d1 & Hd1 & Hf1 & Hc1).
    destruct (dest_put_fits d1 cs rest Hf1) as (d' & Hd & Hf' & Hc). exists (u16 (n + 1)), d1, d'.
    rewrite Hput, Hd1, <- Hl. split; [done|]. split; [done|]. split; [done|]. by rewrite Hc, Hc1.
Qed.

Lemma parse_turn_done fuel st t :
  name_at (S fuel) (label st) (first_label_str st) = Done t → fits (dst st) t →
  parse_turn_name msg st = Done (inr (counted (str_len st) (dst st) t)) ∨
  ∃ st' t', parse_turn_name msg st = Done (inl st') ∧
    name_at fuel (label st') (first_label_str st') = Done t' ∧ fits (dst st') t' ∧
    counted (str_len st') (dst st') t' = counted (str_len st) (dst st) t.
Proof.
  cbn [name_at]. unfold parse_turn_name. destruct (aget msg (label st)) as [l| |] eqn:Hl; [|done..].
  cbn [mbind outcome_bind]. pose proof (msg_byte _ _ Hl) as [Hl8 _].
  rewrite label_ispointer_spec, get_label_len_spec by done. unfold label_isend, label_isstr.
  case_decide as Hp.
  { rewrite bool_decide_true by done. destruct (get_label_offset msg _) as [off| |]; simpl; [|done..].
    intros Ht Hf. right. by eexists (NameState off _ _ _), t. }
  rewrite bool_decide_false by done. case_decide as He.
  { rewrite bool_decide_true by done. intros [= <-] Hf. left.
    destruct (dest_put_fits (dst st) [0] []) as (d' & -> & _ & Hc); [done|]. simpl.
    specialize (Hc (str_len st)). unfold counted in *. simpl in *. injection Hc as _ Hc.
    do 3 f_equal. rewrite <- Hc. destruct d' as [[cap out]|]; by rewrite ?app_nil_r. }
  rewrite bool_decide_false by done. unfold is_u8 in Hl8. rewrite bool_decide_true by lia.
  destruct (name_at fuel _ false) as [rest| |] eqn:Hr; cbn [mbind outcome_bind]; [|done..].
  destruct (mem_read msg _ _) as [cs| |] eqn:Hcs; cbn [mbind outcome_bind]; [|done..]. intros [= <-] Hf. right.
  destruct (label_put (dst st) (first_label_str st) (l mod 64) cs rest (str_len st) _ Hcs)
    as (n' & d1 & d' & Hn & Hd & Hf' & Hc); [apply Z.mod_pos_bound; lia|done|].
  rewrite Hn. cbn [mbind outcome_bind]. rewrite Hd. cbn [mbind outcome_bind].
  exists (NameState (label st + (l mod 64 + 1)) (u16 (n' + l mod 64)) false d'), rest.
  split; [done|]. split; [|done]. simpl. by rewrite Z.add_assoc.
Qed.

Lemma parse_loop_done {S : Type} fuel st (s : S) t :
  name_at fuel (label st) (first_label_str st) = Done t → fits (dst st) t →
  loop fuel (λ st, lift (parse_turn_name msg st)) st s = Done (counted (str_len st) (dst st) t, s).
Proof.
  revert st t. induction fuel as [|fuel IH]; intros st t Ht Hf; [done|].
  unfold loop; fold (@loop S name_state (Z * dest)). unfold mbind, M_bind, lift at 1.
  destruct (parse_turn_done fuel st t Ht Hf) as [-> | (st' & t' & -> & Ht' & Hf' & <-)]; [done|].
  by apply IH.
Qed.

Lemma parse_turn_bad fuel st :
  dst st = None → (∀ t, name_at (S fuel) (label st) (first_label_str st) ≠ Done t) →
  (parse_turn_name msg st = Fault ∧ name_at (S fuel) (label st) (first_label_str st) = Fault) ∨
  ∃ st', parse_turn_name msg st = Done (inl st') ∧ dst st' = None ∧
    name_at fuel (label st') (first_label_str st') = name_at (S fuel) (label st) (first_label_str st).
Proof.
  intros Hd. cbn [name_at]. unfold parse_turn_name.
  destruct (aget msg (label st)) as [l| |] eqn:Hl; [|by left|unfold aget, deref in Hl; by repeat case_match].
  cbn [mbind outcome_bind]. pose proof (msg_byte _ _ Hl) as [Hl8 _].
  rewrite label_ispointer_spec, get_label_len_spec by done. unfold label_isend, label_isstr.
  case_decide as Hp.
  { rewrite bool_decide_true by done.
    destruct (get_label_offset msg _) as [off| |] eqn:Hoff; simpl; [|by left|].
    - intros _. right. by eexists (NameState off _ _ _).
    - unfold get_label_offset, dns_response_get16, mem_read in Hoff. by case_decide. }
  rewrite bool_decide_false by done. case_decide as He; [intros H; by destruct (H [0])|].
  rewrite bool_decide_false by done. unfold is_u8 in Hl8. rewrite bool_decide_true by lia. rewrite Hd.
  intros Hbad. right.
  assert (∃ n, label_separator (first_label_str st) (str_len st) None = Done (n, None)) as [n ->]
    by (unfold label_separator; destruct (first_label_str st); by eexists).
  cbn [mbind outcome_bind]. eexists. split; [done|]. split; [done|]. simpl. rewrite Z.add_assoc.
  destruct (name_at fuel _ false) as [rest| |] eqn:Hr; [|done..]. exfalso.
  apply name_at_inside in Hr. simpl in Hbad. unfold mem_read in Hbad.
  assert (0 ≤ l mod 64 < 64) by (apply Z.mod_pos_bound; lia).
  apply msg_byte in Hl as [_ ?]. rewrite decide_True in Hbad by lia. by eapply Hbad.
Qed.

Lemma parse_loop_bad {S : Type} fuel st (s : S) :
  dst st = None → (∀ t, name_at fuel (label st) (first_label_str st) ≠ Done t) →
  loop fuel (λ st, lift (parse_turn_name msg st)) st s =
    match name_at fuel (label st) (first_label_str st) with Fault => Fault | _ => Hang end.
Proof.
  revert st. induction fuel as [|fuel IH]; intros st Hd Hbad; [done|].
  unfold loop; fold (@loop S name_state (Z * dest)). unfold mbind, M_bind, lift at 1.
  destruct (parse_turn_bad fuel st Hd Hbad) as [[-> ->] | (st' & -> & Hd' & E)]; [done|].
  rewrite IH, E; [done|done|]. intros t. rewrite E. apply Hbad.
Qed.
End parsing.

(** C32: parsing a name in a message of 512 bytes. There are three cases, and
    513 labels decide between them. Either the name has a text of at most 32832
    characters, its NUL included: then the counting pass returns its size, and
    the copying pass fills a block of that size exactly. Or the labels lead out
    of the message, which nothing prevents. Or the compression pointers form a
    cycle, and the parser never returns. The branch for malformed labels, with result
    0, is never taken. *)
Theorem parse_name_total {S : Type} msg p (s : S) :
  Forall is_u8 msg → length msg = dns_buffer →
  (∃ u, let n := Z.of_nat (length (u ++ [0])) in
     1 ≤ n ≤ 32832 ∧
     ∀ fuel, (513 ≤ fuel)%nat →
       parse_name fuel msg p None s = Done ((n, None), s) ∧
       parse_name fuel msg p (Some (Z.to_nat n, [])) s = Done ((n, Some (Z.to_nat n, u ++ [0])), s)) ∨
  (∀ fuel, (513 ≤ fuel)%nat → parse_name fuel msg p None s = Fault) ∨
  (∀ fuel, parse_name fuel msg p None s = Hang).
Proof.
  intros Hmsg Hlen. destruct (name_at msg 513 p true) as [t| |] eqn:Ht.
  - left. destruct (name_at_shape _ Hmsg _ _ _ _ Ht) as [[u ->] Hl]. exists u. cbv zeta. split; [lia|].
    intros fuel Hfuel. unfold parse_name.
    assert (Ht' : name_at msg fuel p true = Done (u ++ [0])) 
      by (rewrite (name_at_mono msg 513); [exact Ht|lia|by rewrite Ht]).
    rewrite !(parse_loop_done _ Hmsg _ _ _ (u ++ [0])); [|exact Ht'|simpl; lia|exact Ht'|done].
    unfold counted. simpl str_len. rewrite u16_id by (unfold is_u16; lia). done.
  - right. left. intros fuel Hfuel. unfold parse_name.
    assert (Ht' : name_at msg fuel p true = Fault) 
      by (rewrite (name_at_mono msg 513); [exact Ht|lia|by rewrite Ht]).
    rewrite (parse_loop_bad _ Hmsg); simpl; [by rewrite Ht'|done|intros t; by rewrite Ht'].
  - right. right. intros fuel. unfold parse_name.
    assert (Ht' : name_at msg fuel p true = Hang).
    { apply name_at_hang. destruct (orbit msg fuel p) eqn:E; [by eexists|].
      apply (orbit_end _ Hmsg) in E. rewrite Hlen in E.
      apply name_at_hang in Ht. change (Datatypes.S dns_buffer) with 513%nat in E. rewrite E in Ht. by destruct Ht. }
    rewrite (parse_loop_bad _ Hmsg); simpl; [by rewrite Ht'|done|intros t; by rewrite Ht'].
Qed.

(** A compression pointer to itself, and one past the end. *)
Definition bad_names : list Z := [192; 0; 255; 255] ++ replicate 508 0.

Example parse_self_pointer : name_at bad_names 513 0 true = Hang ∧ name_at bad_names 513 2 true = Fault.
Proof. vm_compute. done. Qed.

Lemma parse_name_total_witness :
  (∃ u, let n := Z.of_nat (length (u ++ [0])) in
     1 ≤ n ≤ 32832 ∧
     ∀ fuel, (513 ≤ fuel)%nat →
       parse_name fuel bad_names 0 None tt = Done ((n, None), tt) ∧
       parse_name fuel bad_names 0 (Some (Z.to_nat n, [])) tt = Done ((n, Some (Z.to_nat n, u ++ [0])), tt)) ∨
  (∀ fuel, (513 ≤ fuel)%nat → parse_name fuel bad_names 0 None tt = Fault) ∨
  (∀ fuel, parse_name fuel bad_names 0 None tt = Hang).
Proof.
  apply (parse_name_total bad_names 0 tt); [|reflexivity].
  apply Forall_app. split; [|apply Forall_replicate; split; vm_compute; congruence].
  repeat constructor; vm_compute; congruence.
Defined.

(** ** Properties: the query *)

(** Host names as RFC 1035 has them: labels of 1 to 63 characters. *)
Definition label_ok (l : list Z) : Prop :=
  (1 ≤ length l ≤ 63)%nat ∧ Forall (λ c, is_u8 c ∧ c ≠ 46 ∧ c ≠ 0) l.

Fixpoint host_text (ls : list (list Z)) : list Z :=
  match ls with
  | [] => []
  | [l] => l
  | l :: ls => l ++ 46 :: host_text ls
  end.

(** The labels of a message, before the final empty one. *)
Definition encode_labels (ls : list (list Z)) : list Z := mjoin (map (λ l, Z.of_nat (length l) :: l) ls).
Definition encode_name (ls : list (list Z)) : list Z := encode_labels ls ++ [0].

Lemma length_encode_labels ls : ls ≠ [] → length (encode_labels ls) = S (length (host_text ls)).
Proof.
  unfold encode_labels. induction ls as [|l [|l' ls] IH]; [done|intros _; simpl; by rewrite app_nil_r|intros _].
  change (mjoin (map (λ l, Z.of_nat (length l) :: l) (l :: l' :: ls))) with
    ((Z.of_nat (length l) :: l) ++ mjoin (map (λ l, Z.of_nat (length l) :: l) (l' :: ls))).
  change (host_text (l :: l' :: ls)) with (l ++ 46 :: host_text (l' :: ls)).
  rewrite !length_app, IH by done. simpl. lia.
Qed.

Section query.
Context {S : Type}.
Implicit Types (s : S) (pre l : list Z).

(** Copying the characters of a label into a buffer that ends with [k] zeros. *)
Lemma query_chars fuel pre k l c rest s :
  Forall (λ c, is_u8 c ∧ c ≠ 46 ∧ c ≠ 0) l → (c = 46 ∨ c = 0) → (length l < fuel)%nat →
  loop fuel (λ st, lift (query_char st)) (pre ++ replicate k 0, Z.of_nat (length pre), l ++ c :: rest) s =
    if decide (length l ≤ k)%nat
    then Done ((pre ++ l ++ replicate (k - length l) 0, Z.of_nat (length (pre ++ l)), c :: rest), s)
    else Fault.
Proof.
  intros Hl Hc. revert fuel pre k. induction l as [|x l IH]; intros [|fuel] pre k Hfuel; simpl in *; try lia.
  - unfold loop; fold (@loop S (list Z * Z * list Z)). unfold mbind, M_bind, lift, query_char, peek. simpl.
    rewrite decide_False by (destruct Hc; lia). by rewrite app_nil_r, Nat.sub_0_r.
  - apply Forall_cons_1 in Hl as [(Hx & H46 & H0) Hl].
    unfold loop; fold (@loop S (list Z * Z * list Z)). unfold mbind, M_bind, lift at 1, query_char, peek.
    simpl. rewrite decide_True by done. destruct k as [|k].
    + rewrite app_nil_r, aset_out by lia. done.
    + simpl replicate. rewrite aset_app. simpl.
      replace (pre ++ x :: replicate k 0) with ((pre ++ [x]) ++ replicate k 0) by (by rewrite <- app_assoc).
      replace (Z.of_nat (length pre) + 1) with (Z.of_nat (length (pre ++ [x])))
        by (rewrite length_app; simpl; lia).
      rewrite drop_0, IH by (done || lia).
      destruct (decide (length l ≤ k)%nat), (decide (Datatypes.S (length l) ≤ Datatypes.S k)%nat);
        [|lia|lia|done]. by rewrite <- !app_assoc.
Qed.

Lemma query_label_put pre k l c rest s :
  label_ok l → (c = 46 ∨ c = 0) →
  query_label (pre ++ replicate k 0, Z.of_nat (length pre), l ++ c :: rest) s =
    if decide (length l < k)%nat
    then let pre := pre ++ Z.of_nat (length l) :: l in
         Done (inl (pre ++ replicate (k - Datatypes.S (length l)) 0, Z.of_nat (length pre),
                    if decide (c = 46) then rest else c :: rest), s)
    else Fault.
Proof.
  intros [Hlen Hl] Hc. unfold query_label, mbind at 1, M_bind at 1.
  assert (∃ x, peek (l ++ c :: rest) = Done x ∧ x ≠ 0) as (x & -> & Hx).
  { destruct l as [|x l]; [simpl in Hlen; lia|]. apply Forall_cons_1 in Hl as [(? & ? & ?) _]. by exists x. }
  unfold lift at 1. rewrite decide_True by done. unfold mbind at 1, M_bind at 1.
  destruct k as [|k].
  { rewrite decide_False by lia. destruct l as [|y l]; [simpl in Hlen; lia|].
    apply Forall_cons_1 in Hl as [(? & ? & ?) _]. simpl length. unfold loop; fold (@loop S (list Z * Z * list Z)).
    unfold mbind, M_bind, lift at 1, query_char, peek. simpl. rewrite decide_True by done.
    rewrite app_nil_r, aset_out; [done|lia]. }
  replace (pre ++ replicate (Datatypes.S k) 0) with ((pre ++ [0]) ++ replicate k 0) by (by rewrite <- app_assoc).
  replace (Z.of_nat (length pre) + 1) with (Z.of_nat (length (pre ++ [0]))) by (rewrite length_app; simpl; lia).
  rewrite query_chars by (done || (rewrite length_app; simpl; lia)).
  destruct (decide (length l ≤ k)%nat), (decide (length l < Datatypes.S k)%nat); [|lia|lia|done].
  unfold mbind, M_bind, lift, peek. simpl. rewrite <- app_assoc. simpl. rewrite aset_app.
  assert (Hb : u8 (Z.of_nat (length ((pre ++ [0]) ++ l)) - Z.of_nat (length pre) - 1) = Z.of_nat (length l)).
  { rewrite !length_app. simpl. rewrite u8_id by (unfold is_u8; lia). lia. }
  rewrite Hb. unfold mret, M_ret. simpl.
  replace (length ((pre ++ [0]) ++ l)) with (length (pre ++ Z.of_nat (length l) :: l))
    by (rewrite !length_app; simpl; lia).
  rewrite <- (app_assoc pre (Z.of_nat (length l) :: l)). destruct (decide (c = 46)); by rewrite ?drop_0.
Qed.

(** All labels. *)
Lemma query_labels fuel pre k ls s :
  Forall label_ok ls → (length ls < fuel)%nat →
  loop fuel query_label (pre ++ replicate k 0, Z.of_nat (length pre), host_text ls ++ [0]) s =
    if decide (length (encode_labels ls) ≤ k)%nat
    then Done ((pre ++ encode_labels ls ++ replicate (k - length (encode_labels ls)) 0,
                Z.of_nat (length (pre ++ encode_labels ls))), s)
    else Fault.
Proof.
  revert fuel pre k. induction ls as [|l ls IH]; intros [|fuel] pre k Hls Hfuel; simpl in Hfuel; try lia.
  - unfold loop; fold (@loop S (list Z * Z * list Z)). unfold mbind, M_bind, query_label. simpl.
    unfold encode_labels. simpl. by rewrite app_nil_r, Nat.sub_0_r.
  - apply Forall_cons_1 in Hls as [Hl Hls].
    assert (∃ c rest, host_text (l :: ls) ++ [0] = l ++ c :: rest ∧ (c = 46 ∨ c = 0) ∧
      (if decide (c = 46) then rest else c :: rest) = host_text ls ++ [0]) as (c & rest & -> & Hc & Hrest).
    { destruct ls as [|l' ls]; [by exists 0, []; auto|]. exists 46, (host_text (l' :: ls) ++ [0]).
      split; [|auto]. change (host_text (l :: l' :: ls)) with (l ++ 46 :: host_text (l' :: ls)).
      by rewrite <- app_assoc. }
    unfold loop; fold (@loop S (list Z * Z * list Z)). unfold mbind, M_bind.
    rewrite query_label_put by done. cbv zeta. rewrite Hrest.
    assert (He : encode_labels (l :: ls) = (Z.of_nat (length l) :: l) ++ encode_labels ls) by done.
    assert (Hlen : length (encode_labels (l :: ls)) = Datatypes.S (length l + length (encode_labels ls)))
      by (rewrite He, length_app; done).
    rewrite Hlen, He.
    destruct (decide (length l < k)%nat); [|rewrite decide_False by lia; done].
    rewrite IH by (done || lia).
    destruct (decide (length (encode_labels ls) ≤ k - _)%nat),
      (decide (Datatypes.S (length l + length (encode_labels ls)) ≤ k)%nat); [|lia|lia|done].
    replace (k - Datatypes.S (length l) - length (encode_labels ls))%nat with
      (k - Datatypes.S (length l + length (encode_labels ls)))%nat by lia.
    by rewrite <- !app_assoc.
Qed.
End query.

(** Writing into the zeros at the end of a buffer. *)
Lemma mem_write_zeros pre k bs :
  mem_write (pre ++ replicate k 0) (Z.of_nat (length pre)) bs =
    if decide (length bs ≤ k)%nat then Done (pre ++ bs ++ replicate (k - length bs) 0) else Fault.
Proof.
  unfold mem_write. rewrite length_app, length_replicate.
  destruct (decide (length bs ≤ k)%nat); [|by rewrite decide_False by lia]. rewrite decide_True by lia.
  rewrite Nat2Z.id, take_app_length, drop_app_add. by rewrite drop_replicate.
Qed.

Lemma encode_labels_cons l ls : encode_labels (l :: ls) = (Z.of_nat (length l) :: l) ++ encode_labels ls.
Proof. done. Qed.

Lemma host_text_cons l ls : ls ≠ [] → host_text (l :: ls) = l ++ 46 :: host_text ls.
Proof. by destruct ls. Qed.

(** The first label of an encoded name. *)
Lemma encoded_first pre l ls post :
  pre ++ (encode_labels (l :: ls) ++ [0]) ++ post =
  pre ++ Z.of_nat (length l) :: l ++ (encode_labels ls ++ [0]) ++ post.
Proof. rewrite encode_labels_cons. simpl. by rewrite <- !app_assoc. Qed.

Section encoded.
Context (ls : list (list Z)) (Hls : Forall label_ok ls).

(** The first byte of a label is its length. *)
Lemma label_len_byte l : label_ok l →
  is_u8 (Z.of_nat (length l)) ∧ Z.of_nat (length l) mod 64 = Z.of_nat (length l) ∧
  Z.of_nat (length l) ≠ 0 ∧ ¬ 192 ≤ Z.of_nat (length l).
Proof. intros [? _]. unfold is_u8. rewrite Z.mod_small by lia. lia. Qed.

Lemma name_at_encoded fuel pre post (first : bool) :
  (length ls < fuel)%nat →
  name_at (pre ++ encode_name ls ++ post) fuel (Z.of_nat (length pre)) first =
    Done ((if first || bool_decide (ls = []) then [] else [46]) ++ host_text ls ++ [0]).
Proof.
  unfold encode_name. revert fuel pre first.
  induction Hls as [|l ls' Hl Hls' IH]; intros [|fuel] pre first Hfuel; simpl in Hfuel; try lia.
  - simpl. rewrite aget_app. simpl. by rewrite orb_true_r.
  - destruct (label_len_byte l Hl) as (Hu & Hm & Hz & H192). cbn [name_at].
    rewrite encoded_first, aget_app. cbn [mbind outcome_bind].
    rewrite decide_False, decide_False, Hm by done.
    set (msg := pre ++ _).
    assert (E1 : msg = (pre ++ Z.of_nat (length l) :: l) ++ (encode_labels ls' ++ [0]) ++ post)
      by (unfold msg; by rewrite <- (app_assoc pre)).
    assert (E2 : msg = (pre ++ [Z.of_nat (length l)]) ++ l ++ (encode_labels ls' ++ [0]) ++ post)
      by (unfold msg; by rewrite <- (app_assoc pre)).
    rewrite E1 at 1.
    replace (Z.of_nat (length pre) + Z.of_nat (length l) + 1) with
      (Z.of_nat (length (pre ++ Z.of_nat (length l) :: l))) by (rewrite length_app; simpl; lia).
    rewrite IH by (exact Hls' || lia). cbn [mbind outcome_bind]. rewrite E2.
    replace (Z.of_nat (length pre) + 1) with (Z.of_nat (length (pre ++ [Z.of_nat (length l)])))
      by (rewrite length_app; simpl; lia).
    rewrite Nat2Z.id, (mem_read_app _ l) by done. cbn [mbind outcome_bind].
    rewrite (bool_decide_false (l :: ls' = [])), orb_false_r by done. simpl orb.
    destruct ls' as [|l' ls'']; [by rewrite bool_decide_true|]. rewrite bool_decide_false by done.
    rewrite (host_text_cons l (l' :: ls'')) by done. by rewrite <- !app_assoc.
Qed.

(** Labels are skipped one by one. *)
Lemma skip_labels_prefix {S : Type} fuel pre post (s : S) :
  let msg := pre ++ encode_labels ls ++ post in
  skip_labels (length ls + fuel) msg (Z.of_nat (length pre)) s =
    skip_labels fuel msg (Z.of_nat (length pre + length (encode_labels ls))) s.
Proof.
  cbv zeta. unfold skip_labels. revert pre. induction Hls as [|l ls' Hl Hls' IH]; intros pre.
  { simpl. by rewrite Nat.add_0_r. }
  destruct (label_len_byte l Hl) as (Hu & Hm & Hz & H192).
  assert (E : pre ++ encode_labels (l :: ls') ++ post =
    (pre ++ Z.of_nat (length l) :: l) ++ encode_labels ls' ++ post)
    by (rewrite encode_labels_cons; by rewrite <- !app_assoc).
  change (length (l :: ls') + fuel)%nat with (Datatypes.S (length ls' + fuel)).
  rewrite (loop_inl _ _ _ (Z.of_nat (length (pre ++ Z.of_nat (length l) :: l))) s s).
  { assert (Hlen : (length pre + length (encode_labels (l :: ls')) =
      length (pre ++ Z.of_nat (length l) :: l) + length (encode_labels ls'))%nat)
      by (rewrite encode_labels_cons, !length_app; simpl; lia).
    by rewrite Hlen, E, IH. }
  unfold lift, skip_turn. rewrite encode_labels_cons. simpl app. rewrite aget_app. cbn [mbind outcome_bind].
  unfold label_isend, label_isstr. rewrite label_ispointer_spec, get_label_len_spec, Hm by done.
  rewrite !bool_decide_false, bool_decide_true by (unfold is_u8 in Hu; lia).
  do 4 f_equal. rewrite length_app. simpl. lia.
Qed.

Lemma skip_labels_encoded {S : Type} fuel pre post (s : S) :
  (length ls < fuel)%nat →
  skip_labels fuel (pre ++ encode_name ls ++ post) (Z.of_nat (length pre)) s =
    Done (Some (Z.of_nat (length pre + length (encode_name ls))), s).
Proof.
  intros Hf. unfold encode_name. rewrite <- (app_assoc _ [0]).
  replace fuel with (length ls + Datatypes.S (fuel - Datatypes.S (length ls)))%nat by lia.
  rewrite skip_labels_prefix. apply loop_inr. unfold lift, skip_turn.
  change ([0] ++ post) with (0 :: post). rewrite <- length_app, (app_assoc pre), aget_app. simpl. do 4 f_equal.
  rewrite !length_app. simpl. lia.
Qed.
End encoded.

(** The one question of a message is skipped. *)
Lemma skip_questions_one {S : Type} fuel ls hdr post (s : S) :
  let msg := hdr ++ encode_name ls ++ post in
  Forall label_ok ls → (length ls < fuel)%nat → length hdr = 12%nat →
  dns_response_get16 msg OFFSET_QDCOUNT = Done 1 →
  skip_questions fuel msg s = Done (Some (12 + Z.of_nat (length (encode_name ls)) + 4), s).
Proof.
  intros msg Hls Hf Hh Hq. unfold skip_questions, mbind, M_bind, lift at 1. rewrite Hq.
  change (Z.to_nat 1) with 1%nat. unfold for_break, mbind, M_bind, lift, deref.
  change OFFSET_QUESTION with (Z.of_nat 12). rewrite <- Hh. unfold msg.
  rewrite skip_labels_encoded by done. unfold mret, M_ret. do 3 f_equal. lia.
Qed.

(** A 16-bit number as the protocol writes it. *)
Definition be16 (z : Z) : list Z := rev (le_bytes 2 z).

Lemma le_bytes_htons z : le_bytes 2 (htons z) = be16 z.
Proof. apply (le_bytes_val (rev (le_bytes 2 z))), Forall_rev, le_bytes_u8. Qed.

Definition query_header (id : Z) : list Z := be16 id ++ [1; 0; 0; 1; 0; 0; 0; 0; 0; 0].

Lemma dns_query_header {S : Type} id nodename (s : S) : is_u16 id →
  dns_query_message id nodename s =
    ('(dns_query, pq) ← loop (length nodename) query_label
        (query_header id ++ replicate 500 0, Z.of_nat (length (query_header id)), nodename);
     dns_query ← lift (aset dns_query pq 0);
     let pq := pq + 1 in
     '(dns_query, pq) ← lift (dns_query_append16 dns_query pq TYPE_A);
     '(dns_query, pq) ← lift (dns_query_append16 dns_query pq CLASS_IN);
     mret (dns_query, pq)) s.
Proof.
  intros Hid. unfold dns_query_message, query_header.
  assert (∃ a b, be16 id = [a; b]) as (a & b & E).
  { unfold be16. destruct (rev (le_bytes 2 id)) as [|a [|b [|]]] eqn:E; [..|by exists a, b|];
      apply (f_equal length) in E; rewrite length_rev, length_le_bytes in E; discriminate E. }
  assert (H0 : dns_query_append16 (replicate dns_buffer 0) OFFSET_ID id = Done (be16 id ++ replicate 510 0, 2)).
  { unfold dns_query_append16. rewrite le_bytes_htons, u16_id, E by done. reflexivity. }
  rewrite H0, E. reflexivity.
Qed.

Lemma aset_zeros pre k x :
  aset (pre ++ replicate k 0) (Z.of_nat (length pre)) x =
    if decide (1 ≤ k)%nat then Done ((pre ++ [x]) ++ replicate (k - 1) 0) else Fault.
Proof.
  destruct k as [|k]; [rewrite app_nil_r, aset_out; [done|lia]|].
  rewrite decide_True by lia. simpl replicate. rewrite aset_app, <- app_assoc. by rewrite Nat.sub_0_r.
Qed.

Lemma append16_zeros pre k v : is_u16 v →
  dns_query_append16 (pre ++ replicate k 0) (Z.of_nat (length pre)) v =
    if decide (2 ≤ k)%nat
    then Done ((pre ++ be16 v) ++ replicate (k - 2) 0, Z.of_nat (length (pre ++ be16 v))) else Fault.
Proof.
  intros Hv. unfold dns_query_append16. rewrite le_bytes_htons, u16_id, mem_write_zeros by done.
  assert (Hl : length (be16 v) = 2%nat) by (unfold be16; by rewrite length_rev, length_le_bytes).
  rewrite length_app, Hl. destruct (decide (2 ≤ k)%nat); [|done]. cbn [mbind outcome_bind].
  rewrite <- app_assoc. do 2 f_equal. lia.
Qed.

(** What follows the labels. *)
Lemma query_end {S : Type} pre k (s : S) :
  ('(dns_query, pq) ← mret (pre ++ replicate k 0, Z.of_nat (length pre));
   dns_query ← lift (aset dns_query pq 0);
   let pq := pq + 1 in
   '(dns_query, pq) ← lift (dns_query_append16 dns_query pq TYPE_A);
   '(dns_query, pq) ← lift (dns_query_append16 dns_query pq CLASS_IN);
   mret (dns_query, pq)) s =
  if decide (5 ≤ k)%nat
  then Done ((pre ++ [0; 0; 1; 0; 1] ++ replicate (k - 5) 0, Z.of_nat (length pre) + 5), s) else Fault.
Proof.
  unfold mbind at 1, M_bind at 1, mret at 1, M_ret at 1. unfold mbind at 1, M_bind at 1, lift at 1.
  rewrite aset_zeros. destruct (decide (1 ≤ k)%nat); [|by rewrite decide_False by lia].
  replace (Z.of_nat (length pre) + 1) with (Z.of_nat (length (pre ++ [0]))) by (rewrite length_app; simpl; lia).
  cbv zeta. unfold mbind at 1, M_bind at 1, lift at 1. rewrite append16_zeros by done.
  destruct (decide (2 ≤ k - 1)%nat); [|by rewrite decide_False by lia].
  unfold mbind at 1, M_bind at 1, lift at 1. rewrite append16_zeros by done.
  destruct (decide (2 ≤ k - 1 - 2)%nat), (decide (5 ≤ k)%nat); [|lia|lia|done].
  unfold mret, M_ret. do 3 f_equal.
  - rewrite <- !app_assoc. replace (k - 1 - 2 - 2)%nat with (k - 5)%nat by lia. reflexivity.
  - rewrite !length_app. simpl. lia.
Qed.

Lemma length_query_header id : length (query_header id) = 12%nat.
Proof. unfold query_header, be16. by rewrite length_app, length_rev, length_le_bytes. Qed.

Lemma host_text_long ls : Forall label_ok ls → (length ls ≤ length (host_text ls))%nat.
Proof.
  induction 1 as [|l ls [Hl _] _ IH]; [done|]. destruct ls; [simpl; lia|].
  rewrite host_text_cons by done. rewrite length_app. simpl in *. lia.
Qed.

(** The whole message. *)
Lemma dns_query_message_run {S : Type} id ls (s : S) :
  is_u16 id → ls ≠ [] → Forall label_ok ls →
  dns_query_message id (host_text ls ++ [0]) s =
    if decide (length (host_text ls) ≤ 494)%nat
    then Done ((query_header id ++ encode_name ls ++ [0; 1; 0; 1] ++
                replicate (494 - length (host_text ls)) 0, Z.of_nat (length (host_text ls)) + 18), s)
    else Fault.
Proof.
  intros Hid Hne Hls. rewrite dns_query_header by done.
  pose proof (length_encode_labels ls Hne) as Hlen. pose proof (host_text_long ls Hls) as Hlong.
  pose proof (query_end (query_header id ++ encode_labels ls) (500 - length (encode_labels ls)) s) as Hend.
  unfold mbind at 1, M_bind at 1 in Hend. unfold mbind at 1, M_bind at 1.
  rewrite query_labels; [|done|rewrite length_app; simpl; lia].
  destruct (decide (length (encode_labels ls) ≤ 500)%nat); [|by rewrite decide_False by lia].
  unfold mret at 1, M_ret at 1 in Hend. rewrite <- app_assoc in Hend. rewrite Hend. clear Hend.
  destruct (decide (5 ≤ 500 - length (encode_labels ls))%nat), (decide (length (host_text ls) ≤ 494)%nat);
    [|lia|lia|done].
  rewrite length_app, length_query_header. do 3 f_equal; [|lia].
  unfold encode_name. rewrite <- !app_assoc.
  replace (500 - length (encode_labels ls) - 5)%nat with (494 - length (host_text ls))%nat by lia. reflexivity.
Qed.

(** The bytes of an explicit list, which are at hand or numbers. *)
Ltac u8_list := repeat (apply Forall_cons_2; [assumption || (unfold is_u8; lia)|]); apply Forall_nil_2.

Lemma encode_name_u8 ls : Forall label_ok ls → Forall is_u8 (encode_name ls).
Proof.
  intros Hls. apply Forall_app_2; [|u8_list].
  induction Hls as [|l ls [Hl Hc] Hls IH]; [done|]. rewrite encode_labels_cons. apply Forall_app_2; [|done].
  constructor; [unfold is_u8; lia|]. eapply Forall_impl; [|exact Hc]. by intros c [? _].
Qed.

Lemma query_message_u8 id ls k : Forall label_ok ls →
  Forall is_u8 (query_header id ++ encode_name ls ++ [0; 1; 0; 1] ++ replicate k 0).
Proof.
  intros Hls.
  apply Forall_app_2; [|apply Forall_app_2; [by apply encode_name_u8|apply Forall_app_2; [u8_list|]]].
  - apply Forall_app_2; [apply Forall_rev, le_bytes_u8|u8_list].
  - apply Forall_replicate. unfold is_u8. lia.
Qed.

(** C33: the query for a host name. A name of at most 494 characters fits the
    message, and what the client would parse from it is the same name, followed
    by type and class; a longer one is written past the end of the buffer. *)
Theorem dns_query_roundtrip {S : Type} id ls (s : S) :
  is_u16 id → ls ≠ [] → Forall label_ok ls →
  if decide (length (host_text ls) ≤ 494)%nat then
    ∃ msg, let n := Z.of_nat (length (host_text ls)) + 18 in
      dns_query_message id (host_text ls ++ [0]) s = Done ((msg, n), s) ∧
      length msg = dns_buffer ∧
      take (Z.to_nat n) msg = query_header id ++ encode_name ls ++ [0; 1; 0; 1] ∧
      ∀ fuel, (length ls < fuel)%nat →
        let size := length (host_text ls ++ [0]) in
        parse_name fuel msg OFFSET_QUESTION (Some (size, [])) s =
          Done ((Z.of_nat size, Some (size, host_text ls ++ [0])), s) ∧
        skip_labels fuel msg OFFSET_QUESTION s = Done (Some (n - 4), s)
  else dns_query_message id (host_text ls ++ [0]) s = Fault.
Proof.
  intros Hid Hne Hls. rewrite dns_query_message_run by done. case_decide as Hfit; [|done].
  set (zeros := replicate _ 0). eexists. cbv zeta. split; [done|].
  pose proof (length_query_header id) as Hh. pose proof (length_encode_labels ls Hne) as Hlen.
  assert (Hn : length (encode_name ls) = (length (host_text ls) + 2)%nat)
    by (unfold encode_name; rewrite length_app; simpl; lia).
  split; [rewrite !length_app; unfold zeros; rewrite length_replicate; simpl; unfold dns_buffer; lia|].
  split; [rewrite !app_assoc, take_app_length'; [done|rewrite !length_app; simpl; lia]|].
  intros fuel Hf. change OFFSET_QUESTION with (Z.of_nat 12). rewrite <- Hh.
  rewrite skip_labels_encoded by done. split; [|do 3 f_equal; lia].
  pose proof (query_message_u8 id ls (494 - length (host_text ls)) Hls) as Hu. fold zeros in Hu.
  pose proof (name_at_encoded ls Hls fuel (query_header id) ([0; 1; 0; 1] ++ zeros) true Hf) as Hname.
  unfold parse_name. rewrite (parse_loop_done _ Hu _ _ _ (host_text ls ++ [0])); [|exact Hname|simpl; lia].
  unfold counted. simpl str_len. rewrite u16_id; [done|]. unfold is_u16. rewrite length_app. simpl. lia.
Qed.

(** "a.bc", and a name of 495 characters. *)
Definition long_labels : list (list Z) := replicate 8 (replicate 61 97).

Lemma dns_query_roundtrip_witness :
  (let ls := [[97]; [98; 99]] in
   ∃ msg, let n := Z.of_nat (length (host_text ls)) + 18 in
      dns_query_message 4660 (host_text ls ++ [0]) tt = Done ((msg, n), tt) ∧
      length msg = dns_buffer ∧
      take (Z.to_nat n) msg = query_header 4660 ++ encode_name ls ++ [0; 1; 0; 1] ∧
      ∀ fuel, (length ls < fuel)%nat →
        let size := length (host_text ls ++ [0]) in
        parse_name fuel msg OFFSET_QUESTION (Some (size, [])) tt =
          Done ((Z.of_nat size, Some (size, host_text ls ++ [0])), tt) ∧
        skip_labels fuel msg OFFSET_QUESTION tt = Done (Some (n - 4), tt)) ∧
  dns_query_message 4660 (host_text long_labels ++ [0]) tt = Fault.
Proof.
  split.
  - apply (dns_query_roundtrip 4660 [[97]; [98; 99]] tt); [split; lia|done|].
    repeat constructor; simpl; unfold is_u8; lia.
  - apply (dns_query_roundtrip 4660 long_labels tt); [split; lia|done|].
    apply Forall_replicate. split; [simpl; lia|]. apply Forall_replicate. unfold is_u8. lia.
Defined.

(** "a.bc" *)
Example dns_query_ex :
  wp (dns_query_message 4660 [97; 46; 98; 99; 0]) tt (λ r _,
    take 22 (fst r) = [18; 52; 1; 0; 0; 1; 0; 0; 0; 0; 0; 0; 1; 97; 2; 98; 99; 0; 0; 1; 0; 1] ∧
    snd r = 22 ∧
    wp (parse_name 9 (fst r) 12 (Some (5%nat, []))) tt
      (λ r _, r = (5, Some (5%nat, [97; 46; 98; 99; 0])))).
Proof. vm_compute. done. Qed.
