(* ===== verification/Netdb.v ===== *)
(** * Name resolution: [src/getaddrinfo.c], [src/gethostbyname.c]

    The resolver over the [Sockets] interface. The results are linked lists in
    the heap of the C library: the heap is part of the state, a map from
    pointers to blocks, so that leaks and uses after [free] are visible. The
    null pointer is [None]. *)

From stdpp Require Import prelude list numbers gmap.
From S2P Require Import Prelude Timespec Inet Sockets Dns.

(** [include/netdb.h]. *)
Definition EAI_FAIL : Z := 3.
Definition EAI_FAMILY : Z := 5.
Definition EAI_NONAME : Z := 6.
Definition EAI_SOCKTYPE : Z := 8.
Definition EAI_SYSTEM : Z := 9.

Definition ptr : Type := option positive.

Record addrinfo := Addrinfo {
  ai_flags : Z;
  ai_family : Z;
  ai_socktype : Z;
  ai_protocol : Z;
  ai_addrlen : Z;
  ai_addr : ptr;
  ai_canonname : ptr;
  ai_next : ptr;
}.

Definition with_next (x : ptr) (i : addrinfo) : addrinfo :=
  Addrinfo (ai_flags i) (ai_family i) (ai_socktype i) (ai_protocol i) (ai_addrlen i) (ai_addr i)
    (ai_canonname i) x.

(** ** The heap *)

(** [BRaw] is a block nothing was stored in yet. *)
Inductive block := BRaw | BName (cs : list Z) | BAddr (a : sockaddr_in) | BInfo (i : addrinfo).

Record heap := Heap { blocks : gmap positive block }.

(** The resolver's variable: the address of the name server. *)
Record resolver := Resolver { getaddrinfo_dns_server : Z }.

Definition RCODE_NOERR : Z := 0.
Definition RCODE_ENAME : Z := 3.
Definition OFFSET_TYPE : Z := 0.
Definition OFFSET_CLASS : Z := 2.
Definition OFFSET_RDLENGTH : Z := 8.
Definition OFFSET_RDATA : Z := 10.
Definition SIZEOF_ADDRINFO : Z := 32.
Definition SIZEOF_SOCKADDR_IN : Z := 12.

Section resolver.
Context {S : Type} `{!Has heap S, !Has resolver S, !Sockets S, !Rand S}.
(** When [malloc] has no memory left. *)
Context (alloc_fails : heap → Z → bool).
(** What the uninitialised buffer holds. *)
Context (junk_msg : list Z).

Definition malloc (size : Z) : M S ptr :=
  h ← getc;
  if alloc_fails h size then mret None
  else
    let p := fresh (dom (blocks h)) in
    _ ← modifyc (λ h, Heap (<[p := BRaw]> (blocks h)));
    mret (Some p).

Definition free (p : ptr) : M S unit :=
  match p with
  | None => mret tt
  | Some p =>
      h ← getc;
      _ ← lift (deref (blocks h !! p));
      modifyc (λ h, Heap (delete p (blocks h)))
  end.

(** Writing to a block, and reading one that holds a [struct addrinfo] or a
    [struct sockaddr_in]. *)
Definition block_put (p : ptr) (b : block) : M S unit :=
  p ← lift (deref p);
  h ← getc;
  _ ← lift (deref (blocks h !! p));
  modifyc (λ h, Heap (<[p := b]> (blocks h))).

Definition info_at (p : ptr) : M S addrinfo :=
  p ← lift (deref p);
  h ← getc;
  b ← lift (deref (blocks h !! p));
  match b with BInfo i => mret i | _ => fault end.

Definition addr_at (p : ptr) : M S sockaddr_in :=
  p ← lift (deref p);
  h ← getc;
  b ← lift (deref (blocks h !! p));
  match b with BAddr a => mret a | _ => fault end.

Definition freeaddrinfo (fuel : nat) (ai : ptr) : M S unit :=
  loop fuel (λ ai,
    match ai with
    | None => mret (inr tt)
    | Some _ =>
        i ← info_at ai;
        _ ← (match ai_addr i with Some _ => free (ai_addr i) | None => mret tt end);
        _ ← (match ai_canonname i with Some _ => free (ai_canonname i) | None => mret tt end);
        let next := ai_next i in
        _ ← free ai;
        mret (inl next)
    end) ai.

(** The string and its length. *)
Definition new_name (fuel : nat) (msg : list Z) (pstart : Z) : M S (ptr * Z) :=
  name_len ← get_name_size fuel msg pstart;
  if decide (name_len = 0) then mret (None, name_len)
  else
    name ← malloc name_len;
    '(_, d) ← parse_name fuel msg pstart
      (match name with Some _ => Some (Z.to_nat name_len, []) | None => None end);
    _ ← (match d with Some (_, out) => block_put name (BName out) | None => mret tt end);
    mret (name, name_len).

Definition create_socket (dns_server : Z) : M S Z :=
  let timeout := Timeval 1 0 in
  sock ← socket AF_INET SOCK_DGRAM 0;
  if decide (sock = -1) then mret (-1)
  else
    r ← setsockopt sock (SO_RCVTIMEO timeout);
    if decide (r = -1) then _ ← close sock; mret (-1)
    else
      r ← setsockopt sock (SO_SNDTIMEO timeout);
      if decide (r = -1) then _ ← close sock; mret (-1)
      else
        r ← connect sock (SockaddrIn AF_INET (htons 53) dns_server);
        if decide (r = -1) then _ ← close sock; mret (-1)
        else mret sock.

(** The result and [*id]. *)
Definition send_dns_query (sock : Z) (nodename : option (list Z)) : M S (Z * Z) :=
  r ← rand;
  let id := u16 r in
  nodename ← lift (deref nodename);
  '(dns_query, dns_query_len) ← dns_query_message id nodename;
  n ← send sock (take (Z.to_nat dns_query_len) dns_query);
  mret (if decide (n < 0) then (EAI_SYSTEM, id) else (0, id)).

(** ** The answers *)

(** An address record becomes a node at the end of the list. *)
Definition answer_node (msg : list Z) (presp : Z) (name head tail : ptr) : M S (ptr * ptr) :=
  ai_new ← malloc SIZEOF_ADDRINFO;
  addr ← malloc SIZEOF_SOCKADDR_IN;
  s_addr ← lift (mem_read msg (presp + OFFSET_RDATA) 4);
  _ ← block_put addr (BAddr (SockaddrIn AF_INET 0 (le_val s_addr)));
  _ ← block_put ai_new (BInfo (Addrinfo 0 AF_INET SOCK_DGRAM 0 SIZEOF_SOCKADDR_IN addr name None));
  match head with
  | None => mret (ai_new, ai_new)
  | Some _ =>
      i ← info_at tail;
      _ ← block_put tail (BInfo (with_next ai_new i));
      mret (head, ai_new)
  end.

(** One turn of the loop over the answers: [presp], [ai_head], [ai_tail]. *)
Definition answer_turn (fuel : nat) (msg : list Z) (st : Z * ptr * ptr)
    : M S (Z * ptr * ptr + Z * ptr * ptr) :=
  let '(presp, head, tail) := st in
  '(name, _) ← new_name fuel msg presp;
  match name with
  | None => mret (inr st)
  | Some _ =>
      presp ← skip_labels fuel msg presp;
      presp ← lift (deref presp);
      type ← lift (dns_response_get16 msg (presp + OFFSET_TYPE));
      class ← lift (dns_response_get16 msg (presp + OFFSET_CLASS));
      rdlength ← lift (dns_response_get16 msg (presp + OFFSET_RDLENGTH));
      '(head, tail) ← (if decide (type = TYPE_A ∧ class = CLASS_IN)
                       then answer_node msg presp name head tail
                       else _ ← free name; mret (head, tail));
      mret (inl (presp + (OFFSET_RDATA + rdlength), head, tail))
  end.

Definition parse_answers (fuel : nat) (msg : list Z) (presp : Z) (res : ptr) : M S (Z * ptr) :=
  ancount ← lift (dns_response_get16 msg OFFSET_ANCOUNT);
  '((_, ai_head, _), complete) ← for_break (Z.to_nat ancount) 0
    (λ _ st, answer_turn fuel msg st) (presp, None, None);
  if complete : bool then mret (0, ai_head)
  else _ ← freeaddrinfo fuel ai_head; mret (EAI_FAIL, res).

(** One turn of the loop: [inl] is [continue]. *)
Definition response_turn (fuel : nat) (sock id : Z) (res : ptr) (dns_response : list Z)
    : M S (list Z + Z * ptr) :=
  '(dns_response_len, dns_response) ← recv sock dns_response;
  if decide (dns_response_len < 0) then mret (inr (EAI_SYSTEM, res))
  else if decide (dns_response_len < DNS_HEADER_LEN) then mret (inl dns_response)
  else
    rid ← lift (dns_response_get16 dns_response OFFSET_ID);
    if decide (rid ≠ id) then mret (inl dns_response)
    else
      flags ← lift (aget dns_response OFFSET_RCODE);
      let rcode := Z.land flags 15 in
      if decide (rcode = RCODE_ENAME) then mret (inr (EAI_NONAME, res))
      else if decide (rcode ≠ RCODE_NOERR) then mret (inr (EAI_FAIL, res))
      else
        presp ← skip_questions fuel dns_response;
        match presp with
        | None => mret (inr (EAI_FAIL, res))
        | Some presp => r ← parse_answers fuel dns_response presp res; mret (inr r)
        end.

Definition recv_dns_response (fuel : nat) (sock id : Z) (res : ptr) : M S (Z * ptr) :=
  loop fuel (response_turn fuel sock id res) junk_msg.

(** ** getaddrinfo

    The two fields of [*hints] the function looks at; [res] is what the caller's
    pointer holds. *)
Definition getaddrinfo (fuel : nat) (nodename servname : option (list Z)) (hints : option (Z * Z))
    (res : ptr) : M S (Z * ptr) :=
  let bad_hints := match hints with
    | None => None
    | Some (family, socktype) =>
        if decide (family ≠ AF_UNSPEC ∧ family ≠ AF_INET ∧ family ≠ 0) then Some EAI_FAMILY
        else if decide (socktype ≠ SOCK_DGRAM ∧ socktype ≠ SOCK_STREAM ∧ socktype ≠ 0) then Some EAI_SOCKTYPE
        else None
    end in
  if decide (nodename = None ∧ servname = None) then mret (EAI_NONAME, res)
  else match bad_hints with
  | Some e => mret (e, res)
  | None =>
      v ← getc;
      sock ← create_socket (getaddrinfo_dns_server v);
      if decide (sock = -1) then mret (EAI_SYSTEM, res)
      else
        '(ret, id) ← send_dns_query sock nodename;
        if decide (ret ≠ 0) then _ ← close sock; mret (ret, res)
        else
          r ← recv_dns_response fuel sock id res;
          _ ← close sock;
          mret r
  end.
End resolver.

(** ** gethostbyname *)

Definition NAME_MAX_LEN : nat := 256.
Definition ADDRESSES_MAX : nat := 4.

(** The static objects of [gethostbyname.c]. An entry of [paddresses] is the
    index of the address it points to; the strings and arrays [host] points to
    are the other objects. *)
Inductive static_ptr := HOSTNAME | ALIAS_NULL | PADDRESSES.
Record hostent := Hostent {
  h_name : static_ptr; h_aliases : static_ptr; h_addrtype : Z; h_length : Z; h_addr_list : static_ptr }.
Record hostdb := Hostdb {
  host : option hostent;
  addresses : list Z;
  paddresses : list (option Z);
  hostname : list Z;
}.

(** [strlen], and [strncpy] into an array of [n] characters. *)
Fixpoint strlen (cs : list Z) : outcome nat :=
  match cs with
  | [] => Fault
  | c :: cs => if decide (c = 0) then Done O else n ← strlen cs; Done (S n)
  end.
Definition strncpy (n : nat) (cs : list Z) : outcome (list Z) :=
  k ← strlen cs;
  Done (take n (take k cs ++ replicate n 0)).

Section hosts.
Context {S : Type} `{!Has heap S, !Has resolver S, !Sockets S, !Rand S, !Has hostdb S}.
Context (alloc_fails : heap → Z → bool) (junk_msg : list Z) (junk_ptr : ptr).

Definition host_turn (st : ptr * Z) : M S (ptr * Z + ptr * Z) :=
  let '(res, i_addr) := st in
  match res with
  | None => mret (inr st)
  | Some _ =>
      if decide (i_addr < Z.of_nat ADDRESSES_MAX) then
        i ← info_at res;
        addr ← addr_at (ai_addr i);
        d ← getc;
        a ← lift (aset (addresses d) i_addr (sin_addr addr));
        p ← lift (aset (paddresses d) i_addr (Some i_addr));
        _ ← modifyc (λ d, Hostdb (host d) a p (hostname d));
        mret (inl (ai_next i, i_addr + 1))
      else mret (inr st)
  end.

(** [true] for the pointer to [host], [false] for NULL. *)
Definition gethostbyname (fuel : nat) (name : list Z) : M S bool :=
  k ← lift (strlen name);
  if decide (NAME_MAX_LEN ≤ k)%nat then mret false
  else
    '(ret, res) ← getaddrinfo alloc_fails junk_msg fuel (Some name) None None junk_ptr;
    if decide (ret ≠ 0 ∨ res = None) then mret false
    else
      d ← getc;
      h ← lift (strncpy NAME_MAX_LEN name);
      _ ← modifyc (λ d, Hostdb (host d) (addresses d) (paddresses d) h);
      '(res, i_addr) ← loop fuel host_turn (res, 0);
      d ← getc;
      p ← lift (aset (paddresses d) i_addr None);
      _ ← modifyc (λ d, Hostdb (Some (Hostent HOSTNAME ALIAS_NULL AF_INET 4 PADDRESSES))
                          (addresses d) p (hostname d));
      _ ← freeaddrinfo fuel res;
      mret true.
End hosts.

(** ** The socket of a query

    What the conversation over a socket keeps, whatever the answers are. *)
Section keeps_netdb.
Context {S : Type} `{!Has heap S, !Has resolver S, !Sockets S, !Rand S}.
Context (R : S → S → Prop) `{!PreOrder R, !KeepsRand R, !KeepsVar heap R}.
Context (alloc_fails : heap → Z → bool) (junk_msg : list Z).
Context (Hsend : ∀ fd bs, keeps R (send fd bs)) (Hrecv : ∀ fd buf, keeps R (recv fd buf)).

Lemma keeps_send_dns_query sock nodename : keeps R (send_dns_query sock nodename).
Proof.
  unfold send_dns_query, dns_query_message, query_label. keeps_solve.
Qed.

Lemma keeps_free p : keeps R (free p).
Proof. unfold free. keeps_solve. Qed.
Lemma keeps_malloc n : keeps R (malloc alloc_fails n).
Proof. unfold malloc. keeps_solve. Qed.
Lemma keeps_block_put p b : keeps R (block_put p b).
Proof. unfold block_put. keeps_solve. Qed.

Lemma keeps_freeaddrinfo fuel ai : keeps R (freeaddrinfo fuel ai).
Proof. pose proof keeps_free. unfold freeaddrinfo, info_at. keeps_solve. Qed.

Lemma keeps_new_name fuel msg p : keeps R (new_name alloc_fails fuel msg p).
Proof.
  pose proof keeps_malloc. pose proof keeps_block_put. unfold new_name, get_name_size, parse_name. keeps_solve.
Qed.

Lemma keeps_answer_turn fuel msg st : keeps R (answer_turn alloc_fails fuel msg st).
Proof.
  pose proof keeps_malloc. pose proof keeps_block_put. pose proof keeps_free. pose proof keeps_new_name.
  unfold answer_turn, answer_node, skip_labels, info_at. keeps_solve.
Qed.

Lemma keeps_recv_dns_response fuel sock id res : keeps R (recv_dns_response alloc_fails junk_msg fuel sock id res).
Proof.
  pose proof keeps_answer_turn. pose proof keeps_freeaddrinfo.
  unfold recv_dns_response, response_turn, skip_questions, skip_labels, parse_answers. keeps_solve.
Qed.

Lemma keeps_gethostbyname `{!Has hostdb S, !KeepsVar hostdb R} junk_ptr fuel name :
  (∀ node res, keeps R (getaddrinfo alloc_fails junk_msg fuel node None None res)) →
  keeps R (gethostbyname alloc_fails junk_msg junk_ptr fuel name).
Proof.
  intros Hget. pose proof keeps_freeaddrinfo. unfold gethostbyname, host_turn, info_at, addr_at. keeps_solve.
Qed.

Lemma keeps_getaddrinfo `{!KeepsSockets R} fuel node serv hints res :
  keeps R (getaddrinfo alloc_fails junk_msg fuel node serv hints res).
Proof.
  pose proof keeps_send_dns_query. pose proof keeps_recv_dns_response. unfold getaddrinfo, create_socket. keeps_solve.
Qed.
End keeps_netdb.

Section query_socket.
Context {S : Type} `{!Has heap S, !Has resolver S, !Sockets S, !Rand S} {t : reading} `{!SocketsLaws t heap S}.
Context `{!KeepsRand (same_network (C:=heap) (t:=t))}.
Context (alloc_fails : heap → Z → bool) (junk_msg : list Z).

Lemma twp_create_socket server (s : S) : net_ok s → twp Partial (create_socket server) s (made s).
Proof.
  intros Hn. apply twp_bind. eapply twp_mono; [|by eapply twp_partial, socket_law].
  intros sock s1 (Hn1 & _ & Hs1).
  assert (Hm : made s sock s1) by (split; [done|]; naive_solver).
  case_decide; [apply twp_ret; by subst|].
  assert (Hfail : ∀ s2, made s sock s2 → twp Partial (_ ← close sock; mret (-1)) s2 (made s)).
  { intros s2 Hm2. eapply made_close; [done..|]. intros s3 Hn3 Ho3. split; [done|by left]. }
  apply twp_bind. eapply made_use; [done|auto with keeps|]. intros r1 s2 Hm2. case_decide; [by apply Hfail|].
  apply twp_bind. eapply made_use; [done|auto with keeps|]. intros r2 s3 Hm3. case_decide; [by apply Hfail|].
  apply twp_bind. eapply made_use; [done|auto with keeps|]. intros r3 s4 Hm4. case_decide; [by apply Hfail|].
  by apply twp_ret.
Qed.

(** Every path of [getaddrinfo] closes the socket it opened. *)
Lemma getaddrinfo_closes fuel node serv hints res :
  keeps (same_network (t:=t)) (getaddrinfo alloc_fails junk_msg fuel node serv hints res).
Proof.
  apply keeps_network. intros s Hn. unfold getaddrinfo.
  set (bad := match hints with None => _ | Some _ => _ end). clearbody bad.
  case_decide; [by apply twp_ret|]. destruct bad; [by apply twp_ret|].
  apply twp_bind, twp_gets, twp_bind. eapply twp_mono; [|by apply twp_create_socket]. intros sock s1 Hm.
  case_decide as Hsock.
  { apply twp_ret. destruct Hm as [? [[_ ?]|[? _]]]; [done|lia]. }
  apply twp_bind. eapply made_use; [done|apply keeps_send_dns_query; [apply _..|auto with keeps]|]. intros [ret id] s2 Hm2.
  case_decide; [by eapply made_close|].
  apply twp_bind. eapply made_use; [done|apply keeps_recv_dns_response; [apply _..|auto with keeps]|]. intros r s3 Hm3.
  by eapply made_close.
Qed.
End query_socket.

(** ** Properties: lists in the heap *)

(** A node: the pointers to the [struct addrinfo], to its address and to its name. *)
Definition node : Type := positive * positive * positive.
Definition node_ptrs (ns : list node) : list positive := ns ≫= λ '(i, a, n), [i; a; n].

Definition node_info (a n : positive) (next : ptr) : addrinfo :=
  Addrinfo 0 AF_INET SOCK_DGRAM 0 SIZEOF_SOCKADDR_IN (Some a) (Some n) next.

Section lists.
Implicit Types (h : gmap positive block) (p q : ptr) (ns : list node) (xs : list (list Z * Z)).

(** From [p] to [q] the nodes [ns], which hold the names and addresses [xs]. *)
Fixpoint ai_seg h p ns xs q : Prop :=
  match ns, xs with
  | [], [] => p = q
  | (i, a, n) :: ns, x :: xs =>
      p = Some i ∧ ∃ next,
        h !! i = Some (BInfo (node_info a n next)) ∧
        h !! a = Some (BAddr (SockaddrIn AF_INET 0 (snd x))) ∧
        h !! n = Some (BName (fst x)) ∧ ai_seg h next ns xs q
  | _, _ => False
  end.

Lemma ai_seg_length h p ns xs q : ai_seg h p ns xs q → length ns = length xs.
Proof.
  revert p xs. induction ns as [|[[i a] n] ns IH]; intros p [|x xs]; simpl; try done.
  intros (_ & next & _ & _ & _ & H). f_equal. by eapply IH.
Qed.

(** A list only depends on its own blocks. *)
Lemma ai_seg_frame h h' p ns xs q :
  (∀ k, k ∈ node_ptrs ns → h' !! k = h !! k) → ai_seg h p ns xs q → ai_seg h' p ns xs q.
Proof.
  revert p xs. induction ns as [|[[i a] n] ns IH]; intros p [|x xs] Hk; simpl; try done.
  change (node_ptrs ((i, a, n) :: ns)) with ([i; a; n] ++ node_ptrs ns) in Hk.
  intros (Hp & next & Hi & Ha & Hn & H). split; [done|]. exists next.
  rewrite !Hk by set_solver. do 3 (split; [done|]). apply IH; [|done].
  intros k Hin. apply Hk. set_solver.
Qed.

Lemma ai_seg_app h p ns1 xs1 ns2 xs2 q :
  length ns1 = length xs1 →
  ai_seg h p (ns1 ++ ns2) (xs1 ++ xs2) q ↔ ∃ r, ai_seg h p ns1 xs1 r ∧ ai_seg h r ns2 xs2 q.
Proof.
  revert p xs1. induction ns1 as [|[[i a] n] ns1 IH]; intros p [|x xs1] Hlen; try done; simpl.
  - split; [intros H; by exists p|by intros (r & -> & H)].
  - injection Hlen as Hlen. split.
    + intros (Hp & next & Hi & Ha & Hn & H). apply IH in H as (r & H1 & H2); [|done].
      exists r. split; [|done]. split; [done|]. by exists next.
    + intros (r & (Hp & next & Hi & Ha & Hn & H1) & H2). split; [done|]. exists next.
      do 3 (split; [done|]). apply IH; [done|]. by exists r.
Qed.

Lemma node_ptrs_cons i a n ns : node_ptrs ((i, a, n) :: ns) = [i; a; n] ++ node_ptrs ns.
Proof. done. Qed.

Lemma node_ptrs_app ns1 ns2 : node_ptrs (ns1 ++ ns2) = node_ptrs ns1 ++ node_ptrs ns2.
Proof. unfold node_ptrs. by rewrite bind_app. Qed.

Lemma ai_seg_live h p ns xs q k : ai_seg h p ns xs q → k ∈ node_ptrs ns → is_Some (h !! k).
Proof.
  revert p xs. induction ns as [|[[i a] n] ns IH]; intros p [|x xs] Hseg Hin; simpl in Hseg; try done;
    [by apply elem_of_nil in Hin|].
  destruct Hseg as (_ & next & H1 & H2 & H3 & Hseg). rewrite node_ptrs_cons in Hin.
  apply elem_of_app in Hin as [Hin|Hin]; [|by eapply IH].
  rewrite !elem_of_cons in Hin. destruct Hin as [-> |[-> |[-> |Hin]]]; [by eexists..|].
  by apply elem_of_nil in Hin.
Qed.

(** Where the last node points. *)
Lemma ai_seg_last h p ns xs q t a n :
  ai_seg h p (ns ++ [(t, a, n)]) xs q → h !! t = Some (BInfo (node_info a n q)).
Proof.
  revert p xs. induction ns as [|[[i' a'] n'] ns IH]; intros p [|x xs]; simpl; try done.
  - intros (_ & next & H1 & _ & _ & H). destruct xs; [by subst|done].
  - intros (_ & next & _ & _ & _ & H). by eapply IH.
Qed.

(** Redirecting the last node. *)
Lemma ai_seg_redirect h h' p ns xs q q' t a n :
  NoDup (node_ptrs (ns ++ [(t, a, n)])) →
  ai_seg h p (ns ++ [(t, a, n)]) xs q →
  h' !! t = Some (BInfo (node_info a n q')) →
  (∀ k, k ∈ node_ptrs (ns ++ [(t, a, n)]) → k ≠ t → h' !! k = h !! k) →
  ai_seg h' p (ns ++ [(t, a, n)]) xs q'.
Proof.
  revert p xs. induction ns as [|[[i' a'] n'] ns IH]; intros p [|x xs] Hnd Hseg Ht Hk; simpl in Hseg; try done.
  - destruct Hseg as (-> & next & _ & Ha & Hn & Hrest). destruct xs; [|done].
    change (node_ptrs ([] ++ [(t, a, n)])) with [t; a; n] in *. apply NoDup_cons in Hnd as [Hnin _].
    simpl. split; [done|]. exists q'. split; [done|]. by rewrite (Hk a), (Hk n) by set_solver.
  - destruct Hseg as (-> & next & Hi & Ha & Hn & Hrest).
    change (node_ptrs (((i', a', n') :: ns) ++ [(t, a, n)])) with
      ([i'; a'; n'] ++ node_ptrs (ns ++ [(t, a, n)])) in *.
    apply NoDup_app in Hnd as (_ & Hdisj & Hnd).
    assert (Htin : t ∈ node_ptrs (ns ++ [(t, a, n)])) by (rewrite node_ptrs_app, node_ptrs_cons; set_solver).
    assert (Hne : ∀ k, k ∈ [i'; a'; n'] → k ≠ t) by (intros k Hin ->; by apply (Hdisj t Hin)).
    simpl. split; [done|]. exists next.
    rewrite (Hk i'), (Hk a'), (Hk n') by (set_solver || (apply Hne; set_solver)).
    do 3 (split; [done|]). apply IH; [done..|]. intros k Hin. apply Hk. set_solver.
Qed.

(** The list [head ... tail] that was built in the heap [h0]. *)
Record built h0 h (head tail : ptr) ns xs : Prop := {
  built_seg : ai_seg h head ns xs None;
  built_tail : tail = (λ '(i, _, _), i) <$> last ns;
  built_nodup : NoDup (node_ptrs ns);
  built_fresh k : k ∈ node_ptrs ns → h0 !! k = None;
  built_frame k : k ∉ node_ptrs ns → h !! k = h0 !! k;
}.

Lemma built_nil h0 : built h0 h0 None None [] [].
Proof. split; try done; [constructor|by intros k Hk%elem_of_nil]. Qed.

(** Adding a node with three fresh blocks. *)
Lemma built_snoc h0 h head tail ns xs i a n x h' :
  built h0 h head tail ns xs →
  NoDup [i; a; n] → (∀ k, k ∈ [i; a; n] → h !! k = None) →
  h' !! i = Some (BInfo (node_info a n None)) →
  h' !! a = Some (BAddr (SockaddrIn AF_INET 0 (snd x))) → h' !! n = Some (BName (fst x)) →
  (∀ k, k ∉ [i; a; n] → Some k ≠ tail → h' !! k = h !! k) →
  (∀ t a' n', tail = Some t → h !! t = Some (BInfo (node_info a' n' None)) →
     h' !! t = Some (BInfo (node_info a' n' (Some i)))) →
  built h0 h' (match head with None => Some i | Some _ => head end) (Some i) (ns ++ [(i, a, n)]) (xs ++ [x]).
Proof.
  intros [Hseg Ht Hnd Hf Hfr] Hnew Hnone Hi Ha Hn Hk Htail.
  assert (Hdisj : ∀ k, k ∈ [i; a; n] → k ∉ node_ptrs ns).
  { intros k Hin Hin'. destruct (ai_seg_live _ _ _ _ _ _ Hseg Hin') as [b Hb]. by rewrite Hnone in Hb. }
  assert (Htin : ∀ t, tail = Some t → t ∈ node_ptrs ns).
  { intros t Hts. rewrite Hts in Ht. destruct (last ns) as [[[t' a'] n']|] eqn:Hl; [|done].
    injection Ht as ->. apply last_Some in Hl as [ns' ->]. rewrite node_ptrs_app, node_ptrs_cons. set_solver. }
  split.
  - apply ai_seg_app; [by eapply ai_seg_length|]. exists (Some i).
    split; [|simpl; split; [done|]; by exists None].
    destruct (last ns) as [[[t a'] n']|] eqn:Hl.
    + apply last_Some in Hl as [ns' ->]. simpl in Ht. subst tail.
      assert (head ≠ None) by (destruct ns' as [|[[]]], xs; simpl in Hseg; naive_solver).
      destruct head; [|done]. eapply ai_seg_redirect; [done..| |].
      * apply (Htail t a' n' eq_refl). by eapply ai_seg_last.
      * intros k Hin Hne. apply Hk; [|congruence]. intros Hin'. by apply (Hdisj k).
    + apply last_None in Hl as ->. destruct xs; [|done]. simpl in *. by subst head.
  - by rewrite last_snoc.
  - rewrite node_ptrs_app, node_ptrs_cons. apply NoDup_app. split; [done|]. split; [|by rewrite app_nil_r].
    intros k Hin Hin'. apply (Hdisj k); [set_solver|done].
  - intros k. rewrite node_ptrs_app, node_ptrs_cons. intros [Hin|Hin]%elem_of_app; [by apply Hf|].
    assert (Hin' : k ∈ [i; a; n]) by set_solver. rewrite <- Hfr by by apply Hdisj. by apply Hnone.
  - intros k. rewrite node_ptrs_app, node_ptrs_cons. intros Hnin. rewrite Hk; [apply Hfr; set_solver|set_solver|].
    intros E. apply Hnin. apply elem_of_app. left. by apply Htin.
Qed.
End lists.

Section heap_rules.
Context {S : Type} `{!Has heap S, !HasLaws heap S}.
Implicit Types (s : S) (h : gmap positive block).

Definition hset h s : S := upd (Heap h) s.

Lemma hget h s : blocks (proj (hset h s)) = h.
Proof. unfold hset. by rewrite proj_upd. Qed.
Lemma hset_hset h h' s : upd (Heap h) (hset h' s) = hset h s.
Proof. unfold hset. by rewrite upd_upd. Qed.
Lemma hset_id s : hset (blocks (proj s)) s = s.
Proof. unfold hset. rewrite <- (upd_proj s) at 3. by destruct (proj s). Qed.

Lemma wp_free p b h s (Q : unit → S → Prop) :
  h !! p = Some b → Q tt (hset (delete p h) s) → wp (free (Some p)) (hset h s) Q.
Proof.
  intros Hp HQ. apply wp_bind, wp_gets, wp_bind. rewrite hget, Hp. eapply wp_lift; [done|].
  apply wp_modify. by rewrite hget, hset_hset.
Qed.

Lemma wp_block_put p b b' h s (Q : unit → S → Prop) :
  h !! p = Some b → Q tt (hset (<[p := b']> h) s) → wp (block_put (Some p) b') (hset h s) Q.
Proof.
  intros Hp HQ. apply wp_bind. eapply wp_lift; [done|]. apply wp_bind, wp_gets, wp_bind. rewrite hget, Hp.
  eapply wp_lift; [done|]. apply wp_modify. by rewrite hget, hset_hset.
Qed.

Lemma wp_info_at p i h s (Q : addrinfo → S → Prop) :
  h !! p = Some (BInfo i) → Q i (hset h s) → wp (info_at (Some p)) (hset h s) Q.
Proof.
  intros Hp HQ. apply wp_bind. eapply wp_lift; [done|]. apply wp_bind, wp_gets, wp_bind. rewrite hget, Hp.
  by eapply wp_lift.
Qed.

Lemma wp_addr_at p a h s (Q : sockaddr_in → S → Prop) :
  h !! p = Some (BAddr a) → Q a (hset h s) → wp (addr_at (Some p)) (hset h s) Q.
Proof.
  intros Hp HQ. apply wp_bind. eapply wp_lift; [done|]. apply wp_bind, wp_gets, wp_bind. rewrite hget, Hp.
  by eapply wp_lift.
Qed.

(** Freeing a list frees its blocks and nothing else. *)
Lemma wp_freeaddrinfo fuel h p ns xs s :
  ai_seg h p ns xs None → NoDup (node_ptrs ns) → (length ns < fuel)%nat →
  wp (freeaddrinfo fuel p) (hset h s) (λ _ s', ∃ h', s' = hset h' s ∧
    ∀ k, h' !! k = if decide (k ∈ node_ptrs ns) then None else h !! k).
Proof.
  revert fuel h p xs. induction ns as [|[[i a] n] ns IH]; intros [|fuel] h p xs Hseg Hnd Hf;
    simpl in Hf; try lia; apply wp_loop_turn.
  - destruct xs; [|done]. simpl in Hseg. subst p. apply wp_ret. exists h. split; [done|].
    intros k. rewrite decide_False; [done|]. apply not_elem_of_nil.
  - destruct xs as [|x xs]; [done|]. destruct Hseg as (-> & next & Hi & Ha & Hn & Hseg).
    rewrite node_ptrs_cons in Hnd. apply NoDup_app in Hnd as (Hnew & Hdisj & Hnd).
    apply NoDup_cons in Hnew as [Hia Hnew]. apply NoDup_cons in Hnew as [Han _].
    apply wp_bind. eapply wp_info_at; [done|]. simpl ai_addr.
    assert (i ≠ a ∧ i ≠ n ∧ a ≠ n) as (Hia' & Hin' & Han') by set_solver.
    apply wp_bind. eapply wp_free; [done|]. simpl ai_canonname. apply wp_bind.
    eapply wp_free; [by rewrite lookup_delete_ne|]. cbv zeta. apply wp_bind.
    eapply wp_free; [by rewrite !lookup_delete_ne|]. apply wp_ret. simpl ai_next.
    set (h1 := delete i _).
    assert (Hh1 : ∀ k, h1 !! k = if decide (k ∈ [i; a; n]) then None else h !! k).
    { intros k. unfold h1. rewrite !lookup_delete. repeat case_decide; try done; set_solver. }
    eapply wp_mono, (IH fuel h1 next xs); [|eapply ai_seg_frame, Hseg|done|lia].
    + intros [] s' (h' & -> & Hh'). exists h'. split; [done|]. intros k. rewrite Hh', Hh1, node_ptrs_cons.
      repeat case_decide; try done; set_solver.
    + intros k Hk. rewrite Hh1, decide_False; [done|]. intros Hin. by apply (Hdisj k).
Qed.

(** A list that was built in a heap is freed again. *)
Lemma wp_free_built fuel h0 h head tail ns xs s :
  built h0 h head tail ns xs → (length xs < fuel)%nat →
  wp (freeaddrinfo fuel head) (hset h s) (λ _ s', s' = hset h0 s).
Proof.
  intros Hb Hf. pose proof (built_seg _ _ _ _ _ _ Hb) as Hseg. pose proof (ai_seg_length _ _ _ _ _ Hseg).
  eapply wp_mono, wp_freeaddrinfo; [|exact Hseg|apply (built_nodup _ _ _ _ _ _ Hb)|lia].
  intros [] s' (h' & -> & Hh'). f_equal. apply map_eq. intros k. rewrite Hh'.
  case_decide; [by rewrite (built_fresh _ _ _ _ _ _ Hb)|by rewrite (built_frame _ _ _ _ _ _ Hb)].
Qed.

(** A block, or none. *)
Lemma twp_malloc t (alloc_fails : heap → Z → bool) n h s (Q : ptr → S → Prop) :
  (alloc_fails (Heap h) n = true → Q None (hset h s)) →
  (∀ p, h !! p = None → Q (Some p) (hset (<[p := BRaw]> h) s)) → twp t (malloc alloc_fails n) (hset h s) Q.
Proof.
  intros Hnone HQ. apply twp_bind, twp_gets. unfold hset at 1. rewrite proj_upd.
  destruct (alloc_fails (Heap h) n); [by apply twp_ret, Hnone|]. cbv zeta. apply twp_bind, twp_modify, twp_ret.
  rewrite hget, hset_hset. apply HQ. apply not_elem_of_dom, is_fresh.
Qed.

Lemma block_put_null b s : block_put None b s = Fault.
Proof. done. Qed.
End heap_rules.

(** ** Properties: a response *)

(** The name of a record: labels, and the end or a pointer into the message. *)
Record owner := Owner { o_labels : list (list Z); o_pointer : option Z }.

Definition owner_end (o : owner) : list Z :=
  match o_pointer o with None => [0] | Some off => be16 (49152 + off) end.
Definition owner_bytes (o : owner) : list Z := encode_labels (o_labels o) ++ owner_end o.

Definition owner_ok (o : owner) : Prop :=
  Forall label_ok (o_labels o) ∧ ∀ off, o_pointer o = Some off → 0 ≤ off < 16384.

(** A resource record: name, type, class, time to live, data. *)
Record record := Rr { rr_owner : owner; rr_type : Z; rr_class : Z; rr_ttl : Z; rr_data : list Z }.

Definition rr_fixed (r : record) : list Z :=
  be16 (rr_type r) ++ be16 (rr_class r) ++ rev (le_bytes 4 (rr_ttl r)) ++ be16 (Z.of_nat (length (rr_data r))).
Definition rr_bytes (r : record) : list Z := owner_bytes (rr_owner r) ++ rr_fixed r ++ rr_data r.

(** An Internet address has four bytes; the other types and classes have any data. *)
Definition is_address (r : record) : bool := bool_decide (rr_type r = TYPE_A ∧ rr_class r = CLASS_IN).

Definition record_ok (r : record) : Prop :=
  owner_ok (rr_owner r) ∧ is_u16 (rr_type r) ∧ is_u16 (rr_class r) ∧ Forall is_u8 (rr_data r) ∧
  (is_address r = true → length (rr_data r) = 4%nat).

Definition response_bytes (id f2 f3 : Z) (ls : list (list Z)) (records : list record) : list Z :=
  (be16 id ++ [f2; f3; 0; 1] ++ be16 (Z.of_nat (length records)) ++ [0; 0; 0; 0]) ++
  encode_name ls ++ [0; 1; 0; 1] ++ (records ≫= rr_bytes).

(** What a reader of the records from [p] on finds: the name and the address of
    each Internet address, the name being the text its labels and pointers spell. *)
Definition rr_found (text : list Z) (r : record) : list (list Z * Z) :=
  if is_address r then [(text, le_val (rr_data r))] else [].

Fixpoint found (msg : list Z) (p : Z) (rs : list record) : outcome (list (list Z * Z)) :=
  match rs with
  | [] => Done []
  | r :: rs =>
      text ← name_at msg (Datatypes.S dns_buffer) p true;
      xs ← found msg (p + Z.of_nat (length (rr_bytes r))) rs;
      Done (rr_found text r ++ xs)
  end.

Lemma length_fixed r : length (rr_fixed r) = 10%nat.
Proof. done. Qed.

Lemma length_labels ls : (length ls ≤ length (encode_labels ls))%nat.
Proof.
  induction ls as [|l ls IH]; [done|]. rewrite encode_labels_cons, length_app. simpl. lia.
Qed.

Lemma length_records rs : (length rs ≤ length (rs ≫= rr_bytes))%nat.
Proof.
  induction rs as [|r rs IH]; [done|]. rewrite bind_cons, length_app.
  assert (10 ≤ length (rr_bytes r))%nat by (unfold rr_bytes; rewrite !length_app, length_fixed; lia).
  simpl. lia.
Qed.

Lemma length_found text r : (length (rr_found text r) ≤ 1)%nat.
Proof. unfold rr_found. destruct (is_address r); simpl; lia. Qed.

Lemma length_xs msg p rs xs : found msg p rs = Done xs → (length xs ≤ length rs)%nat.
Proof.
  revert p xs. induction rs as [|r rs IH]; intros p xs; cbn [found]; [by intros [= <-]|].
  destruct (name_at msg _ p true) as [text| |]; cbn [mbind outcome_bind]; [|done..].
  destruct (found msg _ rs) as [ys| |] eqn:E; cbn [mbind outcome_bind]; [|done..]. intros [= <-].
  rewrite length_app. cbn [length]. pose proof (length_found text r). specialize (IH _ _ E). lia.
Qed.

Lemma ntohs_be16 z : is_u16 z → ntohs (le_val (be16 z)) = z.
Proof. apply bswap16_involutive. Qed.

Section response.
Context {S : Type} `{!Has heap S, !HasLaws heap S, !Has resolver S, !Sockets S, !Rand S}.
Context (alloc_fails : heap → Z → bool) (t : reading).
Implicit Types (s : S) (h : gmap positive block).

(** There is memory for the nodes; for a name there may be none. *)
Definition node_memory : Prop := ∀ hp : heap,
  alloc_fails hp SIZEOF_ADDRINFO = false ∧ alloc_fails hp SIZEOF_SOCKADDR_IN = false.
Definition out_of_memory : Prop := ∃ (hp : heap) n, alloc_fails hp n = true.

Context (Hnode : t ≠ Partial → node_memory).

Lemma node_memory_out (hp : heap) : alloc_fails hp SIZEOF_ADDRINFO = true ∨ alloc_fails hp SIZEOF_SOCKADDR_IN = true →
  t = Partial.
Proof.
  intros Ha. destruct (decide (t = Partial)) as [|Ht]; [done|]. destruct (Hnode Ht hp). destruct Ha; congruence.
Qed.

Lemma twp_new_name fuel msg p text h s (Q : ptr * Z → S → Prop) :
  Forall is_u8 msg → name_at msg fuel p true = Done text → 0 < Z.of_nat (length text) < 65536 →
  (out_of_memory → Q (None, Z.of_nat (length text)) (hset h s)) →
  (∀ q, h !! q = None → Q (Some q, Z.of_nat (length text)) (hset (<[q := BName text]> h) s)) →
  twp t (new_name alloc_fails fuel msg p) (hset h s) Q.
Proof.
  intros Hu Ht Hl Hnone HQ. unfold new_name, get_name_size.
  assert (Hlen : u16 (0 + Z.of_nat (length text)) = Z.of_nat (length text))
    by (apply u16_id; unfold is_u16; lia).
  apply twp_bind, twp_bind. eapply twp_Done; [by apply (parse_loop_done _ Hu _ _ _ text)|].
  unfold counted. simpl str_len. rewrite Hlen. simpl dst. apply twp_ret.
  rewrite decide_False by lia. apply twp_bind, twp_malloc.
  { intros Ha. apply twp_bind. eapply twp_Done; [by apply (parse_loop_done _ Hu _ _ _ text)|].
    apply twp_bind, twp_ret, twp_ret, Hnone. by eexists _, _. }
  intros q Hq. apply twp_bind.
  eapply twp_Done; [apply (parse_loop_done _ Hu _ _ _ text); [done|simpl; lia]|].
  unfold counted. simpl. apply twp_bind, twp_of_wp. eapply wp_block_put; [by rewrite lookup_insert_eq|].
  apply twp_ret. rewrite insert_insert_eq. by apply HQ.
Qed.

(** The new node goes to the end of the list. *)
Lemma wp_link_node h0 h h2 (i a n : positive) head tail ns xs x s :
  built h0 h head tail ns xs → NoDup [i; a; n] → (∀ k, k ∈ [i; a; n] → h !! k = None) →
  h2 !! i = Some (BInfo (node_info a n None)) → h2 !! a = Some (BAddr (SockaddrIn AF_INET 0 (snd x))) →
  h2 !! n = Some (BName (fst x)) → (∀ k, k ∉ [i; a; n] → h2 !! k = h !! k) →
  wp (match head with
      | None => mret (Some i, Some i)
      | Some _ => j ← info_at tail; _ ← block_put tail (BInfo (with_next (Some i) j)); mret (head, Some i)
      end) (hset h2 s) (λ r s',
    ∃ h', s' = hset h' s ∧ built h0 h' (fst r) (snd r) (ns ++ [(i, a, n)]) (xs ++ [x])).
Proof.
  intros Hb Hnew Hnone H2i H2a H2n H2k. pose proof (built_snoc h0 h head tail ns xs i a n x) as Hsnoc.
  pose proof (built_seg _ _ _ _ _ _ Hb) as Hseg. pose proof (built_tail _ _ _ _ _ _ Hb) as Ht.
  destruct (last ns) as [[[t' a'] n']|] eqn:Hl; simpl in Ht; subst tail.
  - apply last_Some in Hl as [ns' ->]. pose proof (ai_seg_last _ _ _ _ _ _ _ _ Hseg) as Hlast.
    assert (Hhead : head ≠ None) by (destruct ns' as [|[[]]], xs; simpl in Hseg; naive_solver).
    destruct head as [hd|]; [|done].
    assert (Htn : t' ∉ [i; a; n]) by (intros Hin; by rewrite (Hnone t' Hin) in Hlast).
    apply wp_bind. eapply wp_info_at; [by rewrite H2k, Hlast|].
    apply wp_bind. eapply wp_block_put; [by rewrite H2k, Hlast|]. apply wp_ret.
    eexists. split; [done|]. simpl. apply (Hsnoc _ Hb Hnew Hnone).
    + rewrite lookup_insert_ne by set_solver. done.
    + rewrite lookup_insert_ne by set_solver. done.
    + rewrite lookup_insert_ne by set_solver. done.
    + intros k Hk Hne. rewrite lookup_insert_ne by congruence. by apply H2k.
    + intros t1 a1 n1 [= <-] Ht1. rewrite lookup_insert_eq. rewrite Hlast in Ht1. injection Ht1 as -> ->. done.
  - apply last_None in Hl as ->. destruct xs; [|done]. simpl in Hseg. subst head. apply wp_ret.
    eexists. split; [done|]. simpl. apply (Hsnoc _ Hb Hnew Hnone); try done. intros k Hk _. by apply H2k.
Qed.

(** A new node. *)
Lemma twp_answer_node msg presp text h0 h n head tail ns xs data s :
  built h0 h head tail ns xs → h !! n = None → mem_read msg (presp + OFFSET_RDATA) 4 = Done data →
  twp t (answer_node alloc_fails msg presp (Some n) head tail) (hset (<[n := BName text]> h) s) (λ r s',
    ∃ ns' h', s' = hset h' s ∧ built h0 h' (fst r) (snd r) ns' (xs ++ [(text, le_val data)])).
Proof.
  intros Hb Hn Hx. apply twp_bind, twp_malloc.
  { intros Ha. pose proof (node_memory_out _ (or_introl Ha)) as Hp.
    apply twp_bind, twp_malloc; intros; apply twp_bind; (eapply twp_lift; [exact Hx|]); apply twp_bind; [exact Hp|].
    eapply twp_mono, twp_of_wp, (wp_block_put _ BRaw _ _ _ (λ _ _, True)); [|by rewrite lookup_insert_eq|done].
    intros. by apply twp_bind. }
  intros i Hi. apply twp_bind, twp_malloc.
  { intros Ha. pose proof (node_memory_out _ (or_intror Ha)) as Hp.
    apply twp_bind. eapply twp_lift; [exact Hx|]. by apply twp_bind. }
  intros a Ha. apply twp_bind. eapply twp_lift; [exact Hx|]. apply twp_of_wp.
  assert (i ≠ n) by (intros ->; by rewrite lookup_insert_eq in Hi). rewrite lookup_insert_ne in Hi by done.
  assert (a ≠ i) by (intros ->; by rewrite lookup_insert_eq in Ha). rewrite lookup_insert_ne in Ha by done.
  assert (a ≠ n) by (intros ->; by rewrite lookup_insert_eq in Ha). rewrite lookup_insert_ne in Ha by done.
  apply wp_bind. eapply wp_block_put; [by rewrite lookup_insert_eq|]. rewrite insert_insert_eq.
  apply wp_bind. eapply wp_block_put; [by rewrite lookup_insert_ne, lookup_insert_eq|].
  eapply wp_mono, (wp_link_node h0 h _ i a n head tail ns xs (text, le_val data)); simpl.
  - intros r s' (h' & -> & Hb'). by eexists _, _.
  - done.
  - repeat constructor; set_solver.
  - set_solver.
  - by rewrite lookup_insert_eq.
  - by rewrite lookup_insert_ne, lookup_insert_eq.
  - by rewrite lookup_insert_ne, lookup_insert_ne, lookup_insert_ne, lookup_insert_eq.
  - intros k Hk. by rewrite !lookup_insert_ne by set_solver.
Qed.
(** The records of one message. *)
Section records.
Context (msg : list Z) (fuel : nat).
Context (Hu : Forall is_u8 msg) (Hlen : length msg = dns_buffer) (Hfuel : (dns_buffer < fuel)%nat).

(** The bytes of a record at [p]. *)
Definition record_at (p : Z) (r : record) : Prop :=
  ∃ pre post, msg = pre ++ rr_bytes r ++ post ∧ p = Z.of_nat (length pre).

(** Where its fixed part starts. *)
Abbreviation after_owner p r := (p + Z.of_nat (length (owner_bytes (rr_owner r)))).

Lemma record_read p r (k n : nat) off : record_at p r → off = after_owner p r + Z.of_nat k →
  (k + n ≤ 10 + length (rr_data r))%nat →
  mem_read msg off n = Done (take n (drop k (rr_fixed r ++ rr_data r))).
Proof.
  intros (pre & post & Hmsg & ->) -> Hk. rewrite Hmsg at 1. unfold rr_bytes.
  replace (pre ++ (owner_bytes (rr_owner r) ++ rr_fixed r ++ rr_data r) ++ post) with
    ((pre ++ owner_bytes (rr_owner r)) ++ (rr_fixed r ++ rr_data r) ++ post) by (by rewrite <- !app_assoc).
  apply mem_read_at; [rewrite length_app; lia|]. rewrite length_app, length_fixed. lia.
Qed.

Lemma record_size p r : record_at p r → (length (rr_bytes r) ≤ dns_buffer)%nat.
Proof. intros (pre & post & Hmsg & _). rewrite <- Hlen, Hmsg, !length_app. lia. Qed.

(** The 16-bit fields: type, class, length. *)
Lemma record_get16 p r (k : nat) z off : record_at p r → off = after_owner p r + Z.of_nat k → (k + 2 ≤ 10)%nat →
  is_u16 z → take 2 (drop k (rr_fixed r)) = be16 z → dns_response_get16 msg off = Done z.
Proof.
  intros Hr Hoff Hk Hz Hf. unfold dns_response_get16. rewrite (record_read p r k 2 off) by (done || lia).
  rewrite drop_app_le, take_app_le, Hf by (rewrite ?length_drop, length_fixed; lia).
  cbn [mbind outcome_bind]. by rewrite ntohs_be16.
Qed.

Lemma record_data p r : record_at p r → length (rr_data r) = 4%nat →
  mem_read msg (after_owner p r + OFFSET_RDATA) 4 = Done (rr_data r).
Proof.
  intros Hr H4. rewrite (record_read p r 10 4) by (done || lia).
  rewrite drop_app_length', take_ge by (rewrite ?length_fixed; lia || done). done.
Qed.

Lemma pointer_first off : 0 ≤ off < 16384 → ∃ a b, be16 (49152 + off) = [a; b] ∧ is_u8 a ∧ 192 ≤ a.
Proof.
  intros Ho. exists ((49152 + off) / 256 mod 256), ((49152 + off) mod 256). split; [done|].
  unfold is_u8. zlia.
Qed.

(** The name is skipped. *)
Lemma record_skip p r s : owner_ok (rr_owner r) → record_at p r →
  skip_labels fuel msg p s = Done (Some (after_owner p r), s).
Proof.
  intros [Hl Hptr] Hr. pose proof (record_size p r Hr) as Hsz. destruct Hr as (pre & post & Hmsg & ->).
  unfold rr_bytes, owner_bytes in *. set (o := rr_owner r) in *. set (tail := rr_fixed r ++ rr_data r) in *.
  pose proof (length_labels (o_labels o)). rewrite !length_app in Hsz.
  replace fuel with (length (o_labels o) + Datatypes.S (fuel - Datatypes.S (length (o_labels o))))%nat by lia.
  assert (Hm : msg = pre ++ encode_labels (o_labels o) ++ owner_end o ++ tail ++ post)
    by (rewrite Hmsg; by rewrite <- !app_assoc).
  rewrite Hm, (skip_labels_prefix _ Hl). apply loop_inr. unfold lift, skip_turn.
  rewrite <- length_app, (app_assoc pre). unfold owner_end. destruct (o_pointer o) as [off|].
  - destruct (pointer_first off (Hptr off eq_refl)) as (a & b & -> & Ha & H192).
    change ([a; b] ++ tail ++ post) with (a :: b :: tail ++ post). rewrite aget_app. cbn [mbind outcome_bind]. unfold label_isend.
    rewrite label_ispointer_spec by done. rewrite bool_decide_false, bool_decide_true by lia.
    do 4 f_equal. rewrite !length_app. simpl. lia.
  - change ([0] ++ tail ++ post) with (0 :: tail ++ post). rewrite aget_app. simpl. do 4 f_equal. rewrite !length_app. simpl. lia.
Qed.

(** One turn: an address becomes a node, another record is skipped with its
    name; with no memory for the name the loop ends. *)
Lemma twp_answer_turn p r text h0 h head tail ns xs s :
  record_ok r → record_at p r → name_at msg (Datatypes.S dns_buffer) p true = Done text →
  built h0 h head tail ns xs →
  twp t (answer_turn alloc_fails fuel msg (p, head, tail)) (hset h s) (λ res s', match res with
    | inl st => ∃ head' tail' ns' h', st = (p + Z.of_nat (length (rr_bytes r)), head', tail') ∧
        s' = hset h' s ∧ built h0 h' head' tail' ns' (xs ++ rr_found text r)
    | inr st => st = (p, head, tail) ∧ s' = hset h s ∧ out_of_memory
    end).
Proof.
  intros (Ho & Hty & Hcl & _ & Haddr) Hr Ht Hb. pose proof (record_size p r Hr) as Hsz.
  unfold rr_bytes in Hsz |- *. rewrite !length_app, length_fixed in Hsz |- *.
  destruct (name_at_shape _ Hu _ _ _ _ Ht) as [_ Hshape]. unfold dns_buffer in *.
  apply twp_bind. eapply (twp_new_name _ _ _ text); [done| |lia|by intros Hout; apply twp_ret|].
  { rewrite (name_at_mono msg 513); [exact Ht|lia|by rewrite Ht]. }
  intros n Hn. apply twp_bind. eapply twp_Done; [by apply record_skip|]. apply twp_bind. eapply twp_lift; [done|].
  apply twp_bind. eapply twp_lift; [apply (record_get16 p r 0 (rr_type r)); done || (unfold OFFSET_TYPE; lia)|].
  apply twp_bind. eapply twp_lift; [apply (record_get16 p r 2 (rr_class r)); done || (unfold OFFSET_CLASS; lia)|].
  apply twp_bind. eapply twp_lift.
  { apply (record_get16 p r 8 (Z.of_nat (length (rr_data r)))); [done|unfold OFFSET_RDLENGTH; lia|lia|unfold is_u16; lia|done]. }
  assert (Hnext : after_owner p r + (OFFSET_RDATA + Z.of_nat (length (rr_data r))) =
    p + Z.of_nat (length (owner_bytes (rr_owner r)) + (10 + length (rr_data r)))) by (unfold OFFSET_RDATA; lia).
  apply twp_bind. unfold rr_found. case_decide as Hin.
  - assert (Htrue : is_address r = true) by (by apply bool_decide_eq_true). rewrite Htrue.
    eapply twp_mono, twp_answer_node; [|done|done|by apply record_data, Haddr].
    intros [head' tail'] s' (ns' & h' & -> & Hb'). apply twp_ret. rewrite Hnext. by eexists _, _, _, _.
  - assert (Hfalse : is_address r = false) by (by apply bool_decide_eq_false). rewrite Hfalse, app_nil_r.
    apply twp_bind, twp_of_wp. eapply wp_free; [by rewrite lookup_insert_eq|]. apply wp_ret.
    rewrite delete_insert_id by done. rewrite Hnext. by eexists _, _, _, _.
Qed.

(** The loop over the records. *)
Lemma twp_parse_answers presp records xs res s :
  (∃ pre post, msg = pre ++ (records ≫= rr_bytes) ++ post ∧ presp = Z.of_nat (length pre)) →
  dns_response_get16 msg OFFSET_ANCOUNT = Done (Z.of_nat (length records)) →
  Forall record_ok records → found msg presp records = Done xs →
  twp t (parse_answers alloc_fails fuel msg presp res) s (λ r s',
    (∃ head tail ns h', r = (0, head) ∧ s' = hset h' s ∧ built (blocks (proj s)) h' head tail ns xs) ∨
    (r = (EAI_FAIL, res) ∧ s' = s ∧ out_of_memory)).
Proof.
  intros Hmsg Hcount Hok Hfound.
  assert (Hnum : (length records ≤ dns_buffer)%nat).
  { destruct Hmsg as (pre & post & Hm & _). pose proof (length_records records) as Hl.
    rewrite <- Hlen, Hm, !length_app. lia. }
  apply twp_bind. eapply twp_lift; [done|]. rewrite Nat2Z.id. apply twp_bind.
  apply twp_for_break with (I := λ j st s', ∃ h head tail ns p dn todo,
    st = (p, head, tail) ∧ s' = hset h s ∧ built (blocks (proj s)) h head tail ns dn ∧ xs = dn ++ todo ∧
    found msg p (drop (Z.to_nat j) records) = Done todo ∧ (length dn ≤ Z.to_nat j)%nat ∧
    ∃ pre post, msg = pre ++ (drop (Z.to_nat j) records ≫= rr_bytes) ++ post ∧ p = Z.of_nat (length pre)).
  - exists (blocks (proj s)), None, None, [], presp, [], xs. rewrite hset_id. split_and!; try done. apply built_nil.
  - intros j st s' Hj (h & head & tail & ns & p & dn & todo & -> & -> & Hb & -> & Hf & Hns & pre & post & Hm & ->).
    destruct (lookup_lt_is_Some_2 records (Z.to_nat j)) as [r Hr]; [lia|].
    pose proof (Forall_lookup_1 _ _ _ _ Hok Hr) as Hrok.
    rewrite (drop_S _ _ _ Hr) in Hf, Hm. rewrite bind_cons, <- app_assoc in Hm. cbn [found] in Hf.
    destruct (name_at msg _ _ true) as [text| |] eqn:Ht; [|done..]. cbn [mbind outcome_bind] in Hf.
    destruct (found msg _ (drop _ records)) as [ys| |] eqn:Hys; [|done..]. injection Hf as <-.
    eapply twp_mono, twp_answer_turn; [|exact Hrok|by eexists _, _|exact Ht|exact Hb].
    replace (Z.to_nat (j + 1)) with (Datatypes.S (Z.to_nat j)) by lia.
    intros [st|st] s'.
    + intros (head' & tail' & ns' & h' & -> & -> & Hb').
      eexists h', head', tail', ns', _, (dn ++ rr_found text r), ys.
      split_and!; [done|done|done|by rewrite app_assoc|exact Hys| |].
      * rewrite length_app. pose proof (length_found text r). lia.
      * exists (pre ++ rr_bytes r), post. rewrite <- app_assoc. split; [done|]. rewrite length_app. lia.
    + intros (-> & -> & Hout). apply twp_bind, twp_of_wp.
      eapply wp_mono, wp_free_built; [|exact Hb|lia]. intros [] s' ->. apply wp_ret. right. by rewrite hset_id.
  - intros st s' (h & head & tail & ns & p & dn & todo & -> & -> & Hb & -> & Hf & _). rewrite drop_ge in Hf by lia.
    injection Hf as <-. apply twp_ret. left. exists head, tail, ns, h. by rewrite app_nil_r.
Qed.
End records.
(** The fields of the header of a response. *)
Lemma response_header id f2 f3 n rest : is_u16 id → is_u16 n →
  let msg := (be16 id ++ [f2; f3; 0; 1] ++ be16 n ++ [0; 0; 0; 0]) ++ rest in
  dns_response_get16 msg OFFSET_ID = Done id ∧ aget msg OFFSET_RCODE = Done f3 ∧
  dns_response_get16 msg OFFSET_QDCOUNT = Done 1 ∧ dns_response_get16 msg OFFSET_ANCOUNT = Done n.
Proof.
  intros Hid Hn. cbv zeta. pose proof (ntohs_be16 id Hid) as E1. pose proof (ntohs_be16 n Hn) as E2.
  assert (Hb : ∀ z, ∃ a b, be16 z = [a; b]) by (intros z; eexists _, _; reflexivity).
  destruct (Hb id) as (a & b & Ea), (Hb n) as (c & d & Ec). rewrite Ea, Ec in *.
  unfold dns_response_get16, mem_read, aget. simpl length.
  rewrite !decide_True by (unfold OFFSET_ID, OFFSET_QDCOUNT, OFFSET_ANCOUNT, OFFSET_RCODE; simpl; lia).
  split; [exact (f_equal Done E1)|]. split; [done|]. split; [done|]. exact (f_equal Done E2).
Qed.

Lemma record_u8 r : record_ok r → Forall is_u8 (rr_bytes r).
Proof.
  intros ((Hl & _) & _ & _ & Hd & _). unfold rr_bytes, owner_bytes, rr_fixed.
  pose proof (encode_name_u8 _ Hl) as He. unfold encode_name in He. apply Forall_app in He as [He _].
  repeat (first [done|apply Forall_rev, le_bytes_u8|apply Forall_app_2]).
  unfold owner_end. destruct (o_pointer _); [apply Forall_rev, le_bytes_u8|u8_list].
Qed.

Lemma response_u8 id f2 f3 n ls records pad :
  is_u8 f2 → is_u8 f3 → Forall label_ok ls → Forall record_ok records → Forall is_u8 pad →
  Forall is_u8 ((be16 id ++ [f2; f3; 0; 1] ++ be16 n ++ [0; 0; 0; 0]) ++
    encode_name ls ++ [0; 1; 0; 1] ++ (records ≫= rr_bytes) ++ pad).
Proof.
  intros H2 H3 Hls Hrs Hpad. apply Forall_app_2.
  { apply Forall_app_2; [apply Forall_rev, le_bytes_u8|]. apply Forall_app_2; [u8_list|].
    apply Forall_app_2; [apply Forall_rev, le_bytes_u8|u8_list]. }
  apply Forall_app_2; [by apply encode_name_u8|]. apply Forall_app_2; [u8_list|].
  apply Forall_app_2; [|done]. induction Hrs as [|r l Hr _ IH]; [done|]. rewrite bind_cons.
  apply Forall_app_2; [by apply record_u8|done].
Qed.

(** Where the records of a response start. *)
Definition records_start (ls : list (list Z)) : Z := 12 + Z.of_nat (length (encode_name ls)) + 4.

(** The resolver on a well-formed response. *)
Lemma twp_recv_dns_response junk_msg fuel sock id res f2 f3 ls records pad xs s s1 :
  is_u16 id → is_u8 f2 → is_u8 f3 → Z.land f3 15 = RCODE_NOERR →
  Forall label_ok ls → Forall record_ok records → Forall is_u8 pad →
  let resp := response_bytes id f2 f3 ls records in
  length (resp ++ pad) = dns_buffer → found (resp ++ pad) (records_start ls) records = Done xs →
  recv sock junk_msg s = Done ((Z.of_nat (length resp), resp ++ pad), s1) → (dns_buffer < fuel)%nat →
  twp t (recv_dns_response alloc_fails junk_msg fuel sock id res) s (λ r s',
    (∃ head tail ns h', r = (0, head) ∧ s' = hset h' s1 ∧ built (blocks (proj s1)) h' head tail ns xs) ∨
    (r = (EAI_FAIL, res) ∧ s' = s1 ∧ out_of_memory)).
Proof.
  intros Hid H2 H3 Hrc Hls Hrs Hpad resp Hlen Hfound Hrecv Hf1. set (msg := resp ++ pad) in *.
  set (hdr := be16 id ++ [f2; f3; 0; 1] ++ be16 (Z.of_nat (length records)) ++ [0; 0; 0; 0]).
  assert (Hsplit : msg = hdr ++ encode_name ls ++ [0; 1; 0; 1] ++ (records ≫= rr_bytes) ++ pad)
    by (unfold msg, resp, response_bytes; by rewrite <- !app_assoc).
  assert (Hhdr : length hdr = 12%nat) by done.
  pose proof (length_records records) as Hnum. pose proof (length_labels ls) as Hlabels.
  assert (Hsizes : (12 + length (encode_name ls) + 4 + length (records ≫= rr_bytes) + length pad)%nat = 512%nat).
  { rewrite Hsplit, !length_app, Hhdr in Hlen. simpl in Hlen. unfold dns_buffer in Hlen. lia. }
  unfold encode_name in Hsizes. rewrite length_app in Hsizes. unfold dns_buffer in *.
  assert (Hn16 : is_u16 (Z.of_nat (length records))) by (unfold is_u16; lia).
  destruct (response_header id f2 f3 (Z.of_nat (length records))
    (encode_name ls ++ [0; 1; 0; 1] ++ (records ≫= rr_bytes) ++ pad) Hid Hn16) as (G1 & G2 & G3 & G4).
  fold hdr in G1, G2, G3, G4. rewrite <- Hsplit in G1, G2, G3, G4.
  unfold recv_dns_response. replace fuel with (Datatypes.S (pred fuel)) at 1 by lia.
  apply twp_loop_turn. apply twp_bind. eapply twp_Done; [exact Hrecv|]. cbv beta iota.
  assert (12 ≤ Z.of_nat (length resp)).
  { unfold resp, response_bytes. rewrite length_app. fold hdr. rewrite Hhdr. lia. }
  rewrite decide_False by lia. unfold DNS_HEADER_LEN. rewrite decide_False by lia.
  apply twp_bind. eapply twp_lift; [exact G1|]. rewrite decide_False by (intros Hx0; by apply Hx0).
  apply twp_bind. eapply twp_lift; [exact G2|]. cbv zeta. rewrite Hrc.
  rewrite decide_False by done. rewrite decide_False by (intros Hx0; by apply Hx0). apply twp_bind.
  assert (Hu : Forall is_u8 msg) by (rewrite Hsplit; by apply response_u8).
  pose proof (skip_questions_one fuel ls hdr ([0; 1; 0; 1] ++ (records ≫= rr_bytes) ++ pad) s1) as Hskip.
  cbv zeta in Hskip. rewrite <- Hsplit in Hskip.
  eapply twp_Done; [apply Hskip; [done|lia|done|done]|]. apply twp_bind.
  eapply twp_mono, (twp_parse_answers msg fuel Hu Hlen Hf1 _ records xs); [|..|done|done|exact Hfound].
  - intros r s' Hr. by apply twp_ret.
  - exists (hdr ++ encode_name ls ++ [0; 1; 0; 1]), pad. rewrite <- !app_assoc. split; [done|].
    unfold records_start. rewrite !length_app, Hhdr. simpl. lia.
Qed.
End response.

Section response_properties.
Context {S : Type} `{!Has heap S, !HasLaws heap S, !Has resolver S, !Sockets S, !Rand S}.
Context (alloc_fails : heap → Z → bool).

(** C31: the datagram that arrives is a well-formed response without error to the
    question, with the identifier of the query: any number of records of any type
    and class, with names of labels and compression pointers, such as a chain of
    CNAME records. If the resolver returns, it has returned 0 and the list of
    exactly the Internet addresses (type A, class IN) among the records, in order,
    each with the name of its record, no other block of the heap has been touched,
    and [freeaddrinfo] on the result gives the heap back as it was; or [EAI_FAIL],
    with the heap and the caller's pointer as they were, when [malloc] had no room
    for a name. It returns when [malloc] always has room for the two structures of
    a node, whose pointers the code does not test. *)
Theorem recv_dns_response_addresses junk_msg fuel sock id res f2 f3 ls records pad xs (s s1 : S) :
  is_u16 id → is_u8 f2 → is_u8 f3 → Z.land f3 15 = RCODE_NOERR →
  Forall label_ok ls → Forall record_ok records → Forall is_u8 pad →
  let resp := response_bytes id f2 f3 ls records in
  length (resp ++ pad) = dns_buffer → found (resp ++ pad) (records_start ls) records = Done xs →
  recv sock junk_msg s = Done ((Z.of_nat (length resp), resp ++ pad), s1) → (dns_buffer < fuel)%nat →
  let run := recv_dns_response alloc_fails junk_msg fuel sock id res s in
  (∀ r s2, run = Done (r, s2) →
     (∃ head tail ns, r = (0, head) ∧ built (blocks (proj s1)) (blocks (proj s2)) head tail ns xs ∧
        freeaddrinfo fuel head s2 = Done (tt, s1)) ∨
     (r = (EAI_FAIL, res) ∧ s2 = s1 ∧ out_of_memory alloc_fails)) ∧
  (node_memory alloc_fails → ∃ r s2, run = Done (r, s2)).
Proof.
  intros Hid H2 H3 Hrc Hls Hrs Hpad resp Hlen Hfound Hrecv Hf run.
  assert (Hrun : ∀ t, (t ≠ Partial → node_memory alloc_fails) →
    twp t (recv_dns_response alloc_fails junk_msg fuel sock id res) s (λ r s2,
      (∃ head tail ns, r = (0, head) ∧ built (blocks (proj s1)) (blocks (proj s2)) head tail ns xs ∧
         freeaddrinfo fuel head s2 = Done (tt, s1)) ∨
      (r = (EAI_FAIL, res) ∧ s2 = s1 ∧ out_of_memory alloc_fails))).
  { intros t Hnode. eapply twp_mono, (twp_recv_dns_response alloc_fails t Hnode junk_msg fuel sock id res
      f2 f3 ls records pad xs s s1 Hid H2 H3 Hrc Hls Hrs Hpad Hlen Hfound Hrecv Hf).
    intros r s2 [(head & tail & ns & h' & -> & -> & Hb)|Hout]; [left|by right].
    exists head, tail, ns. rewrite hget. split; [done|]. split; [done|].
    apply wp_eq. eapply wp_mono, (wp_free_built _ _ _ _ _ _ _ s1 Hb).
    - intros [] s3 ->. by rewrite hset_id.
    - pose proof (length_xs _ _ _ _ Hfound) as Hxs. pose proof (length_records records) as Hnum.
      unfold resp, response_bytes in Hlen. rewrite !length_app in Hlen. lia. }
  split.
  - intros r s2 E. specialize (Hrun Partial ltac:(done)). unfold twp in Hrun. unfold run in E. by rewrite E in Hrun.
  - intros Hnode. specialize (Hrun Total (λ _, Hnode)). unfold twp in Hrun. subst run.
    destruct (recv_dns_response _ _ _ _ _ _ _) as [[r s2]| |]; [by eexists _, _|done..].
Qed.
End response_properties.

(** ** Properties: gethostbyname *)
Section host_laws.
Context {S : Type} `{!Has heap S, !HasLaws heap S, !Has resolver S, !Sockets S, !Rand S,
  !Has hostdb S, !HasLaws hostdb S, !Indep heap hostdb S, !Indep hostdb heap S}.
Context (alloc_fails : heap → Z → bool) (junk_msg : list Z) (junk_ptr : ptr).
Implicit Types (s : S) (h : gmap positive block).

#[local] Abbreviation db s := (proj (C:=hostdb) s).
#[local] Abbreviation hp s := (blocks (proj s)).

Lemma db_hset h s : db (hset h s) = db s.
Proof. apply indep_proj. Qed.
Lemma hp_upd (d : hostdb) s : hp (upd d s) = hp s.
Proof. by rewrite indep_proj. Qed.

Lemma wp_info_here p i s (Q : addrinfo → S → Prop) :
  hp s !! p = Some (BInfo i) → Q i s → wp (info_at (Some p)) s Q.
Proof. intros Hp HQ. rewrite <- (hset_id s). eapply wp_info_at; [done|]. by rewrite hset_id. Qed.
Lemma wp_addr_here p a s (Q : sockaddr_in → S → Prop) :
  hp s !! p = Some (BAddr a) → Q a s → wp (addr_at (Some p)) s Q.
Proof. intros Hp HQ. rewrite <- (hset_id s). eapply wp_addr_at; [done|]. by rewrite hset_id. Qed.

(** The addresses copied after [j] turns. *)
Definition copied h (ns : list node) (xs : list (list Z * Z)) hn (j : nat) (res : ptr) s : Prop :=
  hp s = h ∧ (j ≤ ADDRESSES_MAX ∧ j ≤ length ns)%nat ∧ ai_seg h res (drop j ns) (drop j xs) None ∧
  length (addresses (db s)) = ADDRESSES_MAX ∧ length (paddresses (db s)) = Datatypes.S ADDRESSES_MAX ∧
  take j (addresses (db s)) = take j xs.*2 ∧
  take j (paddresses (db s)) = map Some (seqZ 0 (Z.of_nat j)) ∧ hostname (db s) = hn.

Lemma take_S_insert {A : Type} (l : list A) j x : (j < length l)%nat →
  take (Datatypes.S j) (<[j := x]> l) = take j l ++ [x].
Proof.
  intros Hj. rewrite insert_take_drop by done.
  replace (Datatypes.S j) with (length (take j l) + 1)%nat at 1 by (rewrite length_take; lia).
  by rewrite take_app_add.
Qed.

Lemma wp_host_turn h ns xs hn (j : nat) res s :
  copied h ns xs hn j res s → length ns = length xs →
  wp (host_turn (res, Z.of_nat j)) s (λ r s', match r with
    | inl (res', i) => i = Z.of_nat (Datatypes.S j) ∧ (j < ADDRESSES_MAX)%nat ∧
        copied h ns xs hn (Datatypes.S j) res' s'
    | inr (res', i) => i = Z.of_nat j ∧ copied h ns xs hn j res' s' ∧
        (j = ADDRESSES_MAX ∨ j = length ns)
    end).
Proof.
  intros Hc Hlen. pose proof Hc as (Hh & [Hj4 Hjn] & Hseg & Ha & Hp & Hta & Htp & Hn). unfold host_turn.
  destruct (drop j ns) as [|[[i a] n] rest] eqn:Hd.
  - assert (j = length ns) by (apply (f_equal length) in Hd; rewrite length_drop in Hd; simpl in Hd; lia).
    destruct (drop j xs); [|done]. simpl in Hseg. subst res. apply wp_ret. auto.
  - destruct (drop j xs) as [|x xs'] eqn:Hdx; [done|]. destruct Hseg as (-> & next & Hi & Haa & Hnn & Hrest).
    case_decide as H4; [|apply wp_ret; split; [done|]; split; [done|left; lia]].
    apply wp_bind. eapply wp_info_here; [by rewrite Hh|]. simpl ai_addr. apply wp_bind.
    eapply wp_addr_here; [by rewrite Hh|]. simpl sin_addr. apply wp_bind, wp_gets.
    apply wp_bind. eapply wp_lift; [apply aset_in_range; lia|].
    apply wp_bind. eapply wp_lift; [apply aset_in_range; unfold ADDRESSES_MAX in *; lia|].
    apply wp_bind, wp_modify, wp_ret. split; [simpl; lia|]. split; [lia|].
    assert (Hjn' : (j < length ns)%nat)
      by (apply (f_equal length) in Hd; rewrite length_drop in Hd; simpl in Hd; lia).
    unfold copied. rewrite hp_upd, proj_upd. simpl. rewrite Nat2Z.id, !length_insert.
    rewrite !take_S_insert by (unfold ADDRESSES_MAX in *; lia).
    split; [done|]. split; [lia|]. split.
    { rewrite <- (Nat.add_1_r j), <- !drop_drop, Hd, Hdx. done. }
    split; [done|]. split; [done|]. split; [|split; [|done]].
    + assert (Hx : xs.*2 !! j = Some (snd x))
        by (by rewrite list_lookup_fmap, <- (Nat.add_0_r j), <- lookup_drop, Hdx).
      by rewrite Hta, (take_S_r _ _ _ Hx).
    + rewrite Htp, seqZ_S. by rewrite map_app.
Qed.

Lemma strlen_bound cs k : strlen cs = Done k → (k < length cs)%nat.
Proof.
  revert k. induction cs as [|c cs IH]; intros k; simpl; [done|].
  case_decide; [intros [= <-]; lia|]. destruct (strlen cs) as [k'| |]; simpl; [|done..].
  intros [= <-]. specialize (IH k' eq_refl). lia.
Qed.

(** The end of the function, after the loop: the rest of the list is freed. *)
Lemma wp_host_end fuel h0 (s1 : S) head tail ns xs hn j res s3 :
  let m := Nat.min ADDRESSES_MAX (length xs) in
  built h0 (hp s1) head tail ns xs → (length ns < fuel)%nat →
  copied (hp s1) ns xs hn j res s3 → (j = ADDRESSES_MAX ∨ j = length ns) →
  wp (d ← getc;
      p ← lift (aset (paddresses d) (Z.of_nat j) None);
      _ ← modifyc (λ d, Hostdb (Some (Hostent HOSTNAME ALIAS_NULL AF_INET 4 PADDRESSES))
                          (addresses d) p (hostname d));
      _ ← freeaddrinfo fuel res;
      mret true) s3 (λ r s', r = true ∧
    host (db s') = Some (Hostent HOSTNAME ALIAS_NULL AF_INET 4 PADDRESSES) ∧ hostname (db s') = hn ∧
    take m (addresses (db s')) = take m xs.*2 ∧
    take (Datatypes.S m) (paddresses (db s')) = map Some (seqZ 0 (Z.of_nat m)) ++ [None] ∧
    ∀ q, hp s' !! q = if decide (q ∈ node_ptrs (take ADDRESSES_MAX ns)) then hp s1 !! q else h0 !! q).
Proof.
  intros m Hb Hfuel (Hh & [Hj4 Hjn] & Hs3 & Ha3 & Hp3 & Hta & Htp & Hn3) Hend.
  pose proof (ai_seg_length _ _ _ _ _ (built_seg _ _ _ _ _ _ Hb)) as Hlen.
  assert (Hjm : j = m) by (unfold m; lia). clear Hend. subst j.
  apply wp_bind, wp_gets, wp_bind. eapply wp_lift; [apply aset_in_range; lia|].
  apply wp_bind, wp_modify, wp_bind. rewrite Nat2Z.id.
  set (s4 := upd _ s3). rewrite <- (hset_id s4).
  assert (Hh4 : hp s4 = hp s1) by (unfold s4; by rewrite hp_upd).
  assert (Hd4 : drop m ns = drop ADDRESSES_MAX ns).
  { unfold m. rewrite <- Hlen. destruct (decide (ADDRESSES_MAX ≤ length ns)%nat); [f_equal; lia|].
    rewrite !drop_ge by lia. done. }
  assert (Hsplit : node_ptrs ns = node_ptrs (take ADDRESSES_MAX ns) ++ node_ptrs (drop ADDRESSES_MAX ns))
    by by rewrite <- node_ptrs_app, take_drop.
  pose proof (built_nodup _ _ _ _ _ _ Hb) as Hnd. rewrite Hsplit in Hnd.
  apply NoDup_app in Hnd as (_ & Hdisj & Hnd).
  rewrite Hh4, <- Hh. rewrite Hd4 in Hs3. rewrite Hh.
  eapply wp_mono, wp_freeaddrinfo; [|exact Hs3|exact Hnd|rewrite length_drop; lia].
  intros [] s5 (h5 & -> & Hh5). apply wp_ret. rewrite db_hset, hget. unfold s4. rewrite proj_upd. simpl.
  rewrite take_S_insert by lia. rewrite Htp. do 5 (split; [done|]). intros q. rewrite Hh5.
  destruct (decide (q ∈ node_ptrs (take ADDRESSES_MAX ns))) as [Hin|Hnin].
  * rewrite decide_False; [done|]. by apply Hdisj.
  * case_decide as Hin; [symmetry; apply (built_fresh _ _ _ _ _ _ Hb)|
      apply (built_frame _ _ _ _ _ _ Hb)]; rewrite Hsplit, elem_of_app; tauto.
Qed.

(** [gethostbyname] gives the first four addresses that [getaddrinfo] found
    and the name it was called with, but it does not give the memory back: the
    call of [freeaddrinfo] starts where the loop over the list has stopped, so
    that the first four nodes, all of them in the usual case, stay in the heap. *)
Theorem gethostbyname_leaks fuel name k s s1 h0 head tail ns xs :
  strlen name = Done k → (k < NAME_MAX_LEN)%nat →
  getaddrinfo alloc_fails junk_msg fuel (Some name) None None junk_ptr s = Done ((0, head), s1) →
  built h0 (hp s1) head tail ns xs → ns ≠ [] → (length ns + ADDRESSES_MAX < fuel)%nat →
  length (addresses (db s1)) = ADDRESSES_MAX → length (paddresses (db s1)) = Datatypes.S ADDRESSES_MAX →
  let m := Nat.min ADDRESSES_MAX (length xs) in
  ∃ s', gethostbyname alloc_fails junk_msg junk_ptr fuel name s = Done (true, s') ∧
    host (db s') = Some (Hostent HOSTNAME ALIAS_NULL AF_INET 4 PADDRESSES) ∧
    hostname (db s') = take k name ++ replicate (NAME_MAX_LEN - k) 0 ∧
    take m (addresses (db s')) = take m xs.*2 ∧
    take (Datatypes.S m) (paddresses (db s')) = map Some (seqZ 0 (Z.of_nat m)) ++ [None] ∧
    ∀ q, hp s' !! q = if decide (q ∈ node_ptrs (take ADDRESSES_MAX ns)) then hp s1 !! q else h0 !! q.
Proof.
  intros Hk Hk256 Hget Hb Hne Hfuel Ha Hp m.
  pose proof (built_seg _ _ _ _ _ _ Hb) as Hseg. pose proof (ai_seg_length _ _ _ _ _ Hseg) as Hlen.
  assert (Hhead : head ≠ None) by (destruct ns as [|[[]]], xs; simpl in Hseg; naive_solver).
  pose proof (strlen_bound _ _ Hk) as Hlk.
  set (hn := take k name ++ replicate (NAME_MAX_LEN - k) 0).
  assert (Hrun : wp (gethostbyname alloc_fails junk_msg junk_ptr fuel name) s (λ r s', r = true ∧
    host (db s') = Some (Hostent HOSTNAME ALIAS_NULL AF_INET 4 PADDRESSES) ∧ hostname (db s') = hn ∧
    take m (addresses (db s')) = take m xs.*2 ∧
    take (Datatypes.S m) (paddresses (db s')) = map Some (seqZ 0 (Z.of_nat m)) ++ [None] ∧
    ∀ q, hp s' !! q = if decide (q ∈ node_ptrs (take ADDRESSES_MAX ns)) then hp s1 !! q else h0 !! q)).
  { apply wp_bind. eapply wp_lift; [done|]. rewrite decide_False by lia. apply wp_bind.
    eapply wp_Done; [exact Hget|]. cbv beta iota. rewrite decide_False by (intros [?|?]; done).
    apply wp_bind, wp_gets, wp_bind. unfold strncpy. rewrite Hk. cbn [mbind outcome_bind].
    eapply wp_lift; [done|]. apply wp_bind, wp_modify, wp_bind.
    assert (Hn : take NAME_MAX_LEN (take k name ++ replicate NAME_MAX_LEN 0) = hn).
    { rewrite take_app, take_take, length_take, take_replicate. unfold hn. f_equal; f_equal; lia. }
    rewrite Hn. apply wp_loop with (I := λ '(res, i) s', ∃ j, i = Z.of_nat j ∧ copied (hp s1) ns xs hn j res s')
      (μ := λ '(_, i) _, Z.to_nat (4 - i)).
    - exists O. split; [done|]. unfold copied. rewrite hp_upd, proj_upd. simpl.
      split; [done|]. split; [lia|]. by rewrite !take_0.
    - simpl. unfold ADDRESSES_MAX in *. lia.
    - intros [res i] s2 (j & -> & Hc). eapply wp_mono, wp_host_turn; [|done|done].
      intros [[res' i']|[res' i']] s3.
      + intros (-> & Hj & Hc'). split; [by exists (Datatypes.S j)|]. unfold ADDRESSES_MAX in *. lia.
      + intros (-> & Hc' & Hend). eapply wp_host_end; [done|lia|done|done]. }
  apply wp_run in Hrun as (r & s' & Hr & -> & H). by exists s'.
Qed.
End host_laws.

(** ** A concrete system: a scripted network *)
Record netdb_world := NetdbWorld { nw_heap : heap; nw_res : resolver; nw_db : hostdb; nw_net : net }.
#[export] Instance nw_has_heap : Has heap netdb_world :=
  {| proj := nw_heap; upd := λ c w, NetdbWorld c (nw_res w) (nw_db w) (nw_net w) |}.
#[export] Instance nw_has_res : Has resolver netdb_world :=
  {| proj := nw_res; upd := λ c w, NetdbWorld (nw_heap w) c (nw_db w) (nw_net w) |}.
#[export] Instance nw_has_db : Has hostdb netdb_world :=
  {| proj := nw_db; upd := λ c w, NetdbWorld (nw_heap w) (nw_res w) c (nw_net w) |}.
#[export] Instance nw_has_net : Has net netdb_world :=
  {| proj := nw_net; upd := λ c w, NetdbWorld (nw_heap w) (nw_res w) (nw_db w) c |}.
#[export] Instance nw_laws_heap : HasLaws heap netdb_world.
Proof. split; [done|by intros []|done]. Qed.
#[export] Instance nw_laws_db : HasLaws hostdb netdb_world.
Proof. split; [done|by intros []|done]. Qed.
#[export] Instance nw_indep1 : Indep heap hostdb netdb_world.
Proof. done. Qed.
#[export] Instance nw_indep2 : Indep hostdb heap netdb_world.
Proof. done. Qed.
#[export] Instance nw_sockets : Sockets netdb_world := scripted_sockets.
#[export] Instance nw_rand : Rand netdb_world := mret 4660.

Definition nw_labels : list (list Z) := [[97]; [98; 99]].
Definition nw_name : list Z := host_text nw_labels ++ [0].
Definition nw_response (records : list record) : list Z := response_bytes 4660 129 128 nw_labels records.
Definition nw_start (records : list record) : netdb_world :=
  NetdbWorld (Heap ∅) (Resolver 134744072)
    (Hostdb None (replicate 4 0) (replicate 5 None) (replicate 256 0))
    (Net [nw_response records] ∅ []).

(** An address of the name of the question. *)
Definition nw_address (x : Z) : record := Rr (Owner [] (Some 12)) TYPE_A CLASS_IN 60 (le_bytes 4 x).

Definition no_failure : heap → Z → bool := λ _ _, false.

(** Five addresses: the fifth node is freed, the first four are not. *)
Definition nw_five : list record := nw_address <$> [151038144; 5; 6; 7; 8].

Example gethostbyname_five :
  wp (gethostbyname no_failure (replicate 512 0) None 19 nw_name) (nw_start nw_five) (λ r s,
    r = true ∧ addresses (nw_db s) = [151038144; 5; 6; 7] ∧ size (blocks (nw_heap s)) = 12%nat).
Proof. vm_compute. done. Qed.

(** One address: the state after [getaddrinfo]. *)
Definition nw_found_heap : gmap positive block :=
  <[2%positive := BInfo (node_info 3 1 None)]>
    (<[3%positive := BAddr (SockaddrIn AF_INET 0 151038144)]> (<[1%positive := BName nw_name]> ∅)).
Definition nw_found : netdb_world :=
  NetdbWorld (Heap nw_found_heap) (Resolver 134744072)
    (Hostdb None (replicate 4 0) (replicate 5 None) (replicate 256 0))
    (Net [] ∅ [query_header 4660 ++ encode_name nw_labels ++ [0; 1; 0; 1]]).

Lemma nw_found_built :
  built ∅ (blocks (proj nw_found)) (Some 2%positive) (Some 2%positive) [(2, 3, 1)%positive] [(nw_name, 151038144)].
Proof.
  split; try done.
  - split; [done|]. by exists None.
  - repeat constructor; set_solver.
  - intros k Hk. change (node_ptrs [(2, 3, 1)%positive]) with [2; 3; 1]%positive in Hk.
    change (blocks (proj nw_found)) with nw_found_heap. unfold nw_found_heap.
    rewrite !lookup_insert_ne by (intros <-; apply Hk; set_solver). done.
Qed.

Lemma gethostbyname_leaks_witness :
  ∃ s', gethostbyname no_failure (replicate 512 0) None 19 nw_name (nw_start [nw_address 151038144]) = Done (true, s') ∧
    host (nw_db s') = Some (Hostent HOSTNAME ALIAS_NULL AF_INET 4 PADDRESSES) ∧
    hostname (nw_db s') = take 4 nw_name ++ replicate (NAME_MAX_LEN - 4) 0 ∧
    take 1 (addresses (nw_db s')) = [151038144] ∧
    take 2 (paddresses (nw_db s')) = map Some (seqZ 0 (Z.of_nat 1)) ++ [None] ∧
    ∀ q, blocks (nw_heap s') !! q =
      if decide (q ∈ node_ptrs (take ADDRESSES_MAX [(2, 3, 1)%positive]))
      then nw_found_heap !! q else (∅ : gmap positive block) !! q.
Proof.
  destruct (gethostbyname_leaks no_failure (replicate 512 0) None 19 nw_name 4 (nw_start [nw_address 151038144])
    nw_found ∅ (Some 2%positive) (Some 2%positive) [(2, 3, 1)%positive] [(nw_name, 151038144)])
    as (s' & H1 & H2 & H3 & H4 & H5 & H6);
    [reflexivity|vm_compute; lia|vm_compute; reflexivity|exact nw_found_built|done|unfold ADDRESSES_MAX; simpl; lia|done|done|].
  exists s'. split; [exact H1|]. split; [exact H2|]. split; [exact H3|]. split; [exact H4|].
  split; [exact H5|]. exact H6.
Defined.

Definition nw_answered : netdb_world :=
  NetdbWorld (Heap ∅) (Resolver 134744072)
    (Hostdb None (replicate 4 0) (replicate 5 None) (replicate 256 0)) (Net [] ∅ []).

(** The name is an alias: its canonical name [d.bc] is in the data of the first
    record, with a pointer into the question; two addresses of that name, one of
    them after an address of another type, and a record of another class. *)
Definition nw_alias : list record :=
  [Rr (Owner [] (Some 12)) 5 CLASS_IN 60 [1; 100; 192; 14];
   Rr (Owner [] (Some 34)) TYPE_A CLASS_IN 60 (le_bytes 4 151038144);
   Rr (Owner [] (Some 34)) 28 CLASS_IN 60 (replicate 16 0);
   Rr (Owner [[100]] (Some 14)) TYPE_A CLASS_IN 60 (le_bytes 4 5);
   Rr (Owner [] (Some 12)) TYPE_A 3 60 (le_bytes 4 6)].
Definition nw_canonical : list Z := [100; 46; 98; 99; 0].
Definition nw_found_alias : list (list Z * Z) := [(nw_canonical, 151038144); (nw_canonical, 5)].

Lemma nw_labels_ok : Forall label_ok nw_labels.
Proof. repeat constructor; simpl; unfold is_u8; lia. Qed.

Lemma nw_alias_ok : Forall record_ok nw_alias.
Proof.
  repeat apply Forall_cons_2; try apply Forall_nil_2;
    (split; [split; [|intros off [= <-]; lia]|]); try (split_and!; [by vm_compute|by vm_compute| |done]);
    try (by repeat constructor); try (apply Forall_replicate; by vm_compute).
  all: repeat constructor; vm_compute; congruence.
Qed.

Abbreviation nw_run fails := (recv_dns_response fails (replicate 512 0) 513 3 4660 None (nw_start nw_alias)).

Lemma recv_dns_response_addresses_witness :
  (∀ r s2, nw_run no_failure = Done (r, s2) →
     (∃ head tail ns, r = (0, head) ∧
        built (blocks (proj nw_answered)) (blocks (proj s2)) head tail ns nw_found_alias ∧
        freeaddrinfo 513 head s2 = Done (tt, nw_answered)) ∨
     (r = (EAI_FAIL, None) ∧ s2 = nw_answered ∧ out_of_memory no_failure)) ∧
  (node_memory no_failure → ∃ r s2, nw_run no_failure = Done (r, s2)) ∧ node_memory no_failure.
Proof.
  assert (Hmem : node_memory no_failure) by done.
  destruct (recv_dns_response_addresses no_failure (replicate 512 0) 513 3 4660 None 129 128
    nw_labels nw_alias (replicate 396 0) nw_found_alias (nw_start nw_alias) nw_answered) as [H1 H2];
    [by vm_compute|by vm_compute|by vm_compute|reflexivity|exact nw_labels_ok|exact nw_alias_ok|
     apply Forall_replicate; by vm_compute|vm_compute; reflexivity|vm_compute; reflexivity|vm_compute; reflexivity|vm_compute; lia|].
  split; [exact H1|]. split; [exact H2|exact Hmem].
Defined.

(** Without memory for a name the call fails and frees what it has built; without
    memory for a node it writes through a null pointer. *)
Lemma resolver_out_of_memory :
  nw_run (λ hp n, bool_decide (n = 5 ∧ size (blocks hp) = 3%nat)) = Done ((EAI_FAIL, None), nw_answered) ∧
  nw_run (λ _ n, bool_decide (n = SIZEOF_ADDRINFO)) = Fault ∧
  nw_run (λ _ n, bool_decide (n = SIZEOF_SOCKADDR_IN)) = Fault.
Proof. vm_compute. done. Qed.
