(* ===== verification/Opencm3.v ===== *)
(** * The hardware library: the calls of libopencm3 the drivers make

    The peripherals are reached through libopencm3, which is not part of the
    repository: its functions are the interface [Opencm3], its constants are
    constructors. A device on the SPI bus is a state machine with outputs,
    [SpiDevice]; a program whose state has a device as a component gets the
    library's functions from it. *)

From stdpp Require Import prelude list numbers.
From S2P Require Import Prelude.

(** The two boards of the make files. *)
Inductive target := STM32F1 | STM32F4.

Inductive rcc_periph := RCC_SPI1 | RCC_GPIOA | RCC_GPIOB | RCC_USART2.
Inductive gpio_port := GPIOA | GPIOB.
Inductive gpio_pin :=
| GPIO2 | GPIO3 | GPIO5 | GPIO6 | GPIO7
| GPIO_SPI1_SCK | GPIO_SPI1_MOSI | GPIO_SPI1_MISO
| GPIO_USART2_TX | GPIO_USART2_RX.
Inductive gpio_mode :=
| GPIO_MODE_INPUT | GPIO_MODE_OUTPUT | GPIO_MODE_AF
| GPIO_MODE_OUTPUT_10_MHZ | GPIO_MODE_OUTPUT_50_MHZ.
Inductive gpio_cnf :=
| GPIO_CNF_INPUT_FLOAT | GPIO_CNF_OUTPUT_PUSHPULL | GPIO_CNF_OUTPUT_ALTFN_PUSHPULL.
Inductive gpio_pupd := GPIO_PUPD_NONE.
Inductive gpio_af := GPIO_AF5 | GPIO_AF7.
Inductive spi_baudrate := SPI_CR1_BAUDRATE_FPCLK_DIV_2 | SPI_CR1_BAUDRATE_FPCLK_DIV_32.
Inductive spi_cpol := SPI_CR1_CPOL_CLK_TO_0_WHEN_IDLE.
Inductive spi_cpha := SPI_CR1_CPHA_CLK_TRANSITION_1.
Inductive spi_dff := SPI_CR1_DFF_8BIT.
Inductive spi_order := SPI_CR1_MSBFIRST.

Inductive usart_stopbits := USART_STOPBITS_1.
Inductive usart_mode := USART_MODE_TX_RX.
Inductive usart_parity := USART_PARITY_NONE.
Inductive usart_flowcontrol := USART_FLOWCONTROL_NONE.

(** The calls without a result; the SPI functions are called with [SPI1], those of
    the serial line with [USART2]. [usart_brr] is the assignment of its register. *)
Inductive hw_call :=
| rcc_periph_clock_enable (p : rcc_periph)
| gpio_set (p : gpio_port) (pins : list gpio_pin)
| gpio_clear (p : gpio_port) (pins : list gpio_pin)
| gpio_set_mode (p : gpio_port) (m : gpio_mode) (c : gpio_cnf) (pins : list gpio_pin)
| gpio_mode_setup (p : gpio_port) (m : gpio_mode) (u : gpio_pupd) (pins : list gpio_pin)
| gpio_set_af (p : gpio_port) (af : gpio_af) (pins : list gpio_pin)
| spi_init_master (br : spi_baudrate) (cpol : spi_cpol) (cpha : spi_cpha) (dff : spi_dff) (o : spi_order)
| spi_enable_software_slave_management
| spi_set_nss_high
| spi_enable
| usart_brr (divider : Z)
| usart_set_databits (bits : Z)
| usart_set_stopbits (s : usart_stopbits)
| usart_set_mode (m : usart_mode)
| usart_set_parity (p : usart_parity)
| usart_set_flow_control (f : usart_flowcontrol)
| usart_enable.

(** [hw c] is the call [c]; [spi_xfer b] is [spi_xfer(SPI1, b)]: it sends [b]
    and gives the byte that came in meanwhile. *)
Class Opencm3 (S : Type) := {
  hw : hw_call → M S unit;
  spi_xfer : Z → M S Z;
}.

(** A device on the bus, as the program sees it: how its state changes at a
    call, and what it answers to a byte. What the device does on its own
    between two accesses is part of the change at the next access. *)
Class SpiDevice (H : Type) := {
  dev_hw : hw_call → H → H;
  dev_xfer : Z → H → Z * H;
}.

#[export] Instance device_opencm3 {H S : Type} `{!Has H S, !SpiDevice H} : Opencm3 S := {|
  hw c := modifyc (dev_hw c);
  spi_xfer b :=
    h ← getc;
    let '(r, h) := dev_xfer b h in
    _ ← modifyc (λ _, h); mret r;
|}.

Section device.
Context {H S : Type} `{!Has H S, !HasLaws H S, !SpiDevice H}.

Lemma hw_run c (s : S) : hw c s = Done (tt, upd (dev_hw c (proj s)) s).
Proof. done. Qed.

Lemma spi_xfer_run b (s : S) :
  spi_xfer b s = Done ((dev_xfer b (proj s)).1, upd (dev_xfer b (proj s)).2 s).
Proof.
  unfold spi_xfer, device_opencm3, mbind, M_bind, getc, gets.
  by destruct (dev_xfer b (proj s)).
Qed.
End device.
