(* ===== verification/W5100Spi.v ===== *)
(** * Register access to the W5100 chip: [src/w5100_spi.c], [include/w5100.h]

    Every access to the network chip is a frame of four bytes on the SPI bus:
    operation, address (high byte first), data, between the fall and the rise
    of the chip select line. [W5100] is the chip as a memory of registers and
    buffers, [W5100Bus] its side of the frame protocol; the theorems show that
    the functions of the source are loads and stores of that memory. *)

From stdpp Require Import prelude list numbers functions.
From S2P Require Import Prelude Opencm3.

(** ** [include/w5100.h] *)

Definition W5100_N_SOCKETS : nat := 4.
Definition W5100_SOCKET_REGS_SIZE : Z := 256.
Definition W5100_S0_REGS_OFFSET : Z := 1024.
Definition W5100_TX_MEM_BASE : Z := 16384.
Definition W5100_TX_MEM_SIZE : Z := 8192.
Definition W5100_RX_MEM_BASE : Z := 24576.
Definition W5100_RX_MEM_SIZE : Z := 8192.

Definition W5100_MR : Z := 0.
Definition W5100_GAR : Z := 1.
Definition W5100_GAR_SIZE : nat := 4.
Definition W5100_SUBR : Z := 5.
Definition W5100_SUBR_SIZE : nat := 4.
Definition W5100_SHAR : Z := 9.
Definition W5100_SHAR_SIZE : nat := 6.
Definition W5100_SIPR : Z := 15.
Definition W5100_SIPR_SIZE : nat := 4.
Definition W5100_RMSR : Z := 26.
Definition W5100_TMSR : Z := 27.

Definition W5100_Sn_MR : Z := 0.
Definition W5100_Sn_CR : Z := 1.
Definition W5100_Sn_SR : Z := 3.
Definition W5100_Sn_PORT : Z := 4.
Definition W5100_Sn_PORT_SIZE : nat := 2.
Definition W5100_Sn_DIPR : Z := 12.
Definition W5100_Sn_DIPR_SIZE : nat := 4.
Definition W5100_Sn_DPORT : Z := 16.
Definition W5100_Sn_DPORT_SIZE : nat := 2.
Definition W5100_Sn_TX_FSR : Z := 32.
Definition W5100_Sn_TX_FSR_SIZE : nat := 2.
Definition W5100_Sn_TX_RD : Z := 34.
Definition W5100_Sn_TX_WR : Z := 36.
Definition W5100_Sn_TX_WR_SIZE : nat := 2.
Definition W5100_Sn_RX_RSR : Z := 38.
Definition W5100_Sn_RX_RSR_SIZE : nat := 2.
Definition W5100_Sn_RX_RD : Z := 40.
Definition W5100_Sn_RX_RD_SIZE : nat := 2.

Definition W5100_MODE_RST : Z := 128.

Definition W5100_SOCK_MODE_TCP : Z := 1.
Definition W5100_SOCK_MODE_UDP : Z := 2.
Definition W5100_SOCK_MODE_IPRAW : Z := 3.

Definition W5100_CMD_OPEN : Z := 1.
Definition W5100_CMD_LISTEN : Z := 2.
Definition W5100_CMD_CONNECT : Z := 4.
Definition W5100_CMD_DISCON : Z := 8.
Definition W5100_CMD_CLOSE : Z := 16.
Definition W5100_CMD_SEND : Z := 32.
Definition W5100_CMD_RECV : Z := 64.

Definition W5100_SOCK_CLOSED : Z := 0.
Definition W5100_SOCK_INIT : Z := 19.
Definition W5100_SOCK_LISTEN : Z := 20.
Definition W5100_SOCK_ESTABLISHED : Z := 23.
Definition W5100_SOCK_CLOSE_WAIT : Z := 28.
Definition W5100_SOCK_UDP : Z := 34.

Definition w5100_sock_reg_get (sn_reg socket : Z) : Z :=
  u16 (W5100_S0_REGS_OFFSET + sn_reg + socket * W5100_SOCKET_REGS_SIZE).

(** ** [w5100_spi.c] *)

Definition OP_WRITE : Z := 240.
Definition OP_READ : Z := 15.

Section w5100_spi.
Context {S : Type} `{!Opencm3 S}.

Definition w5100_select : M S unit := hw (gpio_clear GPIOB [GPIO6]).
Definition w5100_deselect : M S unit := hw (gpio_set GPIOB [GPIO6]).

Definition w5100_xfer_addr (reg : Z) : M S unit :=
  _ ← spi_xfer (Z.shiftr reg 8);
  _ ← spi_xfer (Z.land reg 255);
  mret tt.

Definition w5100_write_byte (reg val : Z) : M S unit :=
  _ ← w5100_select;
  _ ← spi_xfer OP_WRITE;
  _ ← w5100_xfer_addr reg;
  _ ← spi_xfer val;
  w5100_deselect.

Definition w5100_read_byte (reg : Z) : M S Z :=
  _ ← w5100_select;
  _ ← spi_xfer OP_READ;
  _ ← w5100_xfer_addr reg;
  rx ← spi_xfer 0;
  _ ← w5100_deselect;
  mret (u8 rx).

Definition w5100_read_reg (reg : Z) : M S Z := rx ← w5100_read_byte reg; mret rx.

Definition w5100_read_reg2 (reg : Z) : M S Z :=
  for_fold 2 0 (λ i_byte rx,
    b ← w5100_read_byte (u16 (reg + i_byte));
    let rx := Z.lor rx b in
    mret (u16 (Z.shiftl rx 8))) 0.

Definition w5100_write_reg (reg val : Z) : M S unit := w5100_write_byte reg val.

Definition w5100_write_reg2 (reg val : Z) : M S unit :=
  for_fold 2 0 (λ i_byte _,
    let shiftr := (3 - i_byte) * 8 in
    let b := u8 (Z.land (Z.shiftr val shiftr) 255) in
    w5100_write_byte (u16 (reg + i_byte)) b) tt.

(** The [n] bytes stored in [buf]. *)
Definition w5100_read_mem (addr : Z) (n : nat) : M S (list Z) :=
  for_fold n 0 (λ i_byte pbytes,
    b ← w5100_read_byte (u16 (addr + i_byte));
    mret (pbytes ++ [b])) [].

Definition w5100_write_mem (addr : Z) (buf : list Z) (n : nat) : M S unit :=
  for_fold n 0 (λ i_byte _,
    b ← lift (aget buf i_byte);
    w5100_write_byte (u16 (addr + i_byte)) b) tt.

(** The macros of [w5100.h]: [w5100_read_regx(reg, buf)] is the memory access
    at [reg] of [reg_SIZE] bytes. *)
Definition w5100_read_sock_regx (sn_reg : Z) (size : nat) (socket : Z) : M S (list Z) :=
  w5100_read_mem (w5100_sock_reg_get sn_reg socket) size.
Definition w5100_write_sock_regx (sn_reg : Z) (size : nat) (socket : Z) (buf : list Z) : M S unit :=
  w5100_write_mem (w5100_sock_reg_get sn_reg socket) buf size.
Definition w5100_read_sock_reg (sn_reg socket : Z) : M S Z :=
  w5100_read_reg (w5100_sock_reg_get sn_reg socket).
Definition w5100_write_sock_reg (sn_reg socket val : Z) : M S unit :=
  w5100_write_reg (w5100_sock_reg_get sn_reg socket) val.

Definition w5100_spi_init (board : target) : M S unit :=
  _ ← hw (rcc_periph_clock_enable RCC_SPI1);
  _ ← hw (rcc_periph_clock_enable RCC_GPIOA);
  _ ← hw (rcc_periph_clock_enable RCC_GPIOB);
  _ ← hw (gpio_set GPIOB [GPIO5]);
  _ ← match board with
      | STM32F1 =>
          _ ← hw (gpio_set_mode GPIOA GPIO_MODE_OUTPUT_50_MHZ GPIO_CNF_OUTPUT_ALTFN_PUSHPULL [GPIO_SPI1_SCK]);
          _ ← hw (gpio_set_mode GPIOA GPIO_MODE_OUTPUT_50_MHZ GPIO_CNF_OUTPUT_ALTFN_PUSHPULL [GPIO_SPI1_MOSI]);
          _ ← hw (gpio_set_mode GPIOA GPIO_MODE_INPUT GPIO_CNF_INPUT_FLOAT [GPIO_SPI1_MISO]);
          _ ← hw (gpio_set_mode GPIOB GPIO_MODE_OUTPUT_10_MHZ GPIO_CNF_OUTPUT_PUSHPULL [GPIO6]);
          hw (gpio_set_mode GPIOB GPIO_MODE_OUTPUT_10_MHZ GPIO_CNF_OUTPUT_PUSHPULL [GPIO5])
      | STM32F4 =>
          _ ← hw (gpio_set_af GPIOA GPIO_AF5 [GPIO5; GPIO6; GPIO7]);
          _ ← hw (gpio_mode_setup GPIOA GPIO_MODE_AF GPIO_PUPD_NONE [GPIO5; GPIO6; GPIO7]);
          hw (gpio_mode_setup GPIOB GPIO_MODE_OUTPUT GPIO_PUPD_NONE [GPIO5; GPIO6])
      end;
  _ ← w5100_deselect;
  _ ← hw (spi_init_master SPI_CR1_BAUDRATE_FPCLK_DIV_2 SPI_CR1_CPOL_CLK_TO_0_WHEN_IDLE
            SPI_CR1_CPHA_CLK_TRANSITION_1 SPI_CR1_DFF_8BIT SPI_CR1_MSBFIRST);
  _ ← hw spi_enable_software_slave_management;
  _ ← hw spi_set_nss_high;
  hw spi_enable.

Definition w5100_init (board : target) : M S unit := w5100_spi_init board.
End w5100_spi.

(** ** The chip as a memory

    [chip_load a] is a read access at the address [a], [chip_store a v] a write
    access; what the chip does by itself in the meantime (packets, commands) is
    part of the next access. The cells [plain] are those that only the program
    changes: the addresses of the interface, the sizes of the buffers, mode and
    port of each socket, and the transmit buffers. *)
Definition plain (a : Z) : bool :=
  bool_decide (1 ≤ a < 19 ∨ 26 ≤ a < 28 ∨ 16384 ≤ a < 24576 ∨
    (1024 ≤ a < 2048 ∧ (a mod 256 = 0 ∨ a mod 256 = 4 ∨ a mod 256 = 5))).

Class W5100 (H : Type) := {
  chip_ok : H → Prop;
  chip_load : Z → H → Z * H;
  chip_store : Z → Z → H → H;
  cell : Z → H → Z;
  load_ok a h : chip_ok h → chip_ok (chip_load a h).2;
  load_u8 a h : chip_ok h → is_u8 (chip_load a h).1;
  store_ok a v h : chip_ok h → chip_ok (chip_store a v h);
  load_plain a h : chip_ok h → plain a = true → (chip_load a h).1 = cell a h;
  load_keeps a b h : chip_ok h → plain b = true → cell b (chip_load a h).2 = cell b h;
  store_plain a v b h : chip_ok h → plain b = true → a ≠ W5100_MR →
    cell b (chip_store a v h) = if decide (a = b) then u8 v else cell b h;
}.

(** ** The frames

    [in_frame p h h0]: the bus is in the phase [p] of a frame that began when
    the chip was in the state [h0], where it still is but for a finished
    access. *)
Inductive phase := POp | PHi (op : Z) | PLo (op hi : Z) | PData (op addr : Z) | PDone.

Class W5100Bus (H : Type) `{!SpiDevice H, !W5100 H} := {
  in_frame : phase → H → H → Prop;
  bus_select h : chip_ok h → in_frame POp (dev_hw (gpio_clear GPIOB [GPIO6]) h) h;
  bus_op op h h0 : in_frame POp h h0 → in_frame (PHi op) (dev_xfer op h).2 h0;
  bus_hi op hi h h0 : in_frame (PHi op) h h0 → in_frame (PLo op hi) (dev_xfer hi h).2 h0;
  bus_lo op hi lo h h0 :
    in_frame (PLo op hi) h h0 → in_frame (PData op (hi * 256 + lo)) (dev_xfer lo h).2 h0;
  bus_read a b h h0 : in_frame (PData OP_READ a) h h0 →
    (dev_xfer b h).1 = (chip_load a h0).1 ∧ in_frame PDone (dev_xfer b h).2 (chip_load a h0).2;
  bus_write a b h h0 : in_frame (PData OP_WRITE a) h h0 →
    in_frame PDone (dev_xfer b h).2 (chip_store a b h0);
  bus_deselect h h0 : in_frame PDone h h0 → dev_hw (gpio_set GPIOB [GPIO6]) h = h0;
  (* setting up the pins and the interface starts no frame *)
  bus_setup c h : chip_ok h → (∀ p pins, c ≠ gpio_clear p pins) → chip_ok (dev_hw c h);
}.

(** Sequences of accesses. *)
Section accesses.
Context {H : Type} `{!W5100 H}.

Fixpoint loads (l : list Z) (h : H) : list Z * H :=
  match l with
  | [] => ([], h)
  | a :: l =>
      let '(v, h) := chip_load a h in
      let '(vs, h) := loads l h in (v :: vs, h)
  end.

Fixpoint stores (l : list (Z * Z)) (h : H) : H :=
  match l with
  | [] => h
  | (a, v) :: l => stores l (chip_store a v h)
  end.

(** [n] addresses from [a] on. *)
Definition addrs (a : Z) (n : nat) : list Z := (λ k : nat, u16 (a + Z.of_nat k)) <$> seq 0 n.

Lemma loads_app l1 l2 h :
  loads (l1 ++ l2) h =
    ((loads l1 h).1 ++ (loads l2 (loads l1 h).2).1, (loads l2 (loads l1 h).2).2).
Proof.
  revert h. induction l1 as [|a l1 IH]; intros h; simpl; [by destruct (loads l2 h)|].
  destruct (chip_load a h) as [v h']. rewrite IH. by destruct (loads l1 h').
Qed.

Lemma loads_ok l h : chip_ok h → chip_ok (loads l h).2.
Proof.
  revert h. induction l as [|a l IH]; intros h Hok; [done|]. simpl.
  pose proof (load_ok a h Hok) as Hok'. destruct (chip_load a h) as [v h']. simpl in Hok'.
  specialize (IH h' Hok'). by destruct (loads l h').
Qed.

Lemma loads_u8 l h : chip_ok h → Forall is_u8 (loads l h).1.
Proof.
  revert h. induction l as [|a l IH]; intros h Hok; [by constructor|]. simpl.
  pose proof (load_ok a h Hok) as Hok'. pose proof (load_u8 a h Hok) as Hv.
  destruct (chip_load a h) as [v h']. simpl in *.
  specialize (IH h' Hok'). destruct (loads l h'). by constructor.
Qed.

Lemma length_loads l h : length (loads l h).1 = length l.
Proof.
  revert h. induction l as [|a l IH]; intros h; [done|]. simpl.
  destruct (chip_load a h) as [v h']. specialize (IH h'). destruct (loads l h'). simpl in *. by f_equal.
Qed.

Lemma stores_app l1 l2 h : stores (l1 ++ l2) h = stores l2 (stores l1 h).
Proof. revert h. induction l1 as [|[a v] l1 IH]; intros h; [done|]. apply IH. Qed.

Lemma stores_ok l h : chip_ok h → chip_ok (stores l h).
Proof. revert h. induction l as [|[a v] l IH]; intros h Hok; [done|]. by apply IH, store_ok. Qed.

Lemma length_addrs a n : length (addrs a n) = n.
Proof. unfold addrs. by rewrite length_fmap, length_seq. Qed.

Lemma addrs_S a n : addrs a (S n) = addrs a n ++ [u16 (a + Z.of_nat n)].
Proof. unfold addrs. by rewrite seq_S, fmap_app. Qed.

(** Plain cells: loads show them and leave them, stores set them. *)
Lemma loads_keeps l b h : chip_ok h → plain b = true → cell b (loads l h).2 = cell b h.
Proof.
  revert h. induction l as [|a l IH]; intros h Hok Hb; [done|]. simpl.
  pose proof (load_ok a h Hok) as Hok'. pose proof (load_keeps a b h Hok Hb) as Hk.
  destruct (chip_load a h) as [v h']. simpl in *. specialize (IH h' Hok' Hb).
  destruct (loads l h'). simpl in *. congruence.
Qed.

Lemma loads_plain l h : chip_ok h → Forall (λ a, plain a = true) l →
  (loads l h).1 = (λ a, cell a h) <$> l.
Proof.
  intros Hok Hl. revert h Hok. induction Hl as [|a l Ha Hl IH]; intros h Hok; [done|]. simpl.
  pose proof (load_ok a h Hok) as Hok'. pose proof (load_plain a h Hok Ha) as Hv.
  pose proof (λ b, load_keeps a b h Hok) as Hk.
  destruct (chip_load a h) as [v h']. simpl in *. specialize (IH h' Hok').
  destruct (loads l h') as [vs h'']. simpl in *. rewrite Hv, IH. f_equal.
  apply list_fmap_ext. intros i b Hb. apply Hk. by eapply (Forall_lookup_1 _ _ _ _ Hl).
Qed.

Lemma stores_out l b h : chip_ok h → plain b = true → Forall (λ p, p.1 ≠ W5100_MR) l →
  b ∉ l.*1 → cell b (stores l h) = cell b h.
Proof.
  intros Hok Hb Hl. revert h Hok. induction Hl as [|[a v] l Ha Hl IH]; intros h Hok Hni; [done|].
  simpl in *. apply not_elem_of_cons in Hni as [Hab Hni].
  rewrite IH by (try done; by apply store_ok). rewrite store_plain by done.
  by rewrite decide_False.
Qed.

Lemma stores_in l b v h : chip_ok h → plain b = true → Forall (λ p, p.1 ≠ W5100_MR) l →
  NoDup (l.*1) → (b, v) ∈ l → cell b (stores l h) = u8 v.
Proof.
  intros Hok Hb Hl. revert h Hok. induction Hl as [|[a w] l Ha Hl IH]; intros h Hok Hnd Hin.
  { by apply elem_of_nil in Hin. }
  simpl in *. apply list.NoDup_cons in Hnd as [Hni Hnd]. apply elem_of_cons in Hin as [[= -> ->]|Hin].
  - rewrite stores_out by (try done; by apply store_ok). rewrite store_plain by done.
    by rewrite decide_True.
  - apply IH; [by apply store_ok|done..].
Qed.
End accesses.

(** ** Properties *)

Lemma split_addr reg : Z.shiftr reg 8 * 256 + Z.land reg 255 = reg.
Proof.
  rewrite Z.shiftr_div_pow2 by lia. change 255 with (Z.ones 8). rewrite Z.land_ones by lia. zlia.
Qed.

Section bus.
Context {H S : Type} `{!Has H S, !HasLaws H S, !SpiDevice H, !W5100 H, !W5100Bus H}.

(** A frame from beginning to end, up to the data byte. *)
Lemma frame_head {A} op reg (k : M S A) (s : S) :
  chip_ok (proj s) →
  ∃ h, in_frame (PData op reg) h (proj s) ∧
    (_ ← w5100_select; _ ← spi_xfer op; _ ← w5100_xfer_addr reg; k) s = k (upd h s).
Proof.
  intros Hok. unfold w5100_select, w5100_xfer_addr, mbind, M_bind.
  rewrite hw_run. rewrite !spi_xfer_run. rewrite !proj_upd, !upd_upd.
  eexists. split; [|done].
  assert (Hf := bus_lo op _ (Z.land reg 255) _ _ (bus_hi op (Z.shiftr reg 8) _ _ (bus_op op _ _ (bus_select _ Hok)))).
  by rewrite split_addr in Hf.
Qed.

Lemma read_byte_run reg (s : S) : chip_ok (proj s) →
  w5100_read_byte reg s =
    Done ((chip_load reg (proj s)).1, upd (chip_load reg (proj s)).2 s).
Proof.
  intros Hok. unfold w5100_read_byte.
  destruct (frame_head OP_READ reg
    (rx ← spi_xfer 0; _ ← w5100_deselect; mret (u8 rx)) s Hok) as (h & Hf & ->).
  destruct (bus_read reg 0 h _ Hf) as [Hv Hd].
  unfold w5100_deselect, mbind, M_bind. rewrite spi_xfer_run, hw_run, !proj_upd, !upd_upd.
  rewrite (bus_deselect _ _ Hd), Hv. unfold mret, M_ret.
  by rewrite u8_id by (by apply load_u8).
Qed.

Lemma write_byte_run reg v (s : S) : chip_ok (proj s) →
  w5100_write_byte reg v s = Done (tt, upd (chip_store reg v (proj s)) s).
Proof.
  intros Hok. unfold w5100_write_byte.
  destruct (frame_head OP_WRITE reg (_ ← spi_xfer v; w5100_deselect) s Hok) as (h & Hf & ->).
  pose proof (bus_write reg v h _ Hf) as Hd.
  unfold w5100_deselect, mbind, M_bind. rewrite spi_xfer_run, hw_run, !proj_upd, !upd_upd.
  by rewrite (bus_deselect _ _ Hd).
Qed.

Lemma read_mem_run addr n (s : S) : chip_ok (proj s) →
  w5100_read_mem addr n s =
    Done ((loads (addrs addr n) (proj s)).1, upd (loads (addrs addr n) (proj s)).2 s).
Proof.
  intros Hok. apply wp_eq. unfold w5100_read_mem.
  apply wp_for_fold with (I := λ i acc s',
    acc = (loads (addrs addr (Z.to_nat i)) (proj s)).1 ∧
    s' = upd (loads (addrs addr (Z.to_nat i)) (proj s)).2 s).
  - simpl. by rewrite upd_proj.
  - intros i acc s' Hi [-> ->]. apply wp_bind. eapply wp_Done.
    { apply read_byte_run. rewrite proj_upd. by apply loads_ok. }
    apply wp_ret. replace (Z.to_nat (i + 1)) with (Datatypes.S (Z.to_nat i)) by lia.
    rewrite addrs_S, loads_app, proj_upd, upd_upd, Z2Nat.id by lia. simpl.
    by destruct (chip_load _ _).
  - intros acc s'. rewrite Z.add_0_l, Nat2Z.id. done.
Qed.

Lemma write_mem_run addr buf n (s : S) : chip_ok (proj s) → (n ≤ length buf)%nat →
  w5100_write_mem addr buf n s =
    Done (tt, upd (stores (zip (addrs addr n) (take n buf)) (proj s)) s).
Proof.
  intros Hok Hn. apply wp_eq. unfold w5100_write_mem.
  apply wp_for_fold with (I := λ i (_ : unit) s',
    s' = upd (stores (zip (addrs addr (Z.to_nat i)) (take (Z.to_nat i) buf)) (proj s)) s).
  - simpl. by rewrite upd_proj.
  - intros i _ s' Hi ->. destruct (aget_in_range buf i) as (b & Hb & Hl); [lia|].
    apply wp_bind. eapply wp_lift; [exact Hb|]. eapply wp_Done.
    { apply write_byte_run. rewrite proj_upd. by apply stores_ok. }
    replace (Z.to_nat (i + 1)) with (Datatypes.S (Z.to_nat i)) by lia.
    rewrite addrs_S, (take_S_r _ _ _ Hl), zip_with_app, stores_app, proj_upd, upd_upd, Z2Nat.id
      by (rewrite ?length_addrs, ?length_take; lia).
    done.
  - intros [] s' ->. rewrite Z.add_0_l, Nat2Z.id. done.
Qed.
End bus.

(** Writing a block of plain cells and reading it back. *)
Lemma NoDup_addrs {H} `{!W5100 H} a n : Z.of_nat n ≤ 65536 → NoDup (addrs a n).
Proof.
  intros Hn. unfold addrs. apply NoDup_fmap_2_strong; [|apply NoDup_seq].
  intros i j Hi%elem_of_seq Hj%elem_of_seq. unfold u16. zlia.
Qed.

Lemma plain_not_MR a : plain a = true → a ≠ W5100_MR.
Proof. intros Hp ->. done. Qed.

Section memory.
Context {H : Type} `{!W5100 H}.

Lemma zip_fst (l : list Z) (vs : list Z) : length l = length vs → (zip l vs).*1 = l.
Proof. intros. apply fst_zip. lia. Qed.

(** A list of plain cells is written. *)
Lemma stores_cells l bs (h : H) :
  chip_ok h → length l = length bs → NoDup l → Forall is_u8 bs → Forall (λ a, plain a = true) l →
  let h' := stores (zip l bs) h in
  (λ b, cell b h') <$> l = bs ∧ ∀ b, plain b = true → b ∉ l → cell b h' = cell b h.
Proof.
  intros Hok Hlen Hnd Hbs Hpl h'. pose proof (zip_fst l bs Hlen) as Hz.
  assert (HMR : Forall (λ p, p.1 ≠ W5100_MR) (zip l bs)).
  { apply list.Forall_forall. intros [x v] Hin. simpl. apply plain_not_MR.
    apply elem_of_zip_l in Hin. by eapply list.Forall_forall in Hpl. }
  split.
  - apply list_eq_same_length with (length bs); [done|by rewrite length_fmap|].
    intros i x y Hi Hx Hy. apply list_lookup_fmap_Some in Hx as (b & -> & Hb).
    unfold h'. rewrite (stores_in _ b y); [|done| |done|by rewrite Hz|].
    + apply u8_id. by eapply Forall_lookup_1 in Hbs.
    + by eapply Forall_lookup_1 in Hpl.
    + apply list_elem_of_lookup. exists i. rewrite lookup_zip_with, Hb, Hy. done.
  - intros b Hb Hni. apply stores_out; [done..|]. by rewrite Hz.
Qed.
End memory.

Section bus_properties.
Context {H S : Type} `{!Has H S, !HasLaws H S, !SpiDevice H, !W5100 H, !W5100Bus H}.

(** C35: the functions of [w5100_spi.c], which exchange bytes with the chip in
    frames, implement its memory: from a state where the chip select line is
    high, each register access is the one load or store of that register, each
    block access the loads or stores of its consecutive addresses, in order,
    modulo 2^16, and the line is high again. *)
Theorem w5100_spi_refines_memory reg v addr n buf (s : S) :
  chip_ok (proj s) → (n ≤ length buf)%nat →
  w5100_read_reg reg s =
    Done ((chip_load reg (proj s)).1, upd (chip_load reg (proj s)).2 s) ∧
  w5100_write_reg reg v s = Done (tt, upd (chip_store reg v (proj s)) s) ∧
  w5100_read_mem addr n s =
    Done ((loads (addrs addr n) (proj s)).1, upd (loads (addrs addr n) (proj s)).2 s) ∧
  w5100_write_mem addr buf n s =
    Done (tt, upd (stores (zip (addrs addr n) (take n buf)) (proj s)) s) ∧
  chip_ok (chip_load reg (proj s)).2 ∧ chip_ok (chip_store reg v (proj s)) ∧
  chip_ok (loads (addrs addr n) (proj s)).2 ∧
  chip_ok (stores (zip (addrs addr n) (take n buf)) (proj s)).
Proof.
  intros Hok Hn. split_and!.
  - unfold w5100_read_reg, mbind, M_bind. by rewrite read_byte_run.
  - by apply write_byte_run.
  - by apply read_mem_run.
  - by apply write_mem_run.
  - by apply load_ok.
  - by apply store_ok.
  - by apply loads_ok.
  - by apply stores_ok.
Qed.

(** A block written into plain cells of the chip is read back as it was,
    and no other plain cell has changed. *)
Theorem w5100_mem_roundtrip addr bs (s : S) :
  chip_ok (proj s) → Z.of_nat (length bs) ≤ 65536 → Forall is_u8 bs →
  Forall (λ a, plain a = true) (addrs addr (length bs)) →
  wp (_ ← w5100_write_mem addr bs (length bs); w5100_read_mem addr (length bs)) s (λ r s',
    r = bs ∧ chip_ok (proj s') ∧
    ∀ b, plain b = true → b ∉ addrs addr (length bs) → cell b (proj s') = cell b (proj s)).
Proof.
  intros Hok Hlen Hbs Hpl. destruct (stores_cells (addrs addr (length bs)) bs (proj s) Hok (length_addrs _ _) (NoDup_addrs _ _ Hlen) Hbs Hpl) as [Hin Hout].
  apply wp_bind. eapply wp_Done; [by apply write_mem_run|].
  set (h := stores _ _). assert (Hh : chip_ok h) by (by apply stores_ok).
  eapply wp_Done; [apply read_mem_run; by rewrite proj_upd|].
  rewrite !proj_upd. unfold h in *. rewrite firstn_all in *.
  rewrite loads_plain by done. split; [exact Hin|]. split; [by apply loads_ok|].
  intros b Hb Hni. rewrite loads_keeps by done. by apply Hout.
Qed.

(** The two-byte register functions do not access two-byte registers:
    [w5100_read_reg2] shifts after the last byte too, so that it returns the
    second byte in the upper half with a lower half of zero and loses the first
    byte; [w5100_write_reg2] counts the shift from a four-byte value, so that
    it writes zero into both bytes, whatever the value. *)
Theorem w5100_reg2_wrong reg v (s : S) :
  chip_ok (proj s) → is_u16 v → is_u16 reg → is_u16 (reg + 1) →
  plain reg = true → plain (reg + 1) = true →
  wp (w5100_read_reg2 reg) s (λ r _, r = cell (reg + 1) (proj s) * 256) ∧
  wp (w5100_write_reg2 reg v) s (λ _ s', cell reg (proj s') = 0 ∧ cell (reg + 1) (proj s') = 0).
Proof.
  intros Hok Hv Hr0 Hr1 Hp0 Hp1.
  assert (Hreg : u16 (reg + 0) = reg ∧ u16 (reg + (0 + 1)) = reg + 1).
  { rewrite !u16_id by (unfold is_u16 in *; lia). lia. }
  destruct Hreg as [Hreg0 Hreg1]. split.
  - apply wp_for_fold_turn, wp_bind. rewrite Hreg0. eapply wp_Done; [by apply read_byte_run|].
    apply wp_ret, wp_for_fold_turn, wp_bind. rewrite Hreg1.
    pose proof (load_ok reg _ Hok) as Hok'. pose proof (load_u8 reg _ Hok) as Hb0.
    eapply wp_Done; [apply read_byte_run; by rewrite proj_upd|]. rewrite proj_upd.
    apply wp_ret. simpl.
    pose proof (load_u8 (reg + 1) _ Hok') as Hb1.
    assert (Hv1 : (chip_load (reg + 1) (chip_load reg (proj s)).2).1 = cell (reg + 1) (proj s)).
    { rewrite load_plain by done. by apply load_keeps. }
    rewrite Hv1 in *. set (b0 := (chip_load reg (proj s)).1) in *. set (b1 := cell (reg + 1) (proj s)) in *.
    unfold is_u8 in *. rewrite !Z.shiftl_mul_pow2, Z.lor_0_l, (u16_id (b0 * 2 ^ 8)) by (unfold is_u16; lia).
    rewrite (Z.lor_comm _ b1).
    rewrite lor_disjoint by lia. apply wp_ret. unfold u16. zlia.
  - assert (Hz : ∀ k, 16 ≤ k → u8 (Z.land (Z.shiftr v k) 255) = 0).
    { intros k Hk. unfold is_u16 in Hv. rewrite Z.shiftr_div_pow2 by lia.
      rewrite (Z.div_small v); [done|]. split; [lia|].
      apply Z.lt_le_trans with (2 ^ 16); [lia|]. apply Z.pow_le_mono_r; lia. }
    apply wp_for_fold_turn. rewrite Hreg0. cbv zeta. rewrite Hz by lia.
    eapply wp_Done; [by apply write_byte_run|].
    apply wp_for_fold_turn. rewrite Hreg1, Hz by lia.
    eapply wp_Done; [apply write_byte_run; rewrite proj_upd; by apply store_ok|].
    apply wp_ret. rewrite !proj_upd.
    rewrite !store_plain by (try done; (by apply store_ok) || by apply plain_not_MR).
    rewrite (decide_False (P := reg + 1 = reg)), !decide_True by lia. done.
Qed.
End bus_properties.

(** ** A simulated chip

    A chip whose registers answer at once and whose network does nothing by
    itself, for the witnesses: the reset bit and the command registers read as
    clear, a command sets the status register, the transmit buffers are free. *)

(** What one SEND hands over: the bytes of the peer's address and port, and the
    data. *)
Record packet := Packet { pk_dest : list Z; pk_data : list Z }.

(** The queues of a socket: what has been sent, where the next SEND
    begins; the bytes that have been taken, where the next RECV begins, and how
    many bytes wait from there on. *)
Record sim_queue := SimQ { q_sent : list packet; q_tx : Z; q_taken : list Z; q_rx : Z; q_wait : nat }.
Definition q_empty : sim_queue := SimQ [] 0 [] 0 0.

Record sim := Sim { sim_phase : option phase; sim_mem : Z → Z; sim_cmd : Z → Z; sim_q : Z → sim_queue }.

(** What the register of the received size shows. *)
Definition q_size (q : sim_queue) : Z := Z.min 2048 (Z.of_nat (q_wait q)).

Definition sim_status (mode cmd old : Z) : Z :=
  if decide (cmd = W5100_CMD_OPEN) then
    (if decide (mode = W5100_SOCK_MODE_TCP) then W5100_SOCK_INIT
     else if decide (mode = W5100_SOCK_MODE_UDP) then W5100_SOCK_UDP else old)
  else if decide (cmd = W5100_CMD_LISTEN) then W5100_SOCK_LISTEN
  else if decide (cmd = W5100_CMD_CONNECT) then W5100_SOCK_ESTABLISHED
  else if decide (cmd = W5100_CMD_DISCON ∨ cmd = W5100_CMD_CLOSE) then W5100_SOCK_CLOSED
  else old.

(** The status of a socket by its mode, its last command and the status before. *)
Definition sim_read (a : Z) (c : sim) : Z :=
  let m := sim_mem c in
  if decide (a = W5100_MR) then Z.land (m a) 127
  else if decide (1024 ≤ a < 2048) then
    let r := a mod 256 in
    if decide (r = W5100_Sn_CR) then 0
    else if decide (r = W5100_Sn_SR) then sim_status (m (a - 3)) (sim_cmd c ((a - 1024) / 256)) (m a)
    else if decide (r = W5100_Sn_TX_FSR) then 8
    else if decide (r = W5100_Sn_TX_FSR + 1) then 0
    else if decide (r = W5100_Sn_RX_RSR) then q_size (sim_q c ((a - 1024) / 256)) / 256
    else if decide (r = W5100_Sn_RX_RSR + 1) then q_size (sim_q c ((a - 1024) / 256)) mod 256
    else m a
  else m a.

(** SEND and RECV: what is between the two pointers goes out, or is done with.
    OPEN: of what waits the whole datagrams are there. *)
Definition sim_pair (r i : Z) (c : sim) : Z :=
  let a := 1024 + 256 * i + r in sim_mem c a * 256 + sim_mem c (a + 1).
Definition sim_ring (base p : Z) (n : nat) (c : sim) : list Z :=
  (λ k : nat, sim_mem c (base + (p + Z.of_nat k) mod 2048)) <$> seq 0 n.
Definition sim_peer (i : Z) (c : sim) : list Z :=
  (λ k : nat, sim_mem c (1024 + 256 * i + W5100_Sn_DIPR + Z.of_nat k)) <$> seq 0 6.
(** How many bytes the whole datagrams at the start take, each behind a header of
    eight bytes that ends with its length; at most [n] datagrams. *)
Fixpoint whole_dgrams (n : nat) (bs : list Z) : nat :=
  match n, drop 6 bs with
  | Datatypes.S n, hi :: lo :: rest =>
      let k := Z.to_nat (hi * 256 + lo) in
      if decide (k ≤ length rest)%nat then (8 + k + whole_dgrams n (drop k rest))%nat else 0%nat
  | _, _ => 0%nat
  end.
Definition sim_command (i cmd : Z) (c : sim) : sim_queue :=
  let q := sim_q c i in
  if decide (cmd = W5100_CMD_SEND) then
    let p := sim_pair W5100_Sn_TX_WR i c in
    SimQ (q_sent q ++ [Packet (sim_peer i c)
                         (sim_ring (16384 + 2048 * i) (q_tx q) (Z.to_nat ((p - q_tx q) mod 65536)) c)]) p
      (q_taken q) (q_rx q) (q_wait q)
  else if decide (cmd = W5100_CMD_RECV) then
    let p := sim_pair W5100_Sn_RX_RD i c in
    let n := Z.to_nat ((p - q_rx q) mod 65536) in
    SimQ (q_sent q) (q_tx q) (q_taken q ++ sim_ring (24576 + 2048 * i) (q_rx q) n c) p
      (Z.to_nat (q_size q) - n)
  else if decide (cmd = W5100_CMD_OPEN) then
    SimQ (q_sent q) (q_tx q) (q_taken q) (q_rx q)
      (whole_dgrams 256 (sim_ring (24576 + 2048 * i) (q_rx q) (Z.to_nat (q_size q)) c))
  else q.

Definition sim_store (a v : Z) (c : sim) : sim :=
  let m := sim_mem c in
  if decide (1024 ≤ a < 2048 ∧ a mod 256 = W5100_Sn_CR) then
    let i := (a - 1024) / 256 in
    Sim (sim_phase c) (<[a + 2 := sim_read (a + 2) c]> m) (<[i := u8 v]> (sim_cmd c))
      (<[i := sim_command i (u8 v) c]> (sim_q c))
  else Sim (sim_phase c) (<[a := u8 v]> m) (sim_cmd c) (sim_q c).

Definition sim_frame (p : option phase) (c : sim) : sim := Sim p (sim_mem c) (sim_cmd c) (sim_q c).

Definition sim_xfer (b : Z) (c : sim) : Z * sim :=
  match sim_phase c with
  | Some POp => (0, sim_frame (Some (PHi b)) c)
  | Some (PHi op) => (1, sim_frame (Some (PLo op b)) c)
  | Some (PLo op hi) => (2, sim_frame (Some (PData op (hi * 256 + b))) c)
  | Some (PData op a) =>
      if decide (op = OP_READ) then (sim_read a c, sim_frame (Some PDone) c)
      else if decide (op = OP_WRITE) then (3, sim_frame (Some PDone) (sim_store a b c))
      else (3, sim_frame (Some PDone) c)
  | _ => (255, c)
  end.

Definition sim_hw (call : hw_call) (c : sim) : sim :=
  match call with
  | gpio_clear GPIOB [GPIO6] => sim_frame (Some POp) c
  | gpio_set GPIOB [GPIO6] => sim_frame None c
  | _ => c
  end.

#[export] Instance sim_device : SpiDevice sim := {| dev_hw := sim_hw; dev_xfer := sim_xfer |}.

Definition sim_ok (c : sim) : Prop := sim_phase c = None ∧ ∀ a, is_u8 (sim_mem c a).

Lemma sim_status_u8 mode cmd old : is_u8 old → is_u8 (sim_status mode cmd old).
Proof. intros. unfold sim_status. repeat case_decide; done. Qed.

Lemma q_size_range q : 0 ≤ q_size q ≤ 2048.
Proof. unfold q_size. lia. Qed.

Lemma sim_read_u8 a c : sim_ok c → is_u8 (sim_read a c).
Proof.
  intros [_ Hm]. unfold sim_read. specialize (Hm a). pose proof (q_size_range (sim_q c ((a - 1024) / 256))).
  unfold is_u8 in *. repeat case_decide; try lia; [|by apply sim_status_u8|zlia..].
  change 127 with (Z.ones 7). rewrite Z.land_ones by lia. zlia.
Qed.

Lemma sim_store_ok a v c : sim_ok c → sim_ok (sim_store a v c).
Proof.
  intros Hc. pose proof Hc as [Hp Hm]. unfold sim_store. case_decide; split; try done; intros b; simpl.
  - destruct (decide (a + 2 = b)) as [<-|]; [rewrite fn_lookup_insert; by apply sim_read_u8|by rewrite fn_lookup_insert_ne].
  - destruct (decide (a = b)) as [->|]; [rewrite fn_lookup_insert; apply u8_range|by rewrite fn_lookup_insert_ne].
Qed.

Lemma sim_plain_read a c : plain a = true → sim_read a c = sim_mem c a.
Proof.
  unfold plain, sim_read, W5100_MR, W5100_Sn_CR, W5100_Sn_SR, W5100_Sn_TX_FSR, W5100_Sn_RX_RSR.
  rewrite bool_decide_eq_true. intros Ha. repeat case_decide; try done; zlia.
Qed.

#[export] Program Instance sim_w5100 : W5100 sim := {|
  chip_ok := sim_ok;
  chip_load a c := (sim_read a c, c);
  chip_store := sim_store;
  cell a c := sim_mem c a;
|}.
Next Obligation. done. Qed.
Next Obligation. intros. by apply sim_read_u8. Qed.
Next Obligation. intros. by apply sim_store_ok. Qed.
Next Obligation. intros. by apply sim_plain_read. Qed.
Next Obligation. done. Qed.
Next Obligation.
  intros a v b h _ Hb Ha. unfold plain in Hb. apply bool_decide_eq_true in Hb. simpl.
  unfold sim_store, W5100_Sn_CR. case_decide as Hcr; simpl.
  - rewrite fn_lookup_insert_ne by zlia. by rewrite decide_False by zlia.
  - case_decide as Hab; [subst; by rewrite fn_lookup_insert|by rewrite fn_lookup_insert_ne].
Qed.

#[export] Program Instance sim_bus : W5100Bus sim := {|
  in_frame p h h0 := sim_ok h0 ∧ h = sim_frame (Some p) h0;
|}.
Next Obligation. done. Qed.
Next Obligation. by intros op h h0 [? ->]. Qed.
Next Obligation. by intros op hi h h0 [? ->]. Qed.
Next Obligation. by intros op hi lo h h0 [? ->]. Qed.
Next Obligation. by intros a b h h0 [? ->]. Qed.
Next Obligation.
  intros a b h h0 [Hok ->]. split; [exact (store_ok a b h0 Hok)|].
  unfold dev_xfer, sim_device, sim_xfer, chip_store, sim_w5100, sim_store. simpl. by case_decide.
Qed.
Next Obligation. intros h [ph m cmd q] [[Hp _] ->]. unfold sim_frame. simpl in *. by subst. Qed.
Next Obligation.
  intros c h [Hp Hm] Hc. destruct c; try done; [simpl; by repeat case_match|].
  by edestruct Hc.
Qed.

Definition sim_init : sim := Sim None (λ _, 0) (λ _, 0) (λ _, q_empty).

Lemma sim_init_ok : sim_ok sim_init.
Proof. split; [done|]. intros a. done. Qed.

Lemma w5100_spi_refines_memory_witness :
  let s : sim := sim_init in
  w5100_read_reg 9 s = Done ((chip_load 9 (proj s)).1, upd (chip_load 9 (proj s)).2 s) ∧
  w5100_write_reg 9 77 s = Done (tt, upd (chip_store 9 77 (proj s)) s) ∧
  w5100_read_mem 65534 4 s =
    Done ((loads (addrs 65534 4) (proj s)).1, upd (loads (addrs 65534 4) (proj s)).2 s) ∧
  w5100_write_mem 65534 [1; 2; 3; 4; 5] 4 s =
    Done (tt, upd (stores (zip (addrs 65534 4) (take 4 [1; 2; 3; 4; 5])) (proj s)) s) ∧
  chip_ok (chip_load 9 (proj s)).2 ∧ chip_ok (chip_store 9 77 (proj s)) ∧
  chip_ok (loads (addrs 65534 4) (proj s)).2 ∧
  chip_ok (stores (zip (addrs 65534 4) (take 4 [1; 2; 3; 4; 5])) (proj s)).
Proof.
  apply (w5100_spi_refines_memory (H:=sim) 9 77 65534 4 [1; 2; 3; 4; 5] sim_init);
    [exact sim_init_ok|simpl; lia].
Defined.

Lemma w5100_mem_roundtrip_witness :
  wp (_ ← w5100_write_mem 16384 [10; 20; 30] (length [10; 20; 30]);
      w5100_read_mem 16384 (length [10; 20; 30])) sim_init (λ r s',
    r = [10; 20; 30] ∧ chip_ok (proj s') ∧
    ∀ b, plain b = true → b ∉ addrs 16384 (length [10; 20; 30]) →
      cell b (proj s') = cell b (proj sim_init)).
Proof.
  apply (w5100_mem_roundtrip 16384 [10; 20; 30] sim_init);
    [exact sim_init_ok|simpl; lia|by repeat constructor|by repeat constructor].
Defined.

Lemma w5100_reg2_wrong_witness :
  wp (w5100_read_reg2 4) sim_init (λ r _, r = cell (4 + 1) (proj sim_init) * 256) ∧
  wp (w5100_write_reg2 4 4660) sim_init (λ _ s',
    cell 4 (proj s') = 0 ∧ cell (4 + 1) (proj s') = 0).
Proof.
  apply (w5100_reg2_wrong 4 4660 sim_init); [exact sim_init_ok|done..].
Defined.
