(* ===== verification/W5100Socket.v ===== *)
(** * The sockets on the W5100 chip: [src/w5100_socket.c]

    The implementation of [sys/socket.h] that the boards are linked with: four
    sockets of the chip behind the descriptors of [file.c]. A [struct
    w5100_socket *] is an index of the array [w5100_sockets], a [struct fd *] an
    index of the descriptor table. Loops that wait for the chip take [fuel]
    turns. *)

From stdpp Require Import prelude list numbers.
From S2P Require Import Prelude Timespec Clock Inet Files Poll Sockets Opencm3 W5100Spi.

(** [include/sys/socket.h]. *)
Definition SOCK_RAW : Z := 3.
Definition SOL_SOCKET : Z := 255.

Definition W5100_SOCKET_FREE : Z := -1.

(** The default addresses, as C strings. *)
Definition W5100_IP_ADDR : list Z := [49; 57; 50; 46; 49; 54; 56; 46; 49; 46; 57; 57; 0].
Definition W5100_SUBNET : list Z := [50; 53; 53; 46; 50; 53; 53; 46; 50; 53; 53; 46; 48; 0].
Definition W5100_GATEWAY_ADDR : list Z := [49; 57; 50; 46; 49; 54; 56; 46; 49; 46; 49; 0].
Definition w5100_mac_addr : list Z := [128; 129; 130; 131; 132; 133].

Inductive w5100_socket_state :=
| W5100_SOCK_STATE_NONE
| W5100_SOCK_STATE_CREATED
| W5100_SOCK_STATE_CONNECTED
| W5100_SOCK_STATE_BOUND
| W5100_SOCK_STATE_LISTENING
| W5100_SOCK_STATE_ACCEPTED
| W5100_SOCK_STATE_DISCONNECTED.

#[export] Instance w5100_socket_state_eq_dec : EqDecision w5100_socket_state.
Proof. solve_decision. Defined.

Record timeout_manager := TimeoutManager { has_timeout : bool; tom_end : timespec }.

Record w5100_socket := W5100Sock {
  s_fd : Z;
  s_isocket : Z;
  s_domain : Z;
  s_type : Z;
  s_protocol : Z;
  s_state : w5100_socket_state;
  s_sockname : sockaddr_in;
  s_dest : sockaddr_in;
  s_can_broadcast : bool;
  s_recv_timeout : timespec;
  s_send_timeout : timespec;
  s_fd_data : option Z;
  s_connection : option Z;
}.

Definition with_sfd (x : Z) (s : w5100_socket) : w5100_socket :=
  W5100Sock x (s_isocket s) (s_domain s) (s_type s) (s_protocol s) (s_state s) (s_sockname s)
    (s_dest s) (s_can_broadcast s) (s_recv_timeout s) (s_send_timeout s) (s_fd_data s) (s_connection s).
Definition with_sstate (x : w5100_socket_state) (s : w5100_socket) : w5100_socket :=
  W5100Sock (s_fd s) (s_isocket s) (s_domain s) (s_type s) (s_protocol s) x (s_sockname s)
    (s_dest s) (s_can_broadcast s) (s_recv_timeout s) (s_send_timeout s) (s_fd_data s) (s_connection s).
Definition with_sockname (x : sockaddr_in) (s : w5100_socket) : w5100_socket :=
  W5100Sock (s_fd s) (s_isocket s) (s_domain s) (s_type s) (s_protocol s) (s_state s) x
    (s_dest s) (s_can_broadcast s) (s_recv_timeout s) (s_send_timeout s) (s_fd_data s) (s_connection s).
Definition with_dest (x : sockaddr_in) (s : w5100_socket) : w5100_socket :=
  W5100Sock (s_fd s) (s_isocket s) (s_domain s) (s_type s) (s_protocol s) (s_state s) (s_sockname s)
    x (s_can_broadcast s) (s_recv_timeout s) (s_send_timeout s) (s_fd_data s) (s_connection s).
Definition with_broadcast (x : bool) (s : w5100_socket) : w5100_socket :=
  W5100Sock (s_fd s) (s_isocket s) (s_domain s) (s_type s) (s_protocol s) (s_state s) (s_sockname s)
    (s_dest s) x (s_recv_timeout s) (s_send_timeout s) (s_fd_data s) (s_connection s).
Definition with_recv_timeout (x : timespec) (s : w5100_socket) : w5100_socket :=
  W5100Sock (s_fd s) (s_isocket s) (s_domain s) (s_type s) (s_protocol s) (s_state s) (s_sockname s)
    (s_dest s) (s_can_broadcast s) x (s_send_timeout s) (s_fd_data s) (s_connection s).
Definition with_send_timeout (x : timespec) (s : w5100_socket) : w5100_socket :=
  W5100Sock (s_fd s) (s_isocket s) (s_domain s) (s_type s) (s_protocol s) (s_state s) (s_sockname s)
    (s_dest s) (s_can_broadcast s) (s_recv_timeout s) x (s_fd_data s) (s_connection s).
Definition with_fd_data (x : option Z) (s : w5100_socket) : w5100_socket :=
  W5100Sock (s_fd s) (s_isocket s) (s_domain s) (s_type s) (s_protocol s) (s_state s) (s_sockname s)
    (s_dest s) (s_can_broadcast s) (s_recv_timeout s) (s_send_timeout s) x (s_connection s).
Definition with_connection (x : option Z) (s : w5100_socket) : w5100_socket :=
  W5100Sock (s_fd s) (s_isocket s) (s_domain s) (s_type s) (s_protocol s) (s_state s) (s_sockname s)
    (s_dest s) (s_can_broadcast s) (s_recv_timeout s) (s_send_timeout s) (s_fd_data s) x.

(** [a.sin_family = x]. *)
Definition with_family (x : Z) (a : sockaddr_in) : sockaddr_in := SockaddrIn x (sin_port a) (sin_addr a).

(** The array, before and after [w5100_socket_init]. *)
Record socktab := Socktab { w5100_sockets : list w5100_socket }.

Section w5100_socket.
Context {S : Type} `{!Opencm3 S, !Has socktab S, !Has ftable S, !Has errno S, !Clock S}.
(** The turns of a waiting loop, and what uninitialised variables hold. *)
Context (fuel : nat) (junk : timespec).

(** [*s] and [s->field = x]. *)
Definition sock_at (s : Z) : M S w5100_socket := t ← getc; lift (aget (w5100_sockets t) s).
Definition sock_update (s : Z) (g : w5100_socket → w5100_socket) : M S unit :=
  e ← sock_at s;
  t ← getc;
  l ← lift (aset (w5100_sockets t) s (g e));
  modifyc (λ _, Socktab l).

Definition fail (e : errno) : M S Z := _ ← set_errno e; mret (-1).

(** [do { sr = w5100_read_sock_reg(W5100_Sn_SR, isocket); } while (sr is not
    one of done);] *)
Definition wait_status (isocket : Z) (done : list Z) : M S Z :=
  loop fuel (λ _,
    sr ← w5100_read_sock_reg W5100_Sn_SR isocket;
    mret (if decide (sr ∈ done) then inr sr else inl tt)) tt.

Definition w5100_command (isocket cmd : Z) : M S unit :=
  _ ← w5100_write_sock_reg W5100_Sn_CR isocket cmd;
  loop fuel (λ _,
    r ← w5100_read_sock_reg W5100_Sn_CR isocket;
    mret (if decide (r ≠ 0) then inl tt else inr tt)) tt.

Definition get_socket_from_isocket (isocket : Z) : option Z :=
  if decide (isocket < 0 ∨ isocket >= Z.of_nat W5100_N_SOCKETS) then None else Some isocket.

(** A socket descriptor whose [opaque] is an object of another driver would be
    used as a socket: undefined. *)
Definition get_socket_from_fd (fd : Z) : M S (option Z) :=
  match file_struct_get fd with
  | None => _ ← set_errno EBADF; mret None
  | Some fds =>
      f ← fd_at fds;
      if negb (S_ISSOCK (fd_stat f)) then _ ← set_errno ENOTSOCK; mret None
      else match opaque f with
      | None => _ ← set_errno EBADF; mret None
      | Some (ObjSocket s) => mret (Some s)
      | Some _ => fault
      end
  end.

(** [S_IRWXU|S_IRWXG|S_IRWXO]. *)
Definition S_RWX_ALL : Z := 511.

Definition fill_fd_struct (sockfd isocket : Z) : M S Z :=
  fds ← lift (deref (file_struct_get sockfd));
  _ ← fd_update fds (λ f,
    Fd (fd_fd f) (Stat S_IFSOCK S_RWX_ALL (st_size (fd_stat f)) 1024) false true
      (Some DrvSocket) (Some DrvSocket) (Some DrvSocket) (Some DrvSocket)
      (isallocated f) (descriptor_flags f) O_RDWR (Some (ObjSocket isocket)));
  mret fds.

Definition get_avail_port : M S Z :=
  loop fuel (λ avail_port,
    port_used ← for_find W5100_N_SOCKETS 0 (λ isocket,
      s ← lift (deref (get_socket_from_isocket isocket));
      e ← sock_at s;
      if decide (s_state e ≠ W5100_SOCK_STATE_NONE) then
        port ← w5100_read_sock_regx W5100_Sn_PORT W5100_Sn_PORT_SIZE isocket;
        mret (if decide (le_val port = avail_port) then Some (u16 (avail_port - 1)) else None)
      else mret None);
    mret (match port_used with Some avail_port => inl avail_port | None => inr avail_port end))
    (htons 32752).

Definition socket_alloc : M S Z :=
  r ← for_find W5100_N_SOCKETS 0 (λ i,
    e ← sock_at i;
    if decide (s_fd e = W5100_SOCKET_FREE) then
      _ ← sock_update i (with_sfd i); mret (Some i)
    else mret None);
  match r with
  | Some i => mret i
  | None => fail ENFILE
  end.

Definition socket_free (isocket : Z) : M S unit :=
  _ ← sock_update isocket (with_sfd W5100_SOCKET_FREE);
  _ ← sock_update isocket (with_fd_data None);
  _ ← sock_update isocket (with_connection None);
  sock_update isocket (with_sstate W5100_SOCK_STATE_NONE).

(** [(p != NULL) && (p->fd == fd)]. *)
Definition has_fd (p : option Z) (fd : Z) : M S bool :=
  match p with
  | None => mret false
  | Some p => f ← fd_at p; mret (bool_decide (fd_fd f = fd))
  end.

(** [p->isopen = 0; file_free(p->fd);] *)
Definition close_fd (p : Z) : M S unit :=
  _ ← fd_update p (with_open false);
  f ← fd_at p;
  file_free (fd_fd f).

(** Back to the listening state, after a connection. *)
Definition relisten (s isocket : Z) : M S unit :=
  _ ← w5100_command isocket W5100_CMD_OPEN;
  _ ← w5100_command isocket W5100_CMD_LISTEN;
  e ← sock_at s;
  _ ← wait_status (s_isocket e) [W5100_SOCK_LISTEN; W5100_SOCK_ESTABLISHED];
  sock_update s (with_sstate W5100_SOCK_STATE_LISTENING).

Definition w5100_sock_close (fd : Z) : M S Z :=
  s ← get_socket_from_fd fd;
  match s with
  | None => mret (-1)
  | Some s =>
      e ← sock_at s;
      let isocket := s_isocket e in
      own ← has_fd (s_fd_data e) fd;
      if own : bool then
        p ← lift (deref (s_fd_data e));
        _ ← close_fd p;
        _ ← sock_update s (with_fd_data None);
        (if decide (s_state e ≠ W5100_SOCK_STATE_ACCEPTED) then
          _ ← w5100_command isocket
                (if decide (s_state e = W5100_SOCK_STATE_CONNECTED)
                 then W5100_CMD_DISCON else W5100_CMD_CLOSE);
          _ ← wait_status isocket [W5100_SOCK_CLOSED];
          _ ← socket_free isocket; mret 0
        else mret 0)
      else match s_connection e with
      | None => fail EBADF
      | Some c =>
          f ← fd_at c;
          if decide (fd_fd f = fd) then
            _ ← close_fd c;
            _ ← sock_update s (with_connection None);
            _ ← w5100_command isocket W5100_CMD_DISCON;
            _ ← wait_status isocket [W5100_SOCK_CLOSED];
            match s_fd_data e with
            | None => _ ← socket_free isocket; mret 0
            | Some _ => _ ← relisten s isocket; mret 0
            end
          else fail EBADF
      end
  end.

Definition socket_mode (type : Z) : Z :=
  if decide (type = SOCK_STREAM) then W5100_SOCK_MODE_TCP
  else if decide (type = SOCK_DGRAM) then W5100_SOCK_MODE_UDP
  else if decide (type = SOCK_RAW) then W5100_SOCK_MODE_IPRAW
  else W5100_SOCK_MODE_TCP.

Definition socket_create (type : Z) : M S Z :=
  isocket ← socket_alloc;
  if decide (isocket ≠ -1) then
    fd ← file_alloc;
    if decide (fd = -1) then
      _ ← socket_free isocket;
      _ ← set_errno ENFILE;
      mret fd
    else
      fds ← fill_fd_struct fd isocket;
      s ← lift (deref (get_socket_from_isocket isocket));
      _ ← sock_update s (λ e,
        W5100Sock fd isocket AF_INET type 0 W5100_SOCK_STATE_CREATED
          (with_family AF_UNSPEC (s_sockname e)) (with_family AF_UNSPEC (s_dest e)) false
          TIMESPEC_ZERO TIMESPEC_ZERO (Some fds) None);
      _ ← w5100_write_sock_reg W5100_Sn_MR isocket (socket_mode type);
      mret fd
  else fail ENOMEM.

Definition socket (domain type protocol : Z) : M S Z :=
  if decide (domain ≠ AF_INET) then fail EAFNOSUPPORT
  else if decide (type ≠ SOCK_STREAM ∧ type ≠ SOCK_DGRAM ∧ type ≠ SOCK_RAW) then fail EPROTOTYPE
  else if decide (protocol ≠ 0) then fail EPROTONOSUPPORT
  else
    fd ← socket_create type;
    mret fd.

Definition bind_udp (s : Z) (port : Z) : M S unit :=
  e ← sock_at s;
  _ ← w5100_write_sock_regx W5100_Sn_PORT W5100_Sn_PORT_SIZE (s_isocket e) (le_bytes 2 port);
  _ ← w5100_command (s_isocket e) W5100_CMD_OPEN;
  _ ← wait_status (s_isocket e) [W5100_SOCK_UDP];
  _ ← sock_update s (with_sockname (SockaddrIn AF_INET port INADDR_ANY));
  sock_update s (with_sstate W5100_SOCK_STATE_BOUND).

Definition check_bind_udp (s : Z) : M S unit :=
  e ← sock_at s;
  if decide (s_state e = W5100_SOCK_STATE_CREATED) then
    port ← get_avail_port;
    bind_udp s port
  else mret tt.

Definition connect_tcp (s : Z) (addr : sockaddr_in) : M S Z :=
  e ← sock_at s;
  if decide (sin_family addr ≠ AF_INET) then fail EAFNOSUPPORT
  else if decide (s_state e = W5100_SOCK_STATE_CONNECTED ∨ s_state e = W5100_SOCK_STATE_ACCEPTED)
    then fail EISCONN
  else if decide (s_state e = W5100_SOCK_STATE_LISTENING) then fail EOPNOTSUPP
  else if decide (s_state e ≠ W5100_SOCK_STATE_CREATED) then fail EOPNOTSUPP
  else
    let isocket := s_isocket e in
    let server := addr in
    _ ← w5100_write_sock_regx W5100_Sn_PORT W5100_Sn_PORT_SIZE isocket (le_bytes 2 (sin_port server));
    _ ← w5100_command isocket W5100_CMD_OPEN;
    _ ← wait_status isocket [W5100_SOCK_INIT];
    _ ← w5100_write_sock_regx W5100_Sn_DIPR W5100_Sn_DIPR_SIZE isocket (le_bytes 4 (sin_addr server));
    _ ← w5100_write_sock_regx W5100_Sn_DPORT W5100_Sn_DPORT_SIZE isocket (le_bytes 2 (sin_port server));
    _ ← w5100_command isocket W5100_CMD_CONNECT;
    sr ← wait_status isocket [W5100_SOCK_CLOSED; W5100_SOCK_ESTABLISHED];
    if decide (sr = W5100_SOCK_ESTABLISHED) then
      _ ← sock_update s (with_sstate W5100_SOCK_STATE_CONNECTED);
      _ ← sock_update s (with_dest server);
      mret 0
    else if decide (sr = W5100_SOCK_CLOSED) then fail ECONNREFUSED
    else fail ECONNREFUSED.

Definition connect_udp (s : Z) (addr : sockaddr_in) : M S Z :=
  if decide (sin_family addr = AF_UNSPEC) then
    _ ← sock_update s (λ e, with_dest (with_family AF_UNSPEC (s_dest e)) e);
    _ ← check_bind_udp s;
    mret 0
  else if decide (sin_family addr = AF_INET) then
    _ ← sock_update s (with_dest addr);
    _ ← check_bind_udp s;
    mret 0
  else fail EAFNOSUPPORT.

Definition connect (sockfd : Z) (addr : sockaddr_in) : M S Z :=
  s ← get_socket_from_fd sockfd;
  match s with
  | None => mret (-1)
  | Some s =>
      e ← sock_at s;
      if decide (s_type e = SOCK_STREAM) then connect_tcp s addr
      else if decide (s_type e = SOCK_DGRAM) then connect_udp s addr
      else fail EAFNOSUPPORT
  end.

Definition bind (sockfd : Z) (addr : sockaddr_in) : M S Z :=
  s ← get_socket_from_fd sockfd;
  match s with
  | None => mret (-1)
  | Some s =>
      e ← sock_at s;
      if decide (sin_family addr ≠ AF_INET) then fail EAFNOSUPPORT
      else if decide (s_state e ≠ W5100_SOCK_STATE_CREATED) then _ ← set_errno EINVAL; mret 1
      else if decide (s_type e = SOCK_STREAM) then
        let server := addr in
        _ ← w5100_write_sock_regx W5100_Sn_PORT W5100_Sn_PORT_SIZE (s_isocket e) (le_bytes 2 (sin_port server));
        _ ← w5100_command (s_isocket e) W5100_CMD_OPEN;
        _ ← wait_status (s_isocket e) [W5100_SOCK_INIT];
        _ ← sock_update s (with_sockname server);
        _ ← sock_update s (with_sstate W5100_SOCK_STATE_BOUND);
        mret 0
      else if decide (s_type e = SOCK_DGRAM) then
        _ ← bind_udp s (sin_port addr); mret 0
      else fail EBADF
  end.

Definition listen (sockfd backlog : Z) : M S Z :=
  s ← get_socket_from_fd sockfd;
  match s with
  | None => mret (-1)
  | Some s =>
      e ← sock_at s;
      if decide (s_state e ≠ W5100_SOCK_STATE_BOUND) then _ ← set_errno EDESTADDRREQ; mret 1
      else if decide (s_type e ≠ SOCK_STREAM) then fail EOPNOTSUPP
      else
        _ ← w5100_command (s_isocket e) W5100_CMD_LISTEN;
        _ ← wait_status (s_isocket e) [W5100_SOCK_LISTEN; W5100_SOCK_ESTABLISHED];
        _ ← sock_update s (with_sstate W5100_SOCK_STATE_LISTENING);
        mret 0
  end.

(** [*addr] and [*addrlen] are given and returned, [None] for null pointers. *)
Definition accept_take (s : Z) (addr : option sockaddr_in) (addrlen : option Z)
    : M S (Z * option sockaddr_in * option Z) :=
  e ← sock_at s;
  newsockfd ← file_alloc;
  if decide (newsockfd = -1) then
    _ ← set_errno ENFILE;
    _ ← w5100_command (s_isocket e) W5100_CMD_CLOSE;
    _ ← w5100_command (s_isocket e) W5100_CMD_OPEN;
    _ ← w5100_command (s_isocket e) W5100_CMD_LISTEN;
    mret (newsockfd, addr, addrlen)
  else
    _ ← sock_update s (with_sstate W5100_SOCK_STATE_ACCEPTED);
    fds ← fill_fd_struct newsockfd (s_isocket e);
    _ ← sock_update s (with_connection (Some fds));
    match addr with
    | None => mret (newsockfd, addr, addrlen)
    | Some _ =>
        let addrlen := match addrlen with Some _ => Some 12 | None => None end in
        ip ← w5100_read_sock_regx W5100_Sn_DIPR W5100_Sn_DIPR_SIZE (s_isocket e);
        port ← w5100_read_sock_regx W5100_Sn_DPORT W5100_Sn_DPORT_SIZE (s_isocket e);
        mret (newsockfd, Some (SockaddrIn AF_INET (le_val port) (le_val ip)), addrlen)
    end.

Definition accept (sockfd : Z) (addr : option sockaddr_in) (addrlen : option Z)
    : M S (Z * option sockaddr_in * option Z) :=
  s ← get_socket_from_fd sockfd;
  match s with
  | None => mret (-1, addr, addrlen)
  | Some s =>
      e ← sock_at s;
      if decide (s_state e ≠ W5100_SOCK_STATE_LISTENING) then
        _ ← set_errno EINVAL; mret (1, addr, addrlen)
      else if decide (s_type e ≠ SOCK_STREAM) then
        _ ← set_errno EOPNOTSUPP; mret (-1, addr, addrlen)
      else
        p ← lift (deref (s_fd_data e));
        f ← fd_at p;
        let nonblock := Z.land (status_flags f) O_NONBLOCK in
        loop fuel (λ _,
          sr ← w5100_read_sock_reg W5100_Sn_SR (s_isocket e);
          if decide (sr = W5100_SOCK_ESTABLISHED) then
            r ← accept_take s addr addrlen; mret (inr r)
          else if decide (nonblock ≠ 0) then
            _ ← set_errno EAGAIN; mret (inr (-1, addr, addrlen))
          else mret (inl tt)) tt
  end.

Definition timeout_init (timeout : timespec) : M S timeout_manager :=
  let has := bool_decide (timespec_cmp TIMESPEC_ZERO timeout ≠ 0) in
  if has then
    '(_, now) ← clock_gettime CLOCK_MONOTONIC junk;
    mret (TimeoutManager has (timespec_incr now timeout))
  else mret (TimeoutManager has junk).

Definition timeout_ended (tom : timeout_manager) : M S bool :=
  if has_timeout tom then
    '(_, cur) ← clock_gettime CLOCK_MONOTONIC junk;
    let ret := bool_decide (timespec_cmp (tom_end tom) cur < 0) in
    if ret then _ ← set_errno EAGAIN; mret ret else mret ret
  else mret false.

Definition get_tx_size (isocket : Z) : Z := 2048.
Definition get_tx_mask (isocket : Z) : Z := u16 (get_tx_size isocket - 1).
Definition get_tx_base (isocket : Z) : Z := u16 (W5100_TX_MEM_BASE + get_tx_size isocket * isocket).
Definition get_rx_size (isocket : Z) : Z := 2048.
Definition get_rx_mask (isocket : Z) : Z := u16 (get_rx_size isocket - 1).
Definition get_rx_base (isocket : Z) : Z := u16 (W5100_RX_MEM_BASE + get_rx_size isocket * isocket).

Definition manage_disconnect (s : Z) : M S Z :=
  e ← sock_at s;
  sr ← w5100_read_sock_reg W5100_Sn_SR (s_isocket e);
  if decide (sr ≠ W5100_SOCK_ESTABLISHED) then
    _ ← set_errno (if decide (sr = W5100_SOCK_CLOSE_WAIT) then ECONNRESET else ETIMEDOUT);
    _ ← w5100_command (s_isocket e) W5100_CMD_DISCON;
    _ ← wait_status (s_isocket e) [W5100_SOCK_CLOSED];
    _ ← (if decide (s_state e = W5100_SOCK_STATE_ACCEPTED ∧ s_fd_data e ≠ None)
         then relisten s (s_isocket e)
         else sock_update s (with_sstate W5100_SOCK_STATE_DISCONNECTED));
    mret (-1)
  else mret 0.

(** ** The receive and transmit buffers *)

Definition read_buf_len (isocket : Z) : M S Z :=
  toread ← w5100_read_sock_regx W5100_Sn_RX_RSR W5100_Sn_RX_RSR_SIZE isocket;
  mret (ntohs (le_val toread)).

(** The buffer that [buf] points to and [*pread] are given and returned. *)
Definition read_buf_sure (isocket : Z) (buf : list Z) (len pread : Z) : M S (list Z * Z) :=
  let offset := Z.land pread (get_rx_mask isocket) in
  let phys := u16 (get_rx_base isocket + offset) in
  let '(toread1, toread2) :=
    if decide (u32 (offset + len) > get_rx_size isocket) then
      let toread1 := u16 (get_rx_size isocket - offset) in
      (toread1, u16 (len - toread1))
    else (u16 len, 0) in
  buf ← (if decide (toread1 > 0) then
           bs ← w5100_read_mem phys (Z.to_nat toread1);
           lift (mem_write buf 0 bs)
         else mret buf);
  buf ← (if decide (toread2 > 0) then
           bs ← w5100_read_mem (get_rx_base isocket) (Z.to_nat toread2);
           lift (mem_write buf toread1 bs)
         else mret buf);
  mret (buf, u16 (pread + len)).

Definition read_buf_pstart (isocket : Z) : M S Z :=
  pread ← w5100_read_sock_regx W5100_Sn_RX_RD W5100_Sn_RX_RD_SIZE isocket;
  mret (ntohs (le_val pread)).

Definition read_buf_recv (isocket pstop : Z) : M S unit :=
  let pstop := htons pstop in
  _ ← w5100_write_sock_regx W5100_Sn_RX_RD W5100_Sn_RX_RD_SIZE isocket (le_bytes 2 pstop);
  w5100_command isocket W5100_CMD_RECV.

Definition read_buf (isocket : Z) (buf : list Z) (len : Z) : M S (Z * list Z) :=
  toread ← read_buf_len isocket;
  if decide (toread ≠ 0) then
    let len := if decide (len > toread) then toread else len in
    pread ← read_buf_pstart isocket;
    '(buf, pread) ← read_buf_sure isocket buf len pread;
    _ ← read_buf_recv isocket pread;
    mret (u16 len, buf)
  else mret (0, buf).

Definition write_buf_len (isocket : Z) : M S Z :=
  nfree ← w5100_read_sock_regx W5100_Sn_TX_FSR W5100_Sn_TX_FSR_SIZE isocket;
  mret (ntohs (le_val nfree)).

Definition write_buf_pstart (isocket : Z) : M S Z :=
  pwrite ← w5100_read_sock_regx W5100_Sn_TX_WR W5100_Sn_TX_WR_SIZE isocket;
  mret (ntohs (le_val pwrite)).

Definition write_buf_send (isocket pstop : Z) : M S unit :=
  let pstop := htons pstop in
  _ ← w5100_write_sock_regx W5100_Sn_TX_WR W5100_Sn_TX_WR_SIZE isocket (le_bytes 2 pstop);
  w5100_command isocket W5100_CMD_SEND.

Definition write_buf_sure (isocket : Z) (buf : list Z) (len pwrite : Z) : M S Z :=
  let offset := Z.land pwrite (get_tx_mask isocket) in
  let phys := u16 (offset + get_tx_base isocket) in
  let '(towrite1, towrite2) :=
    if decide (u32 (len + offset) > get_tx_size isocket) then
      let towrite1 := u16 (get_tx_size isocket - offset) in
      (towrite1, u16 (len - towrite1))
    else (u16 len, 0) in
  _ ← (if decide (towrite1 > 0) then w5100_write_mem phys buf (Z.to_nat towrite1) else mret tt);
  _ ← (if decide (towrite2 > 0)
       then w5100_write_mem (get_tx_base isocket) (drop (Z.to_nat towrite1) buf) (Z.to_nat towrite2)
       else mret tt);
  mret (u16 (pwrite + len)).

Definition write_buf (isocket : Z) (buf : list Z) (len : Z) : M S Z :=
  nfree ← write_buf_len isocket;
  if decide (nfree > 0) then
    let len := if decide (len > nfree) then nfree else len in
    pwrite ← write_buf_pstart isocket;
    pwrite ← write_buf_sure isocket buf len pwrite;
    _ ← write_buf_send isocket pwrite;
    mret (u16 len)
  else mret 0.

(** ** Receiving *)

(** What a call leaves in its result, [buf], [*address] and [*address_len]. *)
Definition recv_result : Type := Z * list Z * option sockaddr_in * option Z.

Definition recv_stream (s : Z) (buf : list Z) (len : Z) (address : option sockaddr_in)
    (address_len : option Z) : M S (option recv_result) :=
  e ← sock_at s;
  '(nread, buf') ← read_buf (s_isocket e) buf len;
  if decide (nread ≠ 0) then mret (Some (nread, buf', address, address_len))
  else
    r ← manage_disconnect s;
    mret (if decide (r = -1) then Some (-1, buf', address, address_len) else None).

(** The header of a datagram in the receive buffer: address, port, length. *)
Definition recv_dgram (s : Z) (buf : list Z) (address : option sockaddr_in)
    (address_len : option Z) : M S (option recv_result) :=
  e ← sock_at s;
  toread ← read_buf_len (s_isocket e);
  if decide (toread >= 8) then
    pread ← read_buf_pstart (s_isocket e);
    '(header, pread) ← read_buf_sure (s_isocket e) (replicate 8 0) 8 pread;
    ip ← lift (mem_read header 0 4);
    port ← lift (mem_read header 4 2);
    let '(address, address_len) :=
      match address, address_len with
      | Some peer, Some _ => (Some (SockaddrIn (sin_family peer) (le_val port) (le_val ip)), Some 12)
      | _, _ => (address, address_len)
      end in
    msg_len ← lift (mem_read header 6 2);
    let msg_len := ntohs (le_val msg_len) in
    '(buf, pread) ← read_buf_sure (s_isocket e) buf msg_len pread;
    _ ← read_buf_recv (s_isocket e) pread;
    mret (Some (msg_len, buf, address, address_len))
  else mret None.

(** [buf] is the object the pointer points to, [len] the argument of the call. *)
Definition recvfrom (sockfd : Z) (buf : list Z) (len : Z) (address : option sockaddr_in)
    (address_len : option Z) : M S recv_result :=
  s ← get_socket_from_fd sockfd;
  match s with
  | None => mret (-1, buf, address, address_len)
  | Some s =>
      e ← sock_at s;
      if decide (s_type e = SOCK_STREAM ∧ s_state e ≠ W5100_SOCK_STATE_ACCEPTED ∧
                 s_state e ≠ W5100_SOCK_STATE_CONNECTED) then
        _ ← set_errno ENOTCONN; mret (1, buf, address, address_len)
      else if decide (s_type e = SOCK_DGRAM ∧ s_state e ≠ W5100_SOCK_STATE_BOUND ∧
                      s_state e ≠ W5100_SOCK_STATE_CREATED) then
        _ ← set_errno ENOTCONN; mret (1, buf, address, address_len)
      else if decide (len = 0) then mret (0, buf, address, address_len)
      else
        p ← lift (deref (s_fd_data e));
        f ← fd_at p;
        let nonblock := Z.land (status_flags f) O_NONBLOCK in
        tom ← (if decide (nonblock = 0) then timeout_init (s_recv_timeout e)
               else mret (TimeoutManager false junk));
        loop fuel (λ _,
          r ← (if decide (s_type e = SOCK_STREAM) then recv_stream s buf len address address_len
               else if decide (s_type e = SOCK_DGRAM) then recv_dgram s buf address address_len
               else mret None);
          match r with
          | Some r => mret (inr r)
          | None =>
              if decide (nonblock ≠ 0) then
                _ ← set_errno EAGAIN; mret (inr (-1, buf, address, address_len))
              else
                ended ← timeout_ended tom;
                mret (if ended : bool then inr (-1, buf, address, address_len) else inl tt)
          end) tt
  end.

Definition recv (sockfd : Z) (buf : list Z) (len : Z) : M S (Z * list Z) :=
  '(r, buf, _, _) ← recvfrom sockfd buf len None None;
  mret (r, buf).

(** ** Sending *)

(** One turn of [send] on a connected socket: [bytes] is what is left to write. *)
Definition send_turn (s : Z) (nonblock : Z) (tom : timeout_manager) (st : list Z * Z)
    : M S (list Z * Z + list Z * Z) :=
  let '(bytes, towrite) := st in
  if decide (towrite > 0) then
    e ← sock_at s;
    written ← write_buf (s_isocket e) bytes towrite;
    if decide (written > 0) then
      let st := (drop (Z.to_nat written) bytes, u32 (towrite - written)) in
      mret (if decide (nonblock ≠ 0) then inr st else inl st)
    else
      r ← manage_disconnect s;
      if decide (r = -1) then mret (inr (bytes, towrite))
      else if decide (nonblock ≠ 0) then _ ← set_errno EAGAIN; mret (inr (bytes, towrite))
      else
        ended ← timeout_ended tom;
        mret (if ended : bool then inr (bytes, towrite) else inl (bytes, towrite))
  else mret (inr (bytes, towrite)).

Definition send_body (sendto : Z → list Z → Z → option sockaddr_in → M S Z)
    (sockfd : Z) (buf : list Z) (len : Z) : M S Z :=
  s ← get_socket_from_fd sockfd;
  match s with
  | None => mret (-1)
  | Some s =>
      e ← sock_at s;
      if decide (s_type e = SOCK_DGRAM) then
        if decide (sin_family (s_dest e) = AF_UNSPEC) then fail EDESTADDRREQ
        else sendto sockfd buf len (Some (s_dest e))
      else if decide (s_type e ≠ SOCK_STREAM) then fail EDESTADDRREQ
      else if decide (s_state e ≠ W5100_SOCK_STATE_ACCEPTED ∧ s_state e ≠ W5100_SOCK_STATE_CONNECTED) then
        _ ← set_errno ENOTCONN; mret 1
      else
        p ← lift (deref (s_fd_data e));
        f ← fd_at p;
        let nonblock := Z.land (status_flags f) O_NONBLOCK in
        tom ← (if decide (nonblock = 0) then timeout_init (s_send_timeout e)
               else mret (TimeoutManager false junk));
        '(_, towrite) ← loop fuel (send_turn s nonblock tom) (buf, len);
        mret (i32 (len - towrite))
  end.

Definition sendto_dgram (s : Z) (buf : list Z) (len : Z) (dest_address : option sockaddr_in) : M S Z :=
  _ ← check_bind_udp s;
  e ← sock_at s;
  if decide (len > get_tx_size (s_isocket e)) then fail EMSGSIZE
  else match dest_address with
  | None => fail EDESTADDRREQ
  | Some peer =>
      if decide (sin_addr peer = INADDR_BROADCAST ∧ s_can_broadcast e = false) then fail EINVAL
      else
        p ← lift (deref (s_fd_data e));
        f ← fd_at p;
        let nonblock := Z.land (status_flags f) O_NONBLOCK in
        tom ← (if decide (nonblock = 0) then timeout_init (s_send_timeout e)
               else mret (TimeoutManager false junk));
        loop fuel (λ _,
          nfree ← write_buf_len (s_isocket e);
          if decide (nfree >= len) then
            _ ← w5100_write_sock_regx W5100_Sn_DIPR W5100_Sn_DIPR_SIZE (s_isocket e) (le_bytes 4 (sin_addr peer));
            _ ← w5100_write_sock_regx W5100_Sn_DPORT W5100_Sn_DPORT_SIZE (s_isocket e) (le_bytes 2 (sin_port peer));
            ret ← write_buf (s_isocket e) buf len;
            mret (inr ret)
          else if decide (nonblock ≠ 0) then _ ← set_errno EAGAIN; mret (inr 1)
          else
            ended ← timeout_ended tom;
            mret (if ended : bool then inr (-1) else inl tt)) tt
  end.

Definition sendto_body (send : Z → list Z → Z → M S Z)
    (sockfd : Z) (buf : list Z) (len : Z) (dest_address : option sockaddr_in) : M S Z :=
  s ← get_socket_from_fd sockfd;
  match s with
  | None => mret (-1)
  | Some s =>
      e ← sock_at s;
      if decide (s_type e = SOCK_STREAM) then send sockfd buf len
      else if decide (s_type e = SOCK_DGRAM) then sendto_dgram s buf len dest_address
      else fail EBADF
  end.

(** [send] and [sendto] call each other, by the type of the socket: [depth]
    bounds the calls, and two are enough. *)
Fixpoint send_rec (depth : nat) (sockfd : Z) (buf : list Z) (len : Z) : M S Z :=
  match depth with
  | O => hang
  | Datatypes.S depth => send_body (sendto_body (send_rec depth)) sockfd buf len
  end.

Definition send (sockfd : Z) (buf : list Z) (len : Z) : M S Z := send_rec 2 sockfd buf len.
Definition sendto (sockfd : Z) (buf : list Z) (len : Z) (dest_address : option sockaddr_in) : M S Z :=
  sendto_body send sockfd buf len dest_address.

(** ** Polling *)

Definition w5100_sock_poll_rw (isocket : Z) : M S Z :=
  toread ← read_buf_len isocket;
  towrite ← write_buf_len isocket;
  let ret := if decide (toread > 0) then Z.lor POLLRDNORM POLLIN else 0 in
  mret (if decide (towrite > 0) then Z.lor ret (Z.lor POLLWRNORM POLLOUT) else ret).

Definition w5100_sock_poll (fd : Z) : M S Z :=
  s ← get_socket_from_fd fd;
  match s with
  | None => mret POLLNVAL
  | Some s =>
      e ← sock_at s;
      if decide (s_state e = W5100_SOCK_STATE_LISTENING) then
        sr ← w5100_read_sock_reg W5100_Sn_SR (s_isocket e);
        mret (if decide (sr = W5100_SOCK_ESTABLISHED) then Z.lor POLLRDNORM POLLIN else 0)
      else if decide (s_type e = SOCK_STREAM ∧
                (s_state e = W5100_SOCK_STATE_CONNECTED ∨ s_state e = W5100_SOCK_STATE_ACCEPTED)) then
        sr ← w5100_read_sock_reg W5100_Sn_SR (s_isocket e);
        if decide (sr ≠ W5100_SOCK_ESTABLISHED) then mret POLLHUP
        else w5100_sock_poll_rw (s_isocket e)
      else if decide (s_type e = SOCK_DGRAM ∧
                (s_state e = W5100_SOCK_STATE_CONNECTED ∨ s_state e = W5100_SOCK_STATE_BOUND)) then
        w5100_sock_poll_rw (s_isocket e)
      else mret POLLNVAL
  end.

(** ** Options and addresses *)

(** The option with its value, or the number of another option. *)
Definition setsockopt (sockfd level : Z) (option : sockopt + Z) : M S Z :=
  s ← get_socket_from_fd sockfd;
  match s with
  | None => mret (-1)
  | Some s =>
      if decide (level ≠ SOL_SOCKET) then fail EINVAL
      else match option with
      | inl (SO_BROADCAST on) => _ ← sock_update s (with_broadcast (bool_decide (on ≠ 0))); mret 0
      | inl (SO_RCVTIMEO t) => _ ← sock_update s (with_recv_timeout (timeval_to_timespec t)); mret 0
      | inl (SO_SNDTIMEO t) => _ ← sock_update s (with_send_timeout (timeval_to_timespec t)); mret 0
      | inr _ => fail EINVAL
      end
  end.

(** The options [getsockopt] knows, and the objects [option_value] points to. *)
Inductive sockopt_name := GetAcceptconn | GetBroadcast | GetRcvtimeo | GetSndtimeo | GetType | GetOther (o : Z).
Inductive sockopt_value := OptInt (z : Z) | OptTimeval (t : timeval).

Definition getsockopt (sockfd level : Z) (option_name : sockopt_name) (option_value : sockopt_value)
    : M S (Z * sockopt_value) :=
  s ← get_socket_from_fd sockfd;
  match s with
  | None => mret (-1, option_value)
  | Some s =>
      if decide (level ≠ SOL_SOCKET) then r ← fail EINVAL; mret (r, option_value)
      else
        e ← sock_at s;
        match option_name with
        | GetAcceptconn =>
            mret (0, OptInt (if decide (s_state e = W5100_SOCK_STATE_LISTENING) then 1 else 0))
        | GetBroadcast => mret (0, option_value)
        | GetRcvtimeo => mret (0, OptTimeval (timespec_to_timeval (s_recv_timeout e)))
        | GetSndtimeo => mret (0, OptTimeval (timespec_to_timeval (s_send_timeout e)))
        | GetType => mret (0, OptInt (s_type e))
        | GetOther _ => r ← fail EINVAL; mret (r, option_value)
        end
  end.

(** [struct sockaddr_in] in memory: 12 bytes, two of them padding. *)
Definition sockaddr_bytes (pad : list Z) (a : sockaddr_in) : list Z :=
  le_bytes 4 (sin_family a) ++ le_bytes 2 (sin_port a) ++ pad ++ le_bytes 4 (sin_addr a).

(** [address] is the object the pointer points to. *)
Definition get_sockaddr_in (pad : list Z) (sock_addr : sockaddr_in) (address : option (list Z))
    (address_len : option Z) : M S (Z * option (list Z) * option Z) :=
  let len := match address_len with
             | Some len => if decide (u32 len > 12) then 12 else len
             | None => 12
             end in
  let address_len := match address_len with Some _ => Some len | None => None end in
  match address with
  | None => r ← fail EINVAL; mret (r, address, address_len)
  | Some buf =>
      buf ← lift (mem_write buf 0 (take (Z.to_nat len) (sockaddr_bytes pad sock_addr)));
      mret (0, Some buf, address_len)
  end.

Definition getsockname (pad : list Z) (sockfd : Z) (address : option (list Z)) (address_len : option Z)
    : M S (Z * option (list Z) * option Z) :=
  s ← get_socket_from_fd sockfd;
  match s with
  | None => mret (-1, address, address_len)
  | Some s =>
      e ← sock_at s;
      if decide (sin_family (s_sockname e) = AF_UNSPEC) then
        r ← fail EINVAL; mret (r, address, address_len)
      else get_sockaddr_in pad (s_sockname e) address address_len
  end.

Definition getpeername (pad : list Z) (sockfd : Z) (address : option (list Z)) (address_len : option Z)
    : M S (Z * option (list Z) * option Z) :=
  s ← get_socket_from_fd sockfd;
  match s with
  | None => mret (-1, address, address_len)
  | Some s =>
      e ← sock_at s;
      if decide (sin_family (s_dest e) = AF_UNSPEC) then
        r ← fail ENOTCONN; mret (r, address, address_len)
      else get_sockaddr_in pad (s_dest e) address address_len
  end.

(** ** Start-up *)

Definition w5100_socket_init (board : target) : M S unit :=
  _ ← w5100_init board;
  _ ← w5100_write_reg W5100_MR W5100_MODE_RST;
  _ ← loop fuel (λ _,
        r ← w5100_read_reg W5100_MR;
        mret (if decide (Z.land r W5100_MODE_RST ≠ 0) then inl tt else inr tt)) tt;
  _ ← for_fold W5100_N_SOCKETS 0 (λ i _, socket_free i) tt;
  _ ← w5100_write_reg W5100_RMSR 85;
  _ ← w5100_write_reg W5100_TMSR 85;
  _ ← w5100_write_mem W5100_SHAR w5100_mac_addr W5100_SHAR_SIZE;
  addr ← inet_addr W5100_IP_ADDR;
  _ ← w5100_write_mem W5100_SIPR (le_bytes 4 addr) W5100_SIPR_SIZE;
  addr ← inet_addr W5100_GATEWAY_ADDR;
  _ ← w5100_write_mem W5100_GAR (le_bytes 4 addr) W5100_GAR_SIZE;
  addr ← inet_addr W5100_SUBNET;
  w5100_write_mem W5100_SUBR (le_bytes 4 addr) W5100_SUBR_SIZE.

(** ** The functions of a socket's descriptor *)

Definition w5100_sock_write (fd : Z) (buf : list Z) (len : Z) : M S Z := send fd buf len.
Definition w5100_sock_read (fd : Z) (buf : list Z) (len : Z) : M S (Z * list Z) := recv fd buf len.
End w5100_socket.
