(* ===== verification/W5100Chip.v ===== *)
(** * What the socket driver relies on of the W5100 chip

    The chip executes the commands written to the command register of a socket
    and shows the outcome in the status register ([W5100Commands],
    [responsive]). The lemmas here carry the register accesses of the driver to
    the memory of the chip: [still] says that only reads have happened, [calm]
    that the configuration of the interface and the modes of the sockets are
    untouched. *)

From stdpp Require Import prelude list numbers functions.
From S2P Require Import Prelude Timespec Clock Inet Files Poll Sockets Opencm3 W5100Spi W5100Socket.

(** A valid socket number, and the address of its register [r]. *)
Definition is_sock (i : Z) : Prop := 0 ≤ i < 4.
Definition sreg (r i : Z) : Z := 1024 + 256 * i + r.

Lemma sock_reg_eq r i : is_sock i → 0 ≤ r < 256 → w5100_sock_reg_get r i = sreg r i.
Proof.
  unfold is_sock, sreg, w5100_sock_reg_get, W5100_S0_REGS_OFFSET, W5100_SOCKET_REGS_SIZE. intros.
  rewrite u16_id; [lia|unfold is_u16; lia].
Qed.

(** The cells the socket calls leave alone, but for the mode of a new socket. *)
Definition kept (b : Z) : bool :=
  bool_decide (1 ≤ b < 19 ∨ 26 ≤ b < 28 ∨ (1024 ≤ b < 2048 ∧ b mod 256 = 0)).

Lemma kept_plain b : kept b = true → plain b = true.
Proof. unfold kept, plain. rewrite !bool_decide_eq_true. lia. Qed.

Lemma kept_mode i : is_sock i → kept (sreg W5100_Sn_MR i) = true.
Proof. unfold is_sock, kept, sreg, W5100_Sn_MR. rewrite bool_decide_eq_true. intros. zlia. Qed.

(** [cmd_of i h] is the last command given to the socket [i]; the free space of a
    transmit buffer is read as two bytes. *)
Class W5100Commands (H : Type) `{!W5100 H} := {
  cmd_of : Z → H → Z;
  cmd_load a i h : chip_ok h → cmd_of i (chip_load a h).2 = cmd_of i h;
  cmd_store a v i h : chip_ok h → is_sock i → a ≠ W5100_MR →
    cmd_of i (chip_store a v h) = if decide (a = sreg W5100_Sn_CR i) then u8 v else cmd_of i h;
  (* a transmit buffer of 2 KiB never has more free space *)
  tx_free_bound i h : chip_ok h → is_sock i →
    let r := chip_load (sreg W5100_Sn_TX_FSR i) h in
    r.1 * 256 + (chip_load (sreg W5100_Sn_TX_FSR i + 1) r.2).1 ≤ 2048;
}.

Section chip.
Context {H : Type} `{!W5100 H, !W5100Commands H}.

(** Reading the address [a] again and again shows a value in [P] at one of the
    first [n] readings. *)
Fixpoint settles (n : nat) (a : Z) (P : Z → Prop) (h : H) : Prop :=
  match n with
  | O => False
  | S n => P (chip_load a h).1 ∨ settles n a P (chip_load a h).2
  end.

(** A chip that does what its commands ask for, and a network that lets it:
    each wait of the driver ends within [n] readings. *)
Record responsive (n : nat) : Prop := {
  resp_reset h : chip_ok h → settles n W5100_MR (λ v, Z.land v W5100_MODE_RST = 0) h;
  resp_command i h : chip_ok h → is_sock i → settles n (sreg W5100_Sn_CR i) (λ v, v = 0) h;
  resp_open_tcp i h : chip_ok h → is_sock i → cmd_of i h = W5100_CMD_OPEN →
    cell (sreg W5100_Sn_MR i) h = W5100_SOCK_MODE_TCP →
    settles n (sreg W5100_Sn_SR i) (λ v, v ∈ [W5100_SOCK_INIT]) h;
  resp_open_udp i h : chip_ok h → is_sock i → cmd_of i h = W5100_CMD_OPEN →
    cell (sreg W5100_Sn_MR i) h = W5100_SOCK_MODE_UDP →
    settles n (sreg W5100_Sn_SR i) (λ v, v ∈ [W5100_SOCK_UDP]) h;
  resp_listen i h : chip_ok h → is_sock i → cmd_of i h = W5100_CMD_LISTEN →
    settles n (sreg W5100_Sn_SR i) (λ v, v ∈ [W5100_SOCK_LISTEN; W5100_SOCK_ESTABLISHED]) h;
  resp_connect i h : chip_ok h → is_sock i → cmd_of i h = W5100_CMD_CONNECT →
    settles n (sreg W5100_Sn_SR i) (λ v, v ∈ [W5100_SOCK_CLOSED; W5100_SOCK_ESTABLISHED]) h;
  resp_close i h : chip_ok h → is_sock i →
    cmd_of i h = W5100_CMD_DISCON ∨ cmd_of i h = W5100_CMD_CLOSE →
    settles n (sreg W5100_Sn_SR i) (λ v, v ∈ [W5100_SOCK_CLOSED]) h;
}.

Definition still (h h' : H) : Prop := chip_ok h' ∧ chip_ok h ∧ ∃ l, h' = (loads l h).2.

Definition calm (h h' : H) : Prop :=
  chip_ok h' ∧ ∀ b, kept b = true → cell b h' = cell b h.

Lemma still_refl h : chip_ok h → still h h.
Proof. split; [done|]. split; [done|by exists []]. Qed.
Lemma still_trans h1 h2 h3 : still h1 h2 → still h2 h3 → still h1 h3.
Proof.
  intros (_ & Hok1 & l & ->) (Hok & _ & l' & ->). split; [done|]. split; [done|]. exists (l ++ l'). by rewrite loads_app.
Qed.
Lemma loads_still l h : chip_ok h → still h (loads l h).2.
Proof. intros Hok. split; [by apply loads_ok|]. split; [done|by exists l]. Qed.
Lemma load_still a h : chip_ok h → still h (chip_load a h).2.
Proof. intros Hok. pose proof (loads_still [a] h Hok) as Hs. simpl in Hs. by destruct (chip_load a h). Qed.
(** What no reading changes. *)
Lemma still_keeps {B} (f : H → B) h h' :
  (∀ a h, chip_ok h → f (chip_load a h).2 = f h) → still h h' → f h' = f h.
Proof.
  intros Hf (_ & Hok & l & ->). revert h Hok. induction l as [|a l IH]; intros h Hok; [done|].
  transitivity (f (chip_load a h).2); [|by apply Hf]. rewrite <- (IH (chip_load a h).2) by (by apply load_ok). simpl.
  destruct (chip_load a h) as [v h1]. simpl. by destruct (loads l h1).
Qed.
Lemma still_cell h h' b : still h h' → plain b = true → cell b h' = cell b h.
Proof. intros Hs Hb. apply (still_keeps (cell b)); [|done]. intros. by apply load_keeps. Qed.
Lemma still_cmd h h' i : still h h' → cmd_of i h' = cmd_of i h.
Proof. apply still_keeps. intros. by apply cmd_load. Qed.
Lemma calm_trans h1 h2 h3 : calm h1 h2 → calm h2 h3 → calm h1 h3.
Proof. intros (_ & Hc) (Hok & Hc'). split; [done|]. intros b Hb. by rewrite Hc', Hc. Qed.
Lemma still_calm h h' : still h h' → calm h h'.
Proof. intros Hs. split; [apply Hs|]. intros b Hb. by apply still_cell, kept_plain. Qed.
Lemma calm_refl h : chip_ok h → calm h h.
Proof. done. Qed.
Lemma still_calm_trans h1 h2 h3 : still h1 h2 → calm h2 h3 → calm h1 h3.
Proof. intros ?%still_calm. by apply calm_trans. Qed.

Lemma store_calm a v h : chip_ok h → a ≠ W5100_MR → kept a = false → calm h (chip_store a v h).
Proof.
  intros Hok Ha Hk. split; [by apply store_ok|]. intros b Hb.
  rewrite store_plain by (try done; by apply kept_plain).
  rewrite decide_False; [done|]. intros ->. congruence.
Qed.

Lemma stores_calm l h : chip_ok h → Forall (λ p, p.1 ≠ W5100_MR ∧ kept p.1 = false) l →
  calm h (stores l h).
Proof.
  intros Hok Hl. revert h Hok. induction Hl as [|[a v] l [Ha Hk] _ IH]; intros h Hok; [done|]. simpl.
  apply calm_trans with (chip_store a v h); [by apply store_calm|]. by apply IH, store_ok.
Qed.

(** Addresses outside the registers of the interface. *)
Lemma stores_calm_zip l vs h : chip_ok h → Forall (λ a, a ≠ W5100_MR ∧ kept a = false) l →
  calm h (stores (zip l vs) h).
Proof.
  intros Hok Hl. apply stores_calm; [done|]. apply list.Forall_forall. intros [a v] Hin.
  apply elem_of_zip_l in Hin. simpl. by eapply list.Forall_forall in Hl.
Qed.
End chip.
#[global] Arguments responsive H {_ _} n.

(** ** The accesses of the driver *)

Section driver.
Context {H S : Type} `{!Has H S, !HasLaws H S, !SpiDevice H, !W5100 H, !W5100Bus H, !W5100Commands H}.
Context (t : reading) (fuel : nat).

(** When completion is claimed, the chip is responsive within the fuel. *)
Definition ready : Prop := t = Total → ∃ n, responsive H n ∧ (n ≤ fuel)%nat.

Lemma twp_read_reg a (s : S) (Q : Z → S → Prop) :
  chip_ok (proj s) → Q (chip_load a (proj s)).1 (upd (chip_load a (proj s)).2 s) →
  twp t (w5100_read_reg a) s Q.
Proof.
  intros Hok HQ. unfold w5100_read_reg. apply twp_bind. eapply twp_Done; [by apply read_byte_run|].
  by apply twp_ret.
Qed.

Lemma twp_read_mem a n (s : S) (Q : list Z → S → Prop) :
  chip_ok (proj s) →
  (∀ bs h', Forall is_u8 bs → length bs = n → still (proj s) h' → Q bs (upd h' s)) →
  twp t (w5100_read_mem a n) s Q.
Proof.
  intros Hok HQ. eapply twp_Done; [by apply read_mem_run|]. apply HQ; [by apply loads_u8| |by apply loads_still].
  by rewrite length_loads, length_addrs.
Qed.

Lemma twp_write_mem a bs n (s : S) (Q : unit → S → Prop) :
  chip_ok (proj s) → (n ≤ length bs)%nat →
  Forall (λ a, a ≠ W5100_MR ∧ kept a = false) (addrs a n) →
  (∀ h', calm (proj s) h' → Q tt (upd h' s)) →
  twp t (w5100_write_mem a bs n) s Q.
Proof.
  intros Hok Hn Ha HQ. eapply twp_Done; [by apply write_mem_run|]. by apply HQ, stores_calm_zip.
Qed.

(** A register of a socket. *)
Lemma twp_read_sock_reg r i (s : S) (Q : Z → S → Prop) :
  chip_ok (proj s) → (∀ v h', is_u8 v → still (proj s) h' → Q v (upd h' s)) →
  twp t (w5100_read_sock_reg r i) s Q.
Proof. intros Hok HQ. apply twp_read_reg; [done|]. apply HQ; [by apply load_u8|by apply load_still]. Qed.

Lemma sreg_block i r n : is_sock i → 1 ≤ r → r + Z.of_nat n ≤ 256 →
  Forall (λ a, a ≠ W5100_MR ∧ kept a = false) (addrs (w5100_sock_reg_get r i) n).
Proof.
  intros Hi Hr Hn. apply Forall_fmap, list.Forall_forall. intros k Hk%elem_of_seq. simpl.
  rewrite sock_reg_eq by (done || lia). unfold sreg, is_sock in *.
  rewrite u16_id by (unfold is_u16; lia). unfold W5100_MR. split; [lia|].
  unfold kept. apply bool_decide_eq_false. intros Hc. zlia.
Qed.

Lemma twp_write_sock_regx r n i bs (s : S) (Q : unit → S → Prop) :
  chip_ok (proj s) → is_sock i → 1 ≤ r → r + Z.of_nat n ≤ 256 → (n ≤ length bs)%nat →
  (∀ h', calm (proj s) h' → Q tt (upd h' s)) →
  twp t (w5100_write_sock_regx r n i bs) s Q.
Proof. intros Hok Hi Hr Hn Hl HQ. apply twp_write_mem; [done..| |done]. by apply sreg_block. Qed.

(** Polling a register. *)
Lemma twp_poll {B} a (P : Z → Prop) (dec : Z → unit + B) n (s : S) (Q : B → S → Prop) :
  chip_ok (proj s) → (t = Total → settles n a P (proj s) ∧ (n ≤ fuel)%nat) →
  (∀ v, P v → ∃ b, dec v = inr b) →
  (∀ v h' b, dec v = inr b → still (proj s) h' → Q b (upd h' s)) →
  twp t (loop fuel (λ _, v ← w5100_read_reg a; mret (dec v)) tt) s Q.
Proof.
  intros Hok Hset HP HQ. revert n s Hok Hset HQ.
  induction fuel as [|f IH]; intros n s Hok Hset HQ.
  { unfold twp, loop, hang. destruct t; [|done..]. destruct (Hset eq_refl) as [Hs Hn].
    by replace n with 0%nat in Hs by lia. }
  pose proof (load_still a _ Hok) as Hst.
  apply twp_loop_turn, twp_bind, twp_read_reg; [done|]. apply twp_ret.
  destruct (dec (chip_load a (proj s)).1) as [[]|b] eqn:Hd; [|by eapply HQ].
  apply (IH (Nat.pred n)); rewrite ?proj_upd; [apply Hst| |].
  - intros Ht. destruct (Hset Ht) as [Hs Hn]. destruct n as [|n]; [done|].
    destruct Hs as [Hs|Hs]; [destruct (HP _ Hs) as [b Hb]; congruence|].
    simpl. split; [done|lia].
  - intros v' h'' b Hb Hst'. rewrite upd_upd. eapply HQ; [done|]. by eapply still_trans.
Qed.

Lemma twp_wait_status i done n (s : S) (Q : Z → S → Prop) :
  chip_ok (proj s) → is_sock i →
  (t = Total → settles n (sreg W5100_Sn_SR i) (λ v, v ∈ done) (proj s) ∧ (n ≤ fuel)%nat) →
  (∀ v h', v ∈ done → still (proj s) h' → Q v (upd h' s)) →
  twp t (wait_status fuel i done) s Q.
Proof.
  intros Hok Hi Hset HQ. unfold wait_status, w5100_read_sock_reg. rewrite sock_reg_eq by done.
  eapply (twp_poll _ (λ v, v ∈ done) (λ sr, if decide (sr ∈ done) then inr sr else inl tt)); [done|done|..].
  - intros v Hv. rewrite decide_True by done. by exists v.
  - intros v h' b Hb Hst. case_decide; [|done]. injection Hb as <-. by apply HQ.
Qed.

(** A command is given and taken: only the readings of the command register
    follow the store. *)
Lemma twp_command_still i cmd (s : S) (Q : unit → S → Prop) :
  ready → chip_ok (proj s) → is_sock i → is_u8 cmd →
  (∀ h', still (chip_store (sreg W5100_Sn_CR i) cmd (proj s)) h' → Q tt (upd h' s)) →
  twp t (w5100_command fuel i cmd) s Q.
Proof.
  intros Hready Hok Hi Hcmd HQ. unfold w5100_command, w5100_write_sock_reg, w5100_read_sock_reg, w5100_write_reg.
  rewrite sock_reg_eq by done. set (a := sreg W5100_Sn_CR i).
  apply twp_bind. eapply twp_Done; [by apply write_byte_run|].
  set (h1 := chip_store a cmd (proj s)).
  assert (Hok1 : chip_ok h1) by (by apply store_ok).
  assert (Hset : ∃ n, t = Total → settles n a (λ v, v = 0) (proj (upd h1 s)) ∧ (n ≤ fuel)%nat).
  { destruct t eqn:Et; [|by exists 0%nat..]. destruct (Hready Et) as (n & Hr & Hn). exists n. intros _.
    rewrite proj_upd. split; [by apply (resp_command n Hr)|done]. }
  destruct Hset as [n Hset].
  eapply (twp_poll a (λ v, v = 0) (λ r, if decide (r ≠ 0) then inl tt else inr tt)); [by rewrite proj_upd|exact Hset|..].
  - intros v ->. by exists tt.
  - intros v h' [] _ Hst. rewrite proj_upd in Hst. rewrite upd_upd. by apply HQ.
Qed.

Lemma sreg_CR i : is_sock i → sreg W5100_Sn_CR i ≠ W5100_MR ∧ kept (sreg W5100_Sn_CR i) = false.
Proof.
  unfold is_sock, sreg, W5100_Sn_CR, W5100_MR, kept. intros. split; [lia|].
  apply bool_decide_eq_false. zlia.
Qed.

(** After a command [cmd_of] remembers it. *)
Lemma twp_command i cmd (s : S) (Q : unit → S → Prop) :
  ready → chip_ok (proj s) → is_sock i → is_u8 cmd →
  (∀ h', calm (proj s) h' → cmd_of i h' = cmd → Q tt (upd h' s)) →
  twp t (w5100_command fuel i cmd) s Q.
Proof.
  intros Hready Hok Hi Hcmd HQ. destruct (sreg_CR i Hi) as [Ha Hk].
  apply twp_command_still; [done..|]. intros h' Hst. apply HQ.
  - eapply calm_trans; [by apply store_calm|by apply still_calm].
  - rewrite (still_cmd _ _ _ Hst), cmd_store, decide_True by done. by apply u8_id.
Qed.
End driver.

(** ** The simulated chip *)

#[export] Program Instance sim_commands : W5100Commands sim := {|
  cmd_of i c := sim_cmd c i;
|}.
Next Obligation. done. Qed.
Next Obligation.
  intros a v i h _ Hi _. simpl. unfold sim_store, is_sock, sreg, W5100_Sn_CR in *. case_decide as Hcr; simpl.
  - case_decide as Ha.
    + replace ((a - 1024) / 256) with i by zlia. apply fn_lookup_insert.
    + apply fn_lookup_insert_ne. zlia.
  - rewrite decide_False; [done|]. intros ->. apply Hcr. zlia.
Qed.
Next Obligation.
  intros i h _ Hi. unfold is_sock in Hi. simpl. assert (i = 0 ∨ i = 1 ∨ i = 2 ∨ i = 3) as [->|[->|[->| ->]]] by lia; done.
Qed.

Lemma sim_sreg_mod i r : is_sock i → 0 ≤ r < 256 → sreg r i mod 256 = r ∧ (sreg r i - 1024) / 256 = i.
Proof. unfold is_sock, sreg. intros. zlia. Qed.

Lemma sim_responsive : responsive sim 1.
Proof.
  assert (Hst : ∀ i c, is_sock i → sim_read (sreg W5100_Sn_SR i) c =
    sim_status (sim_mem c (sreg W5100_Sn_MR i)) (sim_cmd c i) (sim_mem c (sreg W5100_Sn_SR i))).
  { intros i c Hi. destruct (sim_sreg_mod i W5100_Sn_SR Hi ltac:(done)) as [Hm Hq].
    unfold sim_read. rewrite Hm, Hq, decide_False by (unfold sreg, is_sock, W5100_MR, W5100_Sn_SR in *; lia).
    rewrite decide_True by (unfold sreg, is_sock, W5100_Sn_SR in *; lia).
    by replace (sreg W5100_Sn_SR i - 3) with (sreg W5100_Sn_MR i) by (unfold sreg, W5100_Sn_SR, W5100_Sn_MR; lia). }
  split; simpl.
  - intros h _. left. unfold sim_read. simpl. rewrite <- Z.land_assoc. apply Z.land_0_r.
  - intros i h _ Hi. left. destruct (sim_sreg_mod i W5100_Sn_CR Hi ltac:(done)) as [Hm _].
    unfold sim_read. rewrite Hm, decide_False by (unfold sreg, is_sock, W5100_MR, W5100_Sn_CR in *; lia).
    by rewrite decide_True by (unfold sreg, is_sock, W5100_Sn_CR in *; lia).
  - intros i h _ Hi Hc Hm. left. rewrite Hst, Hc, Hm by done. set_solver.
  - intros i h _ Hi Hc Hm. left. rewrite Hst, Hc, Hm by done. set_solver.
  - intros i h _ Hi Hc. left. rewrite Hst, Hc by done. set_solver.
  - intros i h _ Hi Hc. left. rewrite Hst, Hc by done. set_solver.
  - intros i h _ Hi [Hc|Hc]; left; rewrite Hst, Hc by done; set_solver.
Qed.
