(* ===== verification/W5100Ring.v ===== *)
(** * The ring buffers of the W5100 sockets: [src/w5100_socket.c]

    Each socket of the chip has 2 KiB of receive and of transmit memory, used
    as rings. The driver copies in two pieces when the data wraps; the lemmas
    show that this is the element-wise transfer modulo the size. *)

From stdpp Require Import prelude list numbers functions.
From S2P Require Import Prelude Timespec Clock Inet Files Poll Sockets Opencm3 W5100Spi W5100Socket W5100Chip.

(** The addresses of [n] elements of a ring of 2048 cells at [base], from the
    running pointer [p] on. *)
Definition ring_addrs (base p : Z) (n : nat) : list Z :=
  (λ k : nat, base + (p + Z.of_nat k) mod 2048) <$> seq 0 n.

Lemma length_ring_addrs base p n : length (ring_addrs base p n) = n.
Proof. unfold ring_addrs. by rewrite length_fmap, length_seq. Qed.

Lemma ring_mask p : Z.land p 2047 = p mod 2048.
Proof. change 2047 with (Z.ones 11). by rewrite Z.land_ones by lia. Qed.

Lemma rx_base_eq i : is_sock i → get_rx_base i = 24576 + 2048 * i.
Proof. unfold is_sock, get_rx_base, get_rx_size, W5100_RX_MEM_BASE. intros. apply u16_id. unfold is_u16. lia. Qed.
Lemma tx_base_eq i : is_sock i → get_tx_base i = 16384 + 2048 * i.
Proof. unfold is_sock, get_tx_base, get_tx_size, W5100_TX_MEM_BASE. intros. apply u16_id. unfold is_u16. lia. Qed.

(** The two pieces of a transfer: up to the end of the ring, and from its
    beginning. *)
Definition piece1 (p len : Z) : nat := Z.to_nat (Z.min len (2048 - p mod 2048)).
Definition piece2 (p len : Z) : nat := Z.to_nat (len - Z.min len (2048 - p mod 2048)).

Lemma addrs_plain_range `{W5100 H} a n : 0 ≤ a → a + Z.of_nat n ≤ 65536 →
  addrs a n = (λ k : nat, a + Z.of_nat k) <$> seq 0 n.
Proof.
  intros Ha Hn. unfold addrs. apply list_fmap_ext. intros i k Hk.
  apply lookup_seq in Hk as [-> Hk]. apply u16_id. unfold is_u16. lia.
Qed.

Lemma ring_split `{W5100 H} base p len : 0 ≤ base → base + 2048 ≤ 65536 → 0 ≤ p → 0 ≤ len ≤ 2048 →
  ring_addrs base p (Z.to_nat len) =
    addrs (base + p mod 2048) (piece1 p len) ++ addrs base (piece2 p len).
Proof.
  intros Hb Hb2 Hp Hlen. unfold piece1, piece2. set (o := p mod 2048).
  assert (Ho : 0 ≤ o < 2048) by (apply Z.mod_pos_bound; lia).
  rewrite !addrs_plain_range by lia.
  replace (Z.to_nat len) with (Z.to_nat (Z.min len (2048 - o)) + Z.to_nat (len - Z.min len (2048 - o)))%nat by lia.
  unfold ring_addrs. rewrite seq_app, fmap_app. f_equal.
  - apply list_fmap_ext. intros i k Hk. apply lookup_seq in Hk as [-> Hk]. unfold o in *. zlia.
  - rewrite Nat.add_0_l. apply list_eq_same_length with (Z.to_nat (len - Z.min len (2048 - o)));
      [by rewrite length_fmap, length_seq..|].
    intros i x y Hi Hx Hy.
    apply list_lookup_fmap_Some in Hx as (k & -> & Hk). apply list_lookup_fmap_Some in Hy as (k' & -> & Hk').
    apply lookup_seq in Hk as [-> Hk]. apply lookup_seq in Hk' as [-> Hk'].
    rewrite Nat2Z.inj_add, Z2Nat.id by lia. unfold o in *. zlia.
Qed.

(** The arithmetic of the source computes the pieces. *)
Lemma pieces_eq p len : 0 ≤ p → 0 ≤ len ≤ 2048 →
  (if decide (u32 (p mod 2048 + len) > 2048)
   then (u16 (2048 - p mod 2048), u16 (len - u16 (2048 - p mod 2048)))
   else (u16 len, 0)) = (Z.of_nat (piece1 p len), Z.of_nat (piece2 p len)).
Proof.
  intros Hp Hlen. unfold piece1, piece2. set (o := p mod 2048).
  assert (Ho : 0 ≤ o < 2048) by (apply Z.mod_pos_bound; lia).
  rewrite u32_id by (unfold is_u32; lia).
  rewrite (u16_id (2048 - o)) by (unfold is_u16; lia).
  case_decide; rewrite u16_id by (unfold is_u16; lia); f_equal; lia.
Qed.

(** Two bytes of a register pair, most significant first, as the host's number. *)
Lemma ntohs_pair hi lo : is_u8 hi → is_u8 lo → ntohs (le_val [hi; lo]) = hi * 256 + lo.
Proof.
  unfold is_u8, ntohs, bswap16. intros. cbn [le_bytes le_val rev app]. zlia.
Qed.

Lemma htons_bytes p : is_u16 p → le_bytes 2 (htons p) = [p / 256; p mod 256].
Proof.
  unfold is_u16, htons, bswap16. intros Hp.
  transitivity (rev (le_bytes 2 p)); [apply (le_bytes_val (rev (le_bytes 2 p))), Forall_rev, le_bytes_u8|].
  cbn [le_bytes rev app]. f_equal. zlia.
Qed.

Section ring.
Context {H S : Type} `{!Has H S, !HasLaws H S, !SpiDevice H, !W5100 H, !W5100Bus H}.

Lemma read_piece {B} addr (n : nat) buf (k : list Z → M S B) off (s : S) :
  chip_ok (proj s) →
  (buf ← (if decide (Z.of_nat n > 0) then bs ← w5100_read_mem addr (Z.to_nat (Z.of_nat n)); lift (mem_write buf off bs)
          else mret buf); k buf) s =
  (if decide (n = 0)%nat then k buf s else
   match mem_write buf off (loads (addrs addr n) (proj s)).1 with
   | Done buf => k buf (upd (loads (addrs addr n) (proj s)).2 s) | Fault => Fault | Hang => Hang end).
Proof.
  intros Hok. unfold mbind, M_bind. rewrite Nat2Z.id. case_decide as Hn; case_decide; try lia.
  - rewrite read_mem_run by done. unfold lift. by destruct (mem_write _ _ _).
  - done.
Qed.

Lemma read_buf_sure_run i buf len p (s : S) :
  chip_ok (proj s) → is_sock i → 0 ≤ p → 0 ≤ len ≤ 2048 → len ≤ Z.of_nat (length buf) →
  let r := loads (ring_addrs (get_rx_base i) p (Z.to_nat len)) (proj s) in
  read_buf_sure i buf len p s = Done ((r.1 ++ drop (Z.to_nat len) buf, u16 (p + len)), upd r.2 s).
Proof.
  intros Hok Hi Hp Hlen Hbuf. pose proof (rx_base_eq i Hi) as Hb. unfold is_sock in Hi.
  assert (Ho : 0 ≤ p mod 2048 < 2048) by (apply Z.mod_pos_bound; lia).
  unfold read_buf_sure. change (get_rx_mask i) with 2047. change (get_rx_size i) with 2048.
  rewrite ring_mask, pieces_eq by done. rewrite Hb, (u16_id (_ + p mod 2048)) by (unfold is_u16; lia).
  rewrite ring_split by lia. cbv zeta.
  set (n1 := piece1 p len). set (n2 := piece2 p len).
  assert (Hn : (n1 + n2 = Z.to_nat len)%nat) by (unfold n1, n2, piece1, piece2; lia).
  assert (H1 : n1 = 0%nat → n2 = 0%nat) by (unfold n1, n2, piece1, piece2; lia).
  rewrite (read_piece _ n1) by done.
  rewrite loads_app. simpl. set (l1 := loads (addrs (24576 + 2048 * i + p mod 2048) n1) (proj s)).
  assert (Hl1 : length l1.1 = n1) by (unfold l1; by rewrite length_loads, length_addrs).
  assert (Hok1 : chip_ok l1.2) by (by apply loads_ok).
  destruct (decide (n1 = 0%nat)) as [E1|E1].
  - rewrite (read_piece _ n2) by done. rewrite H1, decide_True by done.
    unfold l1. rewrite E1. simpl. rewrite upd_proj.
    by replace (Z.to_nat len) with 0%nat by (specialize (H1 E1); lia).
  - assert (Hw : mem_write buf 0 l1.1 = Done (l1.1 ++ drop n1 buf)).
    { rewrite <- Hl1. apply (mem_write_app [] buf l1.1 0); [done|]. lia. }
    rewrite Hw. rewrite (read_piece _ n2) by (by rewrite proj_upd). rewrite proj_upd.
    set (l2 := loads (addrs (24576 + 2048 * i) n2) l1.2).
    assert (Hl2 : length l2.1 = n2) by (unfold l2; by rewrite length_loads, length_addrs).
    destruct (decide (n2 = 0%nat)) as [E2|E2].
    + unfold l2. rewrite E2. simpl. rewrite app_nil_r. by replace (Z.to_nat len) with n1 by lia.
    + rewrite (mem_write_app l1.1) by (rewrite ?length_drop; lia).
      rewrite upd_upd, drop_drop, Hl2, Hn. done.
Qed.

Lemma write_piece {B} addr (n : nat) buf (k : M S B) (s : S) :
  chip_ok (proj s) → (n ≤ length buf)%nat →
  (_ ← (if decide (Z.of_nat n > 0) then w5100_write_mem addr buf (Z.to_nat (Z.of_nat n)) else mret tt); k) s =
  k (upd (stores (zip (addrs addr n) (take n buf)) (proj s)) s).
Proof.
  intros Hok Hn. unfold mbind, M_bind. rewrite Nat2Z.id. case_decide.
  - by rewrite write_mem_run.
  - replace n with 0%nat by lia. simpl. by rewrite upd_proj.
Qed.

Lemma write_buf_sure_run i buf len p (s : S) :
  chip_ok (proj s) → is_sock i → 0 ≤ p → 0 ≤ len ≤ 2048 → len ≤ Z.of_nat (length buf) →
  write_buf_sure i buf len p s = Done (u16 (p + len),
    upd (stores (zip (ring_addrs (get_tx_base i) p (Z.to_nat len)) (take (Z.to_nat len) buf)) (proj s)) s).
Proof.
  intros Hok Hi Hp Hlen Hbuf. pose proof (tx_base_eq i Hi) as Hb. unfold is_sock in Hi.
  assert (Ho : 0 ≤ p mod 2048 < 2048) by (apply Z.mod_pos_bound; lia).
  unfold write_buf_sure. change (get_tx_mask i) with 2047. change (get_tx_size i) with 2048.
  rewrite ring_mask, (Z.add_comm len), pieces_eq by done.
  rewrite Hb, (Z.add_comm (p mod 2048) (16384 + 2048 * i)), (u16_id (_ + p mod 2048)) by (unfold is_u16; lia).
  rewrite ring_split by lia.
  set (n1 := piece1 p len). set (n2 := piece2 p len).
  assert (Hn : (n1 + n2 = Z.to_nat len)%nat) by (unfold n1, n2, piece1, piece2; lia).
  rewrite (write_piece _ n1), (write_piece _ n2)
    by (rewrite ?proj_upd, ?length_drop; first [by apply stores_ok|done|lia]).
  rewrite proj_upd, upd_upd, Nat2Z.id, <- stores_app. unfold mret, M_ret. do 4 f_equal.
  rewrite <- Hn, <- (take_take_drop buf n1 n2).
  rewrite zip_with_app by (rewrite length_addrs, length_take; lia). done.
Qed.
End ring.
