(* ===== verification/W5100Stream.v ===== *)
(** * The byte streams of the W5100 sockets: [read_buf] and [write_buf] of
      [src/w5100_socket.c]

    The reference definitions [rx_take] and [tx_append] say what the chip must
    see when bytes are taken from the receive queue of a socket or added to its
    transmit queue; the functions of the driver refine them. *)

From stdpp Require Import prelude list numbers functions.
From S2P Require Import Prelude Timespec Clock Inet Files Poll Sockets Opencm3 W5100Spi W5100Socket W5100Chip W5100Ring.

Section reference.
Context {H : Type} `{!W5100 H}.

(** A register of two bytes, most significant first. *)
Definition reg16 (r i : Z) (h : H) : Z * H :=
  let '(hi, h) := chip_load (sreg r i) h in
  let '(lo, h) := chip_load (sreg r i + 1) h in
  (hi * 256 + lo, h).

(** The pointer register [r] is set to [p], then the command [cmd] is given. *)
Definition advance (r p cmd i : Z) (h : H) : H :=
  stores [(sreg r i, p / 256); (sreg r i + 1, p mod 256); (sreg W5100_Sn_CR i, cmd)] h.

(** At most [len] bytes at the read pointer leave the receive queue. *)
Definition rx_take (i len : Z) (h : H) : list Z * H :=
  let '(n, h) := reg16 W5100_Sn_RX_RSR i h in
  if decide (n = 0) then ([], h) else
  let n := Z.min len n in
  let '(p, h) := reg16 W5100_Sn_RX_RD i h in
  let '(bs, h) := loads (ring_addrs (get_rx_base i) p (Z.to_nat n)) h in
  (bs, advance W5100_Sn_RX_RD (u16 (p + n)) W5100_CMD_RECV i h).

(** The first of [bs] that fit, at most [len], join the transmit queue at the
    write pointer: their number. *)
Definition tx_append (i : Z) (bs : list Z) (len : Z) (h : H) : Z * H :=
  let '(n, h) := reg16 W5100_Sn_TX_FSR i h in
  if decide (n = 0) then (0, h) else
  let n := Z.min len n in
  let '(p, h) := reg16 W5100_Sn_TX_WR i h in
  (n, advance W5100_Sn_TX_WR (u16 (p + n)) W5100_CMD_SEND i
        (stores (zip (ring_addrs (get_tx_base i) p (Z.to_nat n)) (take (Z.to_nat n) bs)) h)).

Lemma reg16_range r i h : chip_ok h → is_u16 (reg16 r i h).1.
Proof.
  intros Hok. unfold reg16. pose proof (load_u8 (sreg r i) h Hok) as Hhi.
  pose proof (load_u8 (sreg r i + 1) _ (load_ok (sreg r i) h Hok)) as Hlo.
  destruct (chip_load (sreg r i) h) as [hi h1]. cbn [fst snd] in *.
  destruct (chip_load (sreg r i + 1) h1) as [lo h2]. cbn [fst snd] in *. unfold is_u8, is_u16 in *. lia.
Qed.

Lemma reg16_ok r i h : chip_ok h → chip_ok (reg16 r i h).2.
Proof.
  intros Hok. unfold reg16. pose proof (load_ok (sreg r i) h Hok) as Hok1.
  destruct (chip_load (sreg r i) h) as [hi h1]. cbn [fst snd] in *.
  pose proof (load_ok (sreg r i + 1) h1 Hok1) as Hok2.
  by destruct (chip_load (sreg r i + 1) h1) as [lo h2].
Qed.

Lemma reg16_still r i h : chip_ok h → still h (reg16 r i h).2.
Proof.
  intros Hok. pose proof (loads_still [sreg r i; sreg r i + 1] h Hok) as Hs. unfold reg16. simpl in Hs.
  destruct (chip_load (sreg r i) h) as [hi h1]. by destruct (chip_load (sreg r i + 1) h1).
Qed.

Lemma tx_free_2048 `{!W5100Commands H} i h : chip_ok h → is_sock i → (reg16 W5100_Sn_TX_FSR i h).1 ≤ 2048.
Proof.
  intros Hok Hi. pose proof (tx_free_bound i h Hok Hi) as Hb. unfold reg16.
  destruct (chip_load (sreg W5100_Sn_TX_FSR i) h) as [hi h1]. cbn [fst snd] in *.
  by destruct (chip_load (sreg W5100_Sn_TX_FSR i + 1) h1) as [lo h2].
Qed.
End reference.

Section stream.
Context {H S : Type} `{!Has H S, !HasLaws H S, !SpiDevice H, !W5100 H, !W5100Bus H}.

(** Register pairs. *)
Lemma read_pair r i (s : S) : chip_ok (proj s) → is_sock i → 0 ≤ r → r + 1 < 256 →
  (bs ← w5100_read_sock_regx r 2 i; mret (ntohs (le_val bs))) s =
    Done ((reg16 r i (proj s)).1, upd (reg16 r i (proj s)).2 s).
Proof.
  intros Hok Hi Hr Hr2. unfold w5100_read_sock_regx. rewrite sock_reg_eq by (done || lia).
  unfold mbind at 1, M_bind at 1. rewrite read_mem_run by done.
  rewrite addrs_plain_range by (unfold is_sock, sreg in *; lia). cbn [seq fmap list_fmap loads].
  rewrite Z.add_0_r. change (Z.of_nat 1) with 1. unfold reg16.
  pose proof (load_u8 (sreg r i) _ Hok) as Hhi.
  pose proof (load_u8 (sreg r i + 1) _ (load_ok (sreg r i) _ Hok)) as Hlo.
  destruct (chip_load (sreg r i) (proj s)) as [hi h1]. cbn [fst snd] in *.
  destruct (chip_load (sreg r i + 1) h1) as [lo h2]. cbn [fst snd] in *.
  unfold mret, M_ret. by rewrite ntohs_pair.
Qed.

Lemma write_pair r i p (s : S) : chip_ok (proj s) → is_sock i → 0 ≤ r → r + 1 < 256 → is_u16 p →
  w5100_write_sock_regx r 2 i (le_bytes 2 (htons p)) s =
    Done (tt, upd (stores [(sreg r i, p / 256); (sreg r i + 1, p mod 256)] (proj s)) s).
Proof.
  intros Hok Hi Hr Hr2 Hp. unfold w5100_write_sock_regx. rewrite sock_reg_eq by (done || lia).
  rewrite write_mem_run by (by rewrite ?length_le_bytes). rewrite htons_bytes by done.
  rewrite addrs_plain_range by (unfold is_sock, sreg in *; lia). cbn [seq fmap list_fmap zip zip_with take].
  by rewrite Z.add_0_r.
Qed.
End stream.

Section refinement.
Context {H S : Type} `{!Has H S, !HasLaws H S, !SpiDevice H, !W5100 H, !W5100Bus H, !W5100Commands H}.
Context (t : reading) (fuel : nat) (Hready : ready (H:=H) t fuel).

Lemma twp_advance r i p cmd (s : S) (Q : unit → S → Prop) :
  chip_ok (proj s) → is_sock i → 0 ≤ r → r + 1 < 256 → is_u16 p → is_u8 cmd →
  (∀ h', still (advance r p cmd i (proj s)) h' → Q tt (upd h' s)) →
  twp t (_ ← w5100_write_sock_regx r 2 i (le_bytes 2 (htons p)); w5100_command fuel i cmd) s Q.
Proof.
  intros Hok Hi Hr Hr2 Hp Hcmd HQ. twp_step. eapply twp_Done; [by apply write_pair|].
  apply twp_command_still; [done|rewrite proj_upd; by apply stores_ok|done..|].
  intros h' Hst. rewrite proj_upd in Hst. rewrite upd_upd. by apply HQ.
Qed.

Lemma twp_write_buf_tx i buf len (s : S) :
  chip_ok (proj s) → is_sock i → 0 ≤ len ≤ Z.of_nat (length buf) →
  twp t (write_buf fuel i buf len) s (λ r s', r = (tx_append i buf len (proj s)).1 ∧
    ∃ h', s' = upd h' s ∧ still (tx_append i buf len (proj s)).2 h').
Proof.
  intros Hok Hi Hlen. unfold write_buf, tx_append.
  pose proof (tx_free_2048 i _ Hok Hi) as Hb. pose proof (reg16_range W5100_Sn_TX_FSR i _ Hok) as Hr.
  pose proof (reg16_ok W5100_Sn_TX_FSR i _ Hok) as Hok1. unfold is_u16 in Hr.
  twp_step. eapply twp_Done; [by apply read_pair|].
  destruct (reg16 W5100_Sn_TX_FSR i (proj s)) as [f h1]. cbn [fst snd] in *.
  twp_step.
  2: { rewrite (decide_True (P := f = 0)) by lia. apply twp_ret. split; [done|]. exists h1. split; [done|by apply still_refl]. }
  rewrite (decide_False (P := f = 0)) by lia. cbv zeta. replace (if decide (len > f) then f else len) with (Z.min len f) by (case_decide; lia).
  pose proof (reg16_range W5100_Sn_TX_WR i _ Hok1) as Hp. pose proof (reg16_ok W5100_Sn_TX_WR i _ Hok1) as Hok2.
  twp_step. eapply twp_Done; [apply read_pair; [by rewrite proj_upd|done..]|]. rewrite proj_upd, upd_upd.
  destruct (reg16 W5100_Sn_TX_WR i h1) as [p h2]. cbn [fst snd] in *. unfold is_u16 in Hp.
  twp_step. eapply twp_Done; [apply write_buf_sure_run; [by rewrite proj_upd|done|lia..]|]. rewrite proj_upd, upd_upd.
  twp_step. apply twp_advance; [rewrite proj_upd; by apply stores_ok|done..|apply u16_range|done|].
  intros h' Hst. rewrite proj_upd in Hst. rewrite upd_upd. apply twp_ret.
  split; [rewrite u16_id; [done|unfold is_u16; lia]|]. by exists h'.
Qed.

Lemma twp_read_buf_rx i buf len (s : S) :
  chip_ok (proj s) → is_sock i → 0 ≤ len ≤ Z.of_nat (length buf) →
  Z.min len (reg16 W5100_Sn_RX_RSR i (proj s)).1 ≤ 2048 →
  twp t (read_buf fuel i buf len) s (λ r s',
    let '(bs, h) := rx_take i len (proj s) in
    r = (Z.of_nat (length bs), bs ++ drop (length bs) buf) ∧ ∃ h', s' = upd h' s ∧ still h h').
Proof.
  intros Hok Hi Hlen Hmin. unfold read_buf, rx_take.
  pose proof (reg16_range W5100_Sn_RX_RSR i _ Hok) as Hr.
  pose proof (reg16_ok W5100_Sn_RX_RSR i _ Hok) as Hok1. unfold is_u16 in Hr.
  twp_step. eapply twp_Done; [by apply read_pair|].
  destruct (reg16 W5100_Sn_RX_RSR i (proj s)) as [f h1]. cbn [fst snd] in *.
  twp_step.
  2: { rewrite (decide_True (P := f = 0)) by lia. apply twp_ret. split; [done|]. exists h1. split; [done|by apply still_refl]. }
  rewrite (decide_False (P := f = 0)) by lia. cbv zeta. replace (if decide (len > f) then f else len) with (Z.min len f) by (case_decide; lia).
  pose proof (reg16_range W5100_Sn_RX_RD i _ Hok1) as Hp. pose proof (reg16_ok W5100_Sn_RX_RD i _ Hok1) as Hok2.
  twp_step. eapply twp_Done; [apply read_pair; [by rewrite proj_upd|done..]|]. rewrite proj_upd, upd_upd.
  destruct (reg16 W5100_Sn_RX_RD i h1) as [p h2]. cbn [fst snd] in *. unfold is_u16 in Hp.
  twp_step. eapply twp_Done; [apply read_buf_sure_run; [by rewrite proj_upd|done|lia..]|]. rewrite proj_upd, upd_upd.
  pose proof (loads_ok (ring_addrs (get_rx_base i) p (Z.to_nat (Z.min len f))) h2 Hok2) as Hok3.
  pose proof (length_loads (ring_addrs (get_rx_base i) p (Z.to_nat (Z.min len f))) h2) as Hlb.
  rewrite length_ring_addrs in Hlb.
  destruct (loads (ring_addrs (get_rx_base i) p (Z.to_nat (Z.min len f))) h2) as [bs h3]. cbn [fst snd] in *.
  twp_step. apply twp_advance; [by rewrite proj_upd|done..|apply u16_range|done|].
  intros h' Hst. rewrite proj_upd in Hst. rewrite upd_upd. apply twp_ret.
  rewrite Hlb, Z2Nat.id by lia. rewrite u16_id by (unfold is_u16; lia).
  split; [done|]. by exists h'.
Qed.
End refinement.

Section properties.
Context {H S : Type} `{!Has H S, !HasLaws H S, !SpiDevice H, !W5100 H, !W5100Bus H, !W5100Commands H}.
Context (fuel n : nat) (Hresp : responsive H n) (Hn : (n ≤ fuel)%nat).

(** C17: [write_buf] adds to the transmit queue of the socket what the reference
    [tx_append] adds, and returns how many bytes: after its last store it only
    reads the chip. *)
Theorem write_buf_refines i buf len (s : S) :
  chip_ok (proj s) → is_sock i → 0 ≤ len ≤ Z.of_nat (length buf) →
  wp (write_buf fuel i buf len) s (λ r s', r = (tx_append i buf len (proj s)).1 ∧
    ∃ h', s' = upd h' s ∧ still (tx_append i buf len (proj s)).2 h').
Proof. intros. apply wp_of_twp, twp_write_buf_tx; [intros _; by exists n|done..]. Qed.

(** C18: [read_buf] takes from the receive queue of the socket what the
    reference [rx_take] takes, returns how many bytes, and puts them at the
    start of the buffer. *)
Theorem read_buf_refines i buf len (s : S) :
  chip_ok (proj s) → is_sock i → 0 ≤ len ≤ 2048 → len ≤ Z.of_nat (length buf) →
  wp (read_buf fuel i buf len) s (λ r s',
    let '(bs, h) := rx_take i len (proj s) in
    r = (Z.of_nat (length bs), bs ++ drop (length bs) buf) ∧ ∃ h', s' = upd h' s ∧ still h h').
Proof.
  intros. apply wp_of_twp, twp_read_buf_rx; [intros _; by exists n|done|done|lia|lia].
Qed.
End properties.

(** Three bytes wait in the receive queue of socket 1, across the end of the ring. *)
Definition sim_received : sim :=
  Sim None (<[sreg W5100_Sn_RX_RD 1 := 7]> (<[sreg W5100_Sn_RX_RD 1 + 1 := 255]>
    (<[get_rx_base 1 + 2047 := 10]> (<[get_rx_base 1 := 20]> (<[get_rx_base 1 + 1 := 30]> (λ _, 0))))))
    (λ _, 0) (<[1 := SimQ [] 0 [] 2047 3]> (λ _, q_empty)).

Lemma insert_u8 a v (m : Z → Z) : is_u8 v → (∀ b, is_u8 (m b)) → ∀ b, is_u8 ((<[a := v]> m) b).
Proof.
  intros Hv Hm b. destruct (decide (a = b)) as [->|Hne]; [by rewrite fn_lookup_insert|by rewrite fn_lookup_insert_ne].
Qed.

Lemma sim_received_ok : sim_ok sim_received.
Proof. split; [done|]. unfold sim_received, sim_mem. by repeat (apply insert_u8; [done|]). Qed.

Lemma read_buf_refines_witness :
  wp (read_buf 1 1 [0; 0; 0; 0] 4) sim_received (λ r s',
    let '(bs, h) := rx_take 1 4 (proj sim_received) in
    r = (Z.of_nat (length bs), bs ++ drop (length bs) [0; 0; 0; 0]) ∧ ∃ h', s' = upd h' sim_received ∧ still h h').
Proof.
  apply (read_buf_refines 1 1 sim_responsive); [lia|exact sim_received_ok|done|lia|simpl; lia].
Defined.

Example rx_take_received : (rx_take 1 4 sim_received).1 = [10; 20; 30].
Proof. reflexivity. Qed.

Lemma write_buf_refines_witness :
  wp (write_buf 1 1 [1; 2; 3] 2) sim_received (λ r s', r = (tx_append 1 [1; 2; 3] 2 (proj sim_received)).1 ∧
    ∃ h', s' = upd h' sim_received ∧ still (tx_append 1 [1; 2; 3] 2 (proj sim_received)).2 h').
Proof.
  apply (write_buf_refines 1 1 sim_responsive); [lia|exact sim_received_ok|done|simpl; lia].
Defined.
