(* ===== verification/W5100Ledger.v ===== *)
(** * The bytes a socket has sent or received: what leaves them alone

    The chip keeps a log of each socket that grows only by one of the commands
    SEND and RECV. The readings of the driver of [src/w5100_socket.c], its other
    commands, and its writes to other addresses extend the log by nothing.
    [W5100Sent] and [W5100Received] are the two logs. *)

From stdpp Require Import prelude list numbers functions.
From S2P Require Import Prelude Timespec Clock Inet Files Poll Sockets Opencm3 W5100Spi W5100Socket W5100Chip.

(** The commands that move no data. *)
Definition control_commands : list Z :=
  [W5100_CMD_OPEN; W5100_CMD_LISTEN; W5100_CMD_CONNECT; W5100_CMD_DISCON; W5100_CMD_CLOSE].

(** A log of the sockets. [idle] says that the pointers of the driver and of the
    chip agree; [own a j] that the address [a] belongs to the queue of the socket
    [j]; [cmds] are the commands that do not extend the log. *)
Class Ledger {H A : Type} `{!W5100 H} (log : Z → H → list A) (idle : Z → H → Prop) (own : Z → Z → Prop)
    (cmds : list Z) : Prop := {
  ledger_load a j h : chip_ok h → is_sock j →
    log j (chip_load a h).2 = log j h ∧ (idle j h → idle j (chip_load a h).2);
  ledger_store a v j h : chip_ok h → is_sock j → a ≠ W5100_MR → ¬ own a j → a ≠ sreg W5100_Sn_CR j →
    log j (chip_store a v h) = log j h ∧ (idle j h → idle j (chip_store a v h));
  ledger_command cmd j h : chip_ok h → is_sock j → cmd ∈ cmds →
    let h' := chip_store (sreg W5100_Sn_CR j) cmd h in log j h' = log j h ∧ (idle j h → idle j h');
  (* the registers below [W5100_Sn_TX_RD] configure the socket *)
  ledger_own i r j : is_sock i → is_sock j → 0 ≤ r < W5100_Sn_TX_RD → ¬ own (sreg r i) j;
}.

(** From [h] to [h'] the log of the socket [i] has been extended by [bs], those
    of the others by nothing. *)
Definition extends {H A : Type} `{!W5100 H} (log : Z → H → list A) (idle : Z → H → Prop)
    (i : Z) (bs : list A) (h h' : H) : Prop :=
  chip_ok h' ∧ ∀ j, is_sock j →
    log j h' = log j h ++ (if decide (j = i) then bs else []) ∧ (idle j h → idle j h').

Lemma sock_cases i : is_sock i → i = 0 ∨ i = 1 ∨ i = 2 ∨ i = 3.
Proof. unfold is_sock. lia. Qed.

Lemma sock_0 : is_sock 0.
Proof. done. Qed.

Section ledger.
Context {H A : Type} `{!W5100 H} (log : Z → H → list A) (idle : Z → H → Prop).
Abbreviation extends := (extends log idle).

Lemma extends_trans i b1 b2 h1 h2 h3 : extends i b1 h1 h2 → extends i b2 h2 h3 → extends i (b1 ++ b2) h1 h3.
Proof.
  intros [_ H1] [Hok H2]. split; [done|]. intros j Hj. destruct (H1 j Hj) as [E1 I1], (H2 j Hj) as [E2 I2].
  split; [|by auto]. rewrite E2, E1, <- app_assoc. by case_decide.
Qed.

(** A step that keeps all logs. *)
Lemma extends_none i h h' :
  chip_ok h' → (∀ j, is_sock j → log j h' = log j h ∧ (idle j h → idle j h')) → extends i [] h h'.
Proof.
  intros Hok Hq. split; [done|]. intros j Hj. destruct (Hq j Hj) as [-> Hid]. split; [|done].
  case_decide; by rewrite app_nil_r.
Qed.

Lemma extends_refl i h : chip_ok h → extends i [] h h.
Proof. intros. by apply extends_none. Qed.

Context (own : Z → Z → Prop) (cmds : list Z) `{!Ledger log idle own cmds}.

Lemma extends_still i h h' : still h h' → extends i [] h h'.
Proof.
  intros (_ & Hok & l & ->). revert h Hok. induction l as [|a l IH]; intros h Hok; [by apply extends_refl|].
  assert (H1 : extends i [] h (chip_load a h).2).
  { apply extends_none; [by apply load_ok|]. intros. by apply ledger_load. }
  specialize (IH _ (load_ok a h Hok)). simpl. destruct (chip_load a h) as [v h1]. simpl in *.
  destruct (loads l h1). exact (extends_trans _ _ _ _ _ _ H1 IH).
Qed.

(** Addresses of no queue. *)
Definition aside (a : Z) : Prop := a ≠ W5100_MR ∧ ∀ j, is_sock j → ¬ own a j ∧ a ≠ sreg W5100_Sn_CR j.

Lemma extends_stores k l h : chip_ok h → Forall (λ p, aside p.1) l → extends k [] h (stores l h).
Proof.
  intros Hok Hl. revert h Hok. induction Hl as [|[a v] l [HMR Ha] _ IH]; intros h Hok; [by apply extends_refl|].
  assert (H1 : extends k [] h (chip_store a v h)).
  { apply extends_none; [by apply store_ok|]. intros j Hj. destruct (Ha j Hj). by apply ledger_store. }
  exact (extends_trans _ _ _ _ _ _ H1 (IH _ (store_ok a v h Hok))).
Qed.

Lemma sreg_inj i j r : is_sock i → is_sock j → 0 ≤ r < 256 → sreg r i = sreg W5100_Sn_CR j → i = j ∧ r = W5100_Sn_CR.
Proof. unfold is_sock, sreg, W5100_Sn_CR. lia. Qed.

Lemma sreg_not_MR i r : is_sock i → 0 ≤ r → sreg r i ≠ W5100_MR.
Proof. unfold is_sock, sreg, W5100_MR. lia. Qed.

Lemma aside_config i r : is_sock i → 0 ≤ r < W5100_Sn_TX_RD → r ≠ W5100_Sn_CR → aside (sreg r i).
Proof.
  intros Hi Hr Hne. unfold W5100_Sn_TX_RD in *. split; [apply sreg_not_MR; [done|lia]|]. intros j Hj.
  split; [by apply ledger_own|]. intros E. apply sreg_inj in E; [naive_solver|done|done|lia].
Qed.

Lemma extends_command i k cmd h : chip_ok h → is_sock i → cmd ∈ cmds →
  extends k [] h (chip_store (sreg W5100_Sn_CR i) cmd h).
Proof.
  intros Hok Hi Hcmd. apply extends_none; [by apply store_ok|]. intros j Hj.
  destruct (decide (j = i)) as [->|Hne]; [by apply ledger_command|].
  apply ledger_store; [done|done|by apply sreg_not_MR|by apply ledger_own|].
  intros E. apply sreg_inj in E; [naive_solver|done..].
Qed.
End ledger.
