(* ===== verification/W5100Sent.v ===== *)
(** * What a socket sends: the transmit queues of the chip

    [W5100Transmit] is what the chip promises of them: the command SEND hands
    over the bytes between the place where the last one ended and the write
    pointer, as one packet for the peer the chip has at that time. From it, what [write_buf] of [src/w5100_socket.c] appends is handed
    over at once. *)

From stdpp Require Import prelude list numbers functions.
From S2P Require Import Prelude Timespec Clock Inet Files Poll Sockets Opencm3 W5100Spi W5100Socket W5100Chip W5100Ring W5100Stream W5100Ledger.

(** The transmit queue of a socket: what has been handed over by SEND since the
    start, where the next SEND begins, and the write pointer. *)
Record txq := Txq { tx_sent : list packet; tx_start : Z; tx_ptr : Z }.

(** The transmit registers of a socket, from [TX_RD] to [TX_WR]. *)
Definition tx_reg (a i : Z) : Prop := sreg W5100_Sn_TX_RD i ≤ a < sreg W5100_Sn_TX_WR i + 2.

(** How many bytes are between the two pointers of a queue. *)
Definition tx_pending (q : txq) : Z := (tx_ptr q - tx_start q) mod 65536.

Class W5100Transmit (H : Type) `{!W5100 H} := {
  tx_of : Z → H → txq;
  (* the bytes of the peer's address and port: for a datagram, those of the
     registers; the chip has its own for a connection *)
  tx_dest : Z → H → list Z;
  tx_load a i h : chip_ok h → tx_of i (chip_load a h).2 = tx_of i h;
  tx_read i h : chip_ok h → is_sock i → (reg16 W5100_Sn_TX_WR i h).1 = tx_ptr (tx_of i h);
  tx_store a v i h : chip_ok h → is_sock i → a ≠ W5100_MR → ¬ tx_reg a i → a ≠ sreg W5100_Sn_CR i →
    tx_of i (chip_store a v h) = tx_of i h;
  tx_write p i h : chip_ok h → is_sock i → is_u16 p →
    tx_of i (stores [(sreg W5100_Sn_TX_WR i, p / 256); (sreg W5100_Sn_TX_WR i + 1, p mod 256)] h) =
      Txq (tx_sent (tx_of i h)) (tx_start (tx_of i h)) p;
  tx_send i h : chip_ok h → is_sock i → tx_pending (tx_of i h) ≤ 2048 →
    tx_of i (chip_store (sreg W5100_Sn_CR i) W5100_CMD_SEND h) =
      Txq (tx_sent (tx_of i h) ++ [Packet (tx_dest i h) ((λ b, cell b h) <$>
             ring_addrs (get_tx_base i) (tx_start (tx_of i h)) (Z.to_nat (tx_pending (tx_of i h))))])
          (tx_ptr (tx_of i h)) (tx_ptr (tx_of i h));
  (* the other commands of the driver hand nothing over; OPEN resets both pointers *)
  tx_command cmd i h : chip_ok h → is_sock i →
    cmd ∈ W5100_CMD_RECV :: control_commands →
    let q := tx_of i h in let q' := tx_of i (chip_store (sreg W5100_Sn_CR i) cmd h) in
    tx_sent q' = tx_sent q ∧ (tx_start q = tx_ptr q → tx_start q' = tx_ptr q');
}.

Section sent.
Context {H : Type} `{!W5100 H, !W5100Commands H, !W5100Transmit H}.

(** Between the calls of the driver everything written has been handed over. *)
Definition tx_idle (i : Z) (h : H) : Prop := tx_start (tx_of i h) = tx_ptr (tx_of i h).

Definition tx_log (i : Z) (h : H) : list packet := tx_sent (tx_of i h).

#[export] Instance tx_ledger : Ledger tx_log tx_idle tx_reg (W5100_CMD_RECV :: control_commands).
Proof.
  split; unfold tx_log, tx_idle.
  - intros. by rewrite tx_load.
  - intros. by rewrite tx_store.
  - intros. by apply tx_command.
  - unfold tx_reg, sreg, is_sock, W5100_Sn_TX_RD, W5100_Sn_TX_WR. lia.
Qed.

(** From [h] to [h'] the socket [i] has sent the packets, the others nothing. *)
Abbreviation sends := (extends tx_log tx_idle).

Lemma tx_still j h h' : still h h' → tx_of j h' = tx_of j h.
Proof. apply still_keeps. intros. by apply tx_load. Qed.

Lemma tx_stores_same l j h : chip_ok h → is_sock j →
  Forall (λ p, p.1 ≠ W5100_MR ∧ ¬ tx_reg p.1 j ∧ p.1 ≠ sreg W5100_Sn_CR j) l → tx_of j (stores l h) = tx_of j h.
Proof.
  intros Hok Hj Hl. revert h Hok. induction Hl as [|[a v] l (Ha & Hr & Hc) _ IH]; intros h Hok; [done|]. simpl in *.
  rewrite IH by (by apply store_ok). by apply tx_store.
Qed.

Lemma ring_plain i p n : is_sock i → Forall (λ a, plain a = true ∧ 16384 ≤ a < 24576) (ring_addrs (get_tx_base i) p n).
Proof.
  intros Hi. rewrite tx_base_eq by done. apply Forall_fmap, list.Forall_forall. intros k _. simpl.
  unfold is_sock in Hi. assert (16384 ≤ 16384 + 2048 * i + (p + Z.of_nat k) mod 2048 < 24576) by zlia.
  split; [|done]. unfold plain. apply bool_decide_eq_true. lia.
Qed.

Lemma NoDup_ring base p n : Z.of_nat n ≤ 2048 → NoDup (ring_addrs base p n).
Proof.
  intros Hn. apply NoDup_fmap_2_strong; [|apply NoDup_seq]. intros j k Hj%elem_of_seq Hk%elem_of_seq. zlia.
Qed.

(** Bytes are put into the ring: the queues do not change. *)
Lemma ring_stores i p bs h : chip_ok h → is_sock i → Z.of_nat (length bs) ≤ 2048 → Forall is_u8 bs →
  let h' := stores (zip (ring_addrs (get_tx_base i) p (length bs)) bs) h in
  chip_ok h' ∧ (λ b, cell b h') <$> ring_addrs (get_tx_base i) p (length bs) = bs ∧
  ∀ j, is_sock j → tx_of j h' = tx_of j h.
Proof.
  intros Hok Hi Hn Hbs h'. pose proof (ring_plain i p (length bs) Hi) as Hpl.
  split; [by apply stores_ok|]. split.
  - apply stores_cells; [done|apply length_ring_addrs|by apply NoDup_ring|done|]. eapply list.Forall_impl; [exact Hpl|naive_solver].
  - intros j Hj. apply tx_stores_same; [done|done|]. apply list.Forall_forall. intros [a v] Hin%elem_of_zip_l.
    rewrite list.Forall_forall in Hpl. destruct (Hpl a Hin) as [_ Ha]. simpl.
    unfold tx_reg, sreg, is_sock, W5100_Sn_CR, W5100_Sn_TX_RD, W5100_Sn_TX_WR, W5100_MR in *. lia.
Qed.

(** The accesses of [write_buf] up to the command keep [P]. *)
Record tx_kept (i : Z) (P : H → Prop) : Prop := {
  kept_load a h : chip_ok h → P h → P (chip_load a h).2;
  kept_store a v h : chip_ok h → 16384 ≤ a < 24576 ∨ a = sreg W5100_Sn_TX_WR i ∨ a = sreg W5100_Sn_TX_WR i + 1 →
    P h → P (chip_store a v h);
}.

Lemma tx_kept_still i P h h' : tx_kept i P → still h h' → P h → P h'.
Proof.
  intros HP (_ & Hok & l & ->). revert h Hok. induction l as [|a l IH]; intros h Hok Hh; [done|]. simpl.
  pose proof (kept_load i P HP a h Hok Hh) as H1. specialize (IH _ (load_ok a h Hok) H1).
  destruct (chip_load a h) as [v h1]. simpl in *. by destruct (loads l h1).
Qed.

Lemma tx_kept_stores i P l h : tx_kept i P → chip_ok h → P h →
  Forall (λ p, 16384 ≤ p.1 < 24576 ∨ p.1 = sreg W5100_Sn_TX_WR i ∨ p.1 = sreg W5100_Sn_TX_WR i + 1) l → P (stores l h).
Proof.
  intros HP Hok Hh Hl. revert h Hok Hh. induction Hl as [|[a v] l Ha _ IH]; intros h Hok Hh; [done|]. simpl in *.
  apply IH; [by apply store_ok|by apply HP].
Qed.

(** The write pointer is moved and the command SEND given. *)
Lemma advance_sends i n h P : chip_ok h → is_sock i → tx_idle i h → 0 ≤ n ≤ 2048 → tx_kept i P → P h →
  ∃ h1, P h1 ∧
  sends i [Packet (tx_dest i h1) ((λ b, cell b h) <$> ring_addrs (get_tx_base i) (tx_ptr (tx_of i h)) (Z.to_nat n))]
    h (advance W5100_Sn_TX_WR (u16 (tx_ptr (tx_of i h) + n)) W5100_CMD_SEND i h).
Proof.
  intros Hok Hi Hidle Hn HP Hh. unfold advance. set (p := u16 _).
  set (l := [(sreg W5100_Sn_TX_WR i, p / 256); (sreg W5100_Sn_TX_WR i + 1, p mod 256)]).
  change (stores _ h) with (chip_store (sreg W5100_Sn_CR i) W5100_CMD_SEND (stores l h)).
  assert (Hok1 : chip_ok (stores l h)) by (by apply stores_ok).
  assert (HMR : Forall (λ p, p.1 ≠ W5100_MR) l).
  { repeat constructor; simpl; unfold sreg, is_sock, W5100_MR, W5100_Sn_TX_WR in *; lia. }
  assert (Hq : tx_of i (stores l h) = Txq (tx_sent (tx_of i h)) (tx_start (tx_of i h)) p)
    by (apply tx_write; [done|done|apply u16_range]).
  assert (Hpend : tx_pending (tx_of i (stores l h)) = n).
  { rewrite Hq. unfold tx_pending. simpl. rewrite Hidle. unfold p, u16. zlia. }
  exists (stores l h). split; [apply (tx_kept_stores i); [done..|repeat constructor; simpl; tauto]|].
  split; [by apply store_ok|]. intros j Hj. destruct (decide (j = i)) as [->|Hne].
  - unfold tx_log, tx_idle. rewrite tx_send by (done || lia). rewrite Hpend, Hq. cbn [tx_sent tx_start tx_ptr]. split; [|done].
    rewrite Hidle. do 3 f_equal. apply list_fmap_ext. intros k a Ha. apply list_elem_of_lookup_2 in Ha.
    pose proof (ring_plain i (tx_ptr (tx_of i h)) (Z.to_nat n) Hi) as Hpl. rewrite list.Forall_forall in Hpl.
    destruct (Hpl a Ha) as [Hp Hr]. apply stores_out; [done..|].
    unfold l. simpl. rewrite !elem_of_cons. unfold sreg, is_sock, W5100_Sn_TX_WR in *. intros [?|[?|?%elem_of_nil]]; lia.
  - assert (Hs : tx_of j (chip_store (sreg W5100_Sn_CR i) W5100_CMD_SEND (stores l h)) = tx_of j h).
    { rewrite tx_store; [apply tx_stores_same; [done|done|]|done|done|..];
        unfold l; repeat constructor; simpl;
        unfold tx_reg, sreg, is_sock, W5100_Sn_CR, W5100_Sn_TX_RD, W5100_Sn_TX_WR, W5100_MR in *; lia. }
    unfold tx_log, tx_idle. by rewrite Hs, app_nil_r.
Qed.

(** What is handed over when [write_buf] returns [r]: the first [r] bytes, as one
    packet, or none at all. *)
Definition handed (i : Z) (P : H → Prop) (r : Z) (bs : list Z) (pks : list packet) : Prop :=
  (r = 0 ∧ pks = []) ∨ ∃ h, P h ∧ pks = [Packet (tx_dest i h) (take (Z.to_nat r) bs)].

Lemma handed_data i P r bs pks : handed i P r bs pks → pks ≫= pk_data = take (Z.to_nat r) bs.
Proof. intros [[-> ->]|(h & _ & ->)]; [done|]. simpl. by rewrite app_nil_r. Qed.

(** What [tx_append] adds to the queue is handed over. *)
Lemma tx_append_sends i bs len h P : chip_ok h → is_sock i → tx_idle i h → Forall is_u8 bs →
  0 ≤ len ≤ Z.of_nat (length bs) → tx_kept i P → P h →
  let '(r, h') := tx_append i bs len h in 0 ≤ r ≤ len ∧ ∃ pks, handed i P r bs pks ∧ sends i pks h h'.
Proof.
  intros Hok Hi Hidle Hbs Hlen HP Hh. unfold tx_append.
  pose proof (tx_free_2048 i h Hok Hi) as Hfree. pose proof (reg16_range W5100_Sn_TX_FSR i h Hok) as Hf.
  pose proof (reg16_still W5100_Sn_TX_FSR i h Hok) as Hs1.
  destruct (reg16 W5100_Sn_TX_FSR i h) as [f h1]. cbn [fst snd] in *. unfold is_u16 in Hf.
  case_decide.
  { split; [lia|]. exists []. split; [by left|]. by eapply extends_still; [apply tx_ledger|]. }
  set (n := Z.min len f).
  pose proof (tx_read i h1 (proj1 Hs1) Hi) as Hp. pose proof (reg16_still W5100_Sn_TX_WR i h1 (proj1 Hs1)) as Hs2.
  destruct (reg16 W5100_Sn_TX_WR i h1) as [p h2]. cbn [fst snd] in *. rewrite (tx_still i h h1 Hs1) in Hp.
  assert (Hs : still h h2) by (by eapply still_trans).
  assert (Hl : length (take (Z.to_nat n) bs) = Z.to_nat n) by (rewrite length_take; lia).
  destruct (ring_stores i p (take (Z.to_nat n) bs) h2 (proj1 Hs) Hi) as (Hok3 & Hcells & Hq); [lia|by apply Forall_take|].
  rewrite Hl in Hok3, Hcells, Hq. set (h3 := stores _ h2) in *.
  assert (Hp3 : tx_ptr (tx_of i h3) = p) by (by rewrite Hq, (tx_still i h h2 Hs)).
  assert (Hidle3 : tx_idle i h3) by (unfold tx_idle; by rewrite Hq, (tx_still i h h2 Hs)).
  assert (Hh3 : P h3).
  { apply (tx_kept_stores i); [done|apply Hs|by eapply tx_kept_still|]. apply list.Forall_forall.
    intros [a v] Ha%elem_of_zip_l. pose proof (ring_plain i p (Z.to_nat n) Hi) as Hpl.
    rewrite list.Forall_forall in Hpl. left. by apply Hpl. }
  split; [lia|]. destruct (advance_sends i n h3 P Hok3 Hi Hidle3 ltac:(lia) HP Hh3) as (h4 & Hh4 & Hsend).
  rewrite Hp3, Hcells in Hsend. eexists. split; [right; by exists h4|].
  rewrite <- (app_nil_l [_]). eapply extends_trans; [|exact Hsend].
  apply extends_none; [done|]. intros j Hj. unfold tx_log, tx_idle. by rewrite Hq, (tx_still j h h2 Hs).
Qed.
End sent.

(** ** The simulated chip *)

Definition sim_txq (i : Z) (c : sim) : txq :=
  Txq (q_sent (sim_q c i)) (q_tx (sim_q c i)) (sim_pair W5100_Sn_TX_WR i c).

(** What the queue of the socket [i] depends on. *)
Lemma sim_txq_ext i c c' : q_sent (sim_q c' i) = q_sent (sim_q c i) → q_tx (sim_q c' i) = q_tx (sim_q c i) →
  (∀ a, tx_reg a i → sim_mem c' a = sim_mem c a) → sim_txq i c' = sim_txq i c.
Proof.
  intros Hs Ht Hm. unfold sim_txq, sim_pair, tx_reg, sreg, W5100_Sn_TX_RD, W5100_Sn_TX_WR in *.
  by rewrite Hs, Ht, !Hm by lia.
Qed.

#[export] Program Instance sim_transmit : W5100Transmit sim := {| tx_of := sim_txq; tx_dest := sim_peer |}.
Next Obligation. done. Qed.
Next Obligation. intros i h _ Hi. destruct (sock_cases i Hi) as [->|[->|[->| ->]]]; reflexivity. Qed.
Next Obligation.
  intros a v i h _ Hi _ Hr Hcr. unfold chip_store, sim_w5100, sim_store.
  unfold tx_reg, sreg, is_sock, W5100_Sn_TX_RD, W5100_Sn_TX_WR, W5100_Sn_CR in *.
  case_decide as Ha; apply sim_txq_ext; simpl; try done.
  1,2: by rewrite fn_lookup_insert_ne by zlia.
  all: intros b Hb; unfold tx_reg, sreg, W5100_Sn_TX_RD, W5100_Sn_TX_WR in Hb; rewrite fn_lookup_insert_ne; [done|zlia].
Qed.
Next Obligation.
  intros p i h _ Hi Hp. unfold is_u16 in Hp.
  assert (Hp' : u8 (p / 256) * 256 + u8 (p mod 256) = p) by (unfold u8; zlia).
  transitivity (Txq (q_sent (sim_q h i)) (q_tx (sim_q h i)) (u8 (p / 256) * 256 + u8 (p mod 256))); [|by rewrite Hp'].
  destruct (sock_cases i Hi) as [->|[->|[->| ->]]]; reflexivity.
Qed.
Next Obligation.
  intros i h _ Hi _. destruct (sock_cases i Hi) as [->|[->|[->| ->]]]; unfold ring_addrs; rewrite <- list_fmap_compose; reflexivity.
Qed.
Next Obligation.
  intros cmd i h _ Hi Hcmd. unfold control_commands in Hcmd.
  repeat (apply elem_of_cons in Hcmd as [->|Hcmd]; [destruct (sock_cases i Hi) as [->|[->|[->| ->]]]; done|]).
  by apply elem_of_nil in Hcmd.
Qed.

