(* ===== verification/W5100Received.v ===== *)
(** * What a socket receives: the receive queues of the chip

    [W5100Receive] is what the chip promises of them: they grow at the end while
    nothing else happens, the registers and the ring memory show them, and the
    command RECV takes the bytes up to the read pointer from them. From it, what
    [read_buf] of [src/w5100_socket.c] yields are the next bytes of the queue. *)

From stdpp Require Import prelude list numbers functions.
From S2P Require Import Prelude Timespec Clock Inet Files Poll Sockets Opencm3 W5100Spi W5100Socket W5100Chip W5100Ring W5100Stream W5100Ledger.

(** The receive queue of a socket: what has been taken since the start, what
    waits, where the next RECV begins, and the read pointer. *)
Record rxq := Rxq { rx_taken : list Z; rx_queue : list Z; rx_start : Z; rx_ptr : Z }.

(** Bytes arrive from the network. *)
Definition arrives (q q' : rxq) : Prop :=
  ∃ more, q' = Rxq (rx_taken q) (rx_queue q ++ more) (rx_start q) (rx_ptr q).

(** The registers of the queue, from [RX_RSR] to [RX_RD], and how many bytes are
    between the two pointers. *)
Definition rx_reg (a i : Z) : Prop := sreg W5100_Sn_RX_RSR i ≤ a < sreg W5100_Sn_RX_RD i + 2.
Definition rx_pending (q : rxq) : nat := Z.to_nat ((rx_ptr q - rx_start q) mod 65536).

Class W5100Receive (H : Type) `{!W5100 H} := {
  rx_of : Z → H → rxq;
  rx_bound i h : chip_ok h → is_sock i → (length (rx_queue (rx_of i h)) ≤ 2048)%nat;
  rx_load a i h : chip_ok h → is_sock i → arrives (rx_of i h) (rx_of i (chip_load a h).2);
  (* the size is read as two bytes, between which more may arrive *)
  rx_size i h : chip_ok h → is_sock i →
    (chip_load (sreg W5100_Sn_RX_RSR i) h).1 = Z.of_nat (length (rx_queue (rx_of i h))) / 256;
  rx_size_low i h : chip_ok h → is_sock i →
    (chip_load (sreg W5100_Sn_RX_RSR i + 1) h).1 = Z.of_nat (length (rx_queue (rx_of i h))) mod 256;
  rx_read i h : chip_ok h → is_sock i → (reg16 W5100_Sn_RX_RD i h).1 = rx_ptr (rx_of i h);
  rx_byte k b i h : chip_ok h → is_sock i → rx_queue (rx_of i h) !! k = Some b →
    (chip_load (get_rx_base i + (rx_start (rx_of i h) + Z.of_nat k) mod 2048) h).1 = b;
  rx_store a v i h : chip_ok h → is_sock i → a ≠ W5100_MR → a < W5100_RX_MEM_BASE → ¬ rx_reg a i →
    a ≠ sreg W5100_Sn_CR i → arrives (rx_of i h) (rx_of i (chip_store a v h));
  rx_write p i h : chip_ok h → is_sock i → is_u16 p → let q := rx_of i h in
    arrives (Rxq (rx_taken q) (rx_queue q) (rx_start q) p)
      (rx_of i (stores [(sreg W5100_Sn_RX_RD i, p / 256); (sreg W5100_Sn_RX_RD i + 1, p mod 256)] h));
  rx_recv i h : chip_ok h → is_sock i → let q := rx_of i h in let n := rx_pending q in
    (n ≤ length (rx_queue q))%nat →
    arrives (Rxq (rx_taken q ++ take n (rx_queue q)) (drop n (rx_queue q)) (rx_ptr q) (rx_ptr q))
      (rx_of i (chip_store (sreg W5100_Sn_CR i) W5100_CMD_RECV h));
  (* the other commands take nothing; OPEN resets both pointers *)
  rx_command cmd i h : chip_ok h → is_sock i → cmd ∈ W5100_CMD_SEND :: control_commands →
    let q := rx_of i h in let q' := rx_of i (chip_store (sreg W5100_Sn_CR i) cmd h) in
    rx_taken q' = rx_taken q ∧ (rx_start q = rx_ptr q → rx_start q' = rx_ptr q');
}.

Section received.
Context {H : Type} `{!W5100 H, !W5100Commands H, !W5100Receive H}.

Definition rx_idle (i : Z) (h : H) : Prop := rx_start (rx_of i h) = rx_ptr (rx_of i h).
Definition rx_log (i : Z) (h : H) : list Z := rx_taken (rx_of i h).

#[export] Instance arrives_preorder : PreOrder arrives.
Proof.
  split; [intros []; exists []; by rewrite app_nil_r|]. intros q _ _ [m1 ->] [m2 ->]. exists (m1 ++ m2).
  simpl. by rewrite app_assoc.
Qed.

Lemma arrives_same i h h' : arrives (rx_of i h) (rx_of i h') → rx_log i h' = rx_log i h ∧ (rx_idle i h → rx_idle i h').
Proof. unfold rx_log, rx_idle. by intros [more ->]. Qed.

Definition rx_own (a i : Z) : Prop := rx_reg a i ∨ W5100_RX_MEM_BASE ≤ a.

#[export] Instance rx_ledger : Ledger rx_log rx_idle rx_own (W5100_CMD_SEND :: control_commands).
Proof.
  split.
  - intros. by apply arrives_same, rx_load.
  - intros a v j h Hok Hj HMR Hown Hcr. unfold rx_own in Hown. apply arrives_same, rx_store; [done..|lia|tauto|done].
  - intros. by apply rx_command.
  - unfold rx_own, rx_reg, sreg, is_sock, W5100_Sn_TX_RD, W5100_Sn_RX_RSR, W5100_Sn_RX_RD, W5100_RX_MEM_BASE. lia.
Qed.

(** From [h] to [h'] the bytes [bs] have been taken from the socket [i], nothing
    from the others. *)
Abbreviation takes := (extends rx_log rx_idle).

Lemma loads_arrive l i h : chip_ok h → is_sock i → arrives (rx_of i h) (rx_of i (loads l h).2).
Proof.
  intros Hok Hi. revert h Hok. induction l as [|a l IH]; intros h Hok; [done|]. simpl.
  pose proof (rx_load a i h Hok Hi) as H1. specialize (IH _ (load_ok a h Hok)).
  destruct (chip_load a h) as [v h1]. simpl in *. destruct (loads l h1). simpl in *. by etrans.
Qed.

(** The size is read, torn or not: at least that many bytes wait afterwards. *)
Lemma rx_size_read i h : chip_ok h → is_sock i →
  let '(n, h') := reg16 W5100_Sn_RX_RSR i h in
  0 ≤ n ≤ Z.of_nat (length (rx_queue (rx_of i h'))) ∧ still h h'.
Proof.
  intros Hok Hi. pose proof (loads_still [sreg W5100_Sn_RX_RSR i; sreg W5100_Sn_RX_RSR i + 1] h Hok) as Hs.
  pose proof (rx_size i h Hok Hi) as Hhi. pose proof (rx_load (sreg W5100_Sn_RX_RSR i) i h Hok Hi) as [m1 H1].
  pose proof (load_ok (sreg W5100_Sn_RX_RSR i) h Hok) as Hok1.
  unfold reg16. simpl in Hs. destruct (chip_load (sreg W5100_Sn_RX_RSR i) h) as [hi h1]. simpl in *.
  pose proof (rx_size_low i h1 Hok1 Hi) as Hlo. pose proof (rx_load (sreg W5100_Sn_RX_RSR i + 1) i h1 Hok1 Hi) as [m2 H2].
  destruct (chip_load (sreg W5100_Sn_RX_RSR i + 1) h1) as [lo h2]. simpl in *. split; [|exact Hs].
  rewrite H2, Hhi, Hlo, H1. simpl. rewrite !length_app, !Nat2Z.inj_add. zlia.
Qed.

(** Reading the ring yields the bytes that wait. *)
Lemma loads_ring i j n h : chip_ok h → is_sock i → (j + n ≤ length (rx_queue (rx_of i h)))%nat →
  (loads ((λ k : nat, get_rx_base i + (rx_start (rx_of i h) + Z.of_nat k) mod 2048) <$> seq j n) h).1 =
    take n (drop j (rx_queue (rx_of i h))).
Proof.
  intros Hok Hi. revert j h Hok. induction n as [|n IH]; intros j h Hok Hlen; [done|].
  destruct (lookup_lt_is_Some_2 (rx_queue (rx_of i h)) j) as [b Hb]; [lia|].
  rewrite (drop_S _ _ _ Hb). simpl. set (a := get_rx_base i + _).
  pose proof (rx_byte j b i h Hok Hi Hb) as Hv. pose proof (rx_load a i h Hok Hi) as [more Hq].
  specialize (IH (Datatypes.S j) (chip_load a h).2 (load_ok a h Hok)). rewrite Hq in IH. simpl in IH.
  rewrite length_app, drop_app_le, take_app_le in IH by (rewrite ?length_drop; lia).
  specialize (IH ltac:(lia)). destruct (chip_load a h) as [v h1] eqn:E. simpl in *.
  assert (v = b) as -> by (unfold a in E; by rewrite E in Hv).
  destruct (loads _ h1) as [vs h2]. simpl in *. by rewrite IH.
Qed.

(** The read pointer is moved and the command RECV given. *)
Lemma advance_takes i n h : chip_ok h → is_sock i → rx_idle i h → 0 ≤ n ≤ Z.of_nat (length (rx_queue (rx_of i h))) →
  takes i (take (Z.to_nat n) (rx_queue (rx_of i h))) h
    (advance W5100_Sn_RX_RD (u16 (rx_ptr (rx_of i h) + n)) W5100_CMD_RECV i h).
Proof.
  intros Hok Hi Hidle Hn. pose proof (rx_bound i h Hok Hi) as Hb. unfold advance. set (p := u16 _).
  set (l := [(sreg W5100_Sn_RX_RD i, p / 256); (sreg W5100_Sn_RX_RD i + 1, p mod 256)]).
  change (stores _ h) with (chip_store (sreg W5100_Sn_CR i) W5100_CMD_RECV (stores l h)).
  assert (Hok1 : chip_ok (stores l h)) by (by apply stores_ok).
  split; [by apply store_ok|]. intros j Hj. destruct (decide (j = i)) as [->|Hne].
  - pose proof (rx_write p i h Hok Hi (u16_range _)) as [m1 Hq]. fold l in Hq. cbn [rx_taken rx_queue rx_start rx_ptr] in Hq.
    assert (Hpend : rx_pending (rx_of i (stores l h)) = Z.to_nat n).
    { rewrite Hq. unfold rx_pending. simpl. rewrite Hidle. unfold p, u16. zlia. }
    pose proof (rx_recv i (stores l h) Hok1 Hi) as Hr. cbv zeta in Hr. rewrite Hpend, Hq in Hr. cbn [rx_taken rx_queue rx_start rx_ptr] in Hr.
    rewrite length_app, take_app_le in Hr by lia. destruct (Hr ltac:(lia)) as [m2 Hq2].
    unfold rx_log, rx_idle. rewrite Hq2. done.
  - rewrite app_nil_r. apply arrives_same. transitivity (rx_of j (stores l h)); [|apply rx_store; [done|done|..]].
    + unfold l. simpl. etrans; (apply rx_store; [by repeat apply store_ok|done|..]);
        unfold rx_reg, sreg, is_sock, W5100_Sn_CR, W5100_Sn_RX_RSR, W5100_Sn_RX_RD, W5100_MR, W5100_RX_MEM_BASE in *; lia.
    + unfold sreg, is_sock, W5100_MR, W5100_Sn_CR in *; lia.
    + unfold sreg, is_sock, W5100_RX_MEM_BASE, W5100_Sn_CR in *; lia.
    + unfold rx_reg, sreg, is_sock, W5100_Sn_CR, W5100_Sn_RX_RSR, W5100_Sn_RX_RD in *; lia.
    + unfold sreg, is_sock, W5100_Sn_CR in *; lia.
Qed.

(** What [rx_take] yields is taken. *)
Lemma rx_take_takes i len h : chip_ok h → is_sock i → rx_idle i h → 0 ≤ len →
  let '(bs, h') := rx_take i len h in Z.of_nat (length bs) ≤ len ∧ takes i bs h h'.
Proof.
  intros Hok Hi Hidle Hlen. unfold rx_take. pose proof (rx_size_read i h Hok Hi) as Hs.
  destruct (reg16 W5100_Sn_RX_RSR i h) as [f h1]. destruct Hs as [Hf Hs1].
  case_decide; [split; [done|by eapply extends_still; [apply rx_ledger|]]|]. set (n := Z.min len f).
  pose proof (rx_read i h1 (proj1 Hs1) Hi) as Hp. pose proof (reg16_still W5100_Sn_RX_RD i h1 (proj1 Hs1)) as Hs2.
  assert (H12 : arrives (rx_of i h1) (rx_of i (reg16 W5100_Sn_RX_RD i h1).2)).
  { destruct Hs2 as (_ & Hok1 & l & ->). by apply loads_arrive. }
  destruct (reg16 W5100_Sn_RX_RD i h1) as [p h2]. cbn [fst snd] in *.
  destruct H12 as [m2 Hq2].
  assert (Hidle1 : rx_idle i h1) by (by apply (extends_still _ _ _ _ i h h1 Hs1)).
  assert (Hp2 : p = rx_start (rx_of i h2)) by (rewrite Hq2, Hp; symmetry; exact Hidle1).
  assert (Hn : 0 ≤ n ≤ Z.of_nat (length (rx_queue (rx_of i h2)))) by (rewrite Hq2; simpl; rewrite length_app; lia).
  pose proof (loads_ring i 0 (Z.to_nat n) h2 (proj1 Hs2) Hi ltac:(lia)) as Hbs. rewrite <- Hp2, drop_0 in Hbs.
  change (fmap _ (seq 0 (Z.to_nat n))) with (ring_addrs (get_rx_base i) p (Z.to_nat n)) in Hbs.
  set (ra := ring_addrs (get_rx_base i) p (Z.to_nat n)) in *.
  pose proof (loads_still ra h2 (proj1 Hs2)) as Hs3. pose proof (loads_arrive ra i h2 (proj1 Hs2) Hi) as [m3 Hq3].
  destruct (loads ra h2) as [bs h3]. cbn [fst snd] in *.
  assert (Hs : still h h3) by eauto using still_trans.
  split; [rewrite Hbs, length_take; lia|].
  assert (Hidle3 : rx_idle i h3) by (by apply (extends_still _ _ _ _ i h h3 Hs)).
  pose proof (advance_takes i n h3 (proj1 Hs) Hi Hidle3) as Hadv. rewrite Hq3 in Hadv. simpl in Hadv.
  rewrite length_app, take_app_le, <- Hbs in Hadv by lia. rewrite <- (app_nil_l bs).
  eapply extends_trans; [by eapply extends_still; [apply rx_ledger|]|].
  replace (rx_ptr (rx_of i h2)) with p in Hadv by (rewrite Hq2; done). apply Hadv. lia.
Qed.
End received.

(** ** The simulated chip *)

Definition sim_rxq (i : Z) (c : sim) : rxq :=
  let q := sim_q c i in
  Rxq (q_taken q) (sim_ring (24576 + 2048 * i) (q_rx q) (Z.to_nat (q_size q)) c) (q_rx q) (sim_pair W5100_Sn_RX_RD i c).

Lemma sim_ring_ext base p n c c' : (∀ a, base ≤ a < base + 2048 → sim_mem c' a = sim_mem c a) →
  sim_ring base p n c' = sim_ring base p n c.
Proof.
  intros Hm. unfold sim_ring. apply list_fmap_ext. intros k a _. apply Hm. pose proof (Z.mod_pos_bound (p + Z.of_nat a) 2048). lia.
Qed.

Lemma sim_ring_split base p n m c : sim_ring base p (n + m) c = sim_ring base p n c ++ sim_ring base (p + Z.of_nat n) m c.
Proof.
  unfold sim_ring. rewrite seq_app, fmap_app. f_equal. replace (seq (0 + n) m) with (Nat.add n <$> seq 0 m) by (by rewrite fmap_add_seq, Nat.add_0_r).
  rewrite <- list_fmap_compose.
  apply list_fmap_ext. intros k a _. simpl. f_equal. f_equal. f_equal. lia.
Qed.

Lemma sim_ring_mod base p p' n c : p mod 2048 = p' mod 2048 → sim_ring base p n c = sim_ring base p' n c.
Proof.
  intros Hp. unfold sim_ring. apply list_fmap_ext. intros k a _. f_equal. f_equal.
  by rewrite <- Z.add_mod_idemp_l, Hp, Z.add_mod_idemp_l by lia.
Qed.

Lemma length_sim_ring base p n c : length (sim_ring base p n c) = n.
Proof. unfold sim_ring. by rewrite length_fmap, length_seq. Qed.

(** What the queue of the socket [i] depends on. *)
Lemma sim_rxq_ext i c c' : is_sock i → sim_q c' i = sim_q c i →
  (∀ a, rx_reg a i ∨ 24576 ≤ a → sim_mem c' a = sim_mem c a) → sim_rxq i c' = sim_rxq i c.
Proof.
  intros Hi Hq Hm. unfold sim_rxq, sim_pair, is_sock, rx_reg, sreg, W5100_Sn_RX_RSR, W5100_Sn_RX_RD in *. rewrite Hq, !Hm by lia.
  f_equal. apply sim_ring_ext. intros. apply Hm. lia.
Qed.

(** Nothing arrives: the pointer is set, and RECV takes what is in front of it. *)
Lemma sim_rx_write p i h : is_sock i → is_u16 p → let q := sim_rxq i h in
  sim_rxq i (stores [(sreg W5100_Sn_RX_RD i, p / 256); (sreg W5100_Sn_RX_RD i + 1, p mod 256)] h) =
    Rxq (rx_taken q) (rx_queue q) (rx_start q) p.
Proof.
  intros Hi Hp. unfold is_u16 in Hp. cbv zeta. simpl.
  assert (Hp' : u8 (p / 256) * 256 + u8 (p mod 256) = p) by (unfold u8; zlia).
  set (h' := sim_store _ _ (sim_store _ _ h)).
  assert (Hq : sim_q h' i = sim_q h i ∧ sim_pair W5100_Sn_RX_RD i h' = u8 (p / 256) * 256 + u8 (p mod 256) ∧
    ∀ a, 24576 ≤ a → sim_mem h' a = sim_mem h a).
  { destruct (sock_cases i Hi) as [->|[->|[->| ->]]]; (split; [reflexivity|split; [reflexivity|]]);
      intros a Ha; unfold h'; simpl; unfold sim_store, sreg, W5100_Sn_RX_RD, W5100_Sn_CR; simpl; rewrite !fn_lookup_insert_ne by lia; reflexivity. }
  destruct Hq as (Hq & Hpair & Hm). unfold sim_rxq. rewrite Hq, Hpair, Hp'. f_equal.
  apply sim_ring_ext. intros. unfold is_sock in Hi. apply Hm. lia.
Qed.

(** A command acts on the queue, and leaves ring and pointer alone. *)
Lemma sim_rx_command i cmd h : is_sock i → is_u8 cmd → let q := sim_command i cmd h in
  sim_rxq i (sim_store (sreg W5100_Sn_CR i) cmd h) =
    Rxq (q_taken q) (sim_ring (24576 + 2048 * i) (q_rx q) (Z.to_nat (q_size q)) h) (q_rx q) (sim_pair W5100_Sn_RX_RD i h).
Proof.
  intros Hi Hcmd q. destruct (sim_sreg_mod i W5100_Sn_CR Hi ltac:(done)) as [Hm Hdiv].
  unfold sim_store. rewrite Hdiv, decide_True by (unfold sreg, is_sock, W5100_Sn_CR in *; lia).
  rewrite u8_id by done. unfold sim_rxq. simpl. rewrite !fn_lookup_insert. fold q. f_equal.
  - apply sim_ring_ext. intros b Hb. apply fn_lookup_insert_ne. unfold sreg, is_sock, W5100_Sn_CR in *. lia.
  - unfold sim_pair. simpl. rewrite !fn_lookup_insert_ne; [done|unfold sreg, W5100_Sn_CR, W5100_Sn_RX_RD; lia..].
Qed.

Lemma sim_rx_recv i h : is_sock i → let q := sim_rxq i h in let n := rx_pending q in (n ≤ length (rx_queue q))%nat →
  sim_rxq i (chip_store (sreg W5100_Sn_CR i) W5100_CMD_RECV h) =
    Rxq (rx_taken q ++ take n (rx_queue q)) (drop n (rx_queue q)) (rx_ptr q) (rx_ptr q).
Proof.
  intros Hi. cbv zeta. intros Hn.
  set (q := sim_q h i). set (p := sim_pair W5100_Sn_RX_RD i h). set (n := rx_pending (sim_rxq i h)) in *.
  set (ring := λ p m, sim_ring (24576 + 2048 * i) p m h).
  assert (Hlen : length (rx_queue (sim_rxq i h)) = Z.to_nat (q_size q)) by (simpl; apply length_sim_ring).
  assert (Hq : sim_rxq i (sim_store (sreg W5100_Sn_CR i) W5100_CMD_RECV h) =
    Rxq (q_taken q ++ ring (q_rx q) n) (ring p (Z.to_nat (q_size q) - n)%nat) p p).
  { rewrite sim_rx_command by done. unfold ring. f_equal. f_equal.
    change (Z.to_nat (Z.min 2048 (Z.of_nat (Z.to_nat (q_size q) - n))) = Z.to_nat (q_size q) - n)%nat.
    pose proof (q_size_range q). lia. }
  refine (eq_trans Hq _). rewrite Hlen in Hn.
  assert (Hsplit : rx_queue (sim_rxq i h) = ring (q_rx q) n ++ ring p (Z.to_nat (q_size q) - n)%nat).
  { transitivity (ring (q_rx q) (n + (Z.to_nat (q_size q) - n))%nat).
    { simpl. unfold ring. f_equal. fold q. clear -Hn. clearbody n. lia. }
    unfold ring. rewrite sim_ring_split. f_equal. apply sim_ring_mod. unfold n, rx_pending. simpl. fold q p. zlia. }
  rewrite Hsplit, take_app_length', drop_app_length' by (unfold ring; by rewrite length_sim_ring). done.
Qed.

(** Nothing arrives by itself. *)
Lemma sim_rx_store a v i h : is_sock i → a < W5100_RX_MEM_BASE → ¬ rx_reg a i → a ≠ sreg W5100_Sn_CR i →
  sim_rxq i (sim_store a v h) = sim_rxq i h.
Proof.
  intros Hi Ha Hr Hcr. unfold sim_store.
  unfold rx_reg, sreg, is_sock, W5100_Sn_RX_RSR, W5100_Sn_RX_RD, W5100_Sn_CR, W5100_RX_MEM_BASE in *.
  case_decide as Hd; apply sim_rxq_ext; simpl; try done.
  1: by rewrite fn_lookup_insert_ne by zlia.
  all: intros b Hb; unfold rx_reg, sreg, W5100_Sn_RX_RSR, W5100_Sn_RX_RD in Hb; rewrite fn_lookup_insert_ne; [done|zlia].
Qed.

#[export] Program Instance sim_receive : W5100Receive sim := {| rx_of := sim_rxq |}.
Next Obligation. intros i h _ _. simpl. rewrite length_sim_ring. pose proof (q_size_range (sim_q h i)). lia. Qed.
Next Obligation. intros. reflexivity. Qed.
Next Obligation.
  intros i h _ Hi. simpl. rewrite length_sim_ring, Z2Nat.id by apply q_size_range.
  destruct (sock_cases i Hi) as [->|[->|[->| ->]]]; reflexivity.
Qed.
Next Obligation.
  intros i h _ Hi. simpl. rewrite length_sim_ring, Z2Nat.id by apply q_size_range.
  destruct (sock_cases i Hi) as [->|[->|[->| ->]]]; reflexivity.
Qed.
Next Obligation. intros i h _ Hi. destruct (sock_cases i Hi) as [->|[->|[->| ->]]]; reflexivity. Qed.
Next Obligation.
  intros k b i h _ Hi Hb. simpl in *. unfold sim_ring in Hb. apply list_lookup_fmap_Some in Hb as (k' & -> & Hk).
  apply lookup_seq in Hk as [-> _]. rewrite rx_base_eq by done. unfold is_sock in Hi. unfold sim_read, W5100_MR.
  set (o := _ mod 2048). assert (0 ≤ o) by (unfold o; zlia). by rewrite !decide_False by lia.
Qed.
Next Obligation. intros a v i h _ Hi _ Ha Hr Hcr. simpl. by rewrite sim_rx_store. Qed.
Next Obligation. intros p i h _ Hi Hp. exists []. rewrite app_nil_r. exact (sim_rx_write p i h Hi Hp). Qed.
Next Obligation. intros i h _ Hi. cbv zeta. intros Hn. exists []. rewrite app_nil_r. by apply sim_rx_recv. Qed.
Next Obligation.
  intros cmd i h _ Hi Hcmd. unfold control_commands in Hcmd.
  repeat (apply elem_of_cons in Hcmd as [->|Hcmd]; [destruct (sock_cases i Hi) as [->|[->|[->| ->]]]; done|]).
  by apply elem_of_nil in Hcmd.
Qed.

