(* ===== verification/W5100Table.v ===== *)
(** * The socket table keeps its invariant: [src/w5100_socket.c]

    The state of the driver is spread over three tables that point at each
    other: [w5100_sockets], the descriptor table of [file.c], and the registers
    of the chip. [table_inv] says how they agree; every call of the socket
    interface keeps it and reaches no undefined access, whatever the chip
    answers, and completes when the chip is responsive. *)

From stdpp Require Import prelude list numbers functions gmap.
From S2P Require Import Prelude Timespec Clock Inet Files Poll Sockets Opencm3 W5100Spi W5100Socket W5100Chip W5100Ring.

(** ** The state of a program with the driver *)

Record nstate (H X : Type) := NState {
  n_hw : H;
  n_socks : list w5100_socket;
  n_files : list fd_t;
  n_errno : errno;
  n_rest : X;
}.
Arguments NState {H X}.
Arguments n_hw {H X}. Arguments n_socks {H X}. Arguments n_files {H X}.
Arguments n_errno {H X}. Arguments n_rest {H X}.

Section instances.
Context {H X : Type}.

#[export] Instance nstate_hw : Has H (nstate H X) | 5 :=
  {| proj := n_hw; upd := λ h s, NState h (n_socks s) (n_files s) (n_errno s) (n_rest s) |}.
#[export] Instance nstate_socks : Has socktab (nstate H X) | 4 :=
  {| proj s := Socktab (n_socks s);
     upd := λ t s, NState (n_hw s) (w5100_sockets t) (n_files s) (n_errno s) (n_rest s) |}.
#[export] Instance nstate_files : Has ftable (nstate H X) | 4 :=
  {| proj s := Ftable (n_files s);
     upd := λ t s, NState (n_hw s) (n_socks s) (files t) (n_errno s) (n_rest s) |}.
#[export] Instance nstate_errno : Has errno (nstate H X) | 4 :=
  {| proj := n_errno; upd := λ e s, NState (n_hw s) (n_socks s) (n_files s) e (n_rest s) |}.

#[export] Instance nstate_hw_laws : HasLaws H (nstate H X).
Proof. split; [done|by intros []|done]. Qed.
#[export] Instance nstate_files_laws : HasLaws ftable (nstate H X).
Proof. split; [by intros []|by intros []|done]. Qed.

#[export] Instance nstate_clock `{!Clock X} : Clock (nstate H X) := λ id tp s,
  match clock_gettime id tp (n_rest s) with
  | Done (r, x) => Done (r, NState (n_hw s) (n_socks s) (n_files s) (n_errno s) x)
  | Fault => Fault
  | Hang => Hang
  end.
End instances.

(** A clock whose readings always return. *)
Class ClockTotal (X : Type) `{!Clock X} : Prop :=
  clock_total id tp x : ∃ r x', clock_gettime id tp x = Done (r, x').

(** ** The invariant *)

(** [p] is an open socket descriptor that belongs to the socket [i]. *)
Definition own_fd (fl : list fd_t) (i p : Z) : Prop :=
  3 ≤ p < Z.of_nat OPEN_MAX ∧ ∃ f, fl !! Z.to_nat p = Some f ∧
    isallocated f = true ∧ isopen f = true ∧ fd_fd f = p ∧
    st_type (fd_stat f) = S_IFSOCK ∧ opaque f = Some (ObjSocket i) ∧
    fd_close f = Some DrvSocket ∧ fd_poll f = Some DrvSocket.

Definition sock_free (e : w5100_socket) : Prop :=
  s_state e = W5100_SOCK_STATE_NONE ∧ s_fd e = W5100_SOCKET_FREE ∧
  s_fd_data e = None ∧ s_connection e = None.

Section invariant.
Context {H : Type} `{!W5100 H}.
(** What the registers of the interface hold: gateway, mask, hardware and
    network address, at 1 to 18. *)
Context (cfg : Z → Z).

Record sock_used (fl : list fd_t) (h : H) (i : Z) (e : w5100_socket) : Prop := {
  su_fd : 0 ≤ s_fd e;
  su_state : s_state e ≠ W5100_SOCK_STATE_NONE;
  su_isocket : s_isocket e = i;
  su_type : s_type e = SOCK_STREAM ∨ s_type e = SOCK_DGRAM ∨ s_type e = SOCK_RAW;
  su_mode : cell (sreg W5100_Sn_MR i) h = socket_mode (s_type e);
  (* the descriptor of [socket] *)
  su_data : match s_fd_data e with
    | Some p => own_fd fl i p
    | None => s_state e = W5100_SOCK_STATE_ACCEPTED ∨ s_state e = W5100_SOCK_STATE_DISCONNECTED
    end;
  (* the descriptor of [accept] *)
  su_connection : match s_connection e with
    | Some q => own_fd fl i q ∧ s_fd_data e ≠ Some q ∧ s_type e = SOCK_STREAM
    | None => s_fd_data e ≠ None ∧ s_state e ≠ W5100_SOCK_STATE_ACCEPTED
    end;
  su_stream : s_type e = SOCK_STREAM ∨
    s_state e = W5100_SOCK_STATE_CREATED ∨ s_state e = W5100_SOCK_STATE_BOUND;
}.

Definition sock_ok (fl : list fd_t) (h : H) (i : Z) (e : w5100_socket) : Prop :=
  sock_free e ∨ sock_used fl h i e.

Record table_inv (h : H) (l : list w5100_socket) (fl : list fd_t) : Prop := {
  ti_chip : chip_ok h;
  ti_len : length l = W5100_N_SOCKETS;
  ti_files : length fl = OPEN_MAX;
  ti_opaque : ∀ p f, fl !! p = Some f → st_type (fd_stat f) = S_IFSOCK →
    opaque f = None ∨ ∃ i, is_sock i ∧ opaque f = Some (ObjSocket i);
  ti_socks : ∀ i e, is_sock i → l !! Z.to_nat i = Some e → sock_ok fl h i e;
  ti_cfg : ∀ b, 1 ≤ b < 19 → cell b h = cfg b;
}.

(** How the parts of the invariant survive changes. *)
Lemma own_fd_ne fl i j p q : own_fd fl i p → own_fd fl j q → i ≠ j → p ≠ q.
Proof. intros (_ & f & Hf & _ & _ & _ & _ & Ho & _) (_ & g & Hg & _ & _ & _ & _ & Ho' & _) Hij ->. congruence. Qed.

Lemma own_fd_set fl i p q f : own_fd fl i q → 0 ≤ p → p ≠ q → own_fd (<[Z.to_nat p := f]> fl) i q.
Proof.
  intros (Hq & g & Hg & Hr) Hp Hne. split; [done|]. exists g. split; [|done].
  rewrite list_lookup_insert_ne; [done|lia].
Qed.

Lemma sock_used_calm fl h h' i e : is_sock i → calm h h' →
  sock_used fl h i e → sock_used fl h' i e.
Proof.
  intros Hi [_ Hc] []. split; try done. rewrite Hc; [done|by apply kept_mode].
Qed.

Lemma kept_interface b : 1 ≤ b < 19 → kept b = true.
Proof. intros. unfold kept. apply bool_decide_eq_true. auto. Qed.

Lemma table_inv_calm h h' l fl : calm h h' → table_inv h l fl → table_inv h' l fl.
Proof.
  intros Hc []. split; try done; [apply Hc| |].
  - intros i e Hi He. destruct (ti_socks0 i e Hi He) as [?|?]; [by left|right; by eapply sock_used_calm].
  - intros b Hb. rewrite (proj2 Hc) by (by apply kept_interface). by apply ti_cfg0.
Qed.

Lemma table_inv_sock h l fl i e' : is_sock i → table_inv h l fl → sock_ok fl h i e' →
  table_inv h (<[Z.to_nat i := e']> l) fl.
Proof.
  intros Hi [] He'. split; try done; [by rewrite length_insert|]. intros j e Hj He.
  apply list_lookup_insert_Some in He as [(E & <- & _)|[_ He]]; [|by apply ti_socks0].
  unfold is_sock in *. by replace j with i by lia.
Qed.

(** Changes of a socket that the invariant does not see. *)
Lemma sock_ok_attr fl h i e e' :
  s_fd e' = s_fd e → s_state e' = s_state e → s_isocket e' = s_isocket e → s_type e' = s_type e →
  s_fd_data e' = s_fd_data e → s_connection e' = s_connection e →
  sock_ok fl h i e → sock_ok fl h i e'.
Proof.
  intros E1 E2 E3 E4 E5 E6 [(?&?&?&?)|[]]; [left|right].
  - unfold sock_free. by rewrite E1, E2, E5, E6.
  - split; rewrite ?E1, ?E2, ?E3, ?E4, ?E5, ?E6; done.
Qed.

(** One entry of the descriptor table and the socket [i] change together. *)
Lemma table_inv_entry h h' l fl i p e' g :
  table_inv h l fl → is_sock i → 0 ≤ p → calm h h' →
  (st_type (fd_stat g) = S_IFSOCK → opaque g = None ∨ ∃ i, is_sock i ∧ opaque g = Some (ObjSocket i)) →
  (∀ j q, j ≠ i → own_fd fl j q → q ≠ p) →
  sock_ok (<[Z.to_nat p := g]> fl) h' i e' →
  table_inv h' (<[Z.to_nat i := e']> l) (<[Z.to_nat p := g]> fl).
Proof.
  intros [] Hi Hp Hc Hg Hown He'. split; try (by rewrite length_insert); [apply Hc| | |].
  - intros q f Hq. apply list_lookup_insert_Some in Hq as [(_ & <- & _)|[_ Hq]]; [done|by eapply ti_opaque0].
  - intros j e Hj He. apply list_lookup_insert_Some in He as [(E & <- & _)|[Hne He]].
    { unfold is_sock in *. by replace j with i by lia. }
    destruct (ti_socks0 j e Hj He) as [Hf|Hu]; [by left|right].
    assert (j ≠ i) by (intros ->; done).
    destruct (sock_used_calm _ _ _ _ _ Hj Hc Hu) as [??????? Hs]. split; try done.
    + destruct (s_fd_data e) as [q|]; [|done]. apply own_fd_set; [done..|]. apply not_eq_sym. by eapply Hown.
    + destruct (s_connection e) as [q|]; [|done]. destruct su_connection0. split; [|done].
      apply own_fd_set; [done..|]. apply not_eq_sym. by eapply Hown.
  - intros b Hb. rewrite (proj2 Hc) by (by apply kept_interface). by apply ti_cfg0.
Qed.
End invariant.

(** ** The descriptors of the sockets *)

Definition holds (e : w5100_socket) (q : Z) : Prop := s_fd_data e = Some q ∨ s_connection e = Some q.
Definition holders (e : w5100_socket) : list Z := option_list (s_fd_data e) ++ option_list (s_connection e).
Definition held (l : list w5100_socket) : gset Z := list_to_set (l ≫= holders).

Lemma elem_of_holders e q : q ∈ holders e ↔ holds e q.
Proof. unfold holders, holds. destruct (s_fd_data e), (s_connection e); simpl; set_solver. Qed.

Lemma elem_of_held l q : q ∈ held l ↔ ∃ j e, l !! j = Some e ∧ holds e q.
Proof.
  unfold held. rewrite elem_of_list_to_set, list_elem_of_bind. setoid_rewrite elem_of_holders.
  setoid_rewrite list_elem_of_lookup. naive_solver.
Qed.

Lemma free_holds e q : sock_free e → ¬ holds e q.
Proof. intros (_ & _ & Hd & Hc). unfold holds. rewrite Hd, Hc. by intros []. Qed.

(** No connection has been accepted. *)
Definition unconnected (l : list w5100_socket) : Prop := Forall (λ e, s_connection e = None) l.

Lemma unconnected_insert l j e : unconnected l → s_connection e = None → unconnected (<[j := e]> l).
Proof. intros. by apply Forall_insert. Qed.

(** One socket changes its descriptors. *)
Lemma held_insert l j e e' q : l !! j = Some e → (q ∈ held (<[j := e']> l) ↔
  holds e' q ∨ ∃ k e0, k ≠ j ∧ l !! k = Some e0 ∧ holds e0 q).
Proof.
  intros Hj. rewrite elem_of_held. pose proof (lookup_lt_Some _ _ _ Hj) as Hlt. split.
  - intros (k & e0 & Hk & Hq). apply list_lookup_insert_Some in Hk as [(<- & <- & _)|[Hne Hk]]; [by left|].
    right. exists k, e0. by split_and!.
  - intros [Hq|(k & e0 & Hne & Hk & Hq)].
    + exists j, e'. split; [|done]. by apply list_lookup_insert_eq.
    + exists k, e0. split; [|done]. by rewrite list_lookup_insert_ne.
Qed.

Lemma held_same l j e e' : l !! j = Some e → s_fd_data e' = s_fd_data e → s_connection e' = s_connection e →
  held (<[j := e']> l) = held l.
Proof.
  intros Hj Hd Hc. apply set_eq. intros q. rewrite (held_insert l j e e' q Hj), elem_of_held.
  assert (Hh : holds e' q ↔ holds e q) by (unfold holds; by rewrite Hd, Hc). rewrite Hh. split.
  - intros [Hq|(k & e0 & _ & Hk & Hq)]; eauto.
  - intros (k & e0 & Hk & Hq). destruct (decide (k = j)) as [->|Hne]; [left; congruence|eauto 10].
Qed.

Section held.
Context {H : Type} `{!W5100 H} (cfg : Z → Z).

(** Only the sockets that hold it own a descriptor. *)
Lemma held_own h l fl j e q : table_inv cfg h l fl → is_sock j → l !! Z.to_nat j = Some e → holds e q → own_fd fl j q.
Proof.
  intros Hinv Hj He Hq. destruct (ti_socks _ _ _ _ Hinv j e Hj He) as [(_ & _ & Hd & Hc)|Hu].
  - unfold holds in Hq. rewrite Hd, Hc in Hq. by destruct Hq.
  - pose proof (su_data _ _ _ _ Hu) as Hdata. pose proof (su_connection _ _ _ _ Hu) as Hconn.
    destruct Hq as [E|E]; rewrite E in *; [done|apply Hconn].
Qed.

Lemma held_lookup h l fl q : table_inv cfg h l fl → q ∈ held l →
  ∃ j e, is_sock j ∧ l !! Z.to_nat j = Some e ∧ holds e q ∧ own_fd fl j q.
Proof.
  intros Hinv (j & e & He & Hq)%elem_of_held. pose proof (lookup_lt_Some _ _ _ He) as Hlt.
  rewrite (ti_len _ _ _ _ Hinv) in Hlt.
  assert (Hj : is_sock (Z.of_nat j)) by (unfold is_sock, W5100_N_SOCKETS in *; lia).
  exists (Z.of_nat j), e. rewrite Nat2Z.id. split_and!; try done. eapply held_own; [done|done| |done].
  by rewrite Nat2Z.id.
Qed.

(** A descriptor belongs to the socket that its entry says. *)
Lemma held_at h l fl i e f q : table_inv cfg h l fl → is_sock i → l !! Z.to_nat i = Some e →
  fl !! Z.to_nat q = Some f → opaque f = Some (ObjSocket i) → q ∈ held l → holds e q.
Proof.
  intros Hinv Hi He Hf Ho Hq. destruct (held_lookup h l fl q Hinv Hq) as (j & e0 & Hj & He0 & Hh & Hown).
  destruct Hown as (_ & g & Hg & _ & _ & _ & _ & Ho' & _).
  assert (j = i) as -> by congruence. congruence.
Qed.

(** Giving up one descriptor, and taking a new one. *)
Lemma held_remove h l fl i e e' p : table_inv cfg h l fl → is_sock i → l !! Z.to_nat i = Some e →
  own_fd fl i p → (∀ q, holds e' q ↔ holds e q ∧ q ≠ p) → held (<[Z.to_nat i := e']> l) = held l ∖ {[p]}.
Proof.
  intros Hinv Hi He Hown He'. apply set_eq. intros q.
  rewrite (held_insert l _ e e' q He), elem_of_difference, elem_of_held, elem_of_singleton, He'. split.
  - intros [[Hq Hne]|(k & e0 & Hne & Hk & Hq)]; [eauto|]. split; [eauto|]. intros ->.
    pose proof (lookup_lt_Some _ _ _ Hk) as Hlt. rewrite (ti_len _ _ _ _ Hinv) in Hlt.
    assert (Hj : is_sock (Z.of_nat k)) by (unfold is_sock, W5100_N_SOCKETS in *; lia).
    apply (own_fd_ne fl (Z.of_nat k) i p p); [|done|lia|done].
    eapply held_own; [done|done| |done]. by rewrite Nat2Z.id.
  - intros [(k & e0 & Hk & Hq) Hne]. destruct (decide (k = Z.to_nat i)) as [->|Hk']; [left|eauto 10].
    split; [congruence|done].
Qed.

Lemma held_add l i e e' p : l !! Z.to_nat i = Some e → sock_free e →
  (∀ q, holds e' q ↔ q = p) → held (<[Z.to_nat i := e']> l) = {[p]} ∪ held l.
Proof.
  intros He (_ & _ & Hd & Hc) He'. apply set_eq. intros q.
  rewrite (held_insert l _ e e' q He), elem_of_union, elem_of_held, elem_of_singleton, He'. split.
  - intros [?|(k & e0 & _ & ?)]; eauto.
  - intros [?|(k & e0 & Hk & Hq)]; [by left|right]. exists k, e0. split; [|done]. intros ->.
    assert (e0 = e) as -> by congruence. unfold holds in Hq. rewrite Hd, Hc in Hq. by destruct Hq.
Qed.
End held.

(** ** The pieces of the calls *)

Section pieces.
Context {H X : Type} `{!SpiDevice H, !W5100 H, !W5100Bus H, !W5100Commands H, !Clock X, !ClockTotal X}.
Context (t : reading) (cfg : Z → Z).

Definition inv (s : nstate H X) : Prop := table_inv cfg (n_hw s) (n_socks s) (n_files s).

Lemma tp_fail e (s : nstate H X) (Q : Z → nstate H X → Prop) :
  Q (-1) (upd e s) → twp t (fail e) s Q.
Proof. intros HQ. unfold fail. twp_steps. exact HQ. Qed.

Lemma tp_sock_at i e (s : nstate H X) Q :
  is_sock i → n_socks s !! Z.to_nat i = Some e → Q e s → twp t (sock_at i) s Q.
Proof.
  intros Hi He HQ. unfold sock_at. twp_steps. eapply twp_lift; [|done]. apply aget_Some.
  unfold is_sock in Hi. split; [lia|done].
Qed.

Lemma tp_sock_update i g e h l fl er x (Q : unit → nstate H X → Prop) :
  is_sock i → length l = W5100_N_SOCKETS → l !! Z.to_nat i = Some e →
  Q tt (NState h (<[Z.to_nat i := g e]> l) fl er x) →
  twp t (sock_update i g) (NState h l fl er x) Q.
Proof.
  intros Hi Hl He HQ. unfold sock_update. twp_step. eapply tp_sock_at; [done..|]. twp_steps.
  eapply twp_lift; [apply aset_in_range; unfold is_sock, W5100_N_SOCKETS in *; simpl; lia|].
  twp_steps. exact HQ.
Qed.

Lemma tp_fd_at p f (s : nstate H X) Q :
  0 ≤ p → n_files s !! Z.to_nat p = Some f → Q f s → twp t (fd_at p) s Q.
Proof. intros. apply twp_of_wp. by eapply wp_fd_at. Qed.

Lemma tp_fd_update p g f h l fl er x (Q : unit → nstate H X → Prop) :
  length fl = OPEN_MAX → 0 ≤ p < Z.of_nat OPEN_MAX → fl !! Z.to_nat p = Some f →
  Q tt (NState h l (<[Z.to_nat p := g f]> fl) er x) →
  twp t (fd_update p g) (NState h l fl er x) Q.
Proof. intros Hl Hp Hf HQ. apply twp_of_wp. by eapply wp_fd_update. Qed.

(** The socket a descriptor stands for. *)
Lemma tp_get_socket fd h l fl er x (Q : option Z → nstate H X → Prop) :
  table_inv cfg h l fl → (t ≠ Partial → 0 ≤ fd) →
  (∀ er', (∀ i, ¬ own_fd fl i fd) → Q None (NState h l fl er' x)) →
  (∀ i e f, is_sock i → l !! Z.to_nat i = Some e → sock_ok fl h i e →
     fl !! Z.to_nat fd = Some f → st_type (fd_stat f) = S_IFSOCK → opaque f = Some (ObjSocket i) →
     Q (Some i) (NState h l fl er x)) →
  twp t (get_socket_from_fd fd) (NState h l fl er x) Q.
Proof.
  intros Hinv Hfd HN HS. unfold get_socket_from_fd, file_struct_get.
  destruct (decide (fd >= Z.of_nat OPEN_MAX)) as [Hge|Hlt].
  { twp_steps. apply HN. intros i [Hp _]. lia. }
  twp_step. unfold fd_at at 1. twp_steps. simpl. apply twp_access.
  { intros Ht. specialize (Hfd Ht). destruct (aget_in_range fl fd) as (f & Hf & _); [|by exists f].
    rewrite (ti_files _ _ _ _ Hinv). lia. }
  { apply aget_returns. }
  intros f Hf%aget_Some. destruct Hf as [Hfd0 Hf]. unfold S_ISSOCK.
  case_bool_decide as Ht; simpl.
  2: { twp_steps. apply HN. intros i (_ & g & Hg & _ & _ & _ & Hty & _). congruence. }
  destruct (ti_opaque _ _ _ _ Hinv _ _ Hf Ht) as [Ho|(i & Hi & Ho)]; rewrite Ho.
  { twp_steps. apply HN. intros i (_ & g & Hg & _ & _ & _ & _ & Ho' & _). congruence. }
  twp_steps. destruct (lookup_lt_is_Some_2 l (Z.to_nat i)) as [e He].
  { rewrite (ti_len _ _ _ _ Hinv). unfold is_sock, W5100_N_SOCKETS in *. lia. }
  eapply HS; [done|done| |done..]. by eapply ti_socks.
Qed.

Lemma tp_socket_free i e h l fl er x (Q : unit → nstate H X → Prop) :
  is_sock i → length l = W5100_N_SOCKETS → l !! Z.to_nat i = Some e →
  (∀ e', sock_free e' → Q tt (NState h (<[Z.to_nat i := e']> l) fl er x)) →
  twp t (socket_free i) (NState h l fl er x) Q.
Proof.
  intros Hi Hl He HQ. unfold socket_free.
  assert (Hin : (Z.to_nat i < length l)%nat) by (eapply lookup_lt_Some; exact He).
  do 3 (twp_step; eapply tp_sock_update; [done|by rewrite ?length_insert|
    first [exact He|apply list_lookup_insert_eq; by rewrite ?length_insert]|]).
  eapply tp_sock_update; [done|by rewrite ?length_insert|apply list_lookup_insert_eq; by rewrite ?length_insert|].
  rewrite !list_insert_insert_eq. by apply HQ.
Qed.

Lemma tp_close_fd i p h l fl er x (Q : unit → nstate H X → Prop) :
  length fl = OPEN_MAX → own_fd fl i p →
  (∀ g, st_type (fd_stat g) = S_IFSOCK → opaque g = Some (ObjSocket i) →
     isopen g = false → isallocated g = false → Q tt (NState h l (<[Z.to_nat p := g]> fl) er x)) →
  twp t (close_fd p) (NState h l fl er x) Q.
Proof.
  intros Hl (Hp & f & Hf & Ha & _ & Hn & Ht & Ho & _) HQ. unfold close_fd.
  assert (Hr : 0 ≤ p < Z.of_nat OPEN_MAX) by lia.
  assert (Hin : (Z.to_nat p < length fl)%nat) by (eapply lookup_lt_Some; exact Hf).
  twp_step. eapply tp_fd_update; [done..|].
  twp_step. eapply tp_fd_at; [lia|by apply list_lookup_insert_eq|]. simpl. rewrite Hn.
  apply twp_of_wp. eapply wp_mono, file_free_spec; [| |done|by apply list_lookup_insert_eq|done].
  - intros [] ? ->. unfold table_set. simpl. rewrite list_insert_insert_eq. by apply HQ.
  - unfold table_ok. simpl. by rewrite length_insert.
Qed.

Lemma tp_has_fd o i fd fl (s : nstate H X) (Q : bool → nstate H X → Prop) :
  n_files s = fl → (∀ p, o = Some p → own_fd fl i p) → Q (bool_decide (o = Some fd)) s →
  twp t (has_fd o fd) s Q.
Proof.
  intros <- Ho HQ. destruct o as [p|]; [|by apply twp_ret].
  destruct (Ho p eq_refl) as (Hp & f & Hf & _ & _ & Hn & _). unfold has_fd.
  twp_step. eapply tp_fd_at; [lia|done|]. twp_steps. rewrite Hn.
  rewrite (bool_decide_ext (p = fd) (Some p = Some fd)); [done|]. split; congruence.
Qed.

End pieces.

Section calls.
Context {H X : Type} `{!SpiDevice H, !W5100 H, !W5100Bus H, !W5100Commands H, !Clock X, !ClockTotal X}.
Context (t : reading) (cfg : Z → Z) (fuel : nat) (junk : timespec) (Hready : ready (H:=H) t fuel) (Hfuel : t = Total → (4 < fuel)%nat).

(** A waiting loop after a command. *)
Lemma tp_wait i ds (s : nstate H X) (Q : Z → nstate H X → Prop) :
  chip_ok (n_hw s) → is_sock i →
  (∀ n, responsive H n → settles n (sreg W5100_Sn_SR i) (λ v, v ∈ ds) (n_hw s)) →
  (∀ v h', v ∈ ds → still (n_hw s) h' → Q v (upd h' s)) →
  twp t (wait_status fuel i ds) s Q.
Proof.
  intros Hok Hi Hset HQ.
  assert (Hn : ∃ n, t = Total → settles n (sreg W5100_Sn_SR i) (λ v, v ∈ ds) (n_hw s) ∧ (n ≤ fuel)%nat).
  { destruct t; [|by exists 0%nat..]. destruct (Hready eq_refl) as (n & Hr & Hn). exists n. auto. }
  destruct Hn as [n Hn]. by eapply twp_wait_status.
Qed.

Lemma tp_relisten i e h l fl er x (Q : unit → nstate H X → Prop) :
  chip_ok h → length l = W5100_N_SOCKETS → is_sock i → l !! Z.to_nat i = Some e → s_isocket e = i →
  (∀ h', calm h h' → Q tt (NState h' (<[Z.to_nat i := with_sstate W5100_SOCK_STATE_LISTENING e]> l) fl er x)) →
  twp t (relisten fuel i i) (NState h l fl er x) Q.
Proof.
  intros Hok Hl Hi He Hs HQ. unfold relisten.
  twp_step. apply twp_command; [done..|]. intros h1 Hc1 _.
  twp_step. apply twp_command; [done|apply Hc1|done|done|]. intros h2 Hc2 Hm2. simpl in Hc2.
  twp_step. eapply tp_sock_at; [done..|]. rewrite Hs.
  twp_step. apply tp_wait; [apply Hc2|done| |].
  { intros n Hr. by apply (resp_listen n Hr); [apply Hc2|..]. }
  intros v h3 _ Hst. eapply tp_sock_update; [done..|]. apply HQ.
  eapply calm_trans; [exact Hc1|]. eapply calm_trans; [exact Hc2|]. by apply still_calm.
Qed.

(** The end of [close]: the chip closes the socket, which becomes free. *)
Lemma tp_close_chip {B} i cmd e h l fl er x (k : M (nstate H X) B) (Q : B → nstate H X → Prop) :
  chip_ok h → is_sock i → length l = W5100_N_SOCKETS → l !! Z.to_nat i = Some e →
  cmd = W5100_CMD_DISCON ∨ cmd = W5100_CMD_CLOSE →
  (∀ h' e', calm h h' → sock_free e' →
     twp t k (NState h' (<[Z.to_nat i := e']> l) fl er x) Q) →
  twp t (_ ← w5100_command fuel i cmd; _ ← wait_status fuel i [W5100_SOCK_CLOSED];
         _ ← socket_free i; k) (NState h l fl er x) Q.
Proof.
  intros Hok Hi Hl He Hcmd Hk.
  twp_step. apply twp_command; [done..| |].
  { by destruct Hcmd as [-> | ->]. }
  intros h1 Hc1 Hm1. simpl in Hc1.
  twp_step. apply tp_wait; [apply Hc1|done| |].
  { intros n Hr. apply (resp_close n Hr); [apply Hc1|done|]. simpl. by rewrite Hm1. }
  intros v h2 _ Hst. twp_step. eapply tp_socket_free; [done..|]. intros e' He'.
  apply Hk; [|done]. eapply calm_trans; [exact Hc1|]. by apply still_calm.
Qed.

(** What [close] of [fd] leaves: the tables are consistent, and the descriptor is
    no longer held. *)
Definition closed (l : list w5100_socket) (fd : Z) (h' : H) (l' : list w5100_socket) (fl' : list fd_t) : Prop :=
  table_inv cfg h' l' fl' ∧ (unconnected l → unconnected l' ∧ held l' = held l ∖ {[fd]}).

Lemma closed_nothing h l fl fd : table_inv cfg h l fl → fd ∉ held l → closed l fd h l fl.
Proof.
  intros Hinv Hfd. split; [done|]. intros Hun. split; [done|].
  symmetry. by apply difference_disjoint_L, disjoint_singleton_r.
Qed.

(** The socket [i] loses its descriptor [fd], whose entry becomes [g]. *)
Section close.
Context (h : H) (l : list w5100_socket) (fl : list fd_t) (fd i : Z) (e : w5100_socket) (g : fd_t).
Context (Hinv : table_inv cfg h l fl) (Hi : is_sock i) (He : l !! Z.to_nat i = Some e) (Hu : sock_used fl h i e).
Context (Hfd : own_fd fl i fd) (Hgo : opaque g = Some (ObjSocket i)).

Lemma closed_entry h' e' :
  calm h h' → sock_ok (<[Z.to_nat fd := g]> fl) h' i e' →
  (unconnected l → s_connection e' = None ∧ ∀ q, holds e' q ↔ holds e q ∧ q ≠ fd) →
  closed l fd h' (<[Z.to_nat i := e']> l) (<[Z.to_nat fd := g]> fl).
Proof.
  intros Hc Hok Hun. pose proof Hfd as [Hr _]. split.
  - eapply table_inv_entry; [done|done|lia|done|intros _; right; by exists i| |done].
    intros j q Hj Hq. exact (own_fd_ne fl j i q fd Hq Hfd Hj).
  - intros Hl. destruct (Hun Hl) as [Hcon Hh]. split; [by apply unconnected_insert|]. by eapply held_remove.
Qed.

(** Its own descriptor, while a connection is open. *)
Lemma closed_own : s_fd_data e = Some fd → s_state e = W5100_SOCK_STATE_ACCEPTED →
  closed l fd h (<[Z.to_nat i := with_fd_data None e]> l) (<[Z.to_nat fd := g]> fl).
Proof.
  intros Hd Hst. apply closed_entry; [apply calm_refl; by apply Hinv| |].
  - right. pose proof (su_connection _ _ _ _ Hu) as Hconn. pose proof Hfd as [Hr _]. destruct Hu. split; simpl; try done; [by left|].
    destruct (s_connection e) as [q|]; [|by destruct Hconn].
    destruct Hconn as (Hq & Hne & Hty). split; [|done].
    apply own_fd_set; [done|lia|]. intros ->. by apply Hne.
  - intros Hun. pose proof (Forall_lookup_1 _ _ _ _ Hun He) as Hn. simpl in Hn. split; [done|].
    intros q. unfold holds. simpl. rewrite Hn, Hd. naive_solver.
Qed.

(** Its own descriptor, and the socket with it. *)
Lemma closed_free h' e' : s_fd_data e = Some fd → calm h h' → sock_free e' →
  closed l fd h' (<[Z.to_nat i := e']> l) (<[Z.to_nat fd := g]> fl).
Proof.
  intros Hd Hc He'. apply closed_entry; [done|by left|]. intros Hun. split; [apply He'|].
  intros q. split; [by intros ?%free_holds|]. intros [[Hq|Hq] Hne]; [congruence|].
  by rewrite (Forall_lookup_1 _ _ _ _ Hun He) in Hq.
Qed.

(** The descriptor of its connection: the socket is free or listens again. *)
Lemma closed_connection h' e' : s_connection e = Some fd → calm h h' →
  sock_free e' ∨ (e' = with_sstate W5100_SOCK_STATE_LISTENING (with_connection None e) ∧ s_fd_data e ≠ None) →
  closed l fd h' (<[Z.to_nat i := e']> l) (<[Z.to_nat fd := g]> fl).
Proof.
  intros Hq Hc He'. apply closed_entry; [done| |].
  2: { intros Hun. by rewrite (Forall_lookup_1 _ _ _ _ Hun He) in Hq. }
  destruct He' as [He'|[-> Hd]]; [by left|right].
  pose proof (su_connection _ _ _ _ Hu) as Hconn. rewrite Hq in Hconn. destruct Hconn as (_ & Hne & Hty).
  destruct (s_fd_data e) as [p|] eqn:Ep; [|done]. pose proof Hfd as [Hr _].
  assert (Hp : own_fd (<[Z.to_nat fd := g]> fl) i p).
  { pose proof (su_data _ _ _ _ Hu) as Hp. rewrite Ep in Hp. apply own_fd_set; [done|lia|]. intros ->. by apply Hne. }
  destruct (sock_used_calm _ _ _ _ _ Hi Hc Hu). rewrite Ep, Hq in *.
  split; simpl; rewrite ?Ep; try done; naive_solver.
Qed.
End close.

Lemma tp_sock_close fd (s : nstate H X) :
  inv cfg s → (t ≠ Partial → 0 ≤ fd) → twp t (w5100_sock_close fuel fd) s
    (λ _ s', inv cfg s' ∧ n_rest s' = n_rest s ∧ (unconnected (n_socks s) →
       unconnected (n_socks s') ∧ held (n_socks s') = held (n_socks s) ∖ {[fd]})).
Proof.
  destruct s as [h l fl er x]. unfold inv. simpl. intros Hinv Hfd.
  enough (Hrun : twp t (w5100_sock_close fuel fd) (NState h l fl er x) (λ _ s',
    n_rest s' = x ∧ closed l fd (n_hw s') (n_socks s') (n_files s'))).
  { eapply twp_mono; [|exact Hrun]. by intros r s' (Hx & Hinv' & Hun). }
  unfold w5100_sock_close. twp_step. eapply tp_get_socket; [done..| |].
  { intros er' Hno. apply twp_ret. split; [done|]. apply closed_nothing; [done|]. intros Hq.
    destruct (held_lookup _ _ _ _ _ Hinv Hq) as (j & ? & _ & _ & _ & Hown). by apply (Hno j). }
  intros i e f Hi He Hok Hf _ Ho.
  assert (Hfail : ∀ er', ¬ holds e fd → twp t (fail er') (NState h l fl er x) (λ _ s', n_rest s' = x ∧
    closed l fd (n_hw s') (n_socks s') (n_files s'))).
  { intros er' Hn. apply tp_fail. split; [done|]. apply closed_nothing; [done|]. intros Hq. by apply Hn; eapply held_at. }
  twp_step. eapply tp_sock_at; [done..|]. cbv zeta.
  pose proof (ti_len _ _ _ _ Hinv) as Hl. pose proof (ti_files _ _ _ _ Hinv) as Hfl.
  assert (Hin : (Z.to_nat i < length l)%nat) by (eapply lookup_lt_Some; exact He).
  destruct Hok as [(Hs & _ & Hd & Hc)|Hu].
  { rewrite Hd, Hc. twp_step. apply twp_ret, Hfail. unfold holds. rewrite Hd, Hc. by intros []. }
  rewrite (su_isocket _ _ _ _ Hu).
  pose proof (su_data _ _ _ _ Hu) as Hdata. pose proof (su_connection _ _ _ _ Hu) as Hconn.
  twp_step. eapply tp_has_fd with (i := i); [done|by intros p Ep; rewrite Ep in Hdata|].
  case_bool_decide as Hown.
  - rewrite Hown in *. twp_step. eapply twp_lift; [done|].
    twp_step. eapply tp_close_fd; [done..|]. intros g Hgt Hgo _ _.
    twp_step. eapply tp_sock_update; [done..|]. twp_step; [|by apply twp_ret; split; [done|eapply closed_own]].
    eapply tp_close_chip with (e := with_fd_data None e);
      [by apply Hinv|done|by rewrite length_insert|by apply list_lookup_insert_eq|case_decide; auto|].
    intros h' e' Hc' He'. apply twp_ret. rewrite list_insert_insert_eq. split; [done|by eapply closed_free].
  - destruct (s_connection e) as [q|] eqn:Eq; [|apply Hfail; unfold holds; rewrite Eq; by intros []].
    destruct Hconn as (Hqo & _ & _). pose proof Hqo as (Hq & g0 & Hg0 & _ & _ & Hn & _).
    twp_step. eapply tp_fd_at; [lia|done|]. rewrite Hn. clear g0 Hg0 Hn.
    twp_step; [subst q|apply Hfail; unfold holds; rewrite Eq; intros [?|[= ?]]; done].
    twp_step. eapply tp_close_fd; [done..|]. intros g Hgt Hgo _ _.
    twp_step. eapply tp_sock_update; [done..|].
    twp_step. apply twp_command; [done|by apply Hinv|done|done|]. intros h1 Hc1 Hm1. simpl in Hc1.
    twp_step. apply tp_wait; [apply Hc1|done| |].
    { intros n Hresp. apply (resp_close n Hresp); [apply Hc1|done|]. by left. }
    intros v h2 _ Hst%still_calm. assert (Hc2 : calm h h2) by exact (calm_trans _ _ _ Hc1 Hst). simpl.
    destruct (s_fd_data e) as [p|] eqn:Ep.
    + twp_step. eapply tp_relisten; [apply Hc2|by rewrite length_insert|done|by apply list_lookup_insert_eq|by apply Hu|].
      intros h3 Hc3. apply twp_ret. rewrite list_insert_insert_eq. split; [done|].
      eapply closed_connection; [done..|by eapply calm_trans|right; split; [done|congruence]].
    + twp_step. eapply tp_socket_free; [done|by rewrite length_insert|by apply list_lookup_insert_eq|].
      intros e' He'. apply twp_ret. rewrite list_insert_insert_eq. split; [done|].
      eapply closed_connection; [done..|by left].
Qed.

(** ** New sockets and connections *)

Lemma tp_file_alloc h l fl er x (Q : Z → nstate H X → Prop) :
  length fl = OPEN_MAX → Q (-1) (NState h l fl er x) →
  (∀ p f, 3 ≤ p < Z.of_nat OPEN_MAX → fl !! Z.to_nat p = Some f → isallocated f = false →
     Q p (NState h l (<[Z.to_nat p := fd_fresh p]> fl) er x)) →
  twp t file_alloc (NState h l fl er x) Q.
Proof.
  intros Hl HN HS. apply twp_of_wp. eapply wp_mono, wp_file_alloc; [|done].
  intros r s' [(-> & -> & _)|(Hr & Hna & _ & ->)]; [done|].
  destruct (lookup_lt_is_Some_2 fl (Z.to_nat r)) as [f Hf]; [lia|].
  apply (HS r f); [done|done|]. destruct (isallocated f) eqn:Ha; [|done].
  destruct Hna. by exists f.
Qed.

(** The entry [fill_fd_struct] makes of a fresh one. *)
Definition sock_entry (p i : Z) : fd_t :=
  Fd p (Stat S_IFSOCK S_RWX_ALL 0 1024) false true (Some DrvSocket) (Some DrvSocket)
    (Some DrvSocket) (Some DrvSocket) true 0 O_RDWR (Some (ObjSocket i)).

Lemma tp_fill_fresh p i h l fl er x (Q : Z → nstate H X → Prop) :
  length fl = OPEN_MAX → 3 ≤ p < Z.of_nat OPEN_MAX →
  Q p (NState h l (<[Z.to_nat p := sock_entry p i]> fl) er x) →
  twp t (fill_fd_struct p i) (NState h l (<[Z.to_nat p := fd_fresh p]> fl) er x) Q.
Proof.
  intros Hl Hp HQ. unfold fill_fd_struct, file_struct_get. rewrite decide_False by lia.
  twp_step. eapply twp_lift; [done|]. twp_step. eapply tp_fd_update; [by rewrite length_insert|lia| |].
  - apply list_lookup_insert_eq. lia.
  - apply twp_ret. by rewrite list_insert_insert_eq.
Qed.

Lemma own_sock_entry p i fl : length fl = OPEN_MAX → 3 ≤ p < Z.of_nat OPEN_MAX →
  own_fd (<[Z.to_nat p := sock_entry p i]> fl) i p.
Proof.
  intros Hl Hp. split; [done|]. exists (sock_entry p i). split; [|done]. apply list_lookup_insert_eq. lia.
Qed.

(** Nobody owns an entry that is not allocated. *)
Lemma own_fd_allocated fl j p q f :
  fl !! Z.to_nat p = Some f → isallocated f = false → own_fd fl j q → q ≠ p.
Proof. intros Hf Ha (_ & g & Hg & Ha' & _) ->. congruence. Qed.

Lemma tp_socket_alloc h l fl er x (Q : Z → nstate H X → Prop) :
  table_inv cfg h l fl → Q (-1) (NState h l fl ENFILE x) →
  (∀ i e, is_sock i → l !! Z.to_nat i = Some e → sock_free e →
     Q i (NState h (<[Z.to_nat i := with_sfd i e]> l) fl er x)) →
  twp t socket_alloc (NState h l fl er x) Q.
Proof.
  intros Hinv HN HS. unfold socket_alloc. twp_step.
  apply twp_for_find with (I := λ _ s, s = NState h l fl er x); [done| |].
  - intros i ? Hi ->. assert (His : is_sock i) by (unfold is_sock, W5100_N_SOCKETS in *; lia).
    destruct (lookup_lt_is_Some_2 l (Z.to_nat i)) as [e He].
    { rewrite (ti_len _ _ _ _ Hinv). unfold is_sock, W5100_N_SOCKETS in *. lia. }
    twp_step. eapply tp_sock_at; [done..|]. twp_step; [|by twp_steps].
    twp_step. eapply tp_sock_update; [done|by apply Hinv|done|]. twp_steps. apply (HS i e); [done..|].
    destruct (ti_socks _ _ _ _ Hinv i e His He) as [?|Hu]; [done|].
    pose proof (su_fd _ _ _ _ Hu). unfold W5100_SOCKET_FREE in *. lia.
  - intros ? ->. by apply tp_fail.
Qed.

Lemma store_mode i v (h : H) : chip_ok h → is_sock i → is_u8 v →
  let h' := chip_store (sreg W5100_Sn_MR i) v h in
  chip_ok h' ∧ cell (sreg W5100_Sn_MR i) h' = v ∧
  ∀ b, kept b = true → b ≠ sreg W5100_Sn_MR i → cell b h' = cell b h.
Proof.
  intros Hok Hi Hv h'. assert (Ha : sreg W5100_Sn_MR i ≠ W5100_MR).
  { unfold is_sock, sreg, W5100_Sn_MR, W5100_MR in *. lia. }
  split; [by apply store_ok|]. split.
  - unfold h'. rewrite store_plain, decide_True by (try done; by apply kept_plain, kept_mode). by apply u8_id.
  - intros b Hb Hne. unfold h'. rewrite store_plain, decide_False by (try done; by apply kept_plain). done.
Qed.

(** The mode of one socket and its two entries change. *)
Lemma table_inv_new h l fl i p e' :
  table_inv cfg h l fl → is_sock i → 3 ≤ p < Z.of_nat OPEN_MAX →
  (∀ j q, own_fd fl j q → q ≠ p) →
  (∀ h' fl', cell (sreg W5100_Sn_MR i) h' = socket_mode (s_type e') → own_fd fl' i p → sock_used fl' h' i e') →
  table_inv cfg (chip_store (sreg W5100_Sn_MR i) (socket_mode (s_type e')) h)
    (<[Z.to_nat i := e']> l) (<[Z.to_nat p := sock_entry p i]> fl).
Proof.
  intros [] Hi Hp Hown He'.
  assert (Hmode : is_u8 (socket_mode (s_type e'))) by (unfold socket_mode; repeat case_decide; done).
  destruct (store_mode i (socket_mode (s_type e')) h ti_chip0 Hi Hmode) as (Hok & Hm & Hk).
  split; try (by rewrite length_insert); [done| | |].
  - intros q f Hq. apply list_lookup_insert_Some in Hq as [(_ & <- & _)|[_ Hq]]; [|by eapply ti_opaque0].
    intros _. right. by exists i.
  - intros j e Hj He. apply list_lookup_insert_Some in He as [(E & <- & _)|[Hne He]].
    { unfold is_sock in *. replace j with i by lia. right. apply He'; [done|].
      by apply own_sock_entry. }
    destruct (ti_socks0 j e Hj He) as [Hf|[]]; [by left|right].
    assert (j ≠ i) by (intros ->; done). split; try done.
    + rewrite Hk; [done|by apply kept_mode|]. unfold sreg. lia.
    + destruct (s_fd_data e) as [q|]; [|done]. apply own_fd_set; [done|lia|]. apply not_eq_sym. by eapply Hown.
    + destruct (s_connection e) as [q|]; [|done]. destruct su_connection0. split; [|done].
      apply own_fd_set; [done|lia|]. apply not_eq_sym. by eapply Hown.
  - intros b Hb. rewrite Hk; [by apply ti_cfg0|by apply kept_interface|].
    unfold is_sock, sreg, W5100_Sn_MR in *. lia.
Qed.

(** A call of [socket] fails, or returns a descriptor that no socket held, of a
    new socket of the type asked for. *)
Definition created (type r : Z) (l : list w5100_socket) : Prop :=
  ∃ i e, is_sock i ∧ l !! Z.to_nat i = Some e ∧ s_fd_data e = Some r ∧ s_type e = type ∧ s_state e = W5100_SOCK_STATE_CREATED.
Definition opened (type : Z) (l : list w5100_socket) (r : Z) (l' : list w5100_socket) : Prop :=
  (unconnected l → unconnected l') ∧
  ((r = -1 ∧ held l' = held l) ∨ (0 ≤ r ∧ (r ∉ held l) ∧ held l' = {[r]} ∪ held l)) ∧
  (r ≠ -1 → created type r l').

Lemma opened_none type l : opened type l (-1) l.
Proof. split; [done|]. split; [by left|done]. Qed.

Lemma tp_socket_create type (s : nstate H X) :
  inv cfg s → type = SOCK_STREAM ∨ type = SOCK_DGRAM ∨ type = SOCK_RAW →
  twp t (socket_create type) s
    (λ r s', inv cfg s' ∧ n_rest s' = n_rest s ∧ opened type (n_socks s) r (n_socks s')).
Proof.
  destruct s as [h l fl er x]. unfold inv. simpl. intros Hinv Htype. unfold socket_create.
  pose proof (ti_len _ _ _ _ Hinv) as Hl. pose proof (ti_files _ _ _ _ Hinv) as Hfl.
  twp_step. eapply tp_socket_alloc; [done| |].
  { rewrite decide_False by lia. apply tp_fail. split; [done|]. split; [done|]. apply opened_none. }
  intros i e Hi He Hfree. rewrite decide_True by (unfold is_sock in *; lia).
  assert (Hin : (Z.to_nat i < length l)%nat) by (eapply lookup_lt_Some; exact He).
  twp_step. apply tp_file_alloc; [done| |].
  - rewrite decide_True by done. twp_step. eapply tp_socket_free; [done|by rewrite length_insert|by apply list_lookup_insert_eq|].
    intros e' He'. twp_steps. rewrite list_insert_insert_eq. split; [apply table_inv_sock; [done|done|by left]|]. split; [done|]. split; [|split; [|done]].
    + intros Hun. apply unconnected_insert; [done|apply He'].
    + left. split; [done|]. destruct He' as (_ & _ & ? & ?), Hfree as (_ & _ & ? & ?). by apply (held_same _ _ e); congruence.
  - intros p f Hp Hf Hna. rewrite decide_False by lia.
    twp_step. apply tp_fill_fresh; [done..|].
    twp_step. unfold get_socket_from_isocket. rewrite decide_False by (unfold is_sock, W5100_N_SOCKETS in *; lia).
    eapply twp_lift; [done|]. twp_step.
    eapply tp_sock_update; [done|by rewrite length_insert|by apply list_lookup_insert_eq|].
    unfold w5100_write_sock_reg, w5100_write_reg. rewrite sock_reg_eq by done.
    twp_step. eapply twp_Done; [apply write_byte_run; by apply Hinv|]. apply twp_ret. simpl.
    rewrite list_insert_insert_eq. split; [|split; [done|split; [|split]]].
    2: { intros Hun. by apply unconnected_insert. }
    3: { intros _. eexists i, _. split; [done|]. split; [by apply list_lookup_insert_eq|done]. }
    2: { right. split; [lia|]. split; [|apply (held_add _ _ e); [done|done|]; unfold holds; simpl; naive_solver].
         intros Hq. destruct (held_lookup _ _ _ _ _ Hinv Hq) as (j & ? & _ & _ & _ & Hown).
         by apply (own_fd_allocated fl j p p f Hf Hna Hown). }
    apply (table_inv_new h l fl i p (W5100Sock p i AF_INET type 0 W5100_SOCK_STATE_CREATED _ _ _ _ _ (Some p) None));
      [done|done|done| |].
    + intros j q Hq. by eapply own_fd_allocated.
    + intros h' fl' Hm Hown. split; simpl; try done; [lia|auto].
Qed.

Lemma tp_socket domain type protocol (s : nstate H X) :
  inv cfg s → twp t (socket domain type protocol) s
    (λ r s', inv cfg s' ∧ n_rest s' = n_rest s ∧ opened type (n_socks s) r (n_socks s')).
Proof.
  intros Hinv. unfold socket.
  repeat (twp_step; [apply tp_fail; split; [exact Hinv|split; [done|apply opened_none]]|]).
  twp_step. eapply twp_mono, tp_socket_create; [|done|].
  - intros fd s' Hs'. by apply twp_ret.
  - rename select (¬ (type ≠ _ ∧ _)) into Ht.
    destruct (decide (type = SOCK_STREAM)); [auto|]. destruct (decide (type = SOCK_DGRAM)); [auto|].
    destruct (decide (type = SOCK_RAW)); [auto|]. tauto.
Qed.

(** ** Ports, addresses and states *)

Lemma tp_read_sock_regx r n i (s : nstate H X) (Q : list Z → nstate H X → Prop) :
  chip_ok (n_hw s) → (∀ bs h', Forall is_u8 bs → length bs = n → still (n_hw s) h' → Q bs (upd h' s)) →
  twp t (w5100_read_sock_regx r n i) s Q.
Proof. intros. by apply twp_read_mem. Qed.

(** The port register of a socket. *)
Definition port_of (h : H) (i : Z) : Z :=
  le_val [cell (sreg W5100_Sn_PORT i) h; cell (sreg W5100_Sn_PORT i + 1) h].

Lemma port_cells i : is_sock i → Forall (λ a, plain a = true) [sreg W5100_Sn_PORT i; sreg W5100_Sn_PORT i + 1].
Proof.
  unfold is_sock, sreg, W5100_Sn_PORT, plain. intros.
  repeat constructor; apply bool_decide_eq_true; zlia.
Qed.

Lemma still_port h h' i : is_sock i → still h h' → port_of h' i = port_of h i.
Proof.
  intros Hi Hs. pose proof (port_cells i Hi) as Hp. unfold port_of.
  apply Forall_cons_1 in Hp as [Hp1 [Hp2 _]%Forall_cons_1]. by rewrite !(still_cell _ _ _ Hs) by done.
Qed.

Lemma tp_read_port i (s : nstate H X) (Q : list Z → nstate H X → Prop) :
  chip_ok (n_hw s) → is_sock i →
  (∀ bs h', le_val bs = port_of (n_hw s) i → still (n_hw s) h' → Q bs (upd h' s)) →
  twp t (w5100_read_sock_regx W5100_Sn_PORT W5100_Sn_PORT_SIZE i) s Q.
Proof.
  intros Hok Hi HQ. unfold w5100_read_sock_regx. rewrite sock_reg_eq by done.
  eapply twp_Done; [by apply read_mem_run|]. apply HQ; [|by apply loads_still].
  unfold is_sock, sreg, W5100_Sn_PORT in *.
  rewrite addrs_plain_range by (unfold W5100_Sn_PORT_SIZE; lia). cbn [seq fmap list_fmap W5100_Sn_PORT_SIZE].
  rewrite Z.add_0_r. unfold port_of. rewrite loads_plain; [done|done|by apply port_cells].
Qed.

Lemma tp_get_avail_port h l fl er x (Q : Z → nstate H X → Prop) :
  table_inv cfg h l fl →
  (∀ a h', is_u16 a → still h h' → Q a (NState h' l fl er x)) →
  twp t (get_avail_port fuel) (NState h l fl er x) Q.
Proof.
  intros Hinv HQ. unfold get_avail_port.
  set (μ := λ (a : Z) (_ : nstate H X), length (filter (λ i, port_of h i ≤ a) [0; 1; 2; 3])).
  apply twp_loop with (μ := μ) (I := λ a s, 61563 + Z.of_nat (μ a s) ≤ a ≤ 61567 ∧
    ∃ h', s = NState h' l fl er x ∧ still h h').
  - split; [|exists h; split; [done|apply still_refl; by apply Hinv]].
    change (htons 32752) with 61567. pose proof (length_filter (λ i, port_of h i ≤ 61567) [0; 1; 2; 3]).
    unfold μ. simpl length in *. lia.
  - intros Ht. specialize (Hfuel Ht). pose proof (length_filter (λ i, port_of h i ≤ htons 32752) [0; 1; 2; 3]).
    unfold μ. simpl length in *. lia.
  - intros a s [Ha (h1 & -> & Hst1)]. twp_step.
    apply twp_for_find with (I := λ _ s, ∃ h', s = NState h' l fl er x ∧ still h h').
    + by exists h1.
    + intros i ? Hi (h2 & -> & Hst2). assert (His : is_sock i) by (unfold is_sock, W5100_N_SOCKETS in *; lia).
      twp_step. unfold get_socket_from_isocket. rewrite decide_False by (unfold is_sock, W5100_N_SOCKETS in *; lia).
      eapply twp_lift; [done|].
      destruct (lookup_lt_is_Some_2 l (Z.to_nat i)) as [e He].
      { rewrite (ti_len _ _ _ _ Hinv). unfold is_sock, W5100_N_SOCKETS in *. lia. }
      twp_step. eapply tp_sock_at; [done..|]. twp_step; [|apply twp_ret; by exists h2].
      twp_step. apply tp_read_port; [apply Hst2|done|]. intros bs h3 Hbs Hst3. simpl in *.
      rewrite (still_port h h2 i His Hst2) in Hbs. apply twp_ret. rewrite Hbs. case_decide as Hp.
      * apply twp_ret. rewrite u16_id by (unfold is_u16; lia).
        assert (Hlt : (μ (a - 1)%Z (NState h3 l fl er x) < μ a (NState h2 l fl er x))%nat).
        { apply filter_lt with i; [|lia..].
          unfold is_sock in His. assert (i = 0 ∨ i = 1 ∨ i = 2 ∨ i = 3) by lia. set_solver. }
        split; [|done]. split; [unfold μ in *; lia|]. exists h3. split; [done|by eapply still_trans].
      * exists h3. split; [done|by eapply still_trans].
    + intros ? (h2 & -> & Hst2). apply twp_ret. apply HQ; [unfold is_u16; lia|done].
Qed.

(** The socket [i] has moved on, with the same descriptors. *)
Definition same_socket (l' : list w5100_socket) (i : Z) (e : w5100_socket) : Prop :=
  ∃ e', l' !! Z.to_nat i = Some e' ∧ s_fd_data e' = s_fd_data e ∧ s_type e' = s_type e ∧
    s_isocket e' = s_isocket e ∧ s_send_timeout e' = s_send_timeout e.

Lemma used_of_state fl h i e st : sock_ok fl h i e → s_state e = st → st ≠ W5100_SOCK_STATE_NONE →
  sock_used fl h i e.
Proof. intros [(Hs & _)|?] <- ?; done. Qed.

(** Opening a socket of the chip in its mode. *)
Lemma tp_open {B} i e sr h l fl er x (k : Z → M (nstate H X) B) (Q : B → nstate H X → Prop) :
  chip_ok h → is_sock i → cell (sreg W5100_Sn_MR i) h = socket_mode (s_type e) →
  (s_type e = SOCK_STREAM ∧ sr = W5100_SOCK_INIT) ∨ (s_type e = SOCK_DGRAM ∧ sr = W5100_SOCK_UDP) →
  (∀ v h', calm h h' → twp t (k v) (NState h' l fl er x) Q) →
  twp t (_ ← w5100_command fuel i W5100_CMD_OPEN; v ← wait_status fuel i [sr]; k v) (NState h l fl er x) Q.
Proof.
  intros Hok Hi Hm Hty Hk. twp_step. apply twp_command; [done..|]. intros h1 Hc1 Hm1. simpl in Hc1.
  assert (Hcell : cell (sreg W5100_Sn_MR i) h1 = socket_mode (s_type e)).
  { rewrite (proj2 Hc1); [done|by apply kept_mode]. }
  twp_step. apply tp_wait; [apply Hc1|done| |].
  { intros n Hr. destruct Hty as [[Ht ->]|[Ht ->]]; rewrite Ht in Hcell.
    - by apply (resp_open_tcp n Hr); [apply Hc1|..].
    - by apply (resp_open_udp n Hr); [apply Hc1|..]. }
  intros v h2 _ Hst. apply Hk. eapply calm_trans; [exact Hc1|by apply still_calm].
Qed.

Lemma tp_bind_udp i port e h l fl er x (Q : unit → nstate H X → Prop) :
  table_inv cfg h l fl → is_sock i → l !! Z.to_nat i = Some e → s_state e = W5100_SOCK_STATE_CREATED →
  s_type e = SOCK_DGRAM →
  (∀ h' l', table_inv cfg h' l' fl → same_socket l' i e → Q tt (NState h' l' fl er x)) →
  twp t (bind_udp fuel i port) (NState h l fl er x) Q.
Proof.
  intros Hinv Hi He Hst Hty HQ. unfold bind_udp.
  pose proof (ti_len _ _ _ _ Hinv) as Hl.
  assert (Hin : (Z.to_nat i < length l)%nat) by (eapply lookup_lt_Some; exact He).
  pose proof (used_of_state _ _ _ _ _ (ti_socks _ _ _ _ Hinv i e Hi He) Hst ltac:(done)) as Hu.
  twp_step. eapply tp_sock_at; [done..|]. rewrite (su_isocket _ _ _ _ Hu).
  twp_step. apply twp_write_sock_regx; [by apply Hinv|done..| |by rewrite length_le_bytes|].
  { unfold W5100_Sn_PORT, W5100_Sn_PORT_SIZE. lia. }
  intros h1 Hc1. simpl in *. eapply tp_open; [apply Hc1|done| |by right|].
  { rewrite (proj2 Hc1) by (by apply kept_mode). apply Hu. }
  intros v h2 Hc2. assert (Hc : calm h h2) by (by eapply calm_trans).
  twp_step. eapply tp_sock_update; [done..|].
  eapply tp_sock_update; [done|by rewrite length_insert|by apply list_lookup_insert_eq|].
  rewrite list_insert_insert_eq. apply HQ.
  - apply table_inv_sock; [done|by eapply table_inv_calm|]. right.
    destruct (sock_used_calm _ _ _ _ _ Hi Hc Hu). rewrite Hst in *.
    split; simpl; try done; repeat case_match; naive_solver.
  - eexists. split; [by apply list_lookup_insert_eq|done].
Qed.

Lemma tp_check_bind_udp i e h l fl er x (Q : unit → nstate H X → Prop) :
  table_inv cfg h l fl → is_sock i → l !! Z.to_nat i = Some e → s_type e = SOCK_DGRAM →
  (∀ h' l', table_inv cfg h' l' fl → same_socket l' i e → Q tt (NState h' l' fl er x)) →
  twp t (check_bind_udp fuel i) (NState h l fl er x) Q.
Proof.
  intros Hinv Hi He Hty HQ. unfold check_bind_udp. twp_step. eapply tp_sock_at; [done..|].
  twp_step; [|apply twp_ret, HQ; [done|by exists e]].
  twp_step. eapply tp_get_avail_port; [done|]. intros a h' Ha Hst.
  assert (Hinv' : table_inv cfg h' l fl) by (eapply table_inv_calm; [by apply still_calm|done]).
  by eapply tp_bind_udp.
Qed.

(** Updates the invariant does not see. *)
Lemma table_inv_attr h l fl i e g :
  table_inv cfg h l fl → is_sock i → l !! Z.to_nat i = Some e →
  s_fd (g e) = s_fd e → s_state (g e) = s_state e → s_isocket (g e) = s_isocket e → s_type (g e) = s_type e →
  s_fd_data (g e) = s_fd_data e → s_connection (g e) = s_connection e →
  table_inv cfg h (<[Z.to_nat i := g e]> l) fl.
Proof.
  intros Hinv Hi He ??????. apply table_inv_sock; [done|done|].
  by eapply sock_ok_attr, ti_socks.
Qed.

Lemma tp_connect_udp i addr e h l fl er x (Q : Z → nstate H X → Prop) :
  table_inv cfg h l fl → is_sock i → l !! Z.to_nat i = Some e → s_type e = SOCK_DGRAM →
  (∀ r h' l' er', table_inv cfg h' l' fl → Q r (NState h' l' fl er' x)) →
  twp t (connect_udp fuel i addr) (NState h l fl er x) Q.
Proof.
  intros Hinv Hi He Hty HQ. unfold connect_udp.
  assert (Hin : (Z.to_nat i < length l)%nat) by (eapply lookup_lt_Some; exact He).
  twp_step; [|twp_step; [|apply tp_fail; by apply HQ]].
  all: twp_step; eapply tp_sock_update; [done|by apply Hinv|done|]; twp_step;
    eapply tp_check_bind_udp; [by eapply table_inv_attr|done|by apply list_lookup_insert_eq|done|];
    intros; apply twp_ret; by apply HQ.
Qed.

Lemma tp_connect_tcp i addr e h l fl er x (Q : Z → nstate H X → Prop) :
  table_inv cfg h l fl → is_sock i → l !! Z.to_nat i = Some e → s_type e = SOCK_STREAM →
  (∀ r h' l' er', table_inv cfg h' l' fl → Q r (NState h' l' fl er' x)) →
  twp t (connect_tcp fuel i addr) (NState h l fl er x) Q.
Proof.
  intros Hinv Hi He Hty HQ. unfold connect_tcp.
  pose proof (ti_len _ _ _ _ Hinv) as Hl.
  assert (Hin : (Z.to_nat i < length l)%nat) by (eapply lookup_lt_Some; exact He).
  twp_step. eapply tp_sock_at; [done..|].
  do 4 (twp_step; [apply tp_fail; by apply HQ|]).
  rename select (s_state e = _) into Hst.
  pose proof (used_of_state _ _ _ _ _ (ti_socks _ _ _ _ Hinv i e Hi He) Hst ltac:(done)) as Hu.
  cbv zeta. rewrite (su_isocket _ _ _ _ Hu).
  twp_step. apply twp_write_sock_regx; [by apply Hinv|done..| |by rewrite length_le_bytes|].
  { unfold W5100_Sn_PORT, W5100_Sn_PORT_SIZE. lia. }
  intros h1 Hc1. simpl in *. eapply tp_open; [apply Hc1|done| |by left|].
  { rewrite (proj2 Hc1) by (by apply kept_mode). apply Hu. }
  intros _ h2 Hc2. twp_step. apply twp_write_sock_regx; [apply Hc2|done..| |simpl; unfold W5100_Sn_DIPR_SIZE; lia|].
  { unfold W5100_Sn_DIPR, W5100_Sn_DIPR_SIZE. lia. }
  intros h3 Hc3. twp_step. apply twp_write_sock_regx; [apply Hc3|done..| |simpl; unfold W5100_Sn_DPORT_SIZE; lia|].
  { unfold W5100_Sn_DPORT, W5100_Sn_DPORT_SIZE. lia. }
  intros h4 Hc4. twp_step. apply twp_command; [done|apply Hc4|done|done|]. intros h5 Hc5 Hm5. simpl in *.
  twp_step. apply tp_wait; [apply Hc5|done| |].
  { intros n Hr. by apply (resp_connect n Hr); [apply Hc5|..]. }
  intros v h6 _ Hst6%still_calm. simpl in *.
  assert (Hc : calm h h6) by eauto 10 using calm_trans.
  assert (Hinv6 : table_inv cfg h6 l fl) by (by eapply table_inv_calm).
  twp_step; [|twp_step; apply tp_fail; by apply HQ].
  twp_step. eapply tp_sock_update; [done..|].
  twp_step. eapply tp_sock_update; [done|by rewrite length_insert|by apply list_lookup_insert_eq|].
  rewrite list_insert_insert_eq. apply twp_ret, HQ. apply table_inv_sock; [done|done|]. right.
  destruct (sock_used_calm _ _ _ _ _ Hi Hc Hu). rewrite Hst in *.
  split; simpl; try done; repeat case_match; naive_solver.
Qed.

Lemma tp_connect fd addr (s : nstate H X) :
  inv cfg s → (t ≠ Partial → 0 ≤ fd) → twp t (connect fuel fd addr) s (λ _ s', inv cfg s').
Proof.
  destruct s as [h l fl er x]. unfold inv. simpl. intros Hinv Hfd. unfold connect.
  twp_step. eapply tp_get_socket; [done..| |]; [by intros; apply twp_ret|].
  intros i e f Hi He _ _ _ _. twp_step. eapply tp_sock_at; [done..|].
  twp_step; [by eapply tp_connect_tcp|]. twp_step; [by eapply tp_connect_udp|]. by apply tp_fail.
Qed.

Lemma tp_bind fd addr (s : nstate H X) :
  inv cfg s → (t ≠ Partial → 0 ≤ fd) → twp t (bind fuel fd addr) s (λ _ s', inv cfg s').
Proof.
  destruct s as [h l fl er x]. unfold inv. simpl. intros Hinv Hfd. unfold bind.
  pose proof (ti_len _ _ _ _ Hinv) as Hl.
  twp_step. eapply tp_get_socket; [done..| |]; [by intros; apply twp_ret|].
  intros i e f Hi He Hok _ _ _. twp_step. eapply tp_sock_at; [done..|].
  assert (Hin : (Z.to_nat i < length l)%nat) by (eapply lookup_lt_Some; exact He).
  twp_step; [by apply tp_fail|]. twp_step; [by twp_steps|].
  rename select (s_state e = _) into Hst.
  pose proof (used_of_state _ _ _ _ _ Hok Hst ltac:(done)) as Hu. rewrite (su_isocket _ _ _ _ Hu).
  twp_step.
  - cbv zeta. twp_step. apply twp_write_sock_regx; [by apply Hinv|done..| |by rewrite length_le_bytes|].
    { unfold W5100_Sn_PORT, W5100_Sn_PORT_SIZE. lia. }
    intros h1 Hc1. simpl in *. eapply tp_open; [apply Hc1|done| |by left|].
    { rewrite (proj2 Hc1) by (by apply kept_mode). apply Hu. }
    intros _ h2 Hc2. assert (Hc : calm h h2) by (by eapply calm_trans).
    twp_step. eapply tp_sock_update; [done..|].
    twp_step. eapply tp_sock_update; [done|by rewrite length_insert|by apply list_lookup_insert_eq|].
    rewrite list_insert_insert_eq. apply twp_ret. apply table_inv_sock; [done|by eapply table_inv_calm|].
    right. destruct (sock_used_calm _ _ _ _ _ Hi Hc Hu). rewrite Hst in *.
    split; simpl; try done; repeat case_match; naive_solver.
  - twp_step; [|by apply tp_fail]. twp_step. eapply tp_bind_udp; [done..|].
    intros h' l' Hinv' _. by apply twp_ret.
Qed.

Lemma tp_listen fd backlog (s : nstate H X) :
  inv cfg s → (t ≠ Partial → 0 ≤ fd) → twp t (listen fuel fd backlog) s (λ _ s', inv cfg s').
Proof.
  destruct s as [h l fl er x]. unfold inv. simpl. intros Hinv Hfd. unfold listen.
  pose proof (ti_len _ _ _ _ Hinv) as Hl.
  twp_step. eapply tp_get_socket; [done..| |]; [by intros; apply twp_ret|].
  intros i e f Hi He Hok _ _ _. twp_step. eapply tp_sock_at; [done..|].
  twp_step; [by twp_steps|].
  rename select (s_state e = _) into Hst.
  pose proof (used_of_state _ _ _ _ _ Hok Hst ltac:(done)) as Hu. rewrite (su_isocket _ _ _ _ Hu).
  twp_step; [by apply tp_fail|].
  rename select (s_type e = _) into Hty.
  twp_step. apply twp_command; [done|by apply Hinv|done|done|]. intros h1 Hc1 Hm1. simpl in *.
  twp_step. apply tp_wait; [apply Hc1|done| |].
  { intros n Hr. by apply (resp_listen n Hr); [apply Hc1|..]. }
  intros v h2 _ Hst2%still_calm. assert (Hc : calm h h2) by (by eapply calm_trans).
  twp_step. eapply tp_sock_update; [done..|]. apply twp_ret. simpl in *.
  apply table_inv_sock; [done|by eapply table_inv_calm|].
  right. destruct (sock_used_calm _ _ _ _ _ Hi Hc Hu). rewrite Hst in *.
  split; simpl; try done; repeat case_match; naive_solver.
Qed.

(** ** Accepting connections *)

(** The socket a descriptor stands for, and whether its calls wait. *)
Definition fd_socket (s : nstate H X) (fd : Z) : option w5100_socket :=
  match n_files s !! Z.to_nat fd with
  | Some f => match opaque f with Some (ObjSocket i) => n_socks s !! Z.to_nat i | _ => None end
  | None => None
  end.

Definition nonblocking (s : nstate H X) (fd : Z) : Prop :=
  ∀ e p f, fd_socket s fd = Some e → s_fd_data e = Some p → n_files s !! Z.to_nat p = Some f →
    Z.land (status_flags f) O_NONBLOCK ≠ 0.

Lemma fd_socket_eq h l fl er x fd i e f :
  fl !! Z.to_nat fd = Some f → opaque f = Some (ObjSocket i) → l !! Z.to_nat i = Some e →
  fd_socket (NState h l fl er x) fd = Some e.
Proof. intros Hf Ho He. unfold fd_socket. simpl. by rewrite Hf, Ho. Qed.

Lemma tp_accept_take i e addr addrlen h l fl er x (Q : _ → nstate H X → Prop) :
  table_inv cfg h l fl → is_sock i → l !! Z.to_nat i = Some e →
  s_state e = W5100_SOCK_STATE_LISTENING → s_type e = SOCK_STREAM →
  (∀ r h' l' fl' er', table_inv cfg h' l' fl' → Q r (NState h' l' fl' er' x)) →
  twp t (accept_take fuel i addr addrlen) (NState h l fl er x) Q.
Proof.
  intros Hinv Hi He Hst Hty HQ. unfold accept_take.
  pose proof (ti_len _ _ _ _ Hinv) as Hl. pose proof (ti_files _ _ _ _ Hinv) as Hfl.
  assert (Hin : (Z.to_nat i < length l)%nat) by (eapply lookup_lt_Some; exact He).
  pose proof (used_of_state _ _ _ _ _ (ti_socks _ _ _ _ Hinv i e Hi He) Hst ltac:(done)) as Hu.
  twp_step. eapply tp_sock_at; [done..|]. rewrite (su_isocket _ _ _ _ Hu).
  twp_step. apply tp_file_alloc; [done| |].
  - rewrite decide_True by done. do 2 twp_step.
    twp_step. apply twp_command; [done|by apply Hinv|done|done|]. intros h1 Hc1 _. simpl in *.
    twp_step. apply twp_command; [done|apply Hc1|done|done|]. intros h2 Hc2 _. simpl in *.
    twp_step. apply twp_command; [done|apply Hc2|done|done|]. intros h3 Hc3 _. simpl in *.
    apply twp_ret, HQ. eapply table_inv_calm; [|done]. by eauto using calm_trans.
  - intros p f Hp Hf Hna. rewrite decide_False by lia.
    twp_step. eapply tp_sock_update; [done..|]. twp_step. apply tp_fill_fresh; [done..|].
    twp_step. eapply tp_sock_update; [done|by rewrite length_insert|by apply list_lookup_insert_eq|].
    rewrite list_insert_insert_eq.
    set (l' := <[Z.to_nat i:=_]> l). set (fl' := <[Z.to_nat p:=_]> fl).
    assert (Hother : ∀ j q, own_fd fl j q → q ≠ p) by (intros j q Hq; by eapply own_fd_allocated).
    assert (Hinv' : ∀ h', calm h h' → table_inv cfg h' l' fl').
    { intros h' Hc. eapply table_inv_entry; [done|done|lia|done|intros _; right; by exists i|intros; by eapply Hother|].
      right. destruct (sock_used_calm _ _ _ _ _ Hi Hc Hu). rewrite Hst in *. split; simpl; try done.
      - destruct (s_fd_data e) as [q|]; [|by auto]. apply own_fd_set; [done|lia|]. apply not_eq_sym. by eapply Hother.
      - split; [by apply own_sock_entry|]. split; [|done]. intros E. rewrite E in *. by eapply Hother.
      - by left. }
    destruct addr as [a|]; [|apply twp_ret, HQ, Hinv', calm_refl; by apply Hinv].
    cbv zeta. twp_step. apply tp_read_sock_regx; [by apply Hinv|]. intros ip h1 _ _ Hs1. simpl in *.
    twp_step. apply tp_read_sock_regx; [apply Hs1|]. intros port h2 _ _ Hs2. simpl in *.
    apply twp_ret, HQ, Hinv'. eauto using still_calm, still_trans.
Qed.

Lemma tp_accept fd addr addrlen (s : nstate H X) :
  inv cfg s → (t ≠ Partial → 0 ≤ fd) → (t = Total → nonblocking s fd) →
  twp t (accept fuel fd addr addrlen) s (λ _ s', inv cfg s').
Proof.
  destruct s as [h l fl er x]. unfold inv. simpl. intros Hinv Hfd Hnb. unfold accept.
  twp_step. eapply tp_get_socket; [done..| |]; [by intros; apply twp_ret|].
  intros i e f Hi He Hok Hf _ Ho. twp_step. eapply tp_sock_at; [done..|].
  twp_step; [by twp_steps|]. rename select (s_state e = _) into Hst.
  pose proof (used_of_state _ _ _ _ _ Hok Hst ltac:(done)) as Hu.
  twp_step; [by twp_steps|]. rename select (s_type e = _) into Hty.
  pose proof (su_data _ _ _ _ Hu) as Hd.
  destruct (s_fd_data e) as [p|] eqn:Ep; [|rewrite Hst in Hd; by destruct Hd].
  destruct Hd as (Hp & g & Hg & _).
  twp_step. eapply twp_lift; [done|]. twp_step. eapply tp_fd_at; [lia|done|]. cbv zeta.
  assert (Hflag : t = Total → Z.land (status_flags g) O_NONBLOCK ≠ 0).
  { intros Ht. eapply Hnb; [done|by eapply fd_socket_eq|done|done]. }
  apply twp_loop with (μ := λ _ _, 0%nat) (I := λ _ s, ∃ h', s = NState h' l fl er x ∧ still h h').
  - exists h. split; [done|]. apply still_refl, Hinv.
  - intros Ht. specialize (Hfuel Ht). lia.
  - intros [] ? (h1 & -> & Hs1). twp_step. apply twp_read_sock_reg; [apply Hs1|].
    intros v h2 _ Hs2. simpl in *. assert (Hs : still h h2) by (by eapply still_trans).
    assert (Hinv2 : table_inv cfg h2 l fl) by (eapply table_inv_calm; [by apply still_calm|done]).
    twp_step; [|twp_step].
    + twp_step. eapply tp_accept_take; [done..|].
      intros. by apply twp_ret.
    + by twp_steps.
    + apply twp_ret. split; [by exists h2|]. intros Ht. by destruct (Hflag Ht).
Qed.

(** ** Transfers *)

Lemma tp_read_buf_len i (s : nstate H X) (Q : Z → nstate H X → Prop) :
  chip_ok (n_hw s) → (∀ n h', is_u16 n → still (n_hw s) h' → Q n (upd h' s)) →
  twp t (read_buf_len i) s Q.
Proof.
  intros Hok HQ. unfold read_buf_len. twp_step. apply tp_read_sock_regx; [done|].
  intros bs h' _ _ Hs. apply twp_ret, HQ; [apply bswap16_range|done].
Qed.

Lemma tp_read_buf_pstart i (s : nstate H X) (Q : Z → nstate H X → Prop) :
  chip_ok (n_hw s) → (∀ n h', is_u16 n → still (n_hw s) h' → Q n (upd h' s)) →
  twp t (read_buf_pstart i) s Q.
Proof.
  intros Hok HQ. unfold read_buf_pstart. twp_step. apply tp_read_sock_regx; [done|].
  intros bs h' _ _ Hs. apply twp_ret, HQ; [apply bswap16_range|done].
Qed.

Lemma tp_write_buf_pstart i (s : nstate H X) (Q : Z → nstate H X → Prop) :
  chip_ok (n_hw s) → (∀ n h', is_u16 n → still (n_hw s) h' → Q n (upd h' s)) →
  twp t (write_buf_pstart i) s Q.
Proof.
  intros Hok HQ. unfold write_buf_pstart. twp_step. apply tp_read_sock_regx; [done|].
  intros bs h' _ _ Hs. apply twp_ret, HQ; [apply bswap16_range|done].
Qed.

Lemma tp_write_buf_len i (s : nstate H X) (Q : Z → nstate H X → Prop) :
  chip_ok (n_hw s) → is_sock i → (∀ n h', 0 ≤ n ≤ 2048 → still (n_hw s) h' → Q n (upd h' s)) →
  twp t (write_buf_len i) s Q.
Proof.
  intros Hok Hi HQ. unfold write_buf_len, w5100_read_sock_regx. rewrite sock_reg_eq by done.
  twp_step. eapply twp_Done; [by apply read_mem_run|]. apply twp_ret, HQ; [|by apply loads_still].
  pose proof (tx_free_bound i (n_hw s) Hok Hi) as Hb.
  pose proof (load_u8 (sreg W5100_Sn_TX_FSR i) _ Hok) as Hhi.
  pose proof (load_u8 (sreg W5100_Sn_TX_FSR i + 1) _ (load_ok (sreg W5100_Sn_TX_FSR i) _ Hok)) as Hlo.
  rewrite addrs_plain_range by (unfold is_sock, sreg, W5100_Sn_TX_FSR, W5100_Sn_TX_FSR_SIZE in *; lia).
  cbn [seq fmap list_fmap W5100_Sn_TX_FSR_SIZE loads]. rewrite Z.add_0_r.
  change (Z.of_nat 1) with 1. simpl proj.
  destruct (chip_load (sreg W5100_Sn_TX_FSR i) (n_hw s)) as [hi h1]. cbn [fst snd] in *.
  destruct (chip_load (sreg W5100_Sn_TX_FSR i + 1) h1) as [lo h2]. cbn [fst snd] in *.
  rewrite ntohs_pair by done. unfold is_u8 in *. lia.
Qed.

(** What a transfer of [n] bytes leaves in the buffer. *)
Definition received (n : Z) (buf buf' : list Z) : Prop :=
  length buf' = length buf ∧ (Forall is_u8 buf → Forall is_u8 buf') ∧ (0 < n → n ≤ Z.of_nat (length buf)).

Lemma received_none n buf : n ≤ 0 → received n buf buf.
Proof. intros. split_and!; [done|done|lia]. Qed.

(** One piece of a read into [buf]. *)
Lemma tp_read_piece {B} n addr off buf (k : list Z → M (nstate H X) B) (s : nstate H X) (Q : B → nstate H X → Prop) :
  chip_ok (n_hw s) → 0 ≤ off → 0 ≤ n → (t ≠ Partial → off + n ≤ Z.of_nat (length buf)) →
  (∀ buf' h', received (if decide (n > 0) then off + n else 0) buf buf' → still (n_hw s) h' → twp t (k buf') (upd h' s) Q) →
  twp t (buf ← (if decide (n > 0) then bs ← w5100_read_mem addr (Z.to_nat n); lift (mem_write buf off bs)
                else mret buf); k buf) s Q.
Proof.
  intros Hok Hoff Hn Hfit HQ. twp_step. destruct (decide (n > 0)).
  - twp_step. apply twp_read_mem; [done|]. intros bs h' Hu Hbs Hs.
    apply twp_access; [|apply mem_write_returns|]; unfold mem_write.
    { intros Ht. rewrite decide_True by (specialize (Hfit Ht); lia). by eexists. }
    intros buf' Hb. case_decide; [|done]. injection Hb as <-. apply HQ; [|done].
    split; [rewrite !length_app, length_take, length_drop; lia|]. split; [|lia].
    intros Hbuf. rewrite !Forall_app. auto using Forall_take, Forall_drop.
  - apply twp_ret. rewrite <- (upd_proj s). apply HQ; [by apply received_none|by apply still_refl].
Qed.

Lemma tp_read_buf_sure i buf len p (s : nstate H X) (Q : list Z * Z → nstate H X → Prop) :
  chip_ok (n_hw s) → 0 ≤ len ≤ 65535 → (t ≠ Partial → len ≤ Z.of_nat (length buf)) →
  (∀ buf' p' h', received len buf buf' → is_u16 p' → still (n_hw s) h' → Q (buf', p') (upd h' s)) →
  twp t (read_buf_sure i buf len p) s Q.
Proof.
  intros Hok Hlen Hbuf HQ. unfold read_buf_sure.
  change (get_rx_mask i) with 2047. change (get_rx_size i) with 2048. rewrite ring_mask.
  pose proof (Z.mod_pos_bound p 2048 ltac:(lia)) as Ho. set (o := p mod 2048) in *. cbv zeta.
  rewrite u32_id by (unfold is_u32; lia). rewrite (u16_id (2048 - o)) by (unfold is_u16; lia).
  assert (Hp : ∃ n1 n2, (if decide (o + len > 2048) then (2048 - o, u16 (len - (2048 - o))) else (u16 len, 0)) = (n1, n2) ∧
    0 ≤ n1 ∧ 0 ≤ n2 ∧ n1 + n2 = len).
  { case_decide; rewrite u16_id by (unfold is_u16; lia); do 2 eexists; (split; [done|lia]). }
  destruct Hp as (n1 & n2 & -> & Hn1 & Hn2 & Hn).
  apply tp_read_piece; [done|lia|lia|intros Ht; specialize (Hbuf Ht); lia|]. intros buf1 h1 (Hl1 & Hu1 & Hf1) Hs1.
  apply tp_read_piece; [apply Hs1|lia|lia|intros Ht; specialize (Hbuf Ht); lia|]. intros buf2 h2 (Hl2 & Hu2 & Hf2) Hs2. simpl in *.
  apply twp_ret, HQ; [|apply u16_range|by eapply still_trans].
  split; [congruence|]. split; [auto|]. repeat case_decide; lia.
Qed.

Lemma tp_read_buf_recv i p (s : nstate H X) (Q : unit → nstate H X → Prop) :
  chip_ok (n_hw s) → is_sock i → (∀ h', calm (n_hw s) h' → Q tt (upd h' s)) →
  twp t (read_buf_recv fuel i p) s Q.
Proof.
  intros Hok Hi HQ. unfold read_buf_recv. cbv zeta. twp_step.
  apply twp_write_sock_regx; [done..| |done|].
  { unfold W5100_Sn_RX_RD, W5100_Sn_RX_RD_SIZE. lia. }
  intros h1 Hc1. apply twp_command; [done|apply Hc1|done|done|]. intros h2 Hc2 _. simpl in *.
  apply HQ. by eapply calm_trans.
Qed.

Lemma tp_read_buf i buf len (s : nstate H X) (Q : Z * list Z → nstate H X → Prop) :
  chip_ok (n_hw s) → is_sock i → 0 ≤ len → (t ≠ Partial → len ≤ Z.of_nat (length buf)) →
  (∀ n buf' h', n ≤ len → received n buf buf' → calm (n_hw s) h' → Q (n, buf') (upd h' s)) →
  twp t (read_buf fuel i buf len) s Q.
Proof.
  intros Hok Hi Hlen0 Hlen HQ. unfold read_buf. twp_step. apply tp_read_buf_len; [done|].
  intros n h1 Hn Hs1. unfold is_u16 in Hn. twp_step; [|apply twp_ret, HQ; [lia|apply received_none; lia|by apply still_calm]].
  cbv zeta. set (len' := if decide (len > n) then n else len).
  assert (Hlen' : 0 ≤ len' ≤ 65535 ∧ len' ≤ len) by (unfold len'; case_decide; lia).
  assert (Hfit : t ≠ Partial → len' ≤ Z.of_nat (length buf)).
  { intros Ht. specialize (Hlen Ht). unfold len'. case_decide; lia. }
  twp_step. apply tp_read_buf_pstart; [apply Hs1|]. intros p h2 Hp Hs2. simpl in *.
  twp_step. apply tp_read_buf_sure; [apply Hs2|apply Hlen'|done|]. intros buf' p' h3 Hb Hp' Hs3. simpl in *.
  twp_step. apply tp_read_buf_recv; [apply Hs3|done|]. intros h4 Hc4. simpl in *.
  rewrite u16_id by (unfold is_u16; lia). apply twp_ret, HQ; [apply Hlen'|done|]. eauto 10 using calm_trans, still_calm, still_trans.
Qed.

Lemma tx_not_kept i p n : is_sock i →
  Forall (λ a, a ≠ W5100_MR ∧ kept a = false) (ring_addrs (get_tx_base i) p n).
Proof.
  intros Hi. rewrite tx_base_eq by done. unfold ring_addrs, is_sock in *.
  apply Forall_fmap, list.Forall_forall. intros k _. simpl.
  pose proof (Z.mod_pos_bound (p + Z.of_nat k) 2048 ltac:(lia)).
  unfold W5100_MR, kept. split; [lia|]. apply bool_decide_eq_false. lia.
Qed.

Lemma tp_write_buf_send i p (s : nstate H X) (Q : unit → nstate H X → Prop) :
  chip_ok (n_hw s) → is_sock i → (∀ h', calm (n_hw s) h' → Q tt (upd h' s)) →
  twp t (write_buf_send fuel i p) s Q.
Proof.
  intros Hok Hi HQ. unfold write_buf_send. cbv zeta. twp_step.
  apply twp_write_sock_regx; [done..| |done|].
  { unfold W5100_Sn_TX_WR, W5100_Sn_TX_WR_SIZE. lia. }
  intros h1 Hc1. apply twp_command; [done|apply Hc1|done|done|]. intros h2 Hc2 _. simpl in *.
  apply HQ. by eapply calm_trans.
Qed.

Lemma tp_write_buf i buf len (s : nstate H X) (Q : Z → nstate H X → Prop) :
  chip_ok (n_hw s) → is_sock i → 0 ≤ len ≤ Z.of_nat (length buf) →
  (∀ n h', 0 ≤ n ≤ len → calm (n_hw s) h' → Q n (upd h' s)) →
  twp t (write_buf fuel i buf len) s Q.
Proof.
  intros Hok Hi Hlen HQ. unfold write_buf. twp_step. apply tp_write_buf_len; [done..|].
  intros n h1 Hn Hs1. twp_step; [|apply twp_ret, HQ; [lia|by apply still_calm]].
  cbv zeta. set (len' := if decide (len > n) then n else len).
  assert (Hlen' : 0 ≤ len' ≤ 2048 ∧ len' ≤ len) by (unfold len'; case_decide; lia).
  twp_step. apply tp_write_buf_pstart; [apply Hs1|]. intros p h2 Hp Hs2. simpl in *.
  twp_step. eapply twp_Done.
  { apply write_buf_sure_run; [apply Hs2|done|apply Hp|lia|lia]. }
  simpl. twp_step.
  pose proof (stores_calm_zip _ (take (Z.to_nat len') buf) h2 (proj1 Hs2) (tx_not_kept i p (Z.to_nat len') Hi)) as Hc3.
  apply tp_write_buf_send; [apply Hc3|done|]. intros h4 Hc4. simpl in *.
  apply twp_ret, HQ; [rewrite u16_id by (unfold is_u16; lia); lia|].
  eauto 10 using calm_trans, still_calm, still_trans.
Qed.

Lemma tp_manage_disconnect i e h l fl er x (Q : Z → nstate H X → Prop) :
  table_inv cfg h l fl → is_sock i → l !! Z.to_nat i = Some e → s_type e = SOCK_STREAM →
  s_state e ≠ W5100_SOCK_STATE_NONE →
  (∀ h' er', still h h' → Q 0 (NState h' l fl er' x)) →
  (∀ h' l' er', table_inv cfg h' l' fl → Q (-1) (NState h' l' fl er' x)) →
  twp t (manage_disconnect fuel i) (NState h l fl er x) Q.
Proof.
  intros Hinv Hi He Hty Hst Hconn Hdis. unfold manage_disconnect.
  pose proof (ti_len _ _ _ _ Hinv) as Hl.
  pose proof (used_of_state _ _ _ _ _ (ti_socks _ _ _ _ Hinv i e Hi He) eq_refl Hst) as Hu.
  twp_step. eapply tp_sock_at; [done..|]. rewrite (su_isocket _ _ _ _ Hu).
  twp_step. apply twp_read_sock_reg; [by apply Hinv|]. intros v h1 _ Hs1.
  twp_step; [|by apply twp_ret, Hconn]. do 2 twp_step.
  twp_step. apply twp_command; [done|apply Hs1|done|done|]. intros h2 Hc2 Hm2. simpl in *.
  twp_step. apply tp_wait; [apply Hc2|done| |].
  { intros n Hr. apply (resp_close n Hr); [apply Hc2|done|by left]. }
  intros _ h3 _ Hs3%still_calm. simpl in *.
  assert (Hc : calm h h3) by eauto 10 using calm_trans, still_calm.
  twp_step. twp_step.
  - eapply tp_relisten; [apply Hc|done|done|done|by apply Hu|]. intros h4 Hc4. apply twp_ret, Hdis.
    apply table_inv_sock; [done|by eapply table_inv_calm, table_inv_calm|].
    right. destruct (sock_used_calm _ _ _ _ _ Hi (calm_trans _ _ _ Hc Hc4) Hu).
    rename select (_ ∧ _) into Hac. destruct Hac as [Hac Hfd].
    split; simpl; try done; [|destruct (s_connection e)|]; try (destruct (s_fd_data e)); naive_solver.
  - eapply tp_sock_update; [done..|]. apply twp_ret, Hdis.
    apply table_inv_sock; [done|by eapply table_inv_calm|].
    right. destruct (sock_used_calm _ _ _ _ _ Hi Hc Hu).
    split; simpl; try done; repeat case_match; naive_solver.
Qed.

End calls.
