(* ===== verification/W5100Data.v ===== *)
(** * The data calls of the socket driver: [recv], [send] and their relatives in
      [src/w5100_socket.c]

    Each transfer waits for the chip in a loop that a non-blocking descriptor
    leaves after one turn and a timeout ends: [tp_wait_turn]. The lemmas say
    that every call keeps the invariant of the socket table. *)

From stdpp Require Import prelude list numbers functions.
From S2P Require Import Prelude Timespec Clock Inet Files Poll Sockets Opencm3 W5100Spi W5100Socket W5100Chip W5100Ring W5100Table.

(** Uses a lemma about a call under the assumptions on completion. *)
Tactic Notation "run" uconstr(c) :=
  eapply c; try match goal with
    | |- ready _ _ => eassumption
    | |- ?t = Total → (4 < ?n)%nat => eassumption
    end.

Section data.
Context {H X : Type} `{!SpiDevice H, !W5100 H, !W5100Bus H, !W5100Commands H, !Clock X, !ClockTotal X, !ClockLaws X}.
Context (t : reading) (cfg : Z → Z) (fuel : nat) (junk : timespec) (Hready : ready (H:=H) t fuel) (Hfuel : t = Total → (4 < fuel)%nat).

(** The descriptor's socket has its own descriptor open: not so for a connection
    whose listening descriptor is closed, nor for a closed descriptor. *)
Definition data_fd (s : nstate H X) (fd : Z) : Prop :=
  ∀ e, fd_socket s fd = Some e → s_fd_data e ≠ None.

(** A buffer [recvfrom] does not leave: of the given length for a stream, of
    the size of any datagram otherwise. *)
Definition recv_fits (s : nstate H X) (fd : Z) (buf : list Z) (len : Z) : Prop :=
  0 ≤ len ∧ ∀ e, fd_socket s fd = Some e →
    (s_type e = SOCK_STREAM → len ≤ Z.of_nat (length buf)) ∧
    (s_type e = SOCK_DGRAM → 65535 ≤ Z.of_nat (length buf)).

(** ** Waiting *)

(** Before the deadline of [tom], on a clock that advances at each reading: at
    most [turns] readings are left. *)
Definition ticking (tom : timeout_manager) (x : X) : Prop :=
  has_timeout tom = true ∧ tom_end tom = of_ns (ns (tom_end tom)) ∧ clk_ok x ∧
  0 ≤ clk_now CLOCK_MONOTONIC x ≤ ns (tom_end tom) ∧ ns (tom_end tom) + clk_hi ≤ clk_limit.
Definition turns (tom : timeout_manager) (x : X) : nat :=
  Z.to_nat ((ns (tom_end tom) - clk_now CLOCK_MONOTONIC x) / clk_lo).

(** A timeout [d] that ends a loop of at most [n] turns of progress in between. *)
Definition timed (d : timespec) (n : nat) (x : X) : Prop :=
  normal d ∧ 0 < ns d ∧ clk_ok x ∧ 0 ≤ clk_now CLOCK_MONOTONIC x ∧
  clk_now CLOCK_MONOTONIC x + ns d + 2 * clk_hi ≤ clk_limit ∧ (Z.to_nat (ns d / clk_lo) + n < fuel)%nat.

(** The calls on [fd] do not wait for ever: it is non-blocking, or its socket has
    the timeout [d]. *)
Definition prompt (d : w5100_socket → timespec) (n : nat) (s : nstate H X) (fd : Z) : Prop :=
  nonblocking s fd ∨ ∀ e, fd_socket s fd = Some e → timed (d e) n (n_rest s).

(** A data call reads the flags of the socket's own descriptor. *)
Lemma tp_data_flags {B} h l fl er x fd i e f d n (k : Z → fd_t → M (nstate H X) B) (Q : B → nstate H X → Prop) :
  table_inv cfg h l fl → is_sock i → fl !! Z.to_nat fd = Some f → opaque f = Some (ObjSocket i) →
  l !! Z.to_nat i = Some e →
  (t ≠ Partial → data_fd (NState h l fl er x) fd) → (t = Total → prompt d n (NState h l fl er x) fd) →
  (∀ p g, sock_used fl h i e →
     (t = Total → Z.land (status_flags g) O_NONBLOCK = 0 → timed (d e) n x) →
     twp t (k p g) (NState h l fl er x) Q) →
  twp t (p ← lift (deref (s_fd_data e)); f ← fd_at p; k p f) (NState h l fl er x) Q.
Proof.
  intros Hinv Hi Hf Ho He Hd Hpr Hk.
  assert (Hfs : fd_socket (NState h l fl er x) fd = Some e) by (by eapply fd_socket_eq).
  twp_step. apply twp_access; [|by destruct (s_fd_data e)|].
  { intros Ht. specialize (Hd Ht e Hfs). destruct (s_fd_data e) as [p|]; [by exists p|done]. }
  intros p Ep. destruct (s_fd_data e) as [p0|] eqn:Ed; [injection Ep as ->|done].
  destruct (ti_socks _ _ _ _ Hinv i e Hi He) as [(_ & _ & Hn & _)|Hu]; [by rewrite Hn in Ed|].
  pose proof (su_data _ _ _ _ Hu) as Hdata. rewrite Ed in Hdata. destruct Hdata as (Hp & g & Hg & _).
  twp_step. eapply tp_fd_at; [lia|done|]. apply Hk; [done|]. intros Ht Hz.
  destruct (Hpr Ht) as [Hnb|Htm]; [by destruct (Hnb e p g Hfs Ed Hg)|by apply Htm].
Qed.

Lemma clock_run id tp h l fl er (x : X) :
  ∃ r tp' x', clock_gettime id tp (NState (H:=H) h l fl er x) = Done ((r, tp'), NState h l fl er x') ∧
    (known_clock id → clk_ok x → 0 ≤ clk_now id x → clk_now id x + clk_hi ≤ clk_limit →
       clk_ok x' ∧ tp' = of_ns (clk_now id x') ∧
       clk_now id x + clk_lo ≤ clk_now id x' ≤ clk_now id x + clk_hi).
Proof.
  destruct (clock_total id tp x) as ([r tp'] & x' & Hc). exists r, tp', x'. split.
  { unfold clock_gettime at 1, nstate_clock. simpl. by rewrite Hc. }
  intros Hid Hok H0 Hlim. destruct (clk_read id tp x Hid Hok H0 Hlim) as (x2 & Hok2 & Hc2 & Hb).
  rewrite Hc2 in Hc. injection Hc as <- <- <-. done.
Qed.

Lemma known_monotonic : known_clock CLOCK_MONOTONIC.
Proof. by left. Qed.

Lemma tp_timeout_init d h l fl er x (Q : timeout_manager → nstate H X → Prop) :
  (∀ tom x', (∀ n, timed d n x → ticking tom x' ∧ (turns tom x' + n < fuel)%nat) → Q tom (NState h l fl er x')) →
  twp t (timeout_init junk d) (NState h l fl er x) Q.
Proof.
  intros HQ. unfold timeout_init. cbv zeta. pose proof clk_lo_pos as Hlo.
  destruct (decide (timespec_cmp TIMESPEC_ZERO d ≠ 0)) as [Hz|Hz].
  - rewrite bool_decide_eq_true_2 by done.
    destruct (clock_run CLOCK_MONOTONIC junk h l fl er x) as (r & tp & x' & Hc & Hrun). twp_step.
    eapply (twp_Done _ _ _ (r, tp)); [exact Hc|]. apply twp_ret, HQ. intros n (Hn & Hd & Hok & H0 & Hlim & Hf).
    destruct (Hrun known_monotonic Hok H0 ltac:(lia)) as (Hok' & -> & Hb).
    assert (Hnow : normal (of_ns (clk_now CLOCK_MONOTONIC x'))) by (apply normal_of_ns; lia).
    assert (Hend : timespec_incr (of_ns (clk_now CLOCK_MONOTONIC x')) d =
      of_ns (clk_now CLOCK_MONOTONIC x' + ns d)).
    { unfold timespec_incr. rewrite timespec_add_of_ns, ns_of_ns; [done|done|done|].
      destruct Hn. unfold clk_limit, sum_safe in *. ts_unfold. simpl. zlia. }
    unfold ticking, turns. simpl. rewrite Hend, ns_of_ns.
    replace (clk_now CLOCK_MONOTONIC x' + ns d - clk_now CLOCK_MONOTONIC x') with (ns d) by lia.
    split_and!; [done|done|done|lia|lia|lia|done].
  - rewrite bool_decide_eq_false_2 by done. apply twp_ret, HQ. intros n (Hn & Hd & _).
    exfalso. apply Hz. intros E. apply timespec_cmp_eq in E; [|apply normal_zero|done|].
    + subst d. done.
    + destruct d, Hn. unfold TIMESPEC_ZERO in *. ts_unfold. simpl in *. lia.
Qed.

Lemma tp_timeout_ended tom h l fl er x (Q : bool → nstate H X → Prop) :
  (∀ er' x', Q true (NState h l fl er' x')) →
  (∀ er' x', (ticking tom x → ticking tom x' ∧ (turns tom x' < turns tom x)%nat) → Q false (NState h l fl er' x')) →
  twp t (timeout_ended junk tom) (NState h l fl er x) Q.
Proof.
  intros Ht Hf. unfold timeout_ended. pose proof clk_lo_pos as Hlo.
  destruct (has_timeout tom) eqn:Eh; [|apply twp_ret, Hf; intros [E _]; congruence].
  destruct (clock_run CLOCK_MONOTONIC junk h l fl er x) as (r & tp & x' & Hc & Hrun). twp_step.
  eapply (twp_Done _ _ _ (r, tp)); [exact Hc|]. cbv beta iota zeta.
  case_bool_decide as Hcmp; [twp_step; twp_step; apply twp_ret, Ht|]. apply twp_ret, Hf.
  intros (_ & Hend & Hok & H0 & Hlim). destruct (Hrun known_monotonic Hok ltac:(lia) ltac:(lia)) as (Hok' & -> & Hb).
  assert (Hnow : normal (of_ns (clk_now CLOCK_MONOTONIC x'))) by (apply normal_of_ns; lia).
  assert (Hle : clk_now CLOCK_MONOTONIC x' ≤ ns (tom_end tom)).
  { rewrite Hend in Hcmp. assert (Hs := cmp_of_ns (ns (tom_end tom)) (clk_now CLOCK_MONOTONIC x')).
    specialize (Hs ltac:(lia)). specialize (Hs ltac:(lia)). specialize (Hs ltac:(lia)).
    lia. }
  split; [split_and!; [done|done|done|lia|lia|lia]|]. unfold turns.
  assert ((ns (tom_end tom) - clk_now CLOCK_MONOTONIC x') / clk_lo <
    (ns (tom_end tom) - clk_now CLOCK_MONOTONIC x) / clk_lo).
  { apply Z.lt_le_trans with ((ns (tom_end tom) - clk_now CLOCK_MONOTONIC x') / clk_lo + 1); [lia|].
    rewrite <- Z.div_add by lia. apply Z.div_le_mono; lia. }
  pose proof (Z.div_pos (ns (tom_end tom) - clk_now CLOCK_MONOTONIC x') clk_lo). lia.
Qed.

(** The deadline of a call, before its loop. *)
Lemma tp_deadline {B} nonblock d n (k : timeout_manager → M (nstate H X) B) h l fl er x (Q : B → nstate H X → Prop) :
  (t = Total → nonblock = 0 → timed d n x) →
  (∀ tom x', (t = Total → nonblock = 0 → ticking tom x' ∧ (turns tom x' + n < fuel)%nat) →
     twp t (k tom) (NState h l fl er x') Q) →
  twp t (tom ← (if decide (nonblock = 0) then timeout_init junk d else mret (TimeoutManager false junk)); k tom)
    (NState h l fl er x) Q.
Proof.
  intros Htm Hk. twp_step. twp_step.
  - apply tp_timeout_init. intros tom x' Htk. apply Hk. auto.
  - apply twp_ret, Hk. done.
Qed.

(** The end of a turn that found nothing to do: only a blocking descriptor goes on. *)
Lemma tp_wait_turn {A B} nonblock tom (eagain expired : B) (again : A) h l fl er x
    (Q : A + B → nstate H X → Prop) :
  (∀ er', Q (inr eagain) (NState h l fl er' x)) →
  (∀ er' x', Q (inr expired) (NState h l fl er' x')) →
  (∀ er' x', nonblock = 0 → (ticking tom x → ticking tom x' ∧ (turns tom x' < turns tom x)%nat) →
     Q (inl again) (NState h l fl er' x')) →
  twp t (if decide (nonblock ≠ 0) then _ ← set_errno EAGAIN; mret (inr eagain)
         else ended ← timeout_ended junk tom; mret (if ended : bool then inr expired else inl again))
    (NState h l fl er x) Q.
Proof.
  intros Ha He Hw. twp_step; [twp_steps; apply Ha|]. twp_step. apply tp_timeout_ended; intros er' x'.
  - apply twp_ret, He.
  - intros Htk. apply twp_ret. by apply Hw.
Qed.

(** A loop of such turns. The invariant [I] is kept by the turns that go on; a
    turn that does not read the clock makes progress [μ]. *)
Lemma tp_wait_loop {A B} nonblock tom (μ : A → nat) (body : A → M (nstate H X) (A + B)) a s
    (I : A → nstate H X → Prop) (Q : B → nstate H X → Prop) :
  (t = Total → nonblock = 0 → ticking tom (n_rest s) ∧ (turns tom (n_rest s) + μ a < fuel)%nat) → I a s →
  (∀ a s, I a s → twp t (body a) s (λ r s', match r with
     | inl a' => nonblock = 0 ∧ I a' s' ∧ (ticking tom (n_rest s) → ticking tom (n_rest s') ∧
         (turns tom (n_rest s') + μ a' < turns tom (n_rest s) + μ a)%nat)
     | inr b => Q b s' end)) →
  twp t (loop fuel body a) s Q.
Proof.
  intros Hnb HI Hbody. destruct (decide (nonblock = 0)) as [Hz|Hz].
  - apply twp_loop with (μ := λ a s, (turns tom (n_rest s) + μ a)%nat)
      (I := λ a s, I a s ∧ (t = Total → ticking tom (n_rest s))).
    + split; [done|]. intros Ht. by apply Hnb.
    + intros Ht. by apply Hnb.
    + intros a' s' [HI' Htk]. eapply twp_mono, Hbody; [|done]. intros [a''|b] s'' Hr; [|done].
      destruct Hr as (_ & HI'' & Hstep). split; [split; [done|]|]; intros Ht; apply Hstep; auto.
  - apply twp_loop with (μ := λ _ _, 0%nat) (I := I); [done| |].
    + intros Ht. specialize (Hfuel Ht). lia.
    + intros a' s' HI'. eapply twp_mono, Hbody; [|done]. intros [a''|b] s'' Hr; [|done]. by destruct Hr.
Qed.

(** ** Receiving *)

(** What the caller gets: its buffer, and a count or an error code (1 when the
    socket is not connected). *)
Definition recv_ok (buf : list Z) (r : recv_result) : Prop :=
  let '(n, buf', _, _) := r in
  length buf' = length buf ∧ (Forall is_u8 buf → Forall is_u8 buf') ∧ n ≤ Z.max 1 (Z.of_nat (length buf)).

Lemma received_ok n buf buf' a al : received n buf buf' → recv_ok buf (n, buf', a, al).
Proof. intros (? & ? & Hn). split_and!; [done|done|]. destruct (decide (0 < n)); [specialize (Hn ltac:(done))|]; lia. Qed.

Lemma recv_ok_none n buf a al : n ≤ 1 → recv_ok buf (n, buf, a, al).
Proof. intros. split_and!; [done|done|lia]. Qed.

Lemma tp_recv_stream i e buf len a al h l fl er x (Q : option recv_result → nstate H X → Prop) :
  table_inv cfg h l fl → is_sock i → l !! Z.to_nat i = Some e → sock_used fl h i e →
  s_type e = SOCK_STREAM → 0 ≤ len → (t ≠ Partial → len ≤ Z.of_nat (length buf)) →
  (∀ h' er', calm h h' → Q None (NState h' l fl er' x)) →
  (∀ r h' l' er', recv_ok buf r → table_inv cfg h' l' fl → Q (Some r) (NState h' l' fl er' x)) →
  twp t (recv_stream fuel i buf len a al) (NState h l fl er x) Q.
Proof.
  intros Hinv Hi He Hu Hty Hlen0 Hlen HN HS. unfold recv_stream.
  twp_step. run tp_sock_at; [done..|]. rewrite (su_isocket _ _ _ _ Hu).
  twp_step. run tp_read_buf; [by apply Hinv|done|done|done|]. intros n buf' h1 Hn Hrc Hc1. simpl in *.
  assert (Hinv1 : table_inv cfg h1 l fl) by (by eapply table_inv_calm).
  twp_step; [by apply twp_ret, HS; [apply received_ok|]|].
  twp_step. run tp_manage_disconnect; [done..|apply Hu| |].
  - intros h2 er' Hs2. apply twp_ret. rewrite decide_False by done. apply HN.
    eapply calm_trans; [done|by apply still_calm].
  - intros h2 l' er' Hinv2. apply twp_ret. rewrite decide_True by done. apply HS; [|done].
    apply received_ok. destruct Hrc as (? & ? & _). split_and!; [done|done|lia].
Qed.

Lemma tp_recv_dgram i e buf a al h l fl er x (Q : option recv_result → nstate H X → Prop) :
  table_inv cfg h l fl → is_sock i → l !! Z.to_nat i = Some e → sock_used fl h i e →
  (t ≠ Partial → 65535 ≤ Z.of_nat (length buf)) →
  (∀ h', calm h h' → Q None (NState h' l fl er x)) →
  (∀ r h', recv_ok buf r → calm h h' → Q (Some r) (NState h' l fl er x)) →
  twp t (recv_dgram fuel i buf a al) (NState h l fl er x) Q.
Proof.
  intros Hinv Hi He Hu Hlen HN HS. unfold recv_dgram.
  twp_step. run tp_sock_at; [done..|]. rewrite (su_isocket _ _ _ _ Hu).
  twp_step. run tp_read_buf_len; [by apply Hinv|]. intros n h1 _ Hs1. simpl in *.
  twp_step; [|by apply twp_ret, HN, still_calm].
  twp_step. run tp_read_buf_pstart; [apply Hs1|]. intros p h2 _ Hs2. simpl in *.
  twp_step. run tp_read_buf_sure; [apply Hs2|done|done|]. intros hd p' h3 [Hhd _] _ Hs3. simpl in *.
  assert (Hread : ∀ off k, 0 ≤ off → off + Z.of_nat k ≤ 8 →
    mem_read hd off k = Done (take k (drop (Z.to_nat off) hd))).
  { intros off k Hoff Hk. unfold mem_read. rewrite decide_True; [done|]. lia. }
  twp_step. eapply twp_lift; [by apply Hread|]. twp_step. eapply twp_lift; [by apply Hread|].
  set (aa := match a with Some _ => _ | None => _ end). destruct aa as [a' al'].
  twp_step. eapply twp_lift; [by apply Hread|].
  pose proof (bswap16_range (le_val (take 2 (drop (Z.to_nat 6) hd)))) as Hm.
  fold (ntohs (le_val (take 2 (drop (Z.to_nat 6) hd)))) in Hm.
  set (m := ntohs _) in *. unfold is_u16 in Hm. cbv zeta.
  twp_step. run tp_read_buf_sure; [apply Hs3|lia|intros Ht; specialize (Hlen Ht); lia|]. intros buf' p'' h4 Hrc _ Hs4. simpl in *.
  twp_step. run tp_read_buf_recv; [apply Hs4|done|]. intros h5 Hc5. simpl in *.
  apply twp_ret, HS; [by apply received_ok|]. eauto 10 using calm_trans, still_calm, still_trans.
Qed.

Lemma tp_recvfrom fd buf len a al (s : nstate H X) :
  inv cfg s → (t ≠ Partial → 0 ≤ fd) → (t ≠ Partial → data_fd s fd) → 0 ≤ len →
  (t ≠ Partial → recv_fits s fd buf len) → (t = Total → prompt s_recv_timeout 0 s fd) →
  twp t (recvfrom fuel junk fd buf len a al) s (λ r s', inv cfg s' ∧ recv_ok buf r).
Proof.
  destruct s as [h l fl er x]. unfold inv. simpl. intros Hinv Hfd Hd Hlen Hfit Hnb. unfold recvfrom.
  twp_step. run tp_get_socket; [done..| |]; [by intros; apply twp_ret; split; [|apply recv_ok_none]|].
  intros i e f Hi He Hok Hf _ Ho. twp_step. run tp_sock_at; [done..|].
  assert (Hfit' : t ≠ Partial → (s_type e = SOCK_STREAM → len ≤ Z.of_nat (length buf)) ∧
    (s_type e = SOCK_DGRAM → 65535 ≤ Z.of_nat (length buf))).
  { intros Ht. apply (Hfit Ht). by eapply fd_socket_eq. }
  twp_step; [twp_steps; split; [done|by apply recv_ok_none]|]. twp_step; [twp_steps; split; [done|by apply recv_ok_none]|].
  twp_step; [apply twp_ret; split; [done|by apply recv_ok_none]|].
  eapply tp_data_flags; [done..|]. intros p g Hu Hflag. cbv zeta.
  apply tp_deadline with (n := 0%nat); [done|]. intros tom x' Htom.
  apply tp_wait_loop with (nonblock := Z.land (status_flags g) O_NONBLOCK) (tom := tom) (μ := λ _, 0%nat)
    (I := λ _ s, ∃ h' er' x', s = NState h' l fl er' x' ∧ calm h h').
  { done. }
  { exists h, er, x'. split; [done|apply calm_refl, Hinv]. }
  intros [] ? (h1 & er1 & x1 & -> & Hc1).
  assert (Hinv1 : table_inv cfg h1 l fl) by (by eapply table_inv_calm).
  assert (Hu1 : sock_used fl h1 i e) by (by eapply sock_used_calm).
  twp_step. eapply (twp_mono _ _ _ (λ (r : option recv_result) s', match r with
    | Some r => table_inv cfg (n_hw s') (n_socks s') (n_files s') ∧ recv_ok buf r
    | None => ∃ h2 er2, s' = NState h2 l fl er2 x1 ∧ calm h h2 end)).
  - intros [r|] s'; [intros; by apply twp_ret|]. intros (h2 & er2 & -> & Hc2).
    assert (Hinv2 : table_inv cfg h2 l fl) by (by eapply table_inv_calm).
    apply tp_wait_turn with (tom := tom); [intros; split; [done|by apply recv_ok_none]..|]. intros er' x2 Hz Hstep. rewrite !Nat.add_0_r.
    split; [done|]. split; [by exists h2, er', x2|exact Hstep].
  - twp_step; [|twp_step].
    + eapply tp_recv_stream; [done..|naive_solver| |by split]. intros h2 er2 Hc2. exists h2, er2. split; [done|by eapply calm_trans].
    + eapply tp_recv_dgram; [done..|naive_solver| |intros r h2 Hr Hc2; split; [by eapply table_inv_calm|done]].
      intros h2 Hc2. exists h2, er1. split; [done|by eapply calm_trans].
    + apply twp_ret. by exists h1, er1.
Qed.

Lemma tp_recv fd buf len (s : nstate H X) :
  inv cfg s → (t ≠ Partial → 0 ≤ fd) → (t ≠ Partial → data_fd s fd) → 0 ≤ len →
  (t ≠ Partial → recv_fits s fd buf len) → (t = Total → prompt s_recv_timeout 0 s fd) →
  twp t (recv fuel junk fd buf len) s (λ r s', inv cfg s' ∧ recv_ok buf (r, None, None)).
Proof.
  intros Hinv Hfd Hd Hlen Hfit Hnb. unfold recv. twp_step. eapply twp_mono, tp_recvfrom; [|done..].
  intros [[[r b] a] al] s' Hr. by apply twp_ret.
Qed.

(** ** Sending *)

(** A turn of [send] keeps the count within the bytes that are left. *)
Lemma tp_send_turn i e nonblock tom bytes towrite h l fl er x
    (Q : list Z * Z + list Z * Z → nstate H X → Prop) :
  table_inv cfg h l fl → is_sock i → l !! Z.to_nat i = Some e → sock_used fl h i e →
  s_type e = SOCK_STREAM → 0 ≤ towrite ≤ Z.of_nat (length bytes) → is_u32 towrite →
  (∀ st h' l' er' x', table_inv cfg h' l' fl → Q (inr st) (NState h' l' fl er' x')) →
  (∀ bytes' towrite' h' er' x', calm h h' → nonblock = 0 →
     0 ≤ towrite' ≤ Z.of_nat (length bytes') → is_u32 towrite' →
     (ticking tom x → ticking tom x' ∧
       (turns tom x' + Z.to_nat towrite' < turns tom x + Z.to_nat towrite)%nat) →
     Q (inl (bytes', towrite')) (NState h' l fl er' x')) →
  twp t (send_turn fuel junk i nonblock tom (bytes, towrite)) (NState h l fl er x) Q.
Proof.
  intros Hinv Hi He Hu Hty Hlen Hu32 Hend Hgo. unfold send_turn.
  twp_step; [|by apply twp_ret, Hend].
  twp_step. run tp_sock_at; [done..|]. rewrite (su_isocket _ _ _ _ Hu).
  twp_step. run tp_write_buf; [by apply Hinv|done..|]. intros n h1 Hn Hc1. simpl in *.
  assert (Hinv1 : table_inv cfg h1 l fl) by (by eapply table_inv_calm).
  unfold is_u32 in *. twp_step.
  - cbv zeta. rewrite u32_id by (unfold is_u32; lia). apply twp_ret. case_decide; [by apply Hend|].
    apply Hgo; [done|tauto|rewrite length_drop; lia|lia|]. intros. split; [done|lia].
  - twp_step. run tp_manage_disconnect; [done..|apply Hu| |].
    + intros h2 er2 Hs2%still_calm. rewrite decide_False by done.
      assert (Hc2 : calm h h2) by (by eapply calm_trans).
      apply tp_wait_turn; intros; [apply Hend; by eapply table_inv_calm..|].
      apply Hgo; [done..|]. rename select (ticking _ _ → _) into Hstep. intros Htk%Hstep.
      destruct Htk. split; [done|lia].
    + intros h2 l2 er2 Hinv2. rewrite decide_True by done. by apply twp_ret, Hend.
Qed.

(** A socket that has been bound on the way has the same flags and timeouts. *)
Lemma same_fd_socket h h1 l l1 fl er x fd i e e1 f n :
  fl !! Z.to_nat fd = Some f → opaque f = Some (ObjSocket i) → l !! Z.to_nat i = Some e →
  l1 !! Z.to_nat i = Some e1 → s_fd_data e1 = s_fd_data e → s_send_timeout e1 = s_send_timeout e →
  (t ≠ Partial → data_fd (NState h l fl er x) fd) →
  (t = Total → prompt s_send_timeout n (NState h l fl er x) fd) →
  (t ≠ Partial → data_fd (NState h1 l1 fl er x) fd) ∧
  (t = Total → prompt s_send_timeout n (NState h1 l1 fl er x) fd).
Proof.
  intros Hf Ho He He1 Ed Ew Hd Hnb.
  pose proof (fd_socket_eq h l fl er x fd i e f Hf Ho He) as Hfs.
  pose proof (fd_socket_eq h1 l1 fl er x fd i e1 f Hf Ho He1) as Hfs1. split.
  - intros Ht e' He'. assert (e' = e1) as -> by congruence. rewrite Ed. by apply Hd.
  - intros Ht. destruct (Hnb Ht) as [Hb|Htm]; [left|right]; intros e'.
    + intros p g He' Ep Hg. assert (e' = e1) as -> by congruence. apply (Hb e p g Hfs); [congruence|done].
    + intros He'. assert (e' = e1) as -> by congruence. rewrite Ew. by apply Htm.
Qed.

Lemma tp_sendto_dgram i e buf len dest h l fl er x fd f (Q : Z → nstate H X → Prop) :
  table_inv cfg h l fl → is_sock i → l !! Z.to_nat i = Some e → s_type e = SOCK_DGRAM →
  fl !! Z.to_nat fd = Some f → opaque f = Some (ObjSocket i) →
  (t ≠ Partial → data_fd (NState h l fl er x) fd) →
  (t = Total → prompt s_send_timeout (Z.to_nat len) (NState h l fl er x) fd) →
  0 ≤ len ≤ Z.of_nat (length buf) →
  (∀ r h' l' er' x', table_inv cfg h' l' fl → Q r (NState h' l' fl er' x')) →
  twp t (sendto_dgram fuel junk i buf len dest) (NState h l fl er x) Q.
Proof.
  intros Hinv Hi He Hty Hf Ho Hd Hnb Hlen HQ. unfold sendto_dgram.
  twp_step. run tp_check_bind_udp; [done..|]. intros h1 l1 Hinv1 (e1 & He1 & Ed & Et & Es & Ew).
  twp_step. run tp_sock_at; [done..|].
  twp_step; [by run tp_fail; apply HQ|]. destruct dest as [peer|]; [|by run tp_fail; apply HQ].
  twp_step; [by run tp_fail; apply HQ|].
  destruct (same_fd_socket h h1 l l1 fl er x fd i e e1 f (Z.to_nat len) Hf Ho He He1 Ed Ew Hd Hnb) as [Hdata1 Hpr1].
  rewrite Es. eapply tp_data_flags; [done..|]. intros p g Hu Hflag. cbv zeta.
  pose proof (su_isocket _ _ _ _ Hu) as Ei. rewrite Es in Ei. rewrite Ei.
  apply tp_deadline with (n := Z.to_nat len); [done|]. intros tom x1 Htom.
  apply tp_wait_loop with (nonblock := Z.land (status_flags g) O_NONBLOCK) (tom := tom) (μ := λ _, Z.to_nat len)
    (I := λ _ s, ∃ h' er' x', s = NState h' l1 fl er' x' ∧ calm h1 h').
  { done. }
  { exists h1, er, x1. split; [done|apply calm_refl, Hinv1]. }
  intros [] ? (h2 & er2 & x2 & -> & Hc2).
  twp_step. run tp_write_buf_len; [apply Hc2|done|]. intros n h3 Hn Hs3%still_calm. simpl in *.
  twp_step.
  - twp_step. apply twp_write_sock_regx; [apply Hs3|done..| |simpl; unfold W5100_Sn_DPORT_SIZE, W5100_Sn_DIPR_SIZE; lia|].
    { unfold W5100_Sn_DIPR, W5100_Sn_DIPR_SIZE. lia. }
    intros h4 Hc4. twp_step. apply twp_write_sock_regx; [apply Hc4|done..| |simpl; unfold W5100_Sn_DPORT_SIZE; lia|].
    { unfold W5100_Sn_DPORT, W5100_Sn_DPORT_SIZE. lia. }
    intros h5 Hc5. twp_step. run tp_write_buf; [apply Hc5|done|done|]. intros k h6 _ Hc6. simpl in *.
    apply twp_ret, HQ. eapply table_inv_calm; [|done]. eauto 10 using calm_trans.
  - assert (Hc3 : calm h1 h3) by (by eapply calm_trans).
    apply tp_wait_turn with (tom := tom); [intros; apply HQ; by eapply table_inv_calm..|].
    intros er' x' Hz Hstep. split; [done|]. split; [by exists h3, er', x'|].
    intros Htk%Hstep. destruct Htk. split; [done|]. simpl. lia.
Qed.

(** The two turns of the mutual recursion, for every type of socket. *)
Lemma tp_send_body (sto : Z → list Z → Z → option sockaddr_in → M (nstate H X) Z) fd buf len (s : nstate H X) :
  inv cfg s → (t ≠ Partial → 0 ≤ fd) → (t ≠ Partial → data_fd s fd) → (t = Total → prompt s_send_timeout (Z.to_nat len) s fd) →
  0 ≤ len ≤ Z.of_nat (length buf) → is_u32 len →
  (∀ i e f, is_sock i → n_socks s !! Z.to_nat i = Some e → s_type e = SOCK_DGRAM →
     n_files s !! Z.to_nat fd = Some f → opaque f = Some (ObjSocket i) →
     twp t (sto fd buf len (Some (s_dest e))) s (λ _ s', inv cfg s')) →
  twp t (send_body fuel junk sto fd buf len) s (λ _ s', inv cfg s').
Proof.
  destruct s as [h l fl er x]. unfold inv. simpl. intros Hinv Hfd Hd Hnb Hlen Hu32 Hsto. unfold send_body.
  twp_step. run tp_get_socket; [done..| |]; [by intros; apply twp_ret|].
  intros i e f Hi He Hok Hf _ Ho. twp_step. run tp_sock_at; [done..|].
  twp_step; [twp_step; [by run tp_fail|by eapply Hsto]|].
  twp_step; [by run tp_fail|]. twp_step; [by twp_steps|].
  eapply tp_data_flags; [done..|]. intros p g Hu Hflag. cbv zeta.
  apply tp_deadline with (n := Z.to_nat len); [done|]. intros tom x1 Htom. twp_step.
  apply tp_wait_loop with (nonblock := Z.land (status_flags g) O_NONBLOCK) (tom := tom)
    (μ := λ st, Z.to_nat st.2) (I := λ st s, 0 ≤ st.2 ≤ Z.of_nat (length st.1) ∧ is_u32 st.2 ∧
       ∃ h' er' x', s = NState h' l fl er' x' ∧ calm h h').
  { done. }
  { split; [done|]. split; [done|]. exists h, er, x1. split; [done|apply calm_refl, Hinv]. }
  intros [bytes towrite] ? (Hb & Hb32 & h2 & er2 & x2 & -> & Hc2). simpl in Hb, Hb32.
  rename select (¬ (s_type e ≠ _)) into Hty || rename select (s_type e = SOCK_STREAM) into Hty.
  eapply tp_send_turn; [by eapply table_inv_calm|done|done|by eapply sock_used_calm|done|done|done| |].
  - intros [] h3 l3 er3 x3 Hinv3. by apply twp_ret.
  - intros bs' n' h3 er3 x3 Hc3 Hz Hn Hn32 Hstep. split; [done|]. split; [|exact Hstep].
    split; [done|]. split; [done|]. exists h3, er3, x3. split; [done|by eapply calm_trans].
Qed.

Lemma tp_sendto_body (snd : Z → list Z → Z → M (nstate H X) Z) fd buf len dest (s : nstate H X) :
  inv cfg s → (t ≠ Partial → 0 ≤ fd) → (t ≠ Partial → data_fd s fd) → (t = Total → prompt s_send_timeout (Z.to_nat len) s fd) →
  0 ≤ len ≤ Z.of_nat (length buf) →
  (∀ i e f, is_sock i → n_socks s !! Z.to_nat i = Some e → s_type e = SOCK_STREAM →
     n_files s !! Z.to_nat fd = Some f → opaque f = Some (ObjSocket i) →
     twp t (snd fd buf len) s (λ _ s', inv cfg s')) →
  twp t (sendto_body fuel junk snd fd buf len dest) s (λ _ s', inv cfg s').
Proof.
  destruct s as [h l fl er x]. unfold inv. simpl. intros Hinv Hfd Hd Hnb Hlen Hsnd. unfold sendto_body.
  twp_step. run tp_get_socket; [done..| |]; [by intros; apply twp_ret|].
  intros i e f Hi He Hok Hf _ Ho. twp_step. run tp_sock_at; [done..|].
  twp_step; [by eapply Hsnd|]. twp_step; [|by run tp_fail].
  by eapply tp_sendto_dgram.
Qed.

Lemma tp_send fd buf len (s : nstate H X) :
  inv cfg s → (t ≠ Partial → 0 ≤ fd) → (t ≠ Partial → data_fd s fd) → (t = Total → prompt s_send_timeout (Z.to_nat len) s fd) →
  0 ≤ len ≤ Z.of_nat (length buf) → is_u32 len →
  twp t (send fuel junk fd buf len) s (λ _ s', inv cfg s').
Proof.
  intros Hinv Hfd Hd Hnb Hlen Hu32. unfold send, send_rec.
  apply tp_send_body; [done..|]. intros i e f Hi He Hty Hf Ho.
  apply tp_sendto_body; [done..|]. intros i' e' f' _ He' Hty' Hf' Ho'.
  assert (i' = i) as -> by congruence. assert (e' = e) as -> by congruence. by rewrite Hty in Hty'.
Qed.

Lemma tp_sendto fd buf len dest (s : nstate H X) :
  inv cfg s → (t ≠ Partial → 0 ≤ fd) → (t ≠ Partial → data_fd s fd) → (t = Total → prompt s_send_timeout (Z.to_nat len) s fd) →
  0 ≤ len ≤ Z.of_nat (length buf) → is_u32 len →
  twp t (sendto fuel junk fd buf len dest) s (λ _ s', inv cfg s').
Proof.
  intros Hinv Hfd Hd Hnb Hlen Hu32. unfold sendto.
  apply tp_sendto_body; [done..|]. intros. by apply tp_send.
Qed.

(** ** Polling, options and addresses *)

Lemma tp_poll_rw i (s : nstate H X) (Q : Z → nstate H X → Prop) :
  chip_ok (n_hw s) → is_sock i → (∀ r h', still (n_hw s) h' → Q r (upd h' s)) →
  twp t (w5100_sock_poll_rw i) s Q.
Proof.
  intros Hok Hi HQ. unfold w5100_sock_poll_rw.
  twp_step. run tp_read_buf_len; [done|]. intros n h1 _ Hs1. simpl in *.
  twp_step. run tp_write_buf_len; [apply Hs1|done|]. intros m h2 _ Hs2. simpl in *.
  cbv zeta. apply twp_ret, HQ. by eapply still_trans.
Qed.

Lemma tp_sock_poll fd (s : nstate H X) :
  inv cfg s → (t ≠ Partial → 0 ≤ fd) → twp t (w5100_sock_poll fd) s (λ _ s', inv cfg s').
Proof.
  destruct s as [h l fl er x]. unfold inv. simpl. intros Hinv Hfd. unfold w5100_sock_poll.
  twp_step. run tp_get_socket; [done..| |]; [by intros; apply twp_ret|].
  intros i e f Hi He Hok Hf _ Ho. twp_step. run tp_sock_at; [done..|].
  assert (Hkeep : ∀ h', still h h' → table_inv cfg h' l fl).
  { intros h' ?%still_calm. by eapply table_inv_calm. }
  destruct Hok as [(Hs & _)|Hu].
  { rewrite Hs. rewrite !decide_False by (intros ?; naive_solver). by apply twp_ret. }
  rewrite (su_isocket _ _ _ _ Hu).
  twp_step; [|twp_step; [|twp_step; [|by apply twp_ret]]].
  - twp_step. apply twp_read_sock_reg; [by apply Hinv|]. intros v h1 _ Hs1. by apply twp_ret, Hkeep.
  - twp_step. apply twp_read_sock_reg; [by apply Hinv|]. intros v h1 _ Hs1. simpl in *.
    twp_step; [by apply twp_ret, Hkeep|]. apply tp_poll_rw; [apply Hs1|done|].
    intros r h2 Hs2. apply Hkeep. by eapply still_trans.
  - apply tp_poll_rw; [by apply Hinv|done|]. intros r h2 Hs2. by apply Hkeep.
Qed.

Lemma tp_setsockopt fd level o (s : nstate H X) :
  inv cfg s → (t ≠ Partial → 0 ≤ fd) → twp t (setsockopt fd level o) s (λ _ s', inv cfg s').
Proof.
  destruct s as [h l fl er x]. unfold inv. simpl. intros Hinv Hfd. unfold setsockopt.
  twp_step. run tp_get_socket; [done..| |]; [by intros; apply twp_ret|].
  intros i e f Hi He _ _ _ _. twp_step; [by run tp_fail|].
  destruct o as [[]|]; [..|by run tp_fail];
    twp_step; (run tp_sock_update; [done|by apply Hinv|done|]); apply twp_ret; by eapply table_inv_attr.
Qed.

Lemma tp_getsockopt fd level o v (s : nstate H X) :
  inv cfg s → (t ≠ Partial → 0 ≤ fd) → twp t (getsockopt fd level o v) s (λ _ s', inv cfg s').
Proof.
  destruct s as [h l fl er x]. unfold inv. simpl. intros Hinv Hfd. unfold getsockopt.
  twp_step. run tp_get_socket; [done..| |]; [by intros; apply twp_ret|].
  intros i e f Hi He _ _ _ _. twp_step; [twp_step; run tp_fail; by apply twp_ret|].
  twp_step. run tp_sock_at; [done..|].
  destruct o; try by apply twp_ret.
Qed.

(** An object that the bytes of an address, or the asked for length of it, fit in. *)
Definition addr_fits (address : option (list Z)) (address_len : option Z) : Prop :=
  ∀ buf, address = Some buf →
    12 ≤ Z.of_nat (length buf) ∨ ∃ n, address_len = Some n ∧ 0 ≤ n ≤ Z.of_nat (length buf).

Lemma tp_get_sockaddr_in pad a address al (s : nstate H X) :
  length pad = 2%nat → inv cfg s → addr_fits address al → (∀ n, al = Some n → is_u32 n) →
  twp t (get_sockaddr_in pad a address al) s (λ _ s', inv cfg s').
Proof.
  intros Hpad Hinv Hfit Hal. unfold get_sockaddr_in. cbv zeta.
  destruct address as [buf|]; [|twp_step; run tp_fail; by apply twp_ret].
  set (len := match al with Some len => _ | None => 12 end).
  assert (Hlen : Z.of_nat (length (take (Z.to_nat len) (sockaddr_bytes pad a))) ≤ Z.of_nat (length buf)).
  { rewrite length_take. unfold sockaddr_bytes. rewrite !length_app, !length_le_bytes, Hpad.
    destruct (Hfit buf eq_refl) as [?|(n & -> & Hn)]; [lia|].
    unfold len. rewrite u32_id by (by apply Hal). case_decide; lia. }
  twp_step. eapply twp_lift; [unfold mem_write; by rewrite decide_True by lia|]. by apply twp_ret.
Qed.

Lemma tp_getsockname pad fd address al (s : nstate H X) :
  length pad = 2%nat → inv cfg s → (t ≠ Partial → 0 ≤ fd) → addr_fits address al → (∀ n, al = Some n → is_u32 n) →
  twp t (getsockname pad fd address al) s (λ _ s', inv cfg s').
Proof.
  destruct s as [h l fl er x]. unfold inv. simpl. intros Hpad Hinv Hfd Hfit Hal. unfold getsockname.
  twp_step. run tp_get_socket; [done..| |]; [by intros; apply twp_ret|].
  intros i e f Hi He _ _ _ _. twp_step. run tp_sock_at; [done..|].
  twp_step; [twp_step; run tp_fail; by apply twp_ret|]. by apply tp_get_sockaddr_in.
Qed.

Lemma tp_getpeername pad fd address al (s : nstate H X) :
  length pad = 2%nat → inv cfg s → (t ≠ Partial → 0 ≤ fd) → addr_fits address al → (∀ n, al = Some n → is_u32 n) →
  twp t (getpeername pad fd address al) s (λ _ s', inv cfg s').
Proof.
  destruct s as [h l fl er x]. unfold inv. simpl. intros Hpad Hinv Hfd Hfit Hal. unfold getpeername.
  twp_step. run tp_get_socket; [done..| |]; [by intros; apply twp_ret|].
  intros i e f Hi He _ _ _ _. twp_step. run tp_sock_at; [done..|].
  twp_step; [twp_step; run tp_fail; by apply twp_ret|]. by apply tp_get_sockaddr_in.
Qed.
End data.
