(* ===== verification/W5100Calls.v ===== *)
(** * The calls of the socket driver together: start-up and any sequence of calls
      of [src/w5100_socket.c]

    [w5100_socket_init] establishes the invariant of [W5100Table]; from there a
    program makes the calls [call] in any order ([driver_step]). Every state it
    reaches satisfies the invariant, no call faults in it whatever the chip and
    the network answer, and every call returns when the chip is responsive and
    the call is non-blocking or has a timeout. *)

From stdpp Require Import prelude list numbers functions relations.
From S2P Require Import Prelude Timespec Clock ClockDummy Inet Files Poll Sockets Opencm3 W5100Spi W5100Socket W5100Chip W5100Ring W5100Table W5100Data.

Section start.
Context {H X : Type} `{!SpiDevice H, !W5100 H, !W5100Bus H, !W5100Commands H, !Clock X, !ClockTotal X}.
Context (t : reading) (fuel : nat) (Hready : ready (H:=H) t fuel).

(** What start-up needs: the tables as [file_init] leaves them, or as any use of
    the driver does. *)
Record bootable (s : nstate H X) : Prop := {
  bt_chip : chip_ok (n_hw s);
  bt_len : length (n_socks s) = W5100_N_SOCKETS;
  bt_files : length (n_files s) = OPEN_MAX;
  bt_opaque : ∀ p f, n_files s !! p = Some f → st_type (fd_stat f) = S_IFSOCK →
    opaque f = None ∨ ∃ i, is_sock i ∧ opaque f = Some (ObjSocket i);
}.

Lemma tp_hw c (s : nstate H X) (Q : unit → nstate H X → Prop) :
  chip_ok (n_hw s) → (∀ p pins, c ≠ gpio_clear p pins) →
  (∀ h', chip_ok h' → Q tt (upd h' s)) → twp t (hw c) s Q.
Proof. intros Hok Hc HQ. eapply twp_Done; [apply hw_run|]. apply HQ. apply bus_setup; [exact Hok|exact Hc]. Qed.

Lemma tp_init board (s : nstate H X) (Q : unit → nstate H X → Prop) :
  chip_ok (n_hw s) → (∀ h', chip_ok h' → Q tt (upd h' s)) → twp t (w5100_init board) s Q.
Proof.
  destruct s as [h l fl er x]. simpl. intros Hok HQ. unfold w5100_init, w5100_spi_init, w5100_deselect.
  destruct board; repeat (first [apply tp_hw; [done|done|intros; simpl in *]|apply twp_bind]); by apply HQ.
Qed.

(** A byte or a block is written: the writes so far are [stores ws h]. *)
Lemma tp_store a v ws h l fl er x (Q : unit → nstate H X → Prop) :
  chip_ok h → Q tt (NState (stores (ws ++ [(a, v)]) h) l fl er x) →
  twp t (w5100_write_reg a v) (NState (stores ws h) l fl er x) Q.
Proof.
  intros Hok HQ. unfold w5100_write_reg. eapply twp_Done; [apply write_byte_run; by apply stores_ok|].
  by rewrite stores_app in HQ.
Qed.

Lemma tp_stores a bs n ws h l fl er x (Q : unit → nstate H X → Prop) :
  chip_ok h → n = length bs → Q tt (NState (stores (ws ++ zip (addrs a n) bs) h) l fl er x) →
  twp t (w5100_write_mem a bs n) (NState (stores ws h) l fl er x) Q.
Proof.
  intros Hok -> HQ. eapply twp_Done; [apply write_mem_run; [by apply stores_ok|done]|].
  rewrite take_ge by done. by rewrite stores_app in HQ.
Qed.

Lemma tp_free_all h l fl er x (Q : unit → nstate H X → Prop) :
  length l = W5100_N_SOCKETS →
  (∀ l', length l' = W5100_N_SOCKETS → Forall sock_free l' → Q tt (NState h l' fl er x)) →
  twp t (for_fold W5100_N_SOCKETS 0 (λ i _, socket_free i) tt) (NState h l fl er x) Q.
Proof.
  intros Hl HQ. apply twp_of_wp.
  apply wp_for_fold with (I := λ i _ s, ∃ l', s = NState h l' fl er x ∧ length l' = W5100_N_SOCKETS ∧
    ∀ j e, 0 ≤ j < i → l' !! Z.to_nat j = Some e → sock_free e).
  - exists l. split_and!; [done|done|]. intros. lia.
  - intros j [] s Hj (l' & -> & Hl' & Hfree).
    destruct (lookup_lt_is_Some_2 l' (Z.to_nat j)) as [e He]; [unfold W5100_N_SOCKETS in *; lia|].
    assert (His : is_sock j) by (unfold is_sock, W5100_N_SOCKETS in *; lia).
    apply wp_of_twp.
    eapply tp_socket_free; [done..|]. intros e' He'. eexists. split; [done|].
    split; [by rewrite length_insert|]. intros k e0 Hk He0.
    apply list_lookup_insert_Some in He0 as [(_ & <- & _)|[Hne He0]]; [done|].
    apply (Hfree k); [lia|done].
  - intros [] s (l' & -> & Hl' & Hfree). apply HQ; [done|]. apply Forall_lookup_2. intros j e He.
    apply (Hfree (Z.of_nat j)); [|by rewrite Nat2Z.id]. pose proof (lookup_lt_Some _ _ _ He). lia.
Qed.

(** The tables agree. [inv cfg] fixes the registers of the interface, too. *)
Definition well_formed (s : nstate H X) : Prop := inv (λ b, cell b (n_hw s)) s.

Lemma inv_well_formed cfg (s : nstate H X) : inv cfg s → well_formed s.
Proof. by intros []. Qed.

(** The registers of the interface, from [W5100_GAR] to [W5100_SIPR], and the
    sizes of the buffers of the sockets. *)
Definition interface (h : H) : list Z := (λ a, cell a h) <$> seqZ 1 18.
Lemma inv_interface (s s' : nstate H X) :
  inv (λ b, cell b (n_hw s)) s' → interface (n_hw s') = interface (n_hw s).
Proof.
  intros [_ _ _ _ _ Hcfg]. apply list_fmap_ext. intros i b Hb. apply lookup_seqZ in Hb as [-> Hi].
  apply Hcfg. lia.
Qed.

Definition buffer_sizes (h : H) : list Z := [cell W5100_RMSR h; cell W5100_TMSR h].

(** What start-up writes. *)
Definition start_writes : list (Z * Z) :=
  [(W5100_RMSR, 85); (W5100_TMSR, 85)] ++ zip (addrs W5100_SHAR W5100_SHAR_SIZE) w5100_mac_addr ++
  zip (addrs W5100_SIPR W5100_SIPR_SIZE) [192; 168; 1; 99] ++
  zip (addrs W5100_GAR W5100_GAR_SIZE) [192; 168; 1; 1] ++
  zip (addrs W5100_SUBR W5100_SUBR_SIZE) [255; 255; 255; 0].

Lemma start_writes_cells h : chip_ok h →
  let h' := stores start_writes h in
  buffer_sizes h' = [85; 85] ∧
  interface h' = [192; 168; 1; 1] ++ [255; 255; 255; 0] ++ w5100_mac_addr ++ [192; 168; 1; 99].
Proof.
  intros Hok h'.
  assert (Hall : Forall (λ p, cell p.1 h' = u8 p.2) start_writes).
  { apply list.Forall_forall. intros [a v] Hin. apply stores_in; [done| | | |done].
    - assert (Hp : Forall (λ p, plain p.1 = true) start_writes) by (by repeat constructor).
      exact (proj1 (list.Forall_forall _ _) Hp (a, v) Hin).
    - by repeat constructor.
    - by apply (bool_decide_unpack (NoDup start_writes.*1)). }
  unfold start_writes in Hall. simpl in Hall.
  repeat match goal with H : Forall _ (_ :: _) |- _ => apply Forall_cons_1 in H as [? H] end.
  simpl in *. unfold buffer_sizes, interface, w5100_mac_addr. cbn. simpl in *.
  split; repeat f_equal; eassumption.
Qed.

Lemma tp_socket_init board (s : nstate H X) (Q : unit → nstate H X → Prop) :
  bootable s →
  (∀ h l, table_inv (λ b, cell b h) h l (n_files s) → Forall sock_free l → buffer_sizes h = [85; 85] →
     interface h = [192; 168; 1; 1] ++ [255; 255; 255; 0] ++ w5100_mac_addr ++ [192; 168; 1; 99] →
     Q tt (NState h l (n_files s) (n_errno s) (n_rest s))) →
  twp t (w5100_socket_init fuel board) s Q.
Proof.
  destruct s as [h l fl er x]. intros [Hok Hl Hfl Hop] HQ. unfold w5100_socket_init. simpl in *.
  twp_step. apply tp_init; [done|]. intros h1 Hok1. simpl in *.
  twp_step. unfold w5100_write_reg at 1. eapply twp_Done; [by apply write_byte_run|]. simpl.
  pose proof (store_ok W5100_MR W5100_MODE_RST h1 Hok1) as Hok2. set (h2 := chip_store _ _ h1) in *.
  twp_step. assert (Hset : ∃ n, t = Total → settles n W5100_MR (λ v, Z.land v W5100_MODE_RST = 0) h2 ∧ (n ≤ fuel)%nat).
  { destruct t; [|by exists 0%nat..]. destruct (Hready eq_refl) as (n & Hr & Hn). exists n.
    split; [by apply (resp_reset n Hr)|done]. }
  destruct Hset as [n Hset].
  eapply (twp_poll t fuel W5100_MR (λ v, Z.land v W5100_MODE_RST = 0)
    (λ r, if decide (Z.land r W5100_MODE_RST ≠ 0) then inl tt else inr tt)); [done|done|..].
  { intros v Hv. rewrite decide_False by lia. by exists tt. }
  intros v h3 [] _ [Hok3 _]. simpl in *.
  twp_step. apply tp_free_all; [done|]. intros l' Hl' Hfree. change h3 with (stores [] h3).
  do 2 (twp_step; apply tp_store; [done|]).
  twp_step. apply tp_stores; [done|done|].
  do 2 (twp_step; eapply twp_Done; [reflexivity|]; twp_step; apply tp_stores; [done|done|]).
  twp_step. eapply twp_Done; [reflexivity|]. apply tp_stores; [done|done|].
  rewrite <- !app_assoc. change (Q tt (NState (stores start_writes h3) l' fl er x)).
  destruct (start_writes_cells h3 Hok3) as [Hsz Hif]. apply HQ; [|done|done|done].
  split; [by apply stores_ok|done|done|done| |done].
  intros i e _ He. left. by eapply Forall_lookup_1 in Hfree.
Qed.
End start.

(** ** Any sequence of calls *)

Inductive call :=
| CSocket (domain type protocol : Z)
| CConnect (fd : Z) (address : sockaddr_in)
| CBind (fd : Z) (address : sockaddr_in)
| CListen (fd backlog : Z)
| CAccept (fd : Z) (address : option sockaddr_in) (address_len : option Z)
| CRecv (fd : Z) (buf : list Z) (len : Z)
| CRecvfrom (fd : Z) (buf : list Z) (len : Z) (address : option sockaddr_in) (address_len : option Z)
| CSend (fd : Z) (buf : list Z) (len : Z)
| CSendto (fd : Z) (buf : list Z) (len : Z) (dest : option sockaddr_in)
| CPoll (fd : Z)
| CSetsockopt (fd level : Z) (o : sockopt + Z)
| CGetsockopt (fd level : Z) (o : sockopt_name) (v : sockopt_value)
| CGetsockname (pad : list Z) (fd : Z) (address : option (list Z)) (address_len : option Z)
| CGetpeername (pad : list Z) (fd : Z) (address : option (list Z)) (address_len : option Z)
| CClose (fd : Z).

Section steps.
Context {H X : Type} `{!SpiDevice H, !W5100 H, !W5100Bus H, !W5100Commands H, !Clock X, !ClockTotal X}.
Context (cfg : Z → Z) (fuel : nat) (junk : timespec).

(** A call, its results left aside. *)
Definition run_call (c : call) : M (nstate H X) unit :=
  match c with
  | CSocket d ty p => _ ← socket d ty p; mret tt
  | CConnect fd a => _ ← connect fuel fd a; mret tt
  | CBind fd a => _ ← bind fuel fd a; mret tt
  | CListen fd b => _ ← listen fuel fd b; mret tt
  | CAccept fd a al => _ ← accept fuel fd a al; mret tt
  | CRecv fd buf len => _ ← recv fuel junk fd buf len; mret tt
  | CRecvfrom fd buf len a al => _ ← recvfrom fuel junk fd buf len a al; mret tt
  | CSend fd buf len => _ ← send fuel junk fd buf len; mret tt
  | CSendto fd buf len d => _ ← sendto fuel junk fd buf len d; mret tt
  | CPoll fd => _ ← w5100_sock_poll fd; mret tt
  | CSetsockopt fd l o => _ ← setsockopt fd l o; mret tt
  | CGetsockopt fd l o v => _ ← getsockopt fd l o v; mret tt
  | CGetsockname pad fd a al => _ ← getsockname pad fd a al; mret tt
  | CGetpeername pad fd a al => _ ← getpeername pad fd a al; mret tt
  | CClose fd => _ ← w5100_sock_close fuel fd; mret tt
  end.

Definition call_fd (c : call) : option Z :=
  match c with
  | CSocket _ _ _ => None
  | CConnect fd _ | CBind fd _ | CListen fd _ | CAccept fd _ _ | CRecv fd _ _ | CRecvfrom fd _ _ _ _
  | CSend fd _ _ | CSendto fd _ _ _ | CPoll fd | CSetsockopt fd _ _ | CGetsockopt fd _ _ _
  | CGetsockname _ fd _ _ | CGetpeername _ fd _ _ | CClose fd => Some fd
  end.

(** The calls a program may make: no negative descriptor; objects as large as
    the call says; and the cases in which the code follows a null pointer. *)
Definition call_ok (c : call) (s : nstate H X) : Prop :=
  (∀ fd, call_fd c = Some fd → 0 ≤ fd) ∧
  match c with
  | CRecv fd buf len | CRecvfrom fd buf len _ _ => data_fd s fd ∧ recv_fits s fd buf len
  | CSend fd buf len | CSendto fd buf len _ =>
      data_fd s fd ∧ 0 ≤ len ≤ Z.of_nat (length buf) ∧ is_u32 len
  | CGetsockname pad _ a al | CGetpeername pad _ a al =>
      length pad = 2%nat ∧ addr_fits a al ∧ ∀ n, al = Some n → is_u32 n
  | _ => True
  end.

Lemma tp_forget {A} t (m : M (nstate H X) A) s (Q : nstate H X → Prop) :
  twp t m s (λ _ s', Q s') → twp t (_ ← m; mret tt) s (λ _ s', Q s').
Proof. intros Hm. apply twp_bind. eapply twp_mono, Hm. intros. by apply twp_ret. Qed.

(** One call of the program, in a state in which it may make it. *)
Inductive driver_step (s s' : nstate H X) : Prop :=
| driver_call c : call_ok c s → run_call c s = Done (tt, s') → driver_step s s'.

Context `{!ClockLaws X}.

(** The calls that may wait for the network are made on a non-blocking
    descriptor, or on a socket whose timeout the fuel covers. [accept] knows no
    timeout. *)
Definition call_prompt (c : call) (s : nstate H X) : Prop :=
  match c with
  | CAccept fd _ _ => nonblocking s fd
  | CRecv fd _ _ | CRecvfrom fd _ _ _ _ => prompt fuel s_recv_timeout 0 s fd
  | CSend fd _ len | CSendto fd _ len _ => prompt fuel s_send_timeout (Z.to_nat len) s fd
  | _ => True
  end.

Lemma tp_run_call t c (s : nstate H X) :
  ready (H:=H) t fuel → (t = Total → (4 < fuel)%nat) → inv cfg s → call_ok c s → (t = Total → call_prompt c s) →
  twp t (run_call c) s (λ _ s', inv cfg s').
Proof.
  intros Hready Hfuel Hinv [Hfd Hok] Hp.
  destruct c; simpl in Hfd, Hok, Hp |- *; apply tp_forget; try specialize (Hfd _ eq_refl);
    destruct_and?.
  - eapply twp_mono; [|by run tp_socket]. by intros r s' [? _].
  - by run tp_connect.
  - by run tp_bind.
  - by run tp_listen.
  - by run tp_accept.
  - rename select (recv_fits _ _ _ _) into Hfit. pose proof (proj1 Hfit).
    eapply twp_mono; [|by run tp_recv]. by intros r s' [? _].
  - rename select (recv_fits _ _ _ _) into Hfit. pose proof (proj1 Hfit).
    eapply twp_mono; [|by run tp_recvfrom]. by intros r s' [? _].
  - by run tp_send.
  - by run tp_sendto.
  - by run tp_sock_poll.
  - by run tp_setsockopt.
  - by run tp_getsockopt.
  - by run tp_getsockname.
  - by run tp_getpeername.
  - eapply twp_mono; [|by run tp_sock_close]. by intros r s' [? _].
Qed.
End steps.

(** A clock of which nothing is known. *)
Program Definition any_clock (X : Type) `{!Clock X} : ClockLaws X :=
  {| clk_ok _ := False; clk_now _ _ := 0; clk_lo := 1; clk_hi := 1 |}.
Next Obligation. done. Qed.
Next Obligation. done. Qed.

(** ** The properties *)

Section properties.
Context {H X : Type} `{!SpiDevice H, !W5100 H, !W5100Bus H, !W5100Commands H, !Clock X, !ClockTotal X}.
Context (fuel : nat) (junk : timespec).

(** C1: in any state a program reaches from a consistent one by calls of the
    socket interface, the socket table, the descriptor table and the registers
    of the chip are consistent, the addresses of the interface are what they
    were, and no further call accesses memory out of bounds, whatever the chip
    answers and however long it takes. *)
Theorem socket_calls_safe (s s' : nstate H X) :
  well_formed s → rtc (driver_step fuel junk) s s' →
  well_formed s' ∧ interface (n_hw s') = interface (n_hw s) ∧
  ∀ c, call_ok c s' → run_call fuel junk c s' ≠ Fault.
Proof.
  assert (Hrun : ∀ cfg c (s : nstate H X), inv cfg s → call_ok c s →
    twp Safe (run_call fuel junk c) s (λ _ s', inv cfg s')).
  { intros cfg c s0 Hinv Hc. by apply (@tp_run_call H X _ _ _ _ _ _ cfg fuel junk (any_clock X) Safe c s0). }
  intros Hinv Hsteps.
  assert (Hinv' : inv (λ b, cell b (n_hw s)) s').
  { revert Hinv. unfold well_formed. generalize (λ b, cell b (n_hw s)) as cfg. intros cfg Hinv.
    induction Hsteps as [|s1 s2 s3 [c Hc Hrun12] _ IH]; [done|]. apply IH.
    specialize (Hrun cfg c s1 Hinv Hc). unfold twp in Hrun. by rewrite Hrun12 in Hrun. }
  split; [by eapply inv_well_formed|]. split; [by apply inv_interface|].
  intros c Hc Hf. specialize (Hrun _ c s' Hinv' Hc). unfold twp in Hrun. by rewrite Hf in Hrun.
Qed.

(** C7: on a chip that executes its commands within [n] readings of the status,
    every call returns and keeps the tables consistent. The transfers, which wait
    for the network, return when the descriptor is non-blocking or when the
    socket has a timeout and the clock advances; [accept], which has no timeout,
    when the descriptor is non-blocking. *)
Theorem socket_calls_complete `{!ClockLaws X} n c (s : nstate H X) :
  responsive H n → (n ≤ fuel)%nat → (4 < fuel)%nat → well_formed s → call_ok c s → call_prompt fuel c s →
  ∃ s', run_call fuel junk c s = Done (tt, s') ∧ well_formed s' ∧ interface (n_hw s') = interface (n_hw s).
Proof.
  intros Hresp Hn Hfuel Hinv Hc Hp.
  pose proof (tp_run_call _ fuel junk Total c s (λ _, ex_intro _ n (conj Hresp Hn)) (λ _, Hfuel) Hinv Hc (λ _, Hp)) as Hrun.
  unfold twp in Hrun. destruct (run_call fuel junk c s) as [[[] s']| |]; [|done|done].
  exists s'. split; [done|]. split; [by eapply inv_well_formed|by apply inv_interface].
Qed.

(** C26: start-up leaves the four sockets free and the tables consistent, gives
    each socket 2 KiB of either buffer, and writes the default gateway, mask,
    hardware and network address in network order. *)
Theorem w5100_socket_init_spec n board (s : nstate H X) :
  responsive H n → (n ≤ fuel)%nat → bootable s →
  ∃ s', w5100_socket_init fuel board s = Done (tt, s') ∧ well_formed s' ∧ Forall sock_free (n_socks s') ∧
    n_files s' = n_files s ∧ n_errno s' = n_errno s ∧ buffer_sizes (n_hw s') = [85; 85] ∧
    interface (n_hw s') = [192; 168; 1; 1] ++ [255; 255; 255; 0] ++ w5100_mac_addr ++ [192; 168; 1; 99].
Proof.
  intros Hresp Hn Hboot. set (P := λ s' : nstate H X, well_formed s' ∧ Forall sock_free (n_socks s') ∧
    n_files s' = n_files s ∧ n_errno s' = n_errno s ∧ buffer_sizes (n_hw s') = [85; 85] ∧
    interface (n_hw s') = [192; 168; 1; 1] ++ [255; 255; 255; 0] ++ w5100_mac_addr ++ [192; 168; 1; 99]).
  assert (Hrun : wp (w5100_socket_init fuel board) s (λ _ s', P s')).
  { apply wp_of_twp. apply tp_socket_init; [intros _; by exists n|done|]. intros h l Hinv Hfree Hsz Hif. done. }
  unfold wp in Hrun. destruct (w5100_socket_init fuel board s) as [[[] s']| |]; [by exists s'|done|done].
Qed.
End properties.

(** ** A board with the simulated chip *)

#[export] Instance clock_dummy_total : ClockTotal clock_dummy.
Proof. intros [| |] tp x; do 2 eexists; reflexivity. Qed.

(** A board as it is before start-up. *)
Definition boot_socket : w5100_socket :=
  W5100Sock 0 0 0 0 0 W5100_SOCK_STATE_NONE (SockaddrIn 0 0 0) (SockaddrIn 0 0 0) false
    (Timespec 0 0) (Timespec 0 0) None None.
Definition boot_clock : clock_dummy := ClockDummy (Timespec 0 0) (Timespec 0 0) E0.
Definition boot : nstate sim clock_dummy :=
  NState sim_init (replicate W5100_N_SOCKETS boot_socket) (files ftable_init) E0 boot_clock.

Lemma boot_bootable : bootable boot.
Proof.
  split; [exact sim_init_ok|done|done|]. intros p f Hf.
  apply lookup_replicate in Hf as [-> _]. done.
Qed.

Definition final {S A : Type} (m : M S A) (s : S) : S := match m s with Done (_, s') => s' | _ => s end.

Lemma wp_final {S A : Type} (m : M S A) s (P : S → Prop) : wp m s (λ _ s', P s') → P (final m s).
Proof. unfold wp, final. by destruct (m s) as [[a s']| |]. Qed.

(** After start-up. *)
Definition started : nstate sim clock_dummy := final (w5100_socket_init 5 STM32F4) boot.

Lemma started_inv : well_formed started.
Proof.
  unfold started. apply wp_final, wp_of_twp. apply tp_socket_init; [|exact boot_bootable|done].
  intros _. exists 1%nat. split; [exact sim_responsive|lia].
Qed.

(** A server that listens, non-blocking, on port 80. *)
Definition zero_time : timespec := Timespec 0 0.
Definition after (c : call) (s : nstate sim clock_dummy) : nstate sim clock_dummy :=
  final (run_call 5 zero_time c) s.
Definition open_server : call := CSocket AF_INET SOCK_STREAM 0.
Definition bind_server : call := CBind 3 (SockaddrIn AF_INET (htons 80) 0).
Definition listen_server : call := CListen 3 1.
Definition serving : nstate sim clock_dummy :=
  after listen_server (after bind_server (after open_server started)).

Lemma after_step c s s' :
  match run_call 5 zero_time c s with Done _ => true | _ => false end = true → call_ok c s →
  rtc (driver_step 5 zero_time) (after c s) s' → rtc (driver_step 5 zero_time) s s'.
Proof.
  intros Hd Hc Hr. eapply rtc_l; [|exact Hr]. apply driver_call with c; [done|]. unfold after, final.
  by destruct (run_call 5 zero_time c s) as [[[] ?]| |].
Qed.

Lemma serving_reached : rtc (driver_step 5 zero_time) started serving.
Proof.
  unfold serving. apply (after_step open_server); [by vm_compute|by split|].
  apply (after_step bind_server); [by vm_compute|split; [intros ? [= <-]; lia|done]|].
  apply (after_step listen_server); [by vm_compute|split; [intros ? [= <-]; lia|done]|].
  apply rtc_refl.
Qed.

Lemma socket_calls_safe_witness :
  well_formed serving ∧ interface (n_hw serving) = interface (n_hw started) ∧
  ∀ c, call_ok c serving → run_call 5 zero_time c serving ≠ Fault.
Proof. apply (socket_calls_safe 5 zero_time started serving); [exact started_inv|exact serving_reached]. Defined.

Lemma w5100_socket_init_spec_witness :
  ∃ s', w5100_socket_init 5 STM32F4 boot = Done (tt, s') ∧ well_formed s' ∧ Forall sock_free (n_socks s') ∧
    n_files s' = n_files boot ∧ n_errno s' = n_errno boot ∧ buffer_sizes (n_hw s') = [85; 85] ∧
    interface (n_hw s') = [192; 168; 1; 1] ++ [255; 255; 255; 0] ++ w5100_mac_addr ++ [192; 168; 1; 99].
Proof. apply (w5100_socket_init_spec 5 1); [exact sim_responsive|lia|exact boot_bootable]. Defined.

(** ** What the calls do wrong

    Each on a concrete board. *)

(** A peer has connected to the listening socket 0. *)
Definition peer_connects (s : nstate sim clock_dummy) : nstate sim clock_dummy :=
  let c := n_hw s in
  NState (Sim (sim_phase c) (sim_mem c) (<[0 := W5100_CMD_CONNECT]> (sim_cmd c)) (sim_q c))
    (n_socks s) (n_files s) (n_errno s) (n_rest s).

(** The connection is accepted as descriptor 4, with a receive timeout of two
    microseconds; nothing has arrived. *)
Definition accepted : nstate sim clock_dummy := after (CAccept 3 None None) (peer_connects serving).
Definition receive_timeout : call := CSetsockopt 4 SOL_SOCKET (inl (SO_RCVTIMEO (Timeval 0 2))).
Definition silent_peer : nstate sim clock_dummy := after receive_timeout accepted.

Lemma after_well_formed c s : well_formed s → call_ok c s → well_formed (after c s).
Proof.
  intros Hinv Hc. unfold after, final.
  pose proof (tp_run_call (λ b, cell b (n_hw s)) 5 zero_time Safe c s) as Hrun. unfold twp in Hrun.
  destruct (run_call 5 zero_time c s) as [[[] s']| |]; [|done..]. by eapply inv_well_formed, Hrun.
Qed.

Lemma serving_well_formed : well_formed serving.
Proof.
  unfold serving. do 3 (apply after_well_formed; [|split; [intros ? [= <-]; lia|done]]). exact started_inv.
Qed.

Lemma peer_connects_well_formed s : well_formed s → well_formed (peer_connects s).
Proof. intros [? ? ? ? Hsocks ?]. split; [done..| |done]. intros i e Hi He.
  destruct (Hsocks i e Hi He) as [?|[]]; [by left|by right].
Qed.

Lemma silent_peer_well_formed : well_formed silent_peer.
Proof.
  unfold silent_peer, accepted. do 2 (apply after_well_formed; [|split; [intros ? [= <-]; lia|done]]).
  apply peer_connects_well_formed, serving_well_formed.
Qed.

Definition receive_one : call := CRecv 4 [0] 1.

Lemma silent_peer_socket e : fd_socket silent_peer 4 = Some e →
  s_type e = SOCK_STREAM ∧ s_fd_data e = Some 3 ∧ s_recv_timeout e = Timespec 0 2000.
Proof.
  intros He. assert (Hs : (λ e, (s_type e, s_fd_data e, s_recv_timeout e)) <$> fd_socket silent_peer 4 =
    Some (SOCK_STREAM, Some 3, Timespec 0 2000)) by (by vm_compute).
  rewrite He in Hs. clear He. simpl in Hs. injection Hs as -> -> ->. done.
Qed.

Lemma receive_one_ok : call_ok receive_one silent_peer.
Proof.
  split; [intros ? [= <-]; lia|]. split; [|split; [lia|]]; intros e (Hty & Hd & _)%silent_peer_socket.
  - by rewrite Hd.
  - split; [simpl; lia|by rewrite Hty].
Qed.

Lemma receive_one_prompt : call_prompt 5 receive_one silent_peer.
Proof.
  right. intros e (_ & _ & ->)%silent_peer_socket.
  assert (Hn : n_rest silent_peer = boot_clock) by (by vm_compute). rewrite Hn. clear Hn.
  split_and!; [done|done|by vm_compute|done|done|vm_compute; lia].
Qed.

(** A blocking receive on it returns when the time is up. *)
Lemma socket_calls_complete_witness :
  ∃ s', run_call 5 zero_time receive_one silent_peer = Done (tt, s') ∧ well_formed s' ∧
    interface (n_hw s') = interface (n_hw silent_peer).
Proof.
  apply (socket_calls_complete 5 zero_time 1);
    [exact sim_responsive|lia|lia|exact silent_peer_well_formed|exact receive_one_ok|exact receive_one_prompt].
Defined.

(** The connection is accepted as descriptor 4, then the server closes the
    listening descriptor 3, as servers for one client do. *)
Definition one_client : nstate sim clock_dummy :=
  after (CClose 3) accepted.

Lemma accepted_connection_open :
  s_state <$> fd_socket one_client 4 = Some W5100_SOCK_STATE_ACCEPTED.
Proof. vm_compute. reflexivity. Qed.

(** The transfers of the connection read the status flags of the closed
    descriptor through a null pointer. *)
Lemma accepted_without_listener_faults :
  recv 5 zero_time 4 [0] 1 one_client = Fault ∧ send 5 zero_time 4 [65] 1 one_client = Fault.
Proof. vm_compute. done. Qed.

(** Errors of the state of a socket are reported as 1, not -1. *)
Definition result {S A : Type} (m : M S A) (s : S) : option A :=
  match m s with Done (a, _) => Some a | _ => None end.

Definition created : nstate sim clock_dummy := after open_server started.

Lemma state_errors_return_one :
  result (listen 5 3 1) created = Some 1 ∧
  fst ∘ fst <$> result (accept 5 3 None None) created = Some 1 ∧
  fst <$> result (recv 5 zero_time 3 [0] 1) created = Some 1 ∧
  result (send 5 zero_time 3 [65] 1) created = Some 1 ∧
  result (bind 5 3 (SockaddrIn AF_INET (htons 81) 0)) serving = Some 1.
Proof. vm_compute. done. Qed.

(** A datagram of 6 bytes waits in the receive queue of socket 0. *)
Definition datagram_waits : nstate sim clock_dummy :=
  let s := after (CSocket AF_INET SOCK_DGRAM 0) started in
  let c := n_hw s in
  NState (Sim (sim_phase c) (<[get_rx_base 0 + 7 := 6]> (sim_mem c)) (sim_cmd c) (<[0 := SimQ [] 0 [] 0 14]> (sim_q c)))
    (n_socks s) (n_files s) (n_errno s) (n_rest s).

(** [recvfrom] does not look at the length it is given: the datagram is written
    past the end of a buffer of 4 bytes. *)
Lemma recvfrom_dgram_overflow :
  recvfrom 5 zero_time 3 (replicate 4 0) 4 None None datagram_waits = Fault ∧
  fst ∘ fst ∘ fst <$> result (recvfrom 5 zero_time 3 (replicate 6 0) 4 None None) datagram_waits = Some 6.
Proof. vm_compute. done. Qed.

(** The flag of the option is not written. *)
Lemma getsockopt_broadcast_unwritten :
  result (getsockopt 3 SOL_SOCKET GetBroadcast (OptInt 77)) datagram_waits = Some (0, OptInt 77).
Proof. vm_compute. reflexivity. Qed.

(** Polling asks the driver of a descriptor whatever [isopen] says: the
    connection 4 is closed, a client knocks, and 4 is answered for the listening
    socket. An open socket that is not connected is answered [POLLNVAL]. *)
Lemma polled_when_closed :
  let s := peer_connects (after (CClose 4) accepted) in
  isopen <$> n_files s !! 4%nat = Some false ∧
  result (w5100_sock_poll 4) s = Some (Z.lor POLLRDNORM POLLIN) ∧
  isopen <$> n_files created !! 3%nat = Some true ∧ result (w5100_sock_poll 3) created = Some POLLNVAL.
Proof. vm_compute. done. Qed.

(** ** A connection that is lost keeps its descriptor for ever

    The peer leaves; the receive on the connection fails and the socket listens
    again. The next connection replaces the pointer to the first. *)
Definition peer_leaves (s : nstate sim clock_dummy) : nstate sim clock_dummy :=
  let c := n_hw s in
  NState (Sim (sim_phase c) (sim_mem c) (<[0 := W5100_CMD_DISCON]> (sim_cmd c)) (sim_q c))
    (n_socks s) (n_files s) (n_errno s) (n_rest s).
Definition relistening : nstate sim clock_dummy := after (CRecv 4 [0] 1) (peer_leaves accepted).
Definition second_client : nstate sim clock_dummy := after (CAccept 3 None None) (peer_connects relistening).

Lemma lost_connection_leaks :
  (λ e, (s_state e, s_connection e)) <$> fd_socket relistening 3 = Some (W5100_SOCK_STATE_LISTENING, Some 4) ∧
  (λ e, (s_state e, s_connection e)) <$> fd_socket second_client 3 = Some (W5100_SOCK_STATE_ACCEPTED, Some 5) ∧
  result (w5100_sock_close 5 4) second_client = Some (-1) ∧
  (λ f, (isopen f, isallocated f)) <$> n_files (after (CClose 4) second_client) !! 4%nat = Some (true, true).
Proof. vm_compute. done. Qed.
