(* ===== verification/W5100Dhcp.v ===== *)
(** * The network interface configured by DHCP: [src/w5100_dhcp.c]

    [w5100_dhcp] steps the client of [Dhcp] and copies a binding to the
    registers of the chip when it has changed. The client is proved against an
    interface: the socket calls, the clock and [rand] leave the registers of
    the interface and the variables of [w5100_dhcp.c] alone ([KeepsSockets],
    [KeepsClock], [KeepsRand] of [same_interface]); [W5100Net] discharges it. *)

From stdpp Require Import prelude list numbers functions gmap.
From S2P Require Import Prelude Timespec Clock ClockDummy Files Sockets Dhcp Opencm3 W5100Spi.

(** What has been written to the chip: [struct config]. *)
Record w5100_config := W5100Config { c_client : Z; c_gateway : Z; c_subnet : Z }.
Record w5100_dhcp_state := W5100DhcpState { config : w5100_config; initialized : bool }.

Definition config_zero : w5100_config := W5100Config 0 0 0.
Definition with_config (g : w5100_config → w5100_config) (d : w5100_dhcp_state) : w5100_dhcp_state :=
  W5100DhcpState (g (config d)) (initialized d).

Section w5100_dhcp.
Context {S : Type} `{!Has dhcp_binding S, !Has w5100_dhcp_state S, !Opencm3 S, !Sockets S, !Clock S, !Rand S}.
(** What the uninitialised locals hold. *)
Context (junk_ts : timespec) (junk_msg : list Z).

(** One of the three parts of [configure]: the register and the copy. *)
Definition configure_reg (reg : Z) (size : nat) (new old : Z) (g : w5100_config → w5100_config) : M S unit :=
  if decide (new ≠ old) then
    _ ← w5100_write_mem reg (le_bytes 4 new) size;
    modifyc (with_config g)
  else mret tt.

Definition configure : M S unit :=
  b ← getc; d ← getc;
  _ ← configure_reg W5100_SIPR W5100_SIPR_SIZE (client b) (c_client (config d))
        (λ c, W5100Config (client b) (c_gateway c) (c_subnet c));
  _ ← configure_reg W5100_GAR W5100_GAR_SIZE (gateway b) (c_gateway (config d))
        (λ c, W5100Config (c_client c) (gateway b) (c_subnet c));
  configure_reg W5100_SUBR W5100_SUBR_SIZE (subnet b) (c_subnet (config d))
        (λ c, W5100Config (c_client c) (c_gateway c) (subnet b)).

Definition w5100_getdns : M S Z := b ← getc; mret (dns_server b).

Definition w5100_dhcp_isbound : M S bool := dhcp_isbound.

Definition w5100_dhcp (fuel : nat) : M S Z :=
  d ← getc;
  _ ← (if initialized d then mret tt
       else
         mac_addr ← w5100_read_mem W5100_SHAR W5100_SHAR_SIZE;
         _ ← dhcp_init mac_addr;
         modifyc (λ d, W5100DhcpState (config d) true));
  next ← dhcp_step junk_ts junk_msg fuel;
  b ← w5100_dhcp_isbound;
  _ ← (if b : bool then configure else mret tt);
  mret next.

(** The fuel counts the steps. *)
Definition w5100_dhcp_bind (steps fuel : nat) : M S Z :=
  loop steps (λ _ : unit,
    ret ← w5100_dhcp fuel;
    b ← w5100_dhcp_isbound;
    mret (if b : bool then inr ret else inl tt)) tt.
End w5100_dhcp.

(** ** What a step of the client leaves alone *)

Section dhcp_keeps.
Context {S : Type} `{!Has dhcp_binding S, !Sockets S, !Clock S, !Rand S}.
Context (R : S → S → Prop) `{!PreOrder R, !KeepsSockets R, !KeepsClock R, !KeepsRand R, !KeepsVar dhcp_binding R}.
Context (junk_ts : timespec) (junk_msg : list Z).

Lemma keeps_next_event : keeps R (get_dhcp_next_event junk_ts).
Proof. unfold get_dhcp_next_event. keeps_solve. Qed.

Lemma keeps_parse_options msg start size type b : keeps R (dhcp_parse_options junk_ts msg start size type b).
Proof.
  unfold dhcp_parse_options, parse_turn, parse_option. keeps_solve.
Qed.

Lemma keeps_socket_create : keeps R bootp_socket_create.
Proof. unfold bootp_socket_create. keeps_solve. Qed.

Lemma keeps_send_request sock : keeps R (send_bootp_request junk_msg sock).
Proof. unfold send_bootp_request. keeps_solve. Qed.

Lemma keeps_recv_reply fuel sock : keeps R (recv_bootp_reply junk_ts junk_msg fuel sock).
Proof. unfold recv_bootp_reply, recv_turn. pose proof keeps_parse_options. keeps_solve. Qed.

Lemma keeps_dhcp_step fuel : keeps R (dhcp_step junk_ts junk_msg fuel).
Proof.
  pose proof keeps_next_event. pose proof keeps_socket_create. pose proof keeps_send_request.
  pose proof keeps_recv_reply. unfold dhcp_step, bootp_transaction. keeps_solve.
Qed.
End dhcp_keeps.

(** ** The interface shows the binding *)

(** The four bytes of an address register. *)
Definition reg_cells `{W5100 H} (reg : Z) (h : H) : list Z := (λ b, cell b h) <$> addrs reg 4.

(** A register shows what has been written to it; 0 stands for nothing. *)
Definition shows `{W5100 H} (reg v : Z) (h : H) : Prop := v = 0 ∨ reg_cells reg h = le_bytes 4 v.

Lemma addr_reg_plain reg : 1 ≤ reg → reg + 4 ≤ 19 → Forall (λ a, 1 ≤ a < 19 ∧ plain a = true) (addrs reg 4).
Proof.
  intros Hr Hr4. apply Forall_fmap, list.Forall_forall. intros k Hk%elem_of_seq. simpl.
  rewrite u16_id by (unfold is_u16; lia). split; [lia|]. unfold plain. apply bool_decide_eq_true. lia.
Qed.

(** What the client relies on when it is bound. *)
Lemma bound_complete b : client_inv b → isbound b = true → gateway b ≠ 0 ∧ subnet b ≠ 0.
Proof.
  intros [_ Hst] Hb. unfold isbound in Hb. apply bool_decide_eq_true in Hb.
  destruct Hst as [E|[E|[E|[_ Hc]]]]; [rewrite E in Hb; naive_solver..|].
  by destruct Hc as (_ & Hg & Hs & _).
Qed.

(** A register shows the same while its cells do not change. *)
Lemma shows_keep `{W5100 H} reg v (h h' : H) : 1 ≤ reg → reg + 4 ≤ 19 →
  (∀ b, 1 ≤ b < 19 → plain b = true → cell b h' = cell b h) → shows reg v h → shows reg v h'.
Proof.
  intros Hr Hr4 Hc [?|Hs]; [by left|right]. rewrite <- Hs. apply list_fmap_ext. intros i a Ha.
  pose proof (addr_reg_plain reg Hr Hr4) as Hp. rewrite Forall_lookup in Hp.
  destruct (Hp i a Ha). by apply Hc.
Qed.

Section configured.
Context {H S : Type} `{!Has dhcp_binding S, !HasLaws dhcp_binding S, !Has w5100_dhcp_state S,
  !HasLaws w5100_dhcp_state S, !Has H S, !HasLaws H S, !Indep dhcp_binding H S,
  !Indep dhcp_binding w5100_dhcp_state S, !Indep w5100_dhcp_state H S, !Indep H w5100_dhcp_state S,
  !Indep H dhcp_binding S, !Indep w5100_dhcp_state dhcp_binding S, !SpiDevice H, !W5100 H, !W5100Bus H, !Sockets S,
  !Clock S, !Rand S} (t : reading) `{!SocketsLaws t dhcp_binding S}.

(** The registers of the interface and the variables of the file. *)
Definition same_interface (s s' : S) : Prop :=
  (net_ok s → chip_ok (proj (C:=H) s) → net_ok s' ∧ chip_ok (proj (C:=H) s') ∧
    ∀ b, 1 ≤ b < 19 → cell b (proj (C:=H) s') = cell b (proj (C:=H) s)) ∧
  proj (C:=w5100_dhcp_state) s' = proj s.

#[export] Instance same_interface_order : PreOrder same_interface.
Proof.
  split; [done|]. intros s1 s2 s3 [Hc Hd] [Hc' Hd']. split; [|congruence].
  intros Hn Hok. destruct (Hc Hn Hok) as (Hn2 & Hok2 & Hcell). destruct (Hc' Hn2 Hok2) as (Hn3 & Hok3 & Hcell').
  split; [done|]. split; [done|]. intros b Hb. by rewrite Hcell', Hcell.
Qed.

#[export] Instance same_interface_binding : KeepsVar dhcp_binding same_interface.
Proof.
  intros g. apply keeps_modifyc. intros s. split; [|apply indep_proj]. intros Hn Hok.
  rewrite (indep_proj (C:=H)). split; [by apply net_upd|done].
Qed.

(** Only the registers of the interface have been written. *)
Definition reconfigured (h h' : H) : Prop :=
  chip_ok h → chip_ok h' ∧ ∀ b, plain b = true → ¬ (1 ≤ b < 19) → cell b h' = cell b h.

(** The network and the binding. *)
Definition same_net (s s' : S) : Prop :=
  net_ok s' ∧ open_socks s' = open_socks s ∧ proj (C:=dhcp_binding) s' = proj s.

Context (Hnet_chip : ∀ (h : H) s, net_ok s → reconfigured (proj s) h →
  net_ok (upd h s) ∧ open_socks (upd h s) = open_socks s).
Context (Hnet_state : ∀ (d : w5100_dhcp_state) s, net_ok s → net_ok (upd d s) ∧ open_socks (upd d s) = open_socks s).

Lemma same_net_chip (h : H) s : net_ok s → reconfigured (proj s) h → same_net s (upd h s).
Proof. intros Hn Hr. destruct (Hnet_chip h s Hn Hr). split_and!; [done|done|apply indep_proj]. Qed.
Lemma same_net_state (d : w5100_dhcp_state) s : net_ok s → same_net s (upd d s).
Proof. intros Hn. destruct (Hnet_state d s Hn). split_and!; [done|done|apply indep_proj]. Qed.
Lemma same_net_trans s1 s2 s3 : same_net s1 s2 → same_net s2 s3 → same_net s1 s3.
Proof. intros (? & ? & ?) (? & ? & ?). split_and!; congruence. Qed.

Lemma twp_configure_reg reg new old g (s : S) :
  chip_ok (proj (C:=H) s) → 1 ≤ reg → reg + 4 ≤ 19 → net_ok s →
  twp t (configure_reg reg 4 new old g) s (λ _ s', same_net s s' ∧ chip_ok (proj (C:=H) s') ∧
    proj (C:=w5100_dhcp_state) s' = (if decide (new ≠ old) then with_config g (proj s) else proj s) ∧
    reg_cells reg (proj (C:=H) s') = (if decide (new ≠ old) then le_bytes 4 new else reg_cells reg (proj s)) ∧
    ∀ b, 1 ≤ b < 19 → b ∉ addrs reg 4 → cell b (proj (C:=H) s') = cell b (proj s)).
Proof.
  intros Hok Hr Hr4 Hn. unfold configure_reg. case_decide; [|by apply twp_ret].
  pose proof (addr_reg_plain reg Hr Hr4) as Hpl.
  assert (Hplain : Forall (λ a, plain a = true) (addrs reg 4)) by (eapply Forall_impl; [exact Hpl|]; naive_solver).
  apply twp_bind. eapply twp_Done; [apply write_mem_run; [done|by rewrite length_le_bytes]|].
  destruct (stores_cells (addrs reg 4) (le_bytes 4 new) (proj (C:=H) s) Hok) as [Hin Hout];
    [by rewrite length_le_bytes|by apply NoDup_addrs|apply le_bytes_u8|done|].
  rewrite take_ge by (by rewrite length_le_bytes).
  set (h' := stores _ _) in *. apply twp_modify. cbv beta.
  assert (Hrec : reconfigured (proj s) h').
  { intros _. split; [by apply stores_ok|]. intros b Hb Hnb. apply Hout; [done|].
    intros Hb4. rewrite list.Forall_forall in Hpl. by destruct (Hpl b Hb4). }
  pose proof (same_net_chip h' s Hn Hrec) as Hs1.
  split; [eapply same_net_trans; [exact Hs1|apply same_net_state; apply Hs1]|].
  rewrite (indep_proj (C:=w5100_dhcp_state) (D:=H)).
  assert (Hh : proj (C:=H) (upd (with_config g (proj s)) (upd h' s)) = h') by (rewrite indep_proj; apply proj_upd).
  rewrite Hh. split; [by apply stores_ok|]. split; [apply proj_upd|]. split; [done|].
  intros b Hb Hb'. apply Hout; [|done]. unfold plain. apply bool_decide_eq_true. lia.
Qed.

Lemma reg_cells_out reg reg' (h h' : H) :
  1 ≤ reg → reg + 4 ≤ 19 → 1 ≤ reg' → reg' + 4 ≤ 19 → reg + 4 ≤ reg' ∨ reg' + 4 ≤ reg →
  (∀ b, 1 ≤ b < 19 → b ∉ addrs reg' 4 → cell b h' = cell b h) → reg_cells reg h' = reg_cells reg h.
Proof.
  intros Hr Hr4 Hr' Hr4' Hdis Hout. apply list_fmap_ext. intros i b Hb.
  apply list_lookup_fmap_Some in Hb as (k & -> & Hk). apply lookup_seq in Hk as [-> Hk].
  rewrite u16_id by (unfold is_u16; lia). apply Hout; [lia|]. unfold addrs.
  rewrite list_elem_of_fmap. intros (k & Hk' & Hin%elem_of_seq). rewrite u16_id in Hk' by (unfold is_u16; lia). lia.
Qed.

(** What has been configured is on the chip. *)
Definition configured (s : S) : Prop :=
  let c := config (proj s) in let h := proj (C:=H) s in
  chip_ok h ∧ shows W5100_SIPR (c_client c) h ∧ shows W5100_GAR (c_gateway c) h ∧ shows W5100_SUBR (c_subnet c) h.

Lemma configured_same s s' : net_ok s → same_interface s s' → configured s → configured s'.
Proof.
  intros Hn [Hc Hd] (Hok & H1 & H2 & H3). destruct (Hc Hn Hok) as (_ & Hok' & Hcell).
  unfold configured. rewrite Hd. split; [done|].
  split_and!; (eapply shows_keep; [done|done| |eassumption]); auto.
Qed.

(** After one part, the register shows the new value. *)
Lemma shows_new reg new old (h h' : H) :
  shows reg old h →
  reg_cells reg h' = (if decide (new ≠ old) then le_bytes 4 new else reg_cells reg h) → shows reg new h'.
Proof.
  intros Hs Hc. case_decide as Hne; [by right|]. subst old. unfold shows. by rewrite Hc.
Qed.

Lemma twp_configure (s : S) :
  net_ok s → configured s →
  twp t configure s (λ _ s', same_net s s' ∧ configured s' ∧ initialized (proj s') = initialized (proj s) ∧
    let b := proj s in config (proj s') = W5100Config (client b) (gateway b) (subnet b)).
Proof.
  intros Hn (Hok & H1 & H2 & H3). unfold configure. apply twp_bind, twp_gets, twp_bind, twp_gets.
  set (b := proj s). set (d := proj s).
  apply twp_bind. eapply twp_mono, twp_configure_reg; [|done..].
  intros [] s1 (Hs1 & Hok1 & Hd1 & Hr1 & Ho1).
  apply twp_bind. eapply twp_mono, twp_configure_reg; [|done|done|done|apply Hs1].
  intros [] s2 (Hs2 & Hok2 & Hd2 & Hr2 & Ho2).
  eapply twp_mono, twp_configure_reg; [|done|done|done|apply Hs2].
  intros [] s3 (Hs3 & Hok3 & Hd3 & Hr3 & Ho3).
  split; [eauto using same_net_trans|].
  pose proof (reg_cells_out W5100_GAR W5100_SIPR _ _ ltac:(done) ltac:(done) ltac:(done) ltac:(done) ltac:(by left) Ho1) as E1.
  pose proof (reg_cells_out W5100_SUBR W5100_SIPR _ _ ltac:(done) ltac:(done) ltac:(done) ltac:(done) ltac:(by left) Ho1) as E2.
  pose proof (reg_cells_out W5100_SUBR W5100_GAR _ _ ltac:(done) ltac:(done) ltac:(done) ltac:(done) ltac:(by right) Ho2) as E3.
  pose proof (reg_cells_out W5100_SIPR W5100_GAR _ _ ltac:(done) ltac:(done) ltac:(done) ltac:(done) ltac:(by right) Ho2) as E4.
  pose proof (reg_cells_out W5100_SIPR W5100_SUBR _ _ ltac:(done) ltac:(done) ltac:(done) ltac:(done) ltac:(by right) Ho3) as E5.
  pose proof (reg_cells_out W5100_GAR W5100_SUBR _ _ ltac:(done) ltac:(done) ltac:(done) ltac:(done) ltac:(by left) Ho3) as E6.
  rewrite E1, <- E6 in Hr2. rewrite E3, E2 in Hr3. rewrite <- E4, <- E5 in Hr1.
  assert (Hd : proj (C:=w5100_dhcp_state) s3 =
    W5100DhcpState (W5100Config (client b) (gateway b) (subnet b)) (initialized d)).
  { rewrite Hd3, Hd2, Hd1. fold d. destruct d as [[cc cg cs] i]. simpl in *.
    repeat case_decide; simpl in *; by subst. }
  unfold configured. rewrite Hd. simpl. split; [|done].
  split; [done|]. split_and!; eapply shows_new; eassumption.
Qed.

Context `{!KeepsSockets same_interface, !KeepsClock same_interface, !KeepsRand same_interface}.
Context (junk_ts : timespec) (junk_msg : list Z).
Context (Hjunk_len : length junk_msg = DHCP_MESSAGE_LEN_MAX) (Hjunk : Forall is_u8 junk_msg).
Context (Hclock : ∀ id tp s, net_ok s → twp t (clock_gettime id tp) s (λ _ s', quiet t s s')).
Context (Hrand : ∀ s, net_ok s → twp t rand s (λ _ s', quiet t s s')).
Context (Hfit : t ≠ Partial → ∀ fd buf s, net_ok s → length buf = DHCP_MESSAGE_LEN_MAX → Forall is_u8 buf →
  twp t (recvfrom fd buf) s (λ '(r, buf') _, 0 ≤ r → reply_fits r buf')).

(** A client that has been initialised, with the sockets [O] open. *)
Definition started (O : gset Z) (s : S) : Prop :=
  client_ok t O s ∧ configured s ∧ initialized (proj s) = true.

(** The chip holds the binding. *)
Definition binding_shown (s : S) : Prop :=
  let b := proj s in config (proj s) = W5100Config (client b) (gateway b) (subnet b).

Lemma twp_started_step O fuel (s : S) :
  started O s → (t = Total → (net_burst < fuel)%nat) →
  twp t (next ← dhcp_step junk_ts junk_msg fuel; b ← w5100_dhcp_isbound;
      _ ← (if b : bool then configure else mret tt); mret next) s
    (λ _ s', started O s' ∧ (isbound (proj s') = true → binding_shown s')).
Proof.
  intros (Hok & Hc & Hi) Hfuel. apply twp_bind.
  eapply twp_mono, (twp_keeps same_interface), (twp_dhcp_step t junk_ts junk_msg Hjunk_len Hjunk Hclock Hrand Hfit O);
    [|apply keeps_dhcp_step; apply _|done|done].
  intros next s2 [Hok2 Hsame]. pose proof (configured_same _ _ (proj1 Hok) Hsame Hc) as Hc2.
  assert (Hi2 : initialized (proj s2) = true) by (destruct Hsame as [_ Hd]; by rewrite Hd).
  destruct Hok2 as (Hn2 & Ho2 & Hinv2).
  apply twp_bind, twp_bind, twp_gets, twp_ret, twp_bind. destruct (isbound (proj s2)) eqn:Eb.
  - eapply twp_mono, twp_configure; [|done..]. intros [] s3 ((Hn3 & Ho3 & Hb3) & Hc3 & Hi3 & Hcfg3). apply twp_ret.
    unfold binding_shown. rewrite Hb3. split; [|done].
    split; [split_and!; [done|congruence|by rewrite Hb3]|split; [done|congruence]].
  - apply twp_ret, twp_ret. split; [by split_and!|congruence].
Qed.

(** The first call reads the hardware address and starts the client. *)
Lemma twp_first_call (s : S) :
  net_ok s → configured s →
  twp t (mac_addr ← w5100_read_mem W5100_SHAR W5100_SHAR_SIZE; _ ← dhcp_init mac_addr;
      modifyc (λ d, W5100DhcpState (config d) true)) s (λ _ s', started (open_socks s) s').
Proof.
  intros Hn (Hok & H1 & H2 & H3).
  apply twp_bind. eapply twp_Done; [by apply read_mem_run|].
  set (l := addrs W5100_SHAR W5100_SHAR_SIZE).
  pose proof (loads_ok l _ Hok) as Hok1. pose proof (length_loads l (proj (C:=H) s)) as Hmac.
  pose proof (λ b Hb, loads_keeps l b (proj (C:=H) s) Hok Hb) as Hkeep.
  destruct (loads l (proj (C:=H) s)) as [mac h]. cbn [fst snd] in *.
  apply twp_bind, twp_modify, twp_modify.
  destruct (Hnet_chip h s Hn) as [Hn1 Ho1]; [by intros _; split; [|intros; apply Hkeep]|].
  set (b := with_mac _ _). destruct (net_upd b (upd h s) Hn1) as (Hn2 & Ho2 & _). cbv beta.
  rewrite (indep_proj (C:=w5100_dhcp_state) (D:=dhcp_binding)), (indep_proj (C:=w5100_dhcp_state) (D:=H)).
  set (d := W5100DhcpState _ true). destruct (Hnet_state d (upd b (upd h s)) Hn2) as (Hn3 & Ho3).
  assert (Eh : proj (C:=H) (upd d (upd b (upd h s))) = h).
  { by rewrite (indep_proj (C:=H) (D:=w5100_dhcp_state)), (indep_proj (C:=H) (D:=dhcp_binding)), proj_upd. }
  assert (Eb : proj (C:=dhcp_binding) (upd d (upd b (upd h s))) = b).
  { by rewrite (indep_proj (C:=dhcp_binding) (D:=w5100_dhcp_state)), proj_upd. }
  unfold started, client_ok, configured. rewrite Eb, Eh, (proj_upd d). simpl.
  split; [split; [done|split; [congruence|]]|split; [split; [done|]|done]].
  - apply client_inv_init. rewrite Hmac. reflexivity.
  - split_and!; (eapply shows_keep; [done|done| |eassumption]); auto.
Qed.

(** A call of the function. *)
Lemma twp_w5100_dhcp fuel (s : S) :
  net_ok s → configured s → (initialized (proj s) = true → client_inv (proj s)) → (t = Total → (net_burst < fuel)%nat) →
  twp t (w5100_dhcp junk_ts junk_msg fuel) s (λ _ s',
    net_ok s' ∧ configured s' ∧ initialized (proj s') = true ∧ client_inv (proj s') ∧
    open_socks s' = open_socks s ∧
    let b := proj s' in let h := proj (C:=H) s' in
    isbound b = true → client b ≠ 0 →
    reg_cells W5100_SIPR h = le_bytes 4 (client b) ∧ reg_cells W5100_GAR h = le_bytes 4 (gateway b) ∧
    reg_cells W5100_SUBR h = le_bytes 4 (subnet b)).
Proof.
  intros Hn Hcfg Hinv Hfuel. unfold w5100_dhcp. apply twp_bind, twp_gets, twp_bind.
  apply twp_mono with (P := λ _ s1, started (open_socks s) s1).
  2: { destruct (initialized (proj s)) eqn:Ei; [apply twp_ret; split; [split_and!; auto|done]|by apply twp_first_call]. }
  intros _ s1 Hs1. eapply twp_mono, twp_started_step; [|done..].
  intros _ s' [((Hn' & Ho' & Hinv') & Hc' & Hi') Hb']. do 5 (split; [done|]).
  cbv zeta. intros Hbd Hne. destruct Hc' as (_ & H1 & H2 & H3). rewrite Hb' in H1, H2, H3 by done. simpl in *.
  destruct (bound_complete _ Hinv' Hbd) as [Hg Hs]. by destruct H1, H2, H3.
Qed.
End configured.

Section properties.
Context {H S : Type} `{!Has dhcp_binding S, !HasLaws dhcp_binding S, !Has w5100_dhcp_state S,
  !HasLaws w5100_dhcp_state S, !Has H S, !HasLaws H S, !Indep dhcp_binding H S,
  !Indep dhcp_binding w5100_dhcp_state S, !Indep w5100_dhcp_state H S, !Indep H w5100_dhcp_state S,
  !Indep H dhcp_binding S, !Indep w5100_dhcp_state dhcp_binding S, !SpiDevice H, !W5100 H, !W5100Bus H, !Sockets S,
  !Clock S, !Rand S}
  `{!SocketsLaws Total dhcp_binding S, !KeepsSockets (same_interface (H:=H) Total),
  !KeepsClock (same_interface (H:=H) Total), !KeepsRand (same_interface (H:=H) Total)}.
Context (Hnet_chip : ∀ (h : H) (s : S), net_ok s → reconfigured (proj s) h →
  net_ok (upd h s) ∧ open_socks (upd h s) = open_socks s).
Context (Hnet_state : ∀ (d : w5100_dhcp_state) (s : S), net_ok s →
  net_ok (upd d s) ∧ open_socks (upd d s) = open_socks s).
Context (junk_ts : timespec) (junk_msg : list Z).
Context (Hjunk_len : length junk_msg = DHCP_MESSAGE_LEN_MAX) (Hjunk : Forall is_u8 junk_msg).
Context (Hclock : ∀ id tp (s : S), net_ok s → wp (clock_gettime id tp) s (λ _ s', quiet Total s s')).
Context (Hrand : ∀ s : S, net_ok s → wp rand s (λ _ s', quiet Total s s')).

(** After a call: the client is started and keeps its invariant, its sockets are
    closed, and the registers show the binding of a bound client with an address,
    in network order. *)
Definition dhcp_configured (s s' : S) : Prop :=
  net_ok s' ∧ configured (H:=H) s' ∧ initialized (proj s') = true ∧ client_inv (proj s') ∧
  open_socks s' = open_socks s ∧
  let b := proj s' in let h := proj (C:=H) s' in
  isbound b = true → client b ≠ 0 →
  reg_cells W5100_SIPR h = le_bytes 4 (client b) ∧ reg_cells W5100_GAR h = le_bytes 4 (gateway b) ∧
  reg_cells W5100_SUBR h = le_bytes 4 (subnet b).

(** C23: over socket calls that keep the laws of [Sockets] and leave the registers
    of the interface alone, and whatever the network delivers: after a call of
    [w5100_dhcp] that returns, the client is started and keeps its invariant, its
    sockets are closed, and whenever it is bound with an address, the address,
    gateway and mask registers of the chip hold the binding, in network order,
    whether they have changed or not. The call returns when at most [net_burst]
    datagrams arrive before a timeout and the options of every datagram the network
    delivers lie in the array they are received in ([replies_fit]: a datagram of at
    most 543 bytes, or complete options); otherwise the client may read past the
    array. *)
Theorem w5100_dhcp_configures fuel (s : S) :
  net_ok s → configured (H:=H) s → (initialized (proj s) = true → client_inv (proj s)) → (net_burst < fuel)%nat →
  (∀ r s', w5100_dhcp junk_ts junk_msg fuel s = Done (r, s') → dhcp_configured s s') ∧
  (replies_fit (S:=S) → ∃ r s', w5100_dhcp junk_ts junk_msg fuel s = Done (r, s')).
Proof.
  intros Hn Hcfg Hinv Hfuel. split.
  - intros r s' Hrun.
    pose proof (twp_w5100_dhcp (H:=H) (SocketsLaws0 := partial_laws) Partial Hnet_chip Hnet_state junk_ts junk_msg
      Hjunk_len Hjunk (λ id tp s Hs, twp_of_wp _ _ _ _ (Hclock id tp s Hs))
      (λ s Hs, twp_of_wp _ _ _ _ (Hrand s Hs)) (λ Hp, False_ind _ (Hp eq_refl)) fuel s Hn Hcfg Hinv
      (λ _, Hfuel)) as Hcall.
    unfold twp in Hcall. by rewrite Hrun in Hcall.
  - intros Hfit.
    pose proof (twp_w5100_dhcp (H:=H) Total Hnet_chip Hnet_state junk_ts junk_msg
      Hjunk_len Hjunk (λ id tp s Hs, twp_of_wp _ _ _ _ (Hclock id tp s Hs))
      (λ s Hs, twp_of_wp _ _ _ _ (Hrand s Hs))
      (λ _ fd buf s Hs Hb Hu, twp_of_wp _ _ _ _ (Hfit fd buf s Hs Hb Hu)) fuel s Hn Hcfg Hinv
      (λ _, Hfuel)) as Hcall.
    unfold twp in Hcall. destruct (w5100_dhcp junk_ts junk_msg fuel s) as [[r s']| |]; [by eexists _, _|done..].
Qed.
End properties.

(** ** A concrete system: the scripted network and the simulated chip *)
Record board := Board { bd_world : dhcp_world; bd_state : w5100_dhcp_state; bd_chip : sim }.
#[export] Instance bd_has_binding : Has dhcp_binding board :=
  {| proj w := dw_binding (bd_world w); upd := λ c w, Board (upd c (bd_world w)) (bd_state w) (bd_chip w) |}.
#[export] Instance bd_has_net : Has net board :=
  {| proj w := dw_net (bd_world w); upd := λ c w, Board (upd c (bd_world w)) (bd_state w) (bd_chip w) |}.
#[export] Instance bd_has_clock : Has clock_dummy board :=
  {| proj w := dw_clock (bd_world w); upd := λ c w, Board (upd c (bd_world w)) (bd_state w) (bd_chip w) |}.
#[export] Instance bd_has_state : Has w5100_dhcp_state board :=
  {| proj := bd_state; upd := λ c w, Board (bd_world w) c (bd_chip w) |}.
#[export] Instance bd_has_chip : Has sim board :=
  {| proj := bd_chip; upd := λ c w, Board (bd_world w) (bd_state w) c |}.
#[export] Instance bd_laws_binding : HasLaws dhcp_binding board.
Proof. split; [done|by intros [[] ? ?]|done]. Qed.
#[export] Instance bd_laws_net : HasLaws net board.
Proof. split; [done|by intros [[] ? ?]|done]. Qed.
#[export] Instance bd_laws_state : HasLaws w5100_dhcp_state board.
Proof. split; [done|by intros []|done]. Qed.
#[export] Instance bd_laws_chip : HasLaws sim board.
Proof. split; [done|by intros []|done]. Qed.
#[export] Instance bd_indep1 : Indep dhcp_binding net board.
Proof. done. Qed.
#[export] Instance bd_indep2 : Indep net dhcp_binding board.
Proof. done. Qed.
#[export] Instance bd_indep3 : Indep dhcp_binding sim board.
Proof. done. Qed.
#[export] Instance bd_indep4 : Indep sim dhcp_binding board.
Proof. done. Qed.
#[export] Instance bd_indep5 : Indep dhcp_binding w5100_dhcp_state board.
Proof. done. Qed.
#[export] Instance bd_indep6 : Indep w5100_dhcp_state dhcp_binding board.
Proof. done. Qed.
#[export] Instance bd_indep7 : Indep w5100_dhcp_state sim board.
Proof. done. Qed.
#[export] Instance bd_indep8 : Indep sim w5100_dhcp_state board.
Proof. done. Qed.
#[export] Instance bd_clock : Clock board := embedded_clock.
#[export] Instance bd_sockets : Sockets board := scripted_sockets.
#[export] Instance bd_sockets_laws : SocketsLaws Total dhcp_binding board := scripted_laws.
#[export] Instance bd_rand : Rand board := mret 4.

#[export] Instance bd_keeps_sockets : KeepsSockets (S:=board) (same_interface (H:=sim) Total).
Proof.
  assert (Hsend : ∀ bs, keeps (same_interface (S:=board) (H:=sim) Total) (scripted_send bs)).
  { intros bs. unfold scripted_send. keeps_solve. by intros s. }
  assert (Hrecv : ∀ buf, keeps (same_interface (S:=board) (H:=sim) Total) (scripted_recv buf)).
  { intros buf [[b [[|d q] o st] c] ds h]; [done|]. split; [|done]. intros Hn Hok. split; [|done].
    destruct (Hn : net_good (Net (d :: q) o st)) as [Hq%Forall_cons Hl]. simpl in Hl.
    split; simpl; [apply Hq|lia]. }
  split; intros; unfold socket, setsockopt, bind, connect, send, sendto, recv, recvfrom, close, bd_sockets,
    scripted_sockets; keeps_solve; auto; by intros s.
Qed.
#[export] Instance bd_keeps_clock : KeepsClock (S:=board) (same_interface (H:=sim) Total).
Proof.
  intros id tp s. unfold clock_gettime, bd_clock, embedded_clock. by destruct (clock_gettime_dummy _ _ _) as [[]| |].
Qed.
#[export] Instance bd_keeps_rand : KeepsRand (S:=board) (same_interface (H:=sim) Total).
Proof. by intros s. Qed.

(** A chip with the hardware address of [dw_init], before the first call. *)
Definition bd_init : board :=
  Board dw_init (W5100DhcpState config_zero false)
    (Sim None (<[9 := 2]> (<[14 := 7]> (λ _, 0))) (λ _, 0) (λ _, q_empty)).

(** The scripted server is the one of [dhcp_handshake]. *)
Example w5100_dhcp_handshake :
  match w5100_dhcp_bind TIMESPEC_ZERO (replicate 548 0) 3 9 bd_init with
  | Done (next, w) => next = 1799 ∧ config (bd_state w) = W5100Config 151038144 16820416 16777215 ∧
      reg_cells W5100_SIPR (bd_chip w) = [192; 168; 0; 9] ∧
      reg_cells W5100_GAR (bd_chip w) = [192; 168; 0; 1] ∧
      reg_cells W5100_SUBR (bd_chip w) = [255; 255; 255; 0]
  | _ => False
  end.
Proof. vm_compute. repeat split. Qed.

Lemma bd_init_chip : sim_ok (bd_chip bd_init).
Proof.
  split; [done|]. intros a. simpl. destruct (decide (9 = a)) as [<-|]; [by rewrite fn_lookup_insert|].
  rewrite fn_lookup_insert_ne by done.
  destruct (decide (14 = a)) as [<-|]; [by rewrite fn_lookup_insert|by rewrite fn_lookup_insert_ne].
Qed.

Lemma bd_clock_quiet id tp (s : board) : net_ok s → wp (clock_gettime id tp) s (λ _ s', quiet Total s s').
Proof.
  intros Hn. unfold clock_gettime, bd_clock, embedded_clock, wp.
  assert (∃ r c, clock_gettime_dummy id tp (proj s) = Done (r, c)) as (r & c & ->).
  { destruct s as [[? ? []] ? ?], id; by eexists _, _. }
  by split_and!.
Qed.

Lemma bd_net_chip (h : sim) (s : board) : net_ok s → reconfigured (proj s) h →
  net_ok (upd h s) ∧ open_socks (upd h s) = open_socks s.
Proof. done. Qed.
Lemma bd_net_state (d : w5100_dhcp_state) (s : board) : net_ok s →
  net_ok (upd d s) ∧ open_socks (upd d s) = open_socks s.
Proof. done. Qed.
Lemma bd_quiet_rand (s : board) : net_ok s → wp rand s (λ _ s', quiet Total s s').
Proof. intros Hn. apply wp_ret. by split_and!. Qed.

Lemma bd_configured : configured (H:=sim) bd_init.
Proof. split; [exact bd_init_chip|]. split_and!; by left. Qed.

Lemma bd_replies_fit : replies_fit (S:=board).
Proof.
  apply replies_fit_short. intros fd buf s Hn. eapply wp_mono, (wp_scripted_size buf s Hn). by intros [r b] s'.
Qed.

Lemma w5100_dhcp_configures_witness :
  (∀ r s', w5100_dhcp TIMESPEC_ZERO (replicate 548 0) 9 bd_init = Done (r, s') →
     dhcp_configured (H:=sim) bd_init s') ∧
  (replies_fit (S:=board) → ∃ r s', w5100_dhcp TIMESPEC_ZERO (replicate 548 0) 9 bd_init = Done (r, s')) ∧
  ∃ r s', w5100_dhcp TIMESPEC_ZERO (replicate 548 0) 9 bd_init = Done (r, s').
Proof.
  destruct (w5100_dhcp_configures (H:=sim) bd_net_chip bd_net_state TIMESPEC_ZERO (replicate 548 0) eq_refl
    dw_junk_bytes bd_clock_quiet bd_quiet_rand 9 bd_init (proj1 dw_init_ok) bd_configured
    (λ Hi, False_ind _ (Bool.diff_false_true Hi)) ltac:(simpl; lia)) as [H1 H2].
  split; [exact H1|]. split; [exact H2|exact (H2 bd_replies_fit)].
Defined.
