(* ===== verification/W5100Net.v ===== *)
(** * The socket interface on the W5100 chip

    The network clients ([Dhcp], [Sntp], [Rfc868], [Netdb]) are written against
    the interface [Sockets]; on the boards it is the driver of
    [src/w5100_socket.c], and [close] is the system call of [src/syscalls.c],
    which finds the driver in the descriptor table. Here the parts are linked:
    the driver has the laws the clients rely on, in the [Partial] reading of
    [twp], and a program that makes any calls of the clients keeps the tables of
    the driver and the registers of the chip consistent. *)

From stdpp Require Import prelude list numbers functions gmap relations.
From S2P Require Import Prelude Timespec Clock Files Sockets Opencm3 W5100Spi W5100Socket W5100Chip W5100Table W5100Data W5100Calls.

(** ** The state of a board: the driver's, and that of the programs *)

Section rest.
Context {H X : Type}.

#[export] Instance nstate_rest {C} `{!Has C X} : Has C (nstate H X) | 50 :=
  {| proj s := proj (n_rest s);
     upd c s := NState (n_hw s) (n_socks s) (n_files s) (n_errno s) (upd c (n_rest s)) |}.
#[export] Instance nstate_rest_laws {C} `{!Has C X, !HasLaws C X} : HasLaws C (nstate H X) | 50.
Proof.
  split.
  - intros c s. apply (proj_upd c (n_rest s)).
  - intros [h l fl er x]. unfold upd, proj, nstate_rest. simpl. by rewrite upd_proj.
  - intros c c' [h l fl er x]. unfold upd, nstate_rest. simpl. by rewrite upd_upd.
Qed.
#[export] Instance nstate_rest_indep {C D} `{!Has C X, !Has D X, !Indep C D X} : Indep C D (nstate H X) | 50.
Proof. intros c s. apply (indep_proj c (n_rest s)). Qed.
#[export] Instance nstate_rest_hw {C} `{!Has C X} : Indep C H (nstate H X) | 40.
Proof. done. Qed.
#[export] Instance nstate_hw_rest {C} `{!Has C X} : Indep H C (nstate H X) | 40.
Proof. done. Qed.

(** Random numbers come from the rest of the program. *)
#[export] Instance nstate_rand `{!Rand X} : Rand (nstate H X) := λ s,
  match rand (n_rest s) with
  | Done (r, x) => Done (r, NState (n_hw s) (n_socks s) (n_files s) (n_errno s) x)
  | Fault => Fault
  | Hang => Hang
  end.
End rest.

(** Reading the clock and drawing a random number leave the component alone. *)
Class ClockAside (C X : Type) `{!Has C X, !Clock X} : Prop :=
  clock_aside id tp x r x' : clock_gettime id tp x = Done (r, x') → proj (C:=C) x' = proj x.
Class RandAside (C X : Type) `{!Has C X, !Rand X} : Prop :=
  rand_aside x r x' : rand x = Done (r, x') → proj (C:=C) x' = proj x.

(** ** The driver behind the interface *)

Section driver.
Context {H X : Type} `{!SpiDevice H, !Clock X}.
(** The turns of a waiting loop, and what uninitialised variables hold. *)
Context (fuel : nat) (junk : timespec).

(** The system calls reach the driver through the pointers of the descriptor
    table. No other driver is linked into these programs. *)
Definition driver_calls : Drivers (nstate H X) := {|
  drv_write d fd buf :=
    match d with DrvSocket => w5100_sock_write fuel junk fd buf (Z.of_nat (length buf)) | _ => fault end;
  drv_read d fd len :=
    match d with
    | DrvSocket => w5100_sock_read fuel junk fd (replicate (Z.to_nat len) 0) len
    | _ => fault
    end;
  drv_close d fd := match d with DrvSocket => w5100_sock_close fuel fd | _ => fault end;
  drv_poll d fd := match d with DrvSocket => w5100_sock_poll fd | _ => fault end;
|}.

(** The clients pass the size of the buffer as the length, and null addresses. *)
Definition driver_sockets : Sockets (nstate H X) := {|
  Sockets.socket := W5100Socket.socket;
  Sockets.setsockopt fd o := W5100Socket.setsockopt fd SOL_SOCKET (inl o);
  Sockets.bind := W5100Socket.bind fuel;
  Sockets.connect := W5100Socket.connect fuel;
  Sockets.send fd bs := W5100Socket.send fuel junk fd bs (u32 (Z.of_nat (length bs)));
  Sockets.sendto fd bs a := W5100Socket.sendto fuel junk fd bs (u32 (Z.of_nat (length bs))) (Some a);
  Sockets.recv fd buf := W5100Socket.recv fuel junk fd buf (u32 (Z.of_nat (length buf)));
  Sockets.recvfrom fd buf :=
    '(r, buf, _, _) ← W5100Socket.recvfrom fuel junk fd buf (u32 (Z.of_nat (length buf))) None None;
    mret (r, buf);
  Sockets.close fd := @_close _ _ _ driver_calls fd;
|}.
End driver.

(** ** What the calls leave alone *)

(** Changes of a socket that keep its descriptors and its number. *)
Definition plain_change (g : w5100_socket → w5100_socket) : Prop :=
  ∀ e, s_fd_data (g e) = s_fd_data e ∧ s_connection (g e) = s_connection e ∧ s_isocket (g e) = s_isocket e.
#[local] Hint Extern 0 (plain_change _) => done : keeps.

Section keeps_driver.
Context {H X : Type} `{!SpiDevice H, !Clock X}.
Context (R : nstate H X → nstate H X → Prop) `{!PreOrder R, !KeepsVar H R, !KeepsVar ftable R, !KeepsVar errno R,
  !KeepsClock R}.
Context (Hsock : ∀ i g, plain_change g → keeps R (sock_update i g)).
Context (fuel : nat) (junk : timespec).

Lemma keeps_hw c : keeps R (hw c).
Proof. apply keeps_var. Qed.
Lemma keeps_xfer b : keeps R (spi_xfer b).
Proof. unfold spi_xfer, device_opencm3. keeps_solve. Qed.
#[local] Hint Resolve keeps_hw keeps_xfer : keeps.

Lemma keeps_read_byte reg : keeps R (w5100_read_byte reg).
Proof. unfold w5100_read_byte, w5100_select, w5100_deselect, w5100_xfer_addr. keeps_solve. Qed.
Lemma keeps_write_byte reg v : keeps R (w5100_write_byte reg v).
Proof. unfold w5100_write_byte, w5100_select, w5100_deselect, w5100_xfer_addr. keeps_solve. Qed.
#[local] Hint Resolve keeps_read_byte keeps_write_byte : keeps.

Lemma keeps_read_mem a n : keeps R (w5100_read_mem a n).
Proof. unfold w5100_read_mem. keeps_solve. Qed.
Lemma keeps_write_mem a bs n : keeps R (w5100_write_mem a bs n).
Proof. unfold w5100_write_mem. keeps_solve. Qed.
#[local] Hint Resolve keeps_read_mem keeps_write_mem : keeps.

Lemma keeps_read_sock_reg r i : keeps R (w5100_read_sock_reg r i).
Proof. unfold w5100_read_sock_reg, w5100_read_reg. keeps_solve. Qed.
Lemma keeps_write_sock_reg r i v : keeps R (w5100_write_sock_reg r i v).
Proof. unfold w5100_write_sock_reg, w5100_write_reg. keeps_solve. Qed.
Lemma keeps_read_sock_regx r n i : keeps R (w5100_read_sock_regx r n i).
Proof. unfold w5100_read_sock_regx. keeps_solve. Qed.
Lemma keeps_write_sock_regx r n i bs : keeps R (w5100_write_sock_regx r n i bs).
Proof. unfold w5100_write_sock_regx. keeps_solve. Qed.
#[local] Hint Resolve keeps_read_sock_reg keeps_write_sock_reg keeps_read_sock_regx keeps_write_sock_regx : keeps.

Lemma keeps_sock_at i : keeps R (sock_at i).
Proof. unfold sock_at. keeps_solve. Qed.
Lemma keeps_fd_at p : keeps R (fd_at p).
Proof. unfold fd_at. keeps_solve. Qed.
Lemma keeps_fail e : keeps R (fail e).
Proof. unfold fail, set_errno. keeps_solve. Qed.
Lemma keeps_set_errno e : keeps R (set_errno e).
Proof. unfold set_errno. keeps_solve. Qed.
#[local] Hint Resolve keeps_sock_at keeps_fd_at keeps_fail keeps_set_errno : keeps.

Lemma keeps_get_socket fd : keeps R (get_socket_from_fd fd).
Proof. unfold get_socket_from_fd. keeps_solve. Qed.
Lemma keeps_wait_status i ds : keeps R (wait_status fuel i ds).
Proof. unfold wait_status. keeps_solve. Qed.
Lemma keeps_command i c : keeps R (w5100_command fuel i c).
Proof. unfold w5100_command. keeps_solve. Qed.
#[local] Hint Resolve keeps_get_socket keeps_wait_status keeps_command : keeps.

Lemma keeps_relisten s i : keeps R (relisten fuel s i).
Proof. unfold relisten. keeps_solve. Qed.
#[local] Hint Resolve keeps_relisten : keeps.
Lemma keeps_manage_disconnect s : keeps R (manage_disconnect fuel s).
Proof. unfold manage_disconnect. keeps_solve. Qed.
Lemma keeps_check_bind_udp s : keeps R (check_bind_udp fuel s).
Proof. unfold check_bind_udp, bind_udp, get_avail_port. keeps_solve. Qed.
Lemma keeps_timeout_init d : keeps R (timeout_init junk d).
Proof. unfold timeout_init. keeps_solve. Qed.
Lemma keeps_timeout_ended tom : keeps R (timeout_ended junk tom).
Proof. unfold timeout_ended. keeps_solve. Qed.
#[local] Hint Resolve keeps_manage_disconnect keeps_check_bind_udp keeps_timeout_init keeps_timeout_ended : keeps.

Lemma keeps_read_buf_sure i buf len p : keeps R (read_buf_sure i buf len p).
Proof. unfold read_buf_sure. keeps_solve. Qed.
Lemma keeps_read_buf_recv i p : keeps R (read_buf_recv fuel i p).
Proof. unfold read_buf_recv. keeps_solve. Qed.
#[local] Hint Resolve keeps_read_buf_sure keeps_read_buf_recv : keeps.
Lemma keeps_read_buf i buf len : keeps R (read_buf fuel i buf len).
Proof. unfold read_buf, read_buf_len, read_buf_pstart. keeps_solve. Qed.
Lemma keeps_recv_dgram s buf a al : keeps R (recv_dgram fuel s buf a al).
Proof. unfold recv_dgram, read_buf_len, read_buf_pstart. keeps_solve. Qed.
Lemma keeps_write_buf i buf len : keeps R (write_buf fuel i buf len).
Proof. unfold write_buf, write_buf_len, write_buf_pstart, write_buf_sure, write_buf_send. keeps_solve. Qed.
#[local] Hint Resolve keeps_read_buf keeps_recv_dgram keeps_write_buf : keeps.

Lemma keeps_setsockopt fd l o : keeps R (W5100Socket.setsockopt fd l o).
Proof. unfold W5100Socket.setsockopt. keeps_solve. Qed.
Lemma keeps_bind_call fd a : keeps R (W5100Socket.bind fuel fd a).
Proof. unfold W5100Socket.bind, bind_udp. keeps_solve. Qed.
Lemma keeps_connect fd a : keeps R (W5100Socket.connect fuel fd a).
Proof. unfold W5100Socket.connect, connect_tcp, connect_udp. keeps_solve. Qed.
Lemma keeps_recvfrom fd buf len a al : keeps R (W5100Socket.recvfrom fuel junk fd buf len a al).
Proof. unfold W5100Socket.recvfrom, recv_stream. keeps_solve. Qed.

Lemma keeps_sendto_body snd fd buf len a : (∀ fd buf len, keeps R (snd fd buf len)) →
  keeps R (sendto_body fuel junk snd fd buf len a).
Proof. intros Hsnd. unfold sendto_body, sendto_dgram, write_buf_len. keeps_solve. Qed.
Lemma keeps_send_body sto fd buf len : (∀ fd buf len a, keeps R (sto fd buf len a)) →
  keeps R (send_body fuel junk sto fd buf len).
Proof. intros Hsto. unfold send_body, send_turn. keeps_solve. Qed.
Lemma keeps_send fd buf len : keeps R (W5100Socket.send fuel junk fd buf len).
Proof. do 2 (apply keeps_send_body; intros; apply keeps_sendto_body; intros). apply keeps_hang. Qed.
Lemma keeps_sendto fd buf len a : keeps R (W5100Socket.sendto fuel junk fd buf len a).
Proof. apply keeps_sendto_body, keeps_send. Qed.
End keeps_driver.

(** Every call of the interface keeps what no variable of the driver matters to. *)
Section keeps_sockets.
Context {H X : Type} `{!SpiDevice H, !Clock X} (fuel : nat) (junk : timespec).
Context (R : nstate H X → nstate H X → Prop) `{!PreOrder R, !KeepsVar H R, !KeepsVar ftable R, !KeepsVar errno R,
  !KeepsClock R, !KeepsVar socktab R}.

Lemma keeps_fd_put p f : keeps R (fd_put p f).
Proof. unfold fd_put. keeps_solve. Qed.

Lemma keeps_fd_update p g : keeps R (fd_update p g).
Proof. pose proof keeps_fd_put. pose proof (keeps_fd_at R). unfold fd_update. keeps_solve. Qed.

Lemma keeps_sock_update i g : keeps R (sock_update i g).
Proof. pose proof (keeps_sock_at R). unfold sock_update. keeps_solve. Qed.

Lemma driver_keeps : KeepsSockets (Sockets0 := driver_sockets fuel junk) R.
Proof.
  pose proof keeps_sock_update as Hsock. pose proof keeps_fd_put as Hput. pose proof keeps_fd_update as Hupd.
  assert (Hs : ∀ i g, plain_change g → keeps R (sock_update i g)) by auto.
  pose proof (keeps_sock_at R) as Hat. pose proof (keeps_fd_at R) as Hfd. pose proof (keeps_fail R) as Hfail.
  pose proof (keeps_set_errno R) as Herr. pose proof (keeps_command R fuel) as Hcmd.
  pose proof (keeps_wait_status R fuel) as Hwait. pose proof (keeps_get_socket R) as Hget.
  pose proof (keeps_relisten R Hs fuel) as Hrel. pose proof (keeps_write_sock_reg R) as Hreg.
  split; intros; unfold Sockets.socket, Sockets.setsockopt, Sockets.bind, Sockets.connect, Sockets.send,
    Sockets.sendto, Sockets.recv, Sockets.recvfrom, Sockets.close, driver_sockets.
  - unfold W5100Socket.socket, socket_create, socket_alloc, socket_free, fill_fd_struct, file_alloc.
    keeps_solve.
  - by apply keeps_setsockopt.
  - by apply keeps_bind_call.
  - by apply keeps_connect.
  - by apply keeps_send.
  - by apply keeps_sendto.
  - unfold W5100Socket.recv. pose proof (keeps_recvfrom R Hs fuel junk). keeps_solve.
  - pose proof (keeps_recvfrom R Hs fuel junk). keeps_solve.
  - unfold _close, drv_close, driver_calls, w5100_sock_close, has_fd, close_fd, file_free, socket_free.
    keeps_solve.
Qed.
End keeps_sockets.

(** ** The laws of the interface *)

(** Which descriptors the sockets hold. *)
Definition descriptors (l : list w5100_socket) : list (option Z * option Z) :=
  (λ e, (s_fd_data e, s_connection e)) <$> l.

Lemma held_descriptors l l' : descriptors l' = descriptors l → held l' = held l.
Proof.
  intros Hd. assert (Hh : ∀ l, l ≫= holders = descriptors l ≫= λ '(d, c), option_list d ++ option_list c).
  { clear. intros l. induction l as [|e l IH]; [done|]. simpl. f_equal. exact IH. }
  unfold held. by rewrite !Hh, Hd.
Qed.

Lemma unconnected_descriptors l l' : descriptors l' = descriptors l → unconnected l → unconnected l'.
Proof.
  assert (Hu : ∀ l, unconnected l ↔ Forall (λ p, p.2 = None) (descriptors l)).
  { intros m. unfold unconnected, descriptors. by rewrite Forall_fmap. }
  intros Hd. by rewrite !Hu, Hd.
Qed.

(** A change that keeps a field of a socket. *)
Lemma sock_update_same {H X B : Type} (f : w5100_socket → B) i g : (∀ e, f (g e) = f e) →
  keeps (λ s s' : nstate H X, f <$> n_socks s' = f <$> n_socks s) (sock_update i g).
Proof.
  intros Hg [h l fl er x]. unfold sock_update, sock_at, getc, gets, modifyc, modify, lift, mbind, M_bind, proj, nstate_socks.
  simpl. destruct (aget l i) as [e| |] eqn:He; [|done..]. apply aget_Some in He as [Hi He].
  pose proof (lookup_lt_Some _ _ _ He) as Hlt. rewrite (aset_in_range l i) by lia. simpl.
  rewrite list_fmap_insert, list_insert_id; [done|]. by rewrite list_lookup_fmap, He, Hg.
Qed.

Section laws.
Context {H X : Type} `{!SpiDevice H, !W5100 H, !W5100Bus H, !W5100Commands H, !Clock X, !ClockTotal X}.
Context (fuel : nat) (junk : timespec).

Definition same_descriptors (s s' : nstate H X) : Prop := descriptors (n_socks s') = descriptors (n_socks s).
#[export] Instance same_descriptors_order : PreOrder same_descriptors.
Proof. split; [done|]. intros s1 s2 s3. unfold same_descriptors. congruence. Qed.
#[export] Instance same_descriptors_hw : KeepsVar H same_descriptors.
Proof. by intros g s. Qed.
#[export] Instance same_descriptors_files : KeepsVar ftable same_descriptors.
Proof. by intros g s. Qed.
#[export] Instance same_descriptors_errno : KeepsVar errno same_descriptors.
Proof. by intros g s. Qed.
#[export] Instance same_descriptors_clock : KeepsClock same_descriptors.
Proof. intros id tp s. unfold clock_gettime, nstate_clock. by destruct (clock_gettime _ _ _) as [[]| |]. Qed.

Lemma same_descriptors_sock i g : plain_change g → keeps same_descriptors (sock_update i g).
Proof. intros Hg. apply (sock_update_same (λ e, (s_fd_data e, s_connection e))). intros e. by destruct (Hg e) as (-> & -> & _). Qed.

(** The tables are consistent, no connection has been accepted. *)
Definition tables_ok (s : nstate H X) : Prop := well_formed s ∧ unconnected (n_socks s).

(** ... and stay so, and the registers of the interface are what they were. *)
Definition consistent (s s' : nstate H X) : Prop :=
  tables_ok s → tables_ok s' ∧ ∀ b, 1 ≤ b < 19 → cell b (n_hw s') = cell b (n_hw s).
#[export] Instance consistent_order : PreOrder consistent.
Proof.
  split; [done|]. intros s1 s2 s3 H12 H23 H1. destruct (H12 H1) as [H2 Hc]. destruct (H23 H2) as [H3 Hc'].
  split; [done|]. intros b Hb. by rewrite Hc', Hc.
Qed.

Lemma inv_consistent (s s' : nstate H X) :
  inv (λ b, cell b (n_hw s)) s' → unconnected (n_socks s') →
  tables_ok s' ∧ ∀ b, 1 ≤ b < 19 → cell b (n_hw s') = cell b (n_hw s).
Proof. intros Hinv Hu. split; [by split; [eapply inv_well_formed|]|apply Hinv]. Qed.

(** A call that opens and closes no socket. *)
Definition undisturbed (s s' : nstate H X) : Prop :=
  tables_ok s' ∧ held (n_socks s') = held (n_socks s) ∧ ∀ b, 1 ≤ b < 19 → cell b (n_hw s') = cell b (n_hw s).

Lemma call_kept {A} (m : M (nstate H X) A) s (Q : A → Prop) :
  (∀ cfg, inv cfg s → twp Partial m s (λ a s', inv cfg s' ∧ Q a)) → keeps same_descriptors m → tables_ok s →
  twp Partial m s (λ a s', Q a ∧ undisturbed s s').
Proof.
  intros Hm Hk [Hwf Hun]. eapply twp_mono, (twp_keeps same_descriptors), Hm; [|done|exact Hwf].
  intros a s' [[Hinv HQ] Hd]. split; [done|].
  destruct (inv_consistent s s' Hinv (unconnected_descriptors _ _ Hd Hun)).
  split; [done|]. split; [by apply held_descriptors|done].
Qed.

Lemma call_kept_any {A} (m : M (nstate H X) A) s :
  (∀ cfg, inv cfg s → twp Partial m s (λ _ s', inv cfg s')) → keeps same_descriptors m → tables_ok s →
  twp Partial m s (λ _ s', undisturbed s s').
Proof.
  intros Hm Hk Hok. eapply twp_mono; [|apply (call_kept m s (λ _, True)); [|done..]]; [by intros a s' [_ ?]|].
  intros cfg Hinv. eapply twp_mono; [|by apply Hm]. by intros a s' ?.
Qed.

Lemma ready_partial : ready (H:=H) Partial fuel.
Proof. done. Qed.

#[local] Existing Instance any_clock.

Lemma driver_setsockopt fd o s : tables_ok s →
  twp Partial (W5100Socket.setsockopt fd SOL_SOCKET (inl o)) s (λ _ s', undisturbed s s').
Proof.
  intros Hok. apply call_kept_any; [|apply keeps_setsockopt, same_descriptors_sock; apply _|done].
  intros cfg Hinv. by apply tp_setsockopt.
Qed.
Lemma driver_bind fd a s : tables_ok s →
  twp Partial (W5100Socket.bind fuel fd a) s (λ _ s', undisturbed s s').
Proof.
  intros Hok. apply call_kept_any; [|apply keeps_bind_call, same_descriptors_sock; apply _|done].
  intros cfg Hinv. by apply tp_bind.
Qed.
Lemma driver_connect fd a s : tables_ok s →
  twp Partial (W5100Socket.connect fuel fd a) s (λ _ s', undisturbed s s').
Proof.
  intros Hok. apply call_kept_any; [|apply keeps_connect, same_descriptors_sock; apply _|done].
  intros cfg Hinv. by apply tp_connect.
Qed.

(** The length of a buffer as the argument of a call. *)
Lemma len_arg (bs : list Z) : 0 ≤ u32 (Z.of_nat (length bs)) ≤ Z.of_nat (length bs).
Proof. split; [apply u32_range|]. unfold u32. apply Z.mod_le; lia. Qed.

Lemma driver_send fd bs s : tables_ok s →
  twp Partial (W5100Socket.send fuel junk fd bs (u32 (Z.of_nat (length bs)))) s (λ _ s', undisturbed s s').
Proof.
  intros Hok. apply call_kept_any; [|apply keeps_send, same_descriptors_sock; apply _|done].
  intros cfg Hinv. apply tp_send; try done; [apply len_arg|apply u32_range].
Qed.
Lemma driver_sendto fd bs a s : tables_ok s →
  twp Partial (W5100Socket.sendto fuel junk fd bs (u32 (Z.of_nat (length bs))) a) s (λ _ s', undisturbed s s').
Proof.
  intros Hok. apply call_kept_any; [|apply keeps_sendto, same_descriptors_sock; apply _|done].
  intros cfg Hinv. apply tp_sendto; try done; [apply len_arg|apply u32_range].
Qed.
Lemma driver_recvfrom fd buf a al s : tables_ok s →
  twp Partial (W5100Socket.recvfrom fuel junk fd buf (u32 (Z.of_nat (length buf))) a al) s
    (λ r s', recv_ok buf r ∧ undisturbed s s').
Proof.
  intros Hok. apply call_kept; [|apply keeps_recvfrom, same_descriptors_sock; apply _|done].
  intros cfg Hinv. apply tp_recvfrom; try done. apply u32_range.
Qed.

Lemma driver_socket d ty p s : tables_ok s →
  twp Partial (W5100Socket.socket d ty p) s (λ r s', tables_ok s' ∧
    ((r = -1 ∧ held (n_socks s') = held (n_socks s)) ∨
     (0 ≤ r ∧ (r ∉ held (n_socks s)) ∧ held (n_socks s') = {[r]} ∪ held (n_socks s))) ∧
    ∀ b, 1 ≤ b < 19 → cell b (n_hw s') = cell b (n_hw s)).
Proof.
  intros [Hwf Hun]. eapply twp_mono; [|by apply (tp_socket Partial (λ b, cell b (n_hw s)) fuel)]. intros r s' (Hinv & _ & Hun' & Ho & _).
  by destruct (inv_consistent s s' Hinv (Hun' Hun)).
Qed.

(** Programs that keep the tables consistent. *)
Lemma keeps_consistent {A} (m : M (nstate H X) A) :
  (∀ s, tables_ok s → twp Partial m s (λ _ s', tables_ok s' ∧ ∀ b, 1 ≤ b < 19 → cell b (n_hw s') = cell b (n_hw s))) →
  keeps consistent m.
Proof. intros Hm s. specialize (Hm s). unfold twp in Hm. destruct (m s) as [[a s']| |]; [|done..]. exact Hm. Qed.

(** An entry that no socket owns. *)
Lemma table_inv_unowned cfg (h : H) l fl p f : table_inv cfg h l fl → 0 ≤ p → fl !! Z.to_nat p = Some f →
  fd_close f ≠ Some DrvSocket → table_inv cfg h l (<[Z.to_nat p := with_open false f]> fl).
Proof.
  intros Hinv Hp Hf Hd. pose proof Hinv as [].
  assert (Hne : ∀ i q, own_fd fl i q → p ≠ q).
  { intros i q (_ & g & Hg & _ & _ & _ & _ & _ & Hcl & _) ->. congruence. }
  split; try done; [by rewrite length_insert| |].
  - intros q g Hq. apply list_lookup_insert_Some in Hq as [(<- & <- & _)|[_ Hq]]; [|by eapply ti_opaque].
    simpl. by apply ti_opaque with (p := Z.to_nat p).
  - intros i e Hi He. destruct (ti_socks i e Hi He) as [?|[]]; [by left|right]. split; try done.
    + destruct (s_fd_data e) as [q|]; [|done]. by apply own_fd_set; eauto.
    + destruct (s_connection e) as [q|]; [|done]. destruct su_connection. split; [|done].
      by apply own_fd_set; eauto.
Qed.

(** The system call [close] leads to the socket that owns the descriptor. *)
Lemma driver_close fd s : tables_ok s →
  twp Partial (@_close _ _ _ (driver_calls fuel junk) fd) s (λ _ s', tables_ok s' ∧
    held (n_socks s') = held (n_socks s) ∖ {[fd]} ∧ ∀ b, 1 ≤ b < 19 → cell b (n_hw s') = cell b (n_hw s)).
Proof.
  intros [Hwf Hun].
  assert (Hno : (∀ i, ¬ own_fd (n_files s) i fd) → held (n_socks s) = held (n_socks s) ∖ {[fd]}).
  { intros Hn. apply set_eq. intros q. rewrite elem_of_difference, elem_of_singleton. split; [|tauto].
    intros Hq. split; [done|]. intros ->. destruct (held_lookup _ _ _ _ fd Hwf Hq) as (i & e & _ & _ & _ & Hown).
    by apply (Hn i). }
  unfold _close, file_struct_get. destruct (decide (fd >= Z.of_nat OPEN_MAX)) as [Hge|Hlt].
  { apply twp_bind, twp_modify, twp_ret. split; [done|]. split; [|done]. apply Hno. intros i [? _]. lia. }
  unfold fd_at. twp_step. twp_step. twp_step. apply twp_access; [done|apply aget_returns|].
  intros f [H0 Hf]%aget_Some. simpl in Hf.
  destruct (isopen f) eqn:Ho; simpl.
  2: { apply twp_bind, twp_modify, twp_ret. split; [done|]. split; [|done]. apply Hno.
       intros i (_ & g & Hg & _ & Hop & _). congruence. }
  destruct (fd_close f) as [[]|] eqn:Hc; [|done..|].
  - eapply twp_mono; [|by run tp_sock_close]. intros r s' (Hinv & _ & Hs). destruct (Hs Hun) as [Hun' Hheld].
    by destruct (inv_consistent s s' Hinv Hun').
  - destruct s as [h l fl er x]. simpl in *. twp_step.
    run tp_fd_update; [apply Hwf|lia|exact Hf|]. apply twp_ret. simpl.
    split; [split; [|done]|split; [|done]].
    + eapply table_inv_unowned; [done..|congruence].
    + apply Hno. intros i (_ & g & Hg & _ & _ & _ & _ & _ & Hcl & _). congruence.
Qed.

Lemma driver_consistent : KeepsSockets (Sockets0 := driver_sockets fuel junk) consistent.
Proof.
  assert (Hk : ∀ {A} (m : M (nstate H X) A), (∀ s, tables_ok s → twp Partial m s (λ _ s', undisturbed s s')) →
    keeps consistent m).
  { intros A m Hm. apply keeps_consistent. intros s Hok. eapply twp_mono; [|by apply Hm].
    intros a s' (? & _ & ?). done. }
  split; intros.
  - apply keeps_consistent. intros s Hok. eapply twp_mono; [|by apply driver_socket]. intros r s' (? & _ & ?). done.
  - apply Hk, driver_setsockopt.
  - apply Hk, driver_bind.
  - apply Hk, driver_connect.
  - apply Hk. intros s. apply driver_send.
  - apply Hk. intros s. apply driver_sendto.
  - apply Hk. intros s Hok. apply twp_bind. eapply twp_mono; [|by apply driver_recvfrom].
    intros [[[r b] a] al] s' [_ ?]. by apply twp_ret.
  - apply Hk. intros s Hok. apply twp_bind. eapply twp_mono; [|by apply driver_recvfrom].
    intros [[[r b] a] al] s' [_ ?]. by apply twp_ret.
  - apply keeps_consistent. intros s Hok. eapply twp_mono; [|by apply driver_close]. intros r s' (? & _ & ?). done.
Qed.
End laws.

(** ** The driver implements the interface *)

Section implements.
Context {C H X : Type} `{!SpiDevice H, !W5100 H, !W5100Bus H, !W5100Commands H, !Clock X, !ClockTotal X,
  !Has C X, !HasLaws C X, !ClockAside C X}.
Context (fuel : nat) (junk : timespec).

Definition same_component (s s' : nstate H X) : Prop := proj (C:=C) (n_rest s') = proj (n_rest s).
#[export] Instance same_component_order : PreOrder same_component.
Proof. split; [done|]. intros s1 s2 s3. unfold same_component. congruence. Qed.
#[export] Instance same_component_hw : KeepsVar H same_component.
Proof. by intros g s. Qed.
#[export] Instance same_component_socks : KeepsVar socktab same_component.
Proof. by intros g s. Qed.
#[export] Instance same_component_files : KeepsVar ftable same_component.
Proof. by intros g s. Qed.
#[export] Instance same_component_errno : KeepsVar errno same_component.
Proof. by intros g s. Qed.
#[export] Instance same_component_clock : KeepsClock same_component.
Proof.
  intros id tp s. unfold clock_gettime, nstate_clock.
  destruct (clock_gettime id tp (n_rest s)) as [[r x]| |] eqn:E; [|done..]. by eapply clock_aside.
Qed.

Lemma driver_component : KeepsSockets (Sockets0 := driver_sockets fuel junk) same_component.
Proof. apply driver_keeps; apply _. Qed.

Lemma twp_component {A} (m : M (nstate H X) A) s (P Q : A → nstate H X → Prop) :
  keeps same_component m → twp Partial m s P →
  (∀ a s', P a s' → proj (C:=C) (n_rest s') = proj (n_rest s) → Q a s') → twp Partial m s Q.
Proof. intros Hk Hm HQ. eapply twp_mono, (twp_keeps same_component), Hm; [|done]. intros a s' []. by apply HQ. Qed.

Local Tactic Notation "component" uconstr(c) :=
  intros; eapply twp_component; [apply driver_component|by apply c|]; intros ? ? (? & ? & _) ?; by split_and!.

(** [recv] is [recvfrom] with null addresses. *)
Lemma driver_recv fd buf (s : nstate H X) : tables_ok s →
  twp Partial (@Sockets.recvfrom _ (driver_sockets fuel junk) fd buf) s (λ r s',
    (length r.2 = length buf ∧ (Forall is_u8 buf → Forall is_u8 r.2) ∧ r.1 ≤ Z.max 1 (Z.of_nat (length buf))) ∧
    undisturbed s s').
Proof.
  intros Hok. apply twp_bind. eapply twp_mono; [|by apply driver_recvfrom]. intros [[[r b] a] al] s' Hr.
  by apply twp_ret.
Qed.

Program Definition driver_laws : SocketsLaws (Sockets0 := driver_sockets fuel junk) Partial C (nstate H X) := {|
  net_ok s := tables_ok s;
  open_socks s := held (n_socks s);
  inbox _ := 0%nat;
  net_burst := 0%nat;
|}.
Next Obligation. done. Qed.
Next Obligation.
  intros d ty p s Hok. eapply twp_component; [apply driver_component|by apply driver_socket|]. naive_solver.
Qed.
Next Obligation. component driver_setsockopt. Qed.
Next Obligation. component driver_bind. Qed.
Next Obligation. component driver_connect. Qed.
Next Obligation. component driver_send. Qed.
Next Obligation. component driver_sendto. Qed.
Next Obligation.
  intros fd buf s Hok. eapply twp_component; [apply driver_component|by apply driver_recv|].
  intros [r b] s' ((? & ? & ?) & ? & ? & _) ?. by split_and!.
Qed.
Next Obligation.
  intros fd buf s Hok. eapply twp_component; [apply driver_component|by apply driver_recv|].
  intros [r b] s' ((? & ? & ?) & ? & ? & _) ?. by split_and!.
Qed.
Next Obligation. component driver_close. Qed.
Next Obligation. by intros c [h l fl er x] Hok. Qed.
End implements.
