(* ===== verification/W5100Streams.v ===== *)
(** * The byte streams of the connections: the calls of [src/w5100_socket.c]

    Both directions of every socket ([duplex]) through the calls: a [send] on a
    connected socket hands over the bytes of its buffer that it counts, a [recv]
    takes the next bytes of the stream, in order and each once, and no other
    call moves data on any socket. So a program's sends and receives, in any
    sequence of calls, are two streams per connection ([streams]). *)

From stdpp Require Import prelude list numbers functions relations.
From S2P Require Import Prelude Timespec Clock ClockDummy Inet Files Poll Sockets Opencm3 W5100Spi W5100Socket W5100Chip W5100Ring W5100Stream W5100Ledger W5100Sent W5100Received W5100Table W5100Data W5100Calls W5100Net.

Section duplex.
Context {H : Type} `{!W5100 H, !W5100Commands H, !W5100Transmit H, !W5100Receive H}.

(** From [h] to [h'] the socket [i] has sent the packets [out] and the bytes [inn]
    have been taken from it; nothing has moved on the others. *)
Definition duplex (i : Z) (out : list packet) (inn : list Z) (h h' : H) : Prop :=
  extends tx_log tx_idle i out h h' ∧ extends rx_log rx_idle i inn h h'.

(** The pointers of the driver and the chip agree in both directions. *)
Definition sock_idle (i : Z) (h : H) : Prop := tx_idle i h ∧ rx_idle i h.

Lemma duplex_trans i o1 o2 n1 n2 h1 h2 h3 :
  duplex i o1 n1 h1 h2 → duplex i o2 n2 h2 h3 → duplex i (o1 ++ o2) (n1 ++ n2) h1 h3.
Proof. intros [T1 R1] [T2 R2]. split; by eapply extends_trans. Qed.

Lemma duplex_then i o n h1 h2 h3 : duplex i o n h1 h2 → duplex i [] [] h2 h3 → duplex i o n h1 h3.
Proof. intros H1 H2. rewrite <- (app_nil_r o), <- (app_nil_r n). by eapply duplex_trans. Qed.

Lemma duplex_ok i o n h h' : duplex i o n h h' → chip_ok h'.
Proof. by intros [[]]. Qed.

Lemma duplex_idle k o n i h h' : duplex k o n h h' → is_sock i → sock_idle i h → sock_idle i h'.
Proof. intros [[_ T] [_ R]] Hi []. split; [by apply T|by apply R]. Qed.

Lemma duplex_refl i h : chip_ok h → duplex i [] [] h h.
Proof. intros. split; by apply extends_refl. Qed.

(** A step without data is one for every socket. *)
Lemma duplex_none i j h h' : duplex i [] [] h h' → duplex j [] [] h h'.
Proof.
  assert (Hnil : ∀ A (k i : Z), (if decide (k = i) then [] else []) = @nil A) by (intros; by case_decide).
  intros [[Hok T] [_ R]]. split; (split; [done|]); intros k Hk; 
    [specialize (T k Hk); by rewrite Hnil in T |- *|specialize (R k Hk); by rewrite Hnil in R |- *].
Qed.

Lemma duplex_still i h h' : still h h' → duplex i [] [] h h'.
Proof. split; by eapply extends_still; [apply _|]. Qed.

Lemma duplex_command i k cmd h : chip_ok h → is_sock i → cmd ∈ control_commands →
  duplex k [] [] h (chip_store (sreg W5100_Sn_CR i) cmd h).
Proof. intros Hok Hi Hc. split; (eapply extends_command; [apply _|done|done|by right]). Qed.

Lemma duplex_config i k r n bs h : chip_ok h → is_sock i → 0 ≤ r → r + Z.of_nat n ≤ W5100_Sn_TX_RD →
  (r = 0 ∧ n = 1%nat ∨ W5100_Sn_CR < r) → duplex k [] [] h (stores (zip (addrs (w5100_sock_reg_get r i) n) bs) h).
Proof.
  intros Hok Hi Hr Hn Hcr. unfold W5100_Sn_TX_RD, W5100_Sn_CR in *.
  assert (Hc : ∀ A (own : Z → Z → Prop) (log : Z → H → list A) idle cmds `{!Ledger log idle own cmds},
    Forall (λ p, aside own p.1) (zip (addrs (w5100_sock_reg_get r i) n) bs)).
  { intros A own log idle cmds HL. apply list.Forall_forall. intros [a v] Hin%elem_of_zip_l. simpl.
    rewrite sock_reg_eq in Hin by (done || lia). unfold is_sock in Hi.
    rewrite addrs_plain_range in Hin by (unfold sreg; lia).
    apply list_elem_of_fmap in Hin as (m & -> & Hm%elem_of_seq).
    replace (sreg r i + Z.of_nat m) with (sreg (r + Z.of_nat m) i) by (unfold sreg; lia).
    eapply aside_config; [exact HL|done|unfold W5100_Sn_TX_RD; lia|unfold W5100_Sn_CR; lia]. }
  split; (eapply extends_stores; [apply _|done|eapply Hc; apply _]).
Qed.

(** A pointer of another queue is moved. *)
Lemma extends_advance {A} (log : Z → H → list A) idle own cmds `{!Ledger log idle own cmds} k r p cmd i h : chip_ok h → is_sock i →
  aside own (sreg r i) → aside own (sreg r i + 1) → cmd ∈ cmds → extends log idle k [] h (advance r p cmd i h).
Proof.
  intros Hok Hi Ha Hb Hcmd. set (l := [(sreg r i, p / 256); (sreg r i + 1, p mod 256)]).
  assert (H1 : extends log idle k [] h (stores l h)) by (eapply extends_stores; [eassumption|done|by do 2 (apply list.Forall_cons; split; [done|])]).
  change (advance r p cmd i h) with (chip_store (sreg W5100_Sn_CR i) cmd (stores l h)).
  refine (extends_trans _ _ _ _ _ _ _ _ H1 _). eapply extends_command; [eassumption|by apply H1|done|done].
Qed.

Lemma ring_aside i p n : is_sock i → Forall (aside rx_own) (ring_addrs (get_tx_base i) p n).
Proof.
  intros Hi. eapply list.Forall_impl; [by apply ring_plain|]. intros a [_ Ha].
  split; [unfold W5100_MR; lia|]. intros j Hj.
  unfold rx_own, rx_reg, sreg, is_sock, W5100_Sn_CR, W5100_Sn_RX_RSR, W5100_Sn_RX_RD, W5100_RX_MEM_BASE in *. lia.
Qed.

(** What [tx_append] adds is sent, what [rx_take] yields is taken. *)
Lemma tx_append_duplex i P bs len h : chip_ok h → is_sock i → sock_idle i h → Forall is_u8 bs →
  0 ≤ len ≤ Z.of_nat (length bs) → tx_kept i P → P h →
  let '(r, h') := tx_append i bs len h in 0 ≤ r ≤ len ∧ ∃ pks, handed i P r bs pks ∧ duplex i pks [] h h'.
Proof.
  intros Hok Hi [Hidle _] Hbs Hlen HP Hh. pose proof (tx_append_sends i bs len h P Hok Hi Hidle Hbs Hlen HP Hh) as Ht.
  assert (Hr : extends rx_log rx_idle i [] h (tx_append i bs len h).2).
  { unfold tx_append. pose proof (reg16_still W5100_Sn_TX_FSR i h Hok) as Hs1.
    destruct (reg16 W5100_Sn_TX_FSR i h) as [f h1]. cbn [fst snd] in *.
    case_decide; [by eapply extends_still; [apply rx_ledger|]|]. set (n := Z.min len f).
    pose proof (reg16_still W5100_Sn_TX_WR i h1 (proj1 Hs1)) as Hs2.
    destruct (reg16 W5100_Sn_TX_WR i h1) as [p h2]. cbn [fst snd] in *.
    assert (Hs : still h h2) by (by eapply still_trans).
    refine (extends_trans _ _ _ [] _ _ _ _ _ (extends_advance rx_log _ _ _ _ _ _ _ _ _ _ Hi _ _ _)).
    - refine (extends_trans _ _ _ [] [] _ _ _ _ _); [by eapply extends_still; [apply rx_ledger|]|].
      eapply extends_stores; [apply rx_ledger|apply Hs|]. apply list.Forall_forall. intros [a v] Ha%elem_of_zip_l.
      pose proof (ring_aside i p (Z.to_nat n) Hi) as Hra. rewrite list.Forall_forall in Hra. by apply Hra.
    - apply stores_ok, Hs.
    - split; [by apply sreg_not_MR|]. intros j Hj.
      unfold rx_own, rx_reg, sreg, is_sock, W5100_Sn_CR, W5100_Sn_TX_WR, W5100_Sn_RX_RSR, W5100_Sn_RX_RD, W5100_RX_MEM_BASE in *. lia.
    - split; [unfold sreg, is_sock, W5100_MR, W5100_Sn_TX_WR in *; lia|]. intros j Hj.
      unfold rx_own, rx_reg, sreg, is_sock, W5100_Sn_CR, W5100_Sn_TX_WR, W5100_Sn_RX_RSR, W5100_Sn_RX_RD, W5100_RX_MEM_BASE in *. lia.
    - by left. }
  destruct (tx_append i bs len h) as [r h']. destruct Ht as (? & pks & ? & ?). split; [done|]. by exists pks.
Qed.

(** RECV leaves the transmit queues alone. *)
Lemma recv_sends_nothing i p h : chip_ok h → is_sock i →
  extends tx_log tx_idle i [] h (advance W5100_Sn_RX_RD p W5100_CMD_RECV i h).
Proof.
  intros Hok Hi. refine (extends_advance tx_log _ _ _ _ _ _ _ _ _ Hok Hi _ _ _).
  - split; [by apply sreg_not_MR|]. intros j Hj.
    unfold tx_reg, sreg, is_sock, W5100_Sn_CR, W5100_Sn_RX_RD, W5100_Sn_TX_RD, W5100_Sn_TX_WR in *. lia.
  - split; [unfold sreg, is_sock, W5100_MR, W5100_Sn_RX_RD in *; lia|]. intros j Hj.
    unfold tx_reg, sreg, is_sock, W5100_Sn_CR, W5100_Sn_RX_RD, W5100_Sn_TX_RD, W5100_Sn_TX_WR in *. lia.
  - by left.
Qed.

Lemma rx_take_duplex i len h : chip_ok h → is_sock i → sock_idle i h → 0 ≤ len →
  let '(bs, h') := rx_take i len h in Z.of_nat (length bs) ≤ len ∧ duplex i [] bs h h'.
Proof.
  intros Hok Hi [_ Hidle] Hlen. pose proof (rx_take_takes i len h Hok Hi Hidle Hlen) as Hr.
  assert (Ht : extends tx_log tx_idle i [] h (rx_take i len h).2).
  { unfold rx_take. pose proof (reg16_still W5100_Sn_RX_RSR i h Hok) as Hs1.
    destruct (reg16 W5100_Sn_RX_RSR i h) as [f h1]. cbn [fst snd] in *.
    case_decide; [by eapply extends_still; [apply tx_ledger|]|]. set (n := Z.min len f).
    pose proof (reg16_still W5100_Sn_RX_RD i h1 (proj1 Hs1)) as Hs2.
    destruct (reg16 W5100_Sn_RX_RD i h1) as [p h2]. cbn [fst snd] in *.
    pose proof (loads_still (ring_addrs (get_rx_base i) p (Z.to_nat n)) h2 (proj1 Hs2)) as Hs3.
    destruct (loads _ h2) as [bs h3]. cbn [fst snd] in *.
    assert (Hs : still h h3) by eauto using still_trans.
    refine (extends_trans _ _ _ [] [] _ _ _ _ (recv_sends_nothing _ _ _ (proj1 Hs) Hi)).
    by eapply extends_still; [apply tx_ledger|]. }
  destruct (rx_take i len h) as [bs h']. destruct Hr. done.
Qed.
End duplex.

(** ** The calls that move data *)

(** From [h] to [h'] the socket [i] has sent the bytes [bs], in packets that
    divide them in any way. *)
Definition sends_bytes `{!W5100 H, !W5100Commands H, !W5100Transmit H, !W5100Receive H} (i : Z) (bs : list Z) (h h' : H) : Prop :=
  ∃ pks, pks ≫= pk_data = bs ∧ duplex i pks [] h h'.

(** The socket of a connection. *)
Definition connected (e : w5100_socket) : Prop :=
  s_type e = SOCK_STREAM ∧ (s_state e = W5100_SOCK_STATE_ACCEPTED ∨ s_state e = W5100_SOCK_STATE_CONNECTED).

Section calls.
Context {H X : Type} `{!SpiDevice H, !W5100 H, !W5100Bus H, !W5100Commands H, !W5100Transmit H, !W5100Receive H, !Clock X, !ClockTotal X}.
Context (fuel : nat) (junk : timespec).

Lemma pp_command i k cmd (s : nstate H X) (Q : unit → nstate H X → Prop) :
  chip_ok (n_hw s) → is_sock i → is_u8 cmd → cmd ∈ control_commands →
  (∀ h', duplex k [] [] (n_hw s) h' → Q tt (upd h' s)) → twp Partial (w5100_command fuel i cmd) s Q.
Proof.
  intros Hok Hi Hu Hcmd HQ. apply twp_command_still; [done..|]. intros h' Hs.
  apply HQ. eapply duplex_then; [by apply duplex_command|]. by apply duplex_still.
Qed.

(** A configuration register is written. *)
Lemma pp_write_regx k r n i bs (s : nstate H X) (Q : unit → nstate H X → Prop) :
  chip_ok (n_hw s) → is_sock i → 0 ≤ r → r + Z.of_nat n ≤ W5100_Sn_TX_RD → W5100_Sn_CR < r → (n ≤ length bs)%nat →
  (∀ h', h' = stores (zip ((λ k : nat, sreg r i + Z.of_nat k) <$> seq 0 n) (take n bs)) (n_hw s) →
     duplex k [] [] (n_hw s) h' → Q tt (upd h' s)) →
  twp Partial (w5100_write_sock_regx r n i bs) s Q.
Proof.
  intros Hok Hi Hr Hn Hcr Hl HQ. unfold w5100_write_sock_regx. eapply twp_Done; [by apply write_mem_run|].
  apply HQ; [|by apply duplex_config; [..|right]]. change (proj s) with (n_hw s).
  unfold W5100_Sn_TX_RD in Hn. rewrite sock_reg_eq by (done || lia). unfold is_sock in Hi.
  by rewrite addrs_plain_range by (unfold sreg; lia).
Qed.

Lemma pp_wait i k ds (s : nstate H X) (Q : Z → nstate H X → Prop) :
  chip_ok (n_hw s) → is_sock i → (∀ v h', duplex k [] [] (n_hw s) h' → Q v (upd h' s)) →
  twp Partial (wait_status fuel i ds) s Q.
Proof.
  intros Hok Hi HQ. eapply (twp_wait_status Partial fuel i ds 0); [done|done|done|]. intros v h' _ Hs.
  by apply HQ, duplex_still.
Qed.

Lemma pp_relisten i e h l fl er x (Q : unit → nstate H X → Prop) :
  chip_ok h → length l = W5100_N_SOCKETS → is_sock i → l !! Z.to_nat i = Some e → s_isocket e = i →
  (∀ h' l' er', duplex i [] [] h h' → Q tt (NState h' l' fl er' x)) →
  twp Partial (relisten fuel i i) (NState h l fl er x) Q.
Proof.
  intros Hok Hl Hi He Ei HQ. unfold relisten.
  twp_step. apply (pp_command i i); [done|done|done|set_solver|]. intros h1 Hs1. simpl in *.
  pose proof (duplex_ok _ _ _ _ _ Hs1).
  twp_step. apply (pp_command i i); [done|done|done|set_solver|]. intros h2 Hs2. simpl in *.
  pose proof (duplex_ok _ _ _ _ _ Hs2).
  twp_step. eapply tp_sock_at; [done..|]. rewrite Ei.
  twp_step. apply (pp_wait i i); [done|done|]. intros _ h3 Hs3. simpl in *.
  eapply tp_sock_update; [done..|]. apply HQ. eauto using duplex_then.
Qed.

Lemma pp_manage_disconnect i e h l fl er x (Q : Z → nstate H X → Prop) :
  chip_ok h → length l = W5100_N_SOCKETS → is_sock i → l !! Z.to_nat i = Some e → s_isocket e = i →
  (∀ h' er', duplex i [] [] h h' → Q 0 (NState h' l fl er' x)) →
  (∀ h' l' er', duplex i [] [] h h' → Q (-1) (NState h' l' fl er' x)) →
  twp Partial (manage_disconnect fuel i) (NState h l fl er x) Q.
Proof.
  intros Hok Hl Hi He Ei Hconn Hdis. unfold manage_disconnect.
  twp_step. eapply tp_sock_at; [done..|]. rewrite Ei.
  twp_step. apply twp_read_sock_reg; [done|]. intros v h1 _ Hs1%(duplex_still i).
  pose proof (duplex_ok _ _ _ _ _ Hs1). twp_step; [|by apply twp_ret, Hconn]. do 2 twp_step.
  twp_step. apply (pp_command i i); [done|done|done|set_solver|]. intros h2 Hs2. simpl in *.
  pose proof (duplex_ok _ _ _ _ _ Hs2).
  twp_step. apply (pp_wait i i); [done|done|]. intros _ h3 Hs3. simpl in *.
  assert (Hs : duplex i [] [] h h3) by eauto using duplex_then. pose proof (duplex_ok _ _ _ _ _ Hs).
  twp_step. twp_step.
  - eapply pp_relisten; [done..|]. intros h4 l4 er4 Hs4. apply twp_ret, Hdis. by eapply duplex_then.
  - eapply tp_sock_update; [done..|]. by apply twp_ret, Hdis.
Qed.

Lemma sends_nothing i h h' : duplex i [] [] h h' → sends_bytes i [] h h'.
Proof. by exists []. Qed.

Lemma sends_trans i b1 b2 h1 h2 h3 : sends_bytes i b1 h1 h2 → sends_bytes i b2 h2 h3 → sends_bytes i (b1 ++ b2) h1 h3.
Proof.
  intros (p1 & <- & D1) (p2 & <- & D2). exists (p1 ++ p2). split; [apply bind_app|exact (duplex_trans _ _ _ [] [] _ _ _ D1 D2)].
Qed.

(** One turn of the loop of [send]. *)
Lemma pp_send_turn `{!ClockLaws X} i e nonblock tom bytes towrite h l fl er x
    (Q : list Z * Z + list Z * Z → nstate H X → Prop) :
  chip_ok h → length l = W5100_N_SOCKETS → is_sock i → l !! Z.to_nat i = Some e → s_isocket e = i →
  sock_idle i h → Forall is_u8 bytes → 0 ≤ towrite ≤ Z.of_nat (length bytes) → is_u32 towrite →
  (∀ k st h' l' er' x', 0 ≤ k ≤ towrite → sends_bytes i (take (Z.to_nat k) bytes) h h' →
     st = (drop (Z.to_nat k) bytes, towrite - k) → Q (inr st) (NState h' l' fl er' x')) →
  (∀ k st h' er' x', 0 ≤ k ≤ towrite → sends_bytes i (take (Z.to_nat k) bytes) h h' →
     st = (drop (Z.to_nat k) bytes, towrite - k) → Q (inl st) (NState h' l fl er' x')) →
  twp Partial (send_turn fuel junk i nonblock tom (bytes, towrite)) (NState h l fl er x) Q.
Proof.
  intros Hok Hl Hi He Ei Hidle Hbs Hlen Hu32 Hend Hgo. unfold is_u32 in Hu32.
  assert (H0 : (bytes, towrite) = (drop (Z.to_nat 0) bytes, towrite - 0)) by (simpl; f_equal; lia).
  unfold send_turn. twp_step; [|apply twp_ret, (Hend 0); [lia|by apply sends_nothing, duplex_refl|done]].
  twp_step. eapply tp_sock_at; [done..|]. rewrite Ei.
  twp_step. eapply twp_mono; [|by apply twp_write_buf_tx]. simpl. intros r s' (-> & h1 & -> & Hs1%(duplex_still i)).
  pose proof (tx_append_duplex i (λ _, True) bytes towrite h Hok Hi Hidle Hbs Hlen ltac:(done) I) as Hsend.
  destruct (tx_append i bytes towrite h) as [r h0]. destruct Hsend as (Hr & pks & Hpk%handed_data & Hs0). simpl in *.
  pose proof (duplex_then _ _ _ _ _ _ Hs0 Hs1) as Hs. pose proof (duplex_ok _ _ _ _ _ Hs). twp_step.
  - cbv zeta. rewrite u32_id by (unfold is_u32; lia). apply twp_ret. case_decide; [eapply Hend|eapply Hgo]; [done|by exists pks|done|done|by exists pks|done].
  - assert (r = 0) as -> by lia.
    twp_step. eapply pp_manage_disconnect; [done..| |]; intros; rename select (duplex i [] [] h1 _) into Hs2.
    + rewrite decide_False by done. assert (Hn : sends_bytes i [] h h') by (exists pks; split; [done|by eapply duplex_then]).
      apply tp_wait_turn with (fuel := fuel) (tom := tom); [done|intros; by apply (Hend 0)..|intros; by apply (Hgo 0)].
    + rewrite decide_True by done. apply twp_ret, (Hend 0); [lia|exists pks; split; [done|by eapply duplex_then]|done].
Qed.

Lemma pp_send `{!ClockLaws X} fd i e buf len (s : nstate H X) :
  well_formed s → own_fd (n_files s) i fd → n_socks s !! Z.to_nat i = Some e → connected e →
  sock_idle i (n_hw s) → Forall is_u8 buf → 0 ≤ len ≤ Z.of_nat (length buf) → len < 2147483648 →
  twp Partial (send fuel junk fd buf len) s (λ r s',
    0 ≤ r ≤ len ∧ sends_bytes i (take (Z.to_nat r) buf) (n_hw s) (n_hw s')).
Proof.
  destruct s as [h l fl er x]. unfold well_formed, inv. simpl. set (cfg := λ b, cell b h).
  intros Hinv Hown He [Hty Hconn] Hidle Hbs Hlen Hmax. unfold send, send_rec. unfold send_body at 1.
  pose proof (ti_chip _ _ _ _ Hinv) as Hok. pose proof (ti_len _ _ _ _ Hinv) as Hl.
  twp_step. eapply (tp_get_socket Partial cfg); [exact Hinv|done|intros er' Hno; by destruct (Hno i)|].
  destruct Hown as (_ & f & Hf & _ & _ & _ & _ & Hop & _).
  intros i' e' f' Hi He' _ Hf' _ Hop'. assert (i' = i) as -> by congruence. assert (e' = e) as -> by congruence.
  twp_step. eapply tp_sock_at; [done..|].
  rewrite decide_False by (by rewrite Hty). rewrite decide_False by naive_solver. rewrite decide_False by naive_solver.
  eapply tp_data_flags with (fuel := fuel) (d := s_send_timeout) (n := 0%nat); [done..|]. intros p g Hu _. cbv zeta.
  apply tp_deadline with (fuel := fuel) (n := 0%nat) (d := s_send_timeout e); [done..|]. intros tom x1 _. twp_step.
  apply twp_loop with (μ := λ _ _, 0%nat) (I := λ st s, ∃ k, 0 ≤ k ≤ len ∧ st = (drop (Z.to_nat k) buf, len - k) ∧
    ∃ h' er' x', s = NState h' l fl er' x' ∧ sends_bytes i (take (Z.to_nat k) buf) h h').
  { exists 0. split; [lia|]. split; [simpl; f_equal; lia|]. exists h, er, x1. split; [done|by apply sends_nothing, duplex_refl]. }
  { done. }
  intros st s' (k & Hk & -> & h' & er' & x' & -> & Hs).
  assert (Hcut : ∀ j h2, 0 ≤ j ≤ len - k → sends_bytes i (take (Z.to_nat j) (drop (Z.to_nat k) buf)) h' h2 →
    sends_bytes i (take (Z.to_nat (k + j)) buf) h h2).
  { intros j h2 Hj Hs2. rewrite Z2Nat.inj_add, <- take_take_drop by lia. by eapply sends_trans. }
  destruct Hs as (pks & Hpk & Hs).
  eapply (pp_send_turn i e); [by eapply duplex_ok|done|done|done|by apply Hu|by eapply duplex_idle|by apply Forall_drop|
    rewrite length_drop; lia|unfold is_u32; lia|..].
  - intros j st h2 l2 er2 x2 Hj Hs2 ->. apply twp_ret. rewrite (i32_id _) by (unfold is_i32; lia).
    replace (len - (len - k - j)) with (k + j) by lia. split; [lia|by apply Hcut].
  - intros j st h2 er2 x2 Hj Hs2 ->. split; [|done]. exists (k + j). split; [lia|].
    split; [rewrite drop_drop; f_equal; [f_equal|]; lia|]. exists h2, er2, x2. split; [done|by apply Hcut].
Qed.

(** What a receive leaves in the buffer: [bs] at its start. *)
Definition filled (buf bs buf' : list Z) : Prop := buf' = bs ++ drop (length bs) buf.

(** The result of a receive of [len] bytes that took [bs]. *)
Definition taken (len : Z) (buf bs : list Z) (r : recv_result) : Prop :=
  let '(n, buf', address, address_len) := r in
  filled buf bs buf' ∧ ((n = -1 ∧ bs = []) ∨ (n = Z.of_nat (length bs) ∧ 0 < n ≤ len)).

(** One attempt: bytes that wait, or none while the connection is there. *)
Lemma pp_recv_stream i e buf len address al h l fl er x (Q : option recv_result → nstate H X → Prop) :
  chip_ok h → length l = W5100_N_SOCKETS → is_sock i → l !! Z.to_nat i = Some e → s_isocket e = i →
  sock_idle i h → 0 ≤ len ≤ Z.of_nat (length buf) →
  (∀ bs r h' l' er', duplex i [] bs h h' → taken len buf bs r → Q (Some r) (NState h' l' fl er' x)) →
  (∀ h' er', duplex i [] [] h h' → Q None (NState h' l fl er' x)) →
  twp Partial (recv_stream fuel i buf len address al) (NState h l fl er x) Q.
Proof.
  intros Hok Hl Hi He Ei Hidle Hlen Hend Hgo. unfold recv_stream.
  twp_step. eapply tp_sock_at; [done..|]. rewrite Ei.
  twp_step. eapply twp_mono; [|apply (twp_read_buf_rx Partial); [done..|]].
  2: { pose proof (rx_size_read i h Hok Hi) as Hs. change (proj (NState h l fl er x)) with h.
       destruct (reg16 W5100_Sn_RX_RSR i h) as [n h1]. destruct Hs as [Hn Hs].
       pose proof (rx_bound i h1 (proj1 Hs) Hi). simpl. lia. }
  intros [r buf'] s'. change (proj (NState h l fl er x)) with h.
  pose proof (rx_take_duplex i len h Hok Hi Hidle (proj1 Hlen)) as Ht.
  destruct (rx_take i len h) as [bs h0]. destruct Ht as [Hbs Ht]. intros ([= -> ->] & h1 & -> & Hs%(duplex_still i)).
  pose proof (duplex_then _ _ _ _ _ _ Ht Hs) as Ht1. pose proof (duplex_ok _ _ _ _ _ Ht1).
  simpl. twp_step; [apply twp_ret, (Hend bs); [done|]; split; [done|right; lia]|].
  assert (bs = []) as -> by (apply length_zero_iff_nil; lia). simpl.
  twp_step. eapply pp_manage_disconnect; [done..| |]; intros; rename select (duplex i [] [] h1 _) into Ht2.
  - rewrite decide_False by done. apply twp_ret, Hgo. by eapply duplex_then.
  - rewrite decide_True by done. apply twp_ret, (Hend []); [by eapply duplex_then|]. split; [done|by left].
Qed.

Lemma pp_recv `{!ClockLaws X} fd i e buf len (s : nstate H X) :
  well_formed s → own_fd (n_files s) i fd → n_socks s !! Z.to_nat i = Some e → connected e →
  sock_idle i (n_hw s) → 0 ≤ len ≤ Z.of_nat (length buf) →
  twp Partial (recv fuel junk fd buf len) s (λ '(r, buf') s', ∃ bs,
    duplex i [] bs (n_hw s) (n_hw s') ∧ filled buf bs buf' ∧
    ((r = -1 ∧ bs = []) ∨ (r = Z.of_nat (length bs) ∧ r ≤ len ∧ (r = 0 → len = 0)))).
Proof.
  destruct s as [h l fl er x]. unfold well_formed, inv. simpl. set (cfg := λ b, cell b h).
  intros Hinv Hown He [Hty Hconn] Hidle Hlen. unfold recv, recvfrom.
  pose proof (ti_chip _ _ _ _ Hinv) as Hok. pose proof (ti_len _ _ _ _ Hinv) as Hl.
  twp_step. twp_step. eapply (tp_get_socket Partial cfg); [exact Hinv|done|intros er' Hno; by destruct (Hno i)|].
  destruct Hown as (_ & f & Hf & _ & _ & _ & _ & Hop & _).
  intros i' e' f' Hi He' _ Hf' _ Hop'. assert (i' = i) as -> by congruence. assert (e' = e) as -> by congruence.
  twp_step. eapply tp_sock_at; [done..|].
  rewrite decide_False by naive_solver. rewrite decide_False by (by rewrite Hty; intros []).
  twp_step.
  { do 2 apply twp_ret. exists []. split; [by apply duplex_refl|]. split; [done|]. right. simpl. lia. }
  eapply tp_data_flags with (fuel := fuel) (d := s_recv_timeout) (n := 0%nat); [done..|]. intros p g Hu _. cbv zeta.
  apply tp_deadline with (fuel := fuel) (n := 0%nat) (d := s_recv_timeout e); [done..|]. intros tom x1 _.
  apply twp_loop with (μ := λ _ _, 0%nat) (I := λ _ s, ∃ h' er' x', s = NState h' l fl er' x' ∧ duplex i [] [] h h').
  { exists h, er, x1. split; [done|by apply duplex_refl]. }
  { done. }
  intros [] s' (h1 & er1 & x2 & -> & Ht1). twp_step. rewrite decide_True by done.
  eapply (pp_recv_stream i e); [by eapply duplex_ok|done|done|done|by apply Hu|by eapply duplex_idle|done|..].
  - intros bs [[[n buf'] a] al] h2 l2 er2 Ht2 [Hfill Hr]. do 2 apply twp_ret. exists bs.
    split; [exact (duplex_trans _ _ _ _ _ _ _ _ Ht1 Ht2)|]. split; [exact Hfill|].
    destruct Hr as [?|[? ?]]; [by left|right]. split; [done|lia].
  - intros h2 er2 Ht2. pose proof (duplex_trans _ _ _ _ _ _ _ _ Ht1 Ht2) as Ht.
    apply tp_wait_turn with (fuel := fuel) (tom := tom); [done|intros; apply twp_ret; exists []..|].
    + split; [exact Ht|]. split; [done|by left].
    + split; [exact Ht|]. split; [done|by left].
    + intros er' x' _ _. split; [|done]. by exists h2, er', x'.
Qed.
End calls.

(** ** The calls that move no data *)

Section still_calls.
Context {H X : Type} `{!SpiDevice H, !W5100 H, !W5100Bus H, !W5100Commands H, !W5100Transmit H, !W5100Receive H, !Clock X, !ClockTotal X}.
Context (fuel : nat) (junk : timespec).

(** Every entry of the socket table has the number of a socket of the chip. *)
Definition numbered (s : nstate H X) : Prop :=
  chip_ok (n_hw s) ∧ Forall (λ e, is_sock (s_isocket e)) (n_socks s).

Definition moves_nothing (s s' : nstate H X) : Prop :=
  numbered s → numbered s' ∧ duplex 0 [] [] (n_hw s) (n_hw s').

#[export] Instance moves_nothing_order : PreOrder moves_nothing.
Proof.
  split.
  - intros s Hs. split; [done|]. apply duplex_refl, Hs.
  - intros s1 s2 s3 H12 H23 H1. destruct (H12 H1) as [H2 D1]. destruct (H23 H2) as [H3 D2].
    split; [done|by eapply duplex_then].
Qed.

(** A change outside the chip and the numbers. *)
Lemma same_moves_nothing (s s' : nstate H X) : n_hw s' = n_hw s → n_socks s' = n_socks s → moves_nothing s s'.
Proof. intros Hh Hl Hs. unfold numbered in *. rewrite Hh, Hl. split; [done|]. apply duplex_refl, Hs. Qed.

#[export] Instance moves_nothing_files : KeepsVar ftable moves_nothing.
Proof. intros g s. by apply same_moves_nothing. Qed.
#[export] Instance moves_nothing_errno : KeepsVar errno moves_nothing.
Proof. intros g s. by apply same_moves_nothing. Qed.

(** A change of the chip alone. *)
Lemma chip_moves_nothing {A} (m : M (nstate H X) A) :
  (∀ s, chip_ok (n_hw s) → twp Partial m s (λ _ s', ∃ h', s' = upd h' s ∧ duplex 0 [] [] (n_hw s) h')) →
  keeps moves_nothing m.
Proof.
  intros Hm s. specialize (Hm s). unfold twp in Hm. destruct (m s) as [[a s']| |]; [|done..].
  intros [Hok Hl]. destruct (Hm Hok) as (h' & -> & Hd). split; [|exact Hd]. split; [by eapply duplex_ok|exact Hl].
Qed.

Lemma mn_read_reg a : keeps moves_nothing (w5100_read_reg a).
Proof.
  apply chip_moves_nothing. intros s Hok. apply twp_read_reg; [done|]. eexists. split; [done|].
  by apply duplex_still, load_still.
Qed.
Lemma mn_read_mem a n : keeps moves_nothing (w5100_read_mem a n).
Proof.
  apply chip_moves_nothing. intros s Hok. apply twp_read_mem; [done|]. intros bs h' _ _ Hs. eexists. split; [done|].
  by apply duplex_still.
Qed.
Lemma mn_command i cmd : is_sock i → cmd ∈ control_commands → keeps moves_nothing (w5100_command fuel i cmd).
Proof.
  intros Hi Hc. apply chip_moves_nothing. intros s Hok. apply (pp_command fuel i 0); [done|done| |done|].
  - unfold control_commands in Hc. repeat (apply elem_of_cons in Hc as [->|Hc]; [done|]). by apply elem_of_nil in Hc.
  - intros h' Hd. by exists h'.
Qed.
Lemma mn_wait i ds : keeps moves_nothing (wait_status fuel i ds).
Proof. unfold wait_status, w5100_read_sock_reg. pose proof mn_read_reg. keeps_solve. Qed.
Lemma mn_write_regx r n i bs : is_sock i → 0 ≤ r → r + Z.of_nat n ≤ W5100_Sn_TX_RD → W5100_Sn_CR < r → (n ≤ length bs)%nat →
  keeps moves_nothing (w5100_write_sock_regx r n i bs).
Proof.
  intros Hi Hr Hn Hcr Hl. apply chip_moves_nothing. intros s Hok. apply (pp_write_regx 0); [done..|].
  intros h' _ Hd. by exists h'.
Qed.
Lemma mn_write_mode i v : is_sock i → keeps moves_nothing (w5100_write_sock_reg W5100_Sn_MR i v).
Proof.
  intros Hi. apply chip_moves_nothing. intros s Hok. unfold w5100_write_sock_reg, w5100_write_reg.
  eapply twp_Done; [by apply write_byte_run|]. eexists. split; [done|].
  pose proof (duplex_config i 0 W5100_Sn_MR 1 [v] (n_hw s) Hok Hi) as Hd. unfold W5100_Sn_MR, W5100_Sn_TX_RD in *.
  specialize (Hd ltac:(lia) ltac:(lia) ltac:(by left)).
  rewrite sock_reg_eq in * by (done || lia). unfold is_sock in Hi. rewrite addrs_plain_range in Hd by (unfold sreg; lia).
  simpl in Hd. by rewrite Z.add_0_r in Hd.
Qed.

(** An entry of the socket table has a number; a change keeps it or gives one. *)
Lemma mn_sock_at_bind {B} i (k : w5100_socket → M (nstate H X) B) :
  (∀ e, is_sock (s_isocket e) → keeps moves_nothing (k e)) → keeps moves_nothing (sock_at i ≫= k).
Proof.
  intros Hk [h l fl er x]. unfold sock_at, getc, gets, lift, mbind, M_bind, proj, nstate_socks. simpl.
  destruct (aget l i) as [e| |] eqn:He; [|done..]. apply aget_Some in He as [_ He].
  destruct (k e (NState h l fl er x)) as [[b s']| |] eqn:Ek; [|done..]. intros Hs.
  assert (Hi : is_sock (s_isocket e)) by (destruct Hs as [_ Hl]; exact (Forall_lookup_1 _ _ _ _ Hl He)).
  specialize (Hk e Hi (NState h l fl er x)). rewrite Ek in Hk. by apply Hk.
Qed.

Lemma mn_sock_update i g : (∀ e, is_sock (s_isocket e) → is_sock (s_isocket (g e))) →
  keeps moves_nothing (sock_update i g).
Proof.
  intros Hg. unfold sock_update. apply mn_sock_at_bind. intros e He [h l fl er x].
  unfold getc, gets, modifyc, modify, lift, mbind, M_bind, proj, nstate_socks. simpl.
  destruct (aset l i (g e)) as [l'| |] eqn:Hl; [|done..]. intros [Hok Hn]. split; [|by apply duplex_refl]. split; [done|].
  unfold aset in Hl. destruct (decide (0 ≤ i < Z.of_nat (length l))); [|done]. injection Hl as <-. apply Forall_insert; [done|by apply Hg].
Qed.

Lemma mn_isocket_bind {B} i (k : Z → M (nstate H X) B) :
  (is_sock i → keeps moves_nothing (k i)) → keeps moves_nothing (lift (deref (get_socket_from_isocket i)) ≫= k).
Proof.
  intros Hk s. unfold get_socket_from_isocket. case_decide as Hi; [done|].
  apply (Hk ltac:(unfold is_sock, W5100_N_SOCKETS in *; lia) s).
Qed.

#[local] Ltac mn_side := first [done | assumption | (intros; assumption) | (by case_decide; set_solver) | set_solver].
#[local] Ltac mn_step :=
  lazymatch goal with
  | |- keeps _ (sock_at _ ≫= _) => apply mn_sock_at_bind; intros ? ?
  | |- keeps _ (lift (deref (get_socket_from_isocket _)) ≫= _) => apply mn_isocket_bind; intros ?
  | |- keeps _ (sock_update _ _) => apply mn_sock_update; mn_side
  | |- keeps _ (w5100_command _ _ _) => apply mn_command; mn_side
  | |- keeps _ (wait_status _ _ _) => apply mn_wait
  | |- keeps _ (w5100_read_mem _ _) => apply mn_read_mem
  | |- keeps _ (w5100_read_reg _) => apply mn_read_reg
  | |- keeps _ (w5100_read_sock_reg _ _) => apply mn_read_reg
  | |- keeps _ (w5100_read_sock_regx _ _ _) => apply mn_read_mem
  | |- keeps _ (w5100_write_sock_regx _ _ _ _) => apply mn_write_regx; mn_side
  | |- keeps _ (w5100_write_sock_reg W5100_Sn_MR _ _) => apply mn_write_mode; mn_side
  | |- keeps _ (modifyc _) => apply keeps_var
  | |- keeps _ (set_errno _) => unfold set_errno
  | |- keeps _ (fail _) => unfold fail
  | |- keeps _ (fd_at _) => unfold fd_at
  | |- keeps _ (fd_update _ _) => unfold fd_update
  | |- keeps _ (fd_put _ _) => unfold fd_put
  | |- keeps _ (get_socket_from_fd _) => unfold get_socket_from_fd
  | _ => first [keeps_step | solve [eauto with keeps nocore]]
  end.
#[local] Ltac mn_solve := repeat mn_step.

Lemma mn_relisten s i : is_sock i → keeps moves_nothing (relisten fuel s i).
Proof. intros Hi. unfold relisten. mn_solve. Qed.
#[local] Hint Resolve mn_relisten : keeps.

Lemma mn_socket d ty p : keeps moves_nothing (socket d ty p).
Proof. unfold socket, socket_create, socket_alloc, socket_free, fill_fd_struct, file_alloc. mn_solve. Qed.
Lemma mn_check_bind s : keeps moves_nothing (check_bind_udp fuel s).
Proof. unfold check_bind_udp, bind_udp, get_avail_port. mn_solve. Qed.
#[local] Hint Resolve mn_check_bind : keeps.
Lemma mn_connect fd a : keeps moves_nothing (connect fuel fd a).
Proof. unfold connect, connect_tcp, connect_udp. mn_solve. Qed.
Lemma mn_bind fd a : keeps moves_nothing (bind fuel fd a).
Proof. unfold bind, bind_udp. mn_solve. Qed.
Lemma mn_listen fd b : keeps moves_nothing (listen fuel fd b).
Proof. unfold listen. mn_solve. Qed.
Lemma mn_accept fd a al : keeps moves_nothing (accept fuel fd a al).
Proof. unfold accept, accept_take, fill_fd_struct, file_alloc. mn_solve. Qed.
Lemma mn_poll fd : keeps moves_nothing (w5100_sock_poll fd).
Proof. unfold w5100_sock_poll, w5100_sock_poll_rw, read_buf_len, write_buf_len. mn_solve. Qed.
Lemma mn_setsockopt fd l o : keeps moves_nothing (setsockopt fd l o).
Proof. unfold setsockopt. mn_solve. Qed.
Lemma mn_getsockopt fd l o v : keeps moves_nothing (getsockopt fd l o v).
Proof. unfold getsockopt. mn_solve. Qed.
Lemma mn_getsockname pad fd a al : keeps moves_nothing (getsockname pad fd a al).
Proof. unfold getsockname, get_sockaddr_in. mn_solve. Qed.
Lemma mn_getpeername pad fd a al : keeps moves_nothing (getpeername pad fd a al).
Proof. unfold getpeername, get_sockaddr_in. mn_solve. Qed.
Lemma mn_close fd : keeps moves_nothing (w5100_sock_close fuel fd).
Proof. unfold w5100_sock_close, has_fd, close_fd, file_free, socket_free. mn_solve. Qed.
End still_calls.

(** ** The properties *)

Section streams.
Context {H X : Type} `{!SpiDevice H, !W5100 H, !W5100Bus H, !W5100Commands H, !W5100Transmit H, !W5100Receive H, !Clock X, !ClockTotal X, !ClockLaws X}.
Context (fuel : nat) (junk : timespec).

Lemma own_fd_sock (s : nstate H X) i fd : well_formed s → own_fd (n_files s) i fd → is_sock i.
Proof.
  intros [_ _ _ Hop _ _] (_ & f & Hf & _ & _ & _ & Hty & Ho & _).
  destruct (Hop _ f Hf Hty) as [?|(j & Hj & Ho')]; congruence.
Qed.

(** C8: a [send] on a connected stream socket that is non-blocking or has a
    timeout ([call_prompt]) returns; the count it returns is that of the bytes at the start of the buffer the chip has been told to send,
    after all that were sent before, each once and in order; nothing has moved
    in the other direction or on the other sockets. *)
Theorem send_stream n fd i e buf len (s : nstate H X) :
  responsive H n → (n ≤ fuel)%nat → (4 < fuel)%nat →
  well_formed s → call_ok (CSend fd buf len) s → call_prompt fuel (CSend fd buf len) s →
  own_fd (n_files s) i fd → n_socks s !! Z.to_nat i = Some e → connected e → sock_idle i (n_hw s) →
  Forall is_u8 buf → len < 2147483648 →
  ∃ r s', send fuel junk fd buf len s = Done (r, s') ∧ 0 ≤ r ≤ len ∧ well_formed s' ∧
    sends_bytes i (take (Z.to_nat r) buf) (n_hw s) (n_hw s').
Proof.
  intros Hresp Hn Hfuel Hinv Hok Hprompt Hown He Hconn Hidle Hbs Hmax.
  destruct Hok as (Hfd & Hdata & Hlen & Hu32). specialize (Hfd fd eq_refl).
  assert (Hrun : twp Total (send fuel junk fd buf len) s (λ _ s', inv (λ b, cell b (n_hw s)) s'))
    by (apply tp_send; [intros _; by exists n|done..]).
  pose proof (pp_send fuel junk fd i e buf len s Hinv Hown He Hconn Hidle Hbs Hlen Hmax) as Hsend.
  unfold twp in Hrun, Hsend. destruct (send fuel junk fd buf len s) as [[r s']| |]; [|done..].
  exists r, s'. split; [done|]. split; [apply Hsend|]. split; [by eapply inv_well_formed|apply Hsend].
Qed.

(** C9: a [recv] on a connected stream socket that is non-blocking or has a
    timeout ([call_prompt]) returns; it takes the next bytes of the stream from the chip, each once and in order, puts them at the start
    of the buffer and returns their number, which is positive and at most the
    length asked for; or it returns -1 and has taken nothing. Nothing moves in
    the other direction or on the other sockets. *)
Theorem recv_stream_next n fd i e buf len (s : nstate H X) :
  responsive H n → (n ≤ fuel)%nat → (4 < fuel)%nat →
  well_formed s → call_ok (CRecv fd buf len) s → call_prompt fuel (CRecv fd buf len) s →
  own_fd (n_files s) i fd → n_socks s !! Z.to_nat i = Some e → connected e → sock_idle i (n_hw s) →
  0 < len ≤ Z.of_nat (length buf) →
  ∃ r bs s', recv fuel junk fd buf len s = Done ((r, bs ++ drop (length bs) buf), s') ∧ well_formed s' ∧
    ((r = -1 ∧ bs = []) ∨ (r = Z.of_nat (length bs) ∧ 0 < r ≤ len)) ∧ duplex i [] bs (n_hw s) (n_hw s').
Proof.
  intros Hresp Hn Hfuel Hinv Hok Hprompt Hown He Hconn Hidle Hlen.
  destruct Hok as (Hfd & Hdata & Hfit). specialize (Hfd fd eq_refl).
  assert (Hrun : twp Total (recv fuel junk fd buf len) s (λ r s', inv (λ b, cell b (n_hw s)) s' ∧ recv_ok buf (r, None, None))).
  { apply tp_recv; [intros _; by exists n|done..|lia|done|done]. }
  pose proof (pp_recv fuel junk fd i e buf len s Hinv Hown He Hconn Hidle ltac:(lia)) as Hrecv.
  unfold twp in Hrun, Hrecv. destruct (recv fuel junk fd buf len s) as [[[r buf'] s']| |]; [|done..].
  destruct Hrecv as (bs & Hd & -> & Hr), Hrun as [Hinv' _]. exists r, bs, s'. split; [done|].
  split; [by eapply inv_well_formed|]. split; [|exact Hd].
  destruct Hr as [?|(? & ? & H0)]; [by left|right]. split; [done|]. destruct (decide (r = 0)) as [E|E]; [specialize (H0 E)|]; lia.
Qed.

(** The transfers keep the numbers of the sockets. *)
Definition same_numbers (s s' : nstate H X) : Prop := (s_isocket <$> n_socks s') = (s_isocket <$> n_socks s).
#[local] Instance same_numbers_order : PreOrder same_numbers.
Proof. split; [done|]. intros s1 s2 s3. unfold same_numbers. congruence. Qed.
#[local] Instance same_numbers_hw : KeepsVar H same_numbers.
Proof. by intros g s. Qed.
#[local] Instance same_numbers_files : KeepsVar ftable same_numbers.
Proof. by intros g s. Qed.
#[local] Instance same_numbers_errno : KeepsVar errno same_numbers.
Proof. by intros g s. Qed.
#[local] Instance same_numbers_clock : KeepsClock same_numbers.
Proof. intros id tp s. unfold clock_gettime, nstate_clock. by destruct (clock_gettime _ _ _) as [[]| |]. Qed.

Lemma same_numbers_sock i g : plain_change g → keeps same_numbers (sock_update i g).
Proof. intros Hg. apply sock_update_same. intros e. apply Hg. Qed.

Lemma same_numbers_numbered (s s' : nstate H X) :
  same_numbers s s' → Forall (λ e, is_sock (s_isocket e)) (n_socks s) → Forall (λ e, is_sock (s_isocket e)) (n_socks s').
Proof.
  assert (Hf : ∀ l, Forall (λ e, is_sock (s_isocket e)) l ↔ Forall is_sock (s_isocket <$> l)) by (intros; by rewrite Forall_fmap).
  intros Hs. rewrite !Hf. by rewrite Hs.
Qed.

(** ** A program's sends and receives *)

Inductive event :=
| Sent (i : Z) (bs : list Z)
| Received (i : Z) (bs : list Z)
| Other.

Definition transfers (c : call) : bool :=
  match c with CSend _ _ _ | CSendto _ _ _ _ | CRecv _ _ _ | CRecvfrom _ _ _ _ _ => true | _ => false end.

(** A call of the program, with the data it has moved. *)
Inductive stream_step (s s' : nstate H X) : event → Prop :=
| step_send fd i e buf len r :
    call_ok (CSend fd buf len) s → own_fd (n_files s) i fd → n_socks s !! Z.to_nat i = Some e → connected e →
    Forall is_u8 buf → len < 2147483648 → send fuel junk fd buf len s = Done (r, s') →
    stream_step s s' (Sent i (take (Z.to_nat r) buf))
| step_recv fd i e buf len r buf' :
    call_ok (CRecv fd buf len) s → own_fd (n_files s) i fd → n_socks s !! Z.to_nat i = Some e → connected e →
    0 ≤ len ≤ Z.of_nat (length buf) → recv fuel junk fd buf len s = Done ((r, buf'), s') →
    stream_step s s' (Received i (take (Z.to_nat r) buf'))
| step_other c : transfers c = false → call_ok c s → run_call fuel junk c s = Done (tt, s') → stream_step s s' Other.

Fixpoint stream_steps (s : nstate H X) (evs : list event) (s' : nstate H X) : Prop :=
  match evs with
  | [] => s' = s
  | ev :: evs => ∃ s1, stream_step s s1 ev ∧ stream_steps s1 evs s'
  end.

(** The bytes sent and received on the socket [i], in the order of the calls. *)
Definition sent_on (i : Z) (ev : event) : list Z :=
  match ev with Sent j bs => if decide (j = i) then bs else [] | _ => [] end.
Definition received_on (i : Z) (ev : event) : list Z :=
  match ev with Received j bs => if decide (j = i) then bs else [] | _ => [] end.

(** What the chip has been told to send on a socket, as one stream. *)
Definition bytes_sent (i : Z) (h : H) : list Z := tx_sent (tx_of i h) ≫= pk_data.

Definition all_idle (s : nstate H X) : Prop := ∀ i, is_sock i → sock_idle i (n_hw s).

Definition streamed (s s' : nstate H X) (evs : list event) : Prop :=
  ∀ i, is_sock i →
    bytes_sent i (n_hw s') = bytes_sent i (n_hw s) ++ (evs ≫= sent_on i) ∧
    rx_taken (rx_of i (n_hw s')) = rx_taken (rx_of i (n_hw s)) ++ (evs ≫= received_on i).

Lemma duplex_streamed i o n (s s' : nstate H X) :
  duplex i o n (n_hw s) (n_hw s') → all_idle s → all_idle s' ∧ ∀ j, is_sock j →
    bytes_sent j (n_hw s') = bytes_sent j (n_hw s) ++ (if decide (i = j) then o ≫= pk_data else []) ∧
    rx_taken (rx_of j (n_hw s')) = rx_taken (rx_of j (n_hw s)) ++ (if decide (i = j) then n else []).
Proof.
  intros Hd Hidle. split; [intros j Hj; eapply duplex_idle; [exact Hd|done|by apply Hidle]|].
  intros j Hj. destruct Hd as [[_ T] [_ R]]. destruct (T j Hj) as [Et _], (R j Hj) as [Er _]. unfold bytes_sent, tx_log, rx_log in *. rewrite Et, Er, bind_app. clear Et Er.
  destruct (decide (j = i)) as [->|Hne]; [by rewrite !decide_True|by rewrite !decide_False].
Qed.

Lemma other_nothing c : transfers c = false → keeps moves_nothing (run_call fuel junk c).
Proof.
  assert (Hf : ∀ A (m : M (nstate H X) A), keeps moves_nothing m → keeps moves_nothing (_ ← m; mret tt)).
  { intros A m Hm. apply keeps_bind; [apply _|exact Hm|intros _; apply keeps_ret, _]. }
  intros Hc. destruct c; try done; apply Hf; [apply mn_socket|apply mn_connect|apply mn_bind|apply mn_listen|
    apply mn_accept|apply mn_poll|apply mn_setsockopt|apply mn_getsockopt|apply mn_getsockname|apply mn_getpeername|apply mn_close].
Qed.

(** One step: the invariants, and the data of the event. *)
Lemma stream_step_ok s s' ev :
  well_formed s → numbered s → all_idle s → stream_step s s' ev →
  well_formed s' ∧ numbered s' ∧ all_idle s' ∧ streamed s s' [ev].
Proof.
  intros Hinv Hnum Hidle Hstep.
  assert (Hwf : ∀ c, call_ok c s → run_call fuel junk c s = Done (tt, s') → well_formed s').
  { intros c Hc Hrun. pose proof (tp_run_call (λ b, cell b (n_hw s)) fuel junk Partial c s) as Ht.
    unfold twp in Ht. rewrite Hrun in Ht. by eapply inv_well_formed, Ht. }
  assert (Hnums : ∀ c, keeps same_numbers (run_call fuel junk c) → run_call fuel junk c s = Done (tt, s') →
    Forall (λ e, is_sock (s_isocket e)) (n_socks s')).
  { intros c Hc Hrun. specialize (Hc s). rewrite Hrun in Hc. eapply same_numbers_numbered, Hnum. exact Hc. }
  assert (Hend : ∀ i o n, duplex i o n (n_hw s) (n_hw s') → well_formed s' → Forall (λ e, is_sock (s_isocket e)) (n_socks s') →
    (∀ j, [ev] ≫= sent_on j = if decide (i = j) then o ≫= pk_data else []) →
    (∀ j, [ev] ≫= received_on j = if decide (i = j) then n else []) →
    well_formed s' ∧ numbered s' ∧ all_idle s' ∧ streamed s s' [ev]).
  { intros i o n Hd Hwf' Hn' Ho Hi. destruct (duplex_streamed i o n s s' Hd Hidle) as [Hid Hst].
    split; [done|]. split; [split; [by eapply duplex_ok|done]|]. split; [done|]. intros j Hj. rewrite Ho, Hi. by apply Hst. }
  destruct Hstep as [fd i e buf len r Hok Hown He Hconn Hbs Hmax Hrun|fd i e buf len r buf' Hok Hown He Hconn Hlen Hrun|c Hc Hok Hrun].
  - pose proof (own_fd_sock s i fd Hinv Hown) as Hi.
    pose proof (pp_send fuel junk fd i e buf len s Hinv Hown He Hconn (Hidle i Hi) Hbs) as Hsend.
    destruct Hok as (Hf & Hd & Hlen & Hu). specialize (Hsend Hlen Hmax). unfold twp in Hsend. rewrite Hrun in Hsend.
    destruct Hsend as (_ & pks & Hpk & Hd').
    assert (Hcall : run_call fuel junk (CSend fd buf len) s = Done (tt, s')) by (simpl; unfold mbind, M_bind; by rewrite Hrun).
    eapply Hend; [exact Hd'|by eapply Hwf|eapply Hnums; [|exact Hcall]|intros j; simpl; by rewrite Hpk, app_nil_r|intros j; by case_decide].
    apply keeps_bind; [apply _|apply keeps_send; [apply _..|exact same_numbers_sock]|intros _; apply keeps_ret, _].
  - pose proof (own_fd_sock s i fd Hinv Hown) as Hi.
    pose proof (pp_recv fuel junk fd i e buf len s Hinv Hown He Hconn (Hidle i Hi) Hlen) as Hrecv.
    unfold twp in Hrecv. rewrite Hrun in Hrecv. destruct Hrecv as (bs & Hd & -> & Hr).
    assert (Hcall : run_call fuel junk (CRecv fd buf len) s = Done (tt, s')) by (simpl; unfold mbind, M_bind; by rewrite Hrun).
    assert (Hbs : take (Z.to_nat r) (bs ++ drop (length bs) buf) = bs).
    { destruct Hr as [[-> ->]|[-> _]]; [done|]. by rewrite Nat2Z.id, take_app_length. }
    rewrite Hbs in *.
    eapply Hend; [exact Hd|by eapply Hwf|eapply Hnums; [|exact Hcall]|intros j; by case_decide|intros j; simpl; by rewrite app_nil_r].
    apply keeps_bind; [apply _| |intros _; apply keeps_ret, _]. unfold recv.
    apply keeps_bind; [apply _|apply keeps_recvfrom; [apply _..|exact same_numbers_sock]|intros [[[? ?] ?] ?]; apply keeps_ret, _].
  - pose proof (other_nothing c Hc s) as Hn. rewrite Hrun in Hn. destruct (Hn Hnum) as [[_ Hn'] Hd].
    eapply Hend; [exact Hd|by eapply Hwf|exact Hn'|intros j; by case_decide|intros j; by case_decide].
Qed.

(** C10: in any sequence of socket calls that transfers data by [send] and [recv]
    on connections, the bytes that the chip has been told to send on a socket are
    those of its sends, as many as each has counted, in the order of the calls;
    the bytes taken from it are those its receives have returned; and no other
    call, on this or another socket, moves any data. Between the calls no byte
    is left half transferred. *)
Theorem streams (s s' : nstate H X) evs :
  well_formed s → numbered s → all_idle s → stream_steps s evs s' →
  well_formed s' ∧ numbered s' ∧ all_idle s' ∧ streamed s s' evs.
Proof.
  revert s. induction evs as [|ev evs IH]; intros s Hinv Hnum Hidle Hsteps; simpl in Hsteps.
  - subst s'. split; [done|]. split; [done|]. split; [done|]. intros i Hi. simpl. by rewrite !app_nil_r.
  - destruct Hsteps as (s1 & Hstep & Hsteps). destruct (stream_step_ok s s1 ev Hinv Hnum Hidle Hstep) as (Hi1 & Hn1 & Hd1 & Hst1).
    destruct (IH s1 Hi1 Hn1 Hd1 Hsteps) as (? & ? & ? & Hst). do 3 (split; [done|]). intros i Hi.
    destruct (Hst1 i Hi) as [T1 R1], (Hst i Hi) as [T R]. simpl in *. rewrite app_nil_r in *.
    by rewrite T, R, T1, R1, <- !app_assoc.
Qed.
End streams.

(** ** Witnesses *)

(** The connection of [accepted], with a send timeout of two microseconds. *)
Definition send_timeout : call := CSetsockopt 4 SOL_SOCKET (inl (SO_SNDTIMEO (Timeval 0 2))).
Definition talking : nstate sim clock_dummy := after send_timeout accepted.
Definition send_two : call := CSend 4 [65; 66] 2.

Lemma talking_well_formed : well_formed talking.
Proof.
  unfold talking, accepted. do 2 (apply after_well_formed; [|split; [intros ? [= <-]; lia|done]]).
  apply peer_connects_well_formed, serving_well_formed.
Qed.

Lemma talking_socket e : fd_socket talking 4 = Some e → s_fd_data e = Some 3 ∧ s_send_timeout e = Timespec 0 2000.
Proof.
  intros He. assert (Hs : (λ e, (s_fd_data e, s_send_timeout e)) <$> fd_socket talking 4 =
    Some (Some 3, Timespec 0 2000)) by (by vm_compute).
  rewrite He in Hs. clear He. simpl in Hs. injection Hs as -> ->. done.
Qed.

Lemma send_two_ok : call_ok send_two talking.
Proof.
  split; [intros ? [= <-]; lia|]. split; [|done]. intros e [Hd _]%talking_socket. by rewrite Hd.
Qed.

Lemma send_two_prompt : call_prompt 5 send_two talking.
Proof.
  right. intros e [_ ->]%talking_socket.
  assert (Hn : n_rest talking = boot_clock) by (by vm_compute). rewrite Hn. clear Hn.
  split_and!; [done|done|by vm_compute|done|done|vm_compute; lia].
Qed.

Lemma talking_connected : ∃ e, n_socks talking !! 0%nat = Some e ∧ connected e.
Proof. eexists. split; [by vm_compute|]. split; [done|by left]. Qed.

Lemma talking_fd : own_fd (n_files talking) 0 4.
Proof. split; [done|]. eexists. split; [by vm_compute|done]. Qed.

Lemma talking_idle : sock_idle 0 (n_hw talking).
Proof. split; vm_compute; reflexivity. Qed.

Lemma send_stream_witness :
  ∃ r s', send 5 zero_time 4 [65; 66] 2 talking = Done (r, s') ∧ 0 ≤ r ≤ 2 ∧ well_formed s' ∧
    sends_bytes 0 (take (Z.to_nat r) [65; 66]) (n_hw talking) (n_hw s').
Proof.
  destruct talking_connected as (e & He & Hc).
  assert (Hbs : Forall is_u8 [65; 66]) by (by repeat constructor).
  exact (send_stream 5 zero_time 1 4 0 e [65; 66] 2 talking sim_responsive ltac:(lia) ltac:(lia) talking_well_formed
    send_two_ok send_two_prompt talking_fd He Hc talking_idle Hbs ltac:(lia)).
Defined.

Example send_two_sends :
  bytes_sent 0 (n_hw (after send_two (after send_two talking))) = [65; 66; 65; 66].
Proof. vm_compute. reflexivity. Qed.

(** Three bytes arrive on the connection of socket 0. *)
Definition three_arrive (s : nstate sim clock_dummy) : nstate sim clock_dummy :=
  let c := n_hw s in let b := get_rx_base 0 in
  NState (Sim (sim_phase c) (<[b := 72]> (<[b + 1 := 73]> (<[b + 2 := 74]> (sim_mem c)))) (sim_cmd c)
      (<[0 := SimQ [] 0 [] 0 3]> (sim_q c)))
    (n_socks s) (n_files s) (n_errno s) (n_rest s).
Definition hearing : nstate sim clock_dummy := three_arrive silent_peer.
Definition receive_two : call := CRecv 4 [0; 0] 2.

Lemma three_arrive_calm s : chip_ok (n_hw s) → calm (n_hw s) (n_hw (three_arrive s)).
Proof.
  intros [Hp Hm]. split.
  - split; [exact Hp|]. unfold three_arrive, n_hw, sim_mem. do 3 (apply insert_u8; [done|]). exact Hm.
  - intros b Hb. unfold kept in Hb. apply bool_decide_eq_true in Hb. simpl. change (get_rx_base 0) with 24576.
    by rewrite !fn_lookup_insert_ne by lia.
Qed.

Lemma three_arrive_well_formed s : well_formed s → well_formed (three_arrive s).
Proof.
  intros Hinv. apply (inv_well_formed (λ b, cell b (n_hw s))). eapply table_inv_calm; [|exact Hinv].
  apply three_arrive_calm, Hinv.
Qed.

Lemma hearing_well_formed : well_formed hearing.
Proof. apply three_arrive_well_formed, silent_peer_well_formed. Qed.

Lemma hearing_socket e : fd_socket hearing 4 = Some e → s_type e = SOCK_STREAM ∧ s_fd_data e = Some 3 ∧ s_recv_timeout e = Timespec 0 2000.
Proof. exact (silent_peer_socket e). Qed.

Lemma receive_two_ok : call_ok receive_two hearing.
Proof.
  split; [intros ? [= <-]; lia|]. split; [|split; [lia|]]; intros e (Hty & Hd & _)%hearing_socket.
  - by rewrite Hd.
  - split; [simpl; lia|by rewrite Hty].
Qed.

Lemma receive_two_prompt : call_prompt 5 receive_two hearing.
Proof.
  right. intros e (_ & _ & ->)%hearing_socket.
  assert (Hn : n_rest hearing = boot_clock) by (by vm_compute). rewrite Hn. clear Hn.
  split_and!; [done|done|by vm_compute|done|done|vm_compute; lia].
Qed.

Lemma hearing_connected : ∃ e, n_socks hearing !! 0%nat = Some e ∧ connected e.
Proof. eexists. split; [by vm_compute|]. split; [done|by left]. Qed.

Lemma hearing_fd : own_fd (n_files hearing) 0 4.
Proof. split; [done|]. eexists. split; [by vm_compute|done]. Qed.

Lemma hearing_idle : all_idle hearing.
Proof. intros i Hi. destruct (sock_cases i Hi) as [->|[->|[->| ->]]]; split; vm_compute; reflexivity. Qed.

Lemma recv_stream_next_witness :
  ∃ r bs s', recv 5 zero_time 4 [0; 0] 2 hearing = Done ((r, bs ++ drop (length bs) [0; 0]), s') ∧ well_formed s' ∧
    ((r = -1 ∧ bs = []) ∨ (r = Z.of_nat (length bs) ∧ 0 < r ≤ 2)) ∧ duplex 0 [] bs (n_hw hearing) (n_hw s').
Proof.
  destruct hearing_connected as (e & He & Hc).
  exact (recv_stream_next 5 zero_time 1 4 0 e [0; 0] 2 hearing sim_responsive ltac:(lia) ltac:(lia) hearing_well_formed
    receive_two_ok receive_two_prompt hearing_fd He Hc (hearing_idle 0 sock_0) ltac:(simpl; lia)).
Defined.

(** Two calls take the three bytes. *)
Example receive_twice :
  result (recv 5 zero_time 4 [0; 0] 2) hearing = Some (2, [72; 73]) ∧
  result (recv 5 zero_time 4 [0; 0] 2) (after receive_two hearing) = Some (1, [74; 0]).
Proof. vm_compute. done. Qed.

(** Two bytes are received, two are answered, then the socket is polled. *)
Definition received_two : nstate sim clock_dummy := after receive_two hearing.
Definition answered : nstate sim clock_dummy := after send_two received_two.
Definition poll_it : call := CPoll 4.
Definition polled : nstate sim clock_dummy := after poll_it answered.

Lemma hearing_numbered : numbered hearing.
Proof. split; [apply hearing_well_formed|]. vm_compute. repeat constructor; done. Qed.

Lemma ran_send fd buf len s r :
  result (send 5 zero_time fd buf len) s = Some r → send 5 zero_time fd buf len s = Done (r, after (CSend fd buf len) s).
Proof.
  unfold result, after, final, run_call, mbind, M_bind. destruct (send 5 zero_time fd buf len s) as [[]| |]; [|done..].
  by intros [= ->].
Qed.
Lemma ran_recv fd buf len s r :
  result (recv 5 zero_time fd buf len) s = Some r → recv 5 zero_time fd buf len s = Done (r, after (CRecv fd buf len) s).
Proof.
  unfold result, after, final, run_call, mbind, M_bind. destruct (recv 5 zero_time fd buf len s) as [[]| |]; [|done..].
  by intros [= ->].
Qed.
Lemma ran_poll fd s r :
  result (w5100_sock_poll fd) s = Some r → run_call 5 zero_time (CPoll fd) s = Done (tt, after (CPoll fd) s).
Proof.
  unfold result, after, final, run_call, mbind, M_bind. destruct (w5100_sock_poll fd s) as [[]| |]; [|done..]. done.
Qed.

Lemma received_two_socket : ∃ e, n_socks received_two !! 0%nat = Some e ∧ connected e.
Proof. eexists. split; [by vm_compute|]. split; [done|by left]. Qed.
Lemma received_two_fd : own_fd (n_files received_two) 0 4.
Proof. split; [done|]. eexists. split; [by vm_compute|done]. Qed.

Lemma answer_ok : call_ok send_two received_two.
Proof.
  split; [intros ? [= <-]; lia|]. split; [|done]. intros e He.
  assert (Hs : s_fd_data <$> fd_socket received_two 4 = Some (Some 3)) by (by vm_compute).
  rewrite He in Hs. simpl in Hs. injection Hs as ->. done.
Qed.

Definition exchange : list event := [Received 0 [72; 73]; Sent 0 [65; 66]; Other].

Lemma exchange_steps : stream_steps 5 zero_time hearing exchange polled.
Proof.
  exists received_two. split.
  { destruct hearing_connected as (e & He & Hc).
    refine (step_recv _ _ _ _ 4 0 e [0; 0] 2 2 [72; 73] receive_two_ok hearing_fd He Hc _ (ran_recv 4 [0; 0] 2 hearing _ _)).
    - simpl. lia.
    - by vm_compute. }
  exists answered. split.
  { destruct received_two_socket as (e & He & Hc). assert (Hbs : Forall is_u8 [65; 66]) by (by repeat constructor).
    refine (step_send _ _ _ _ 4 0 e [65; 66] 2 2 answer_ok received_two_fd He Hc Hbs _ (ran_send 4 [65; 66] 2 received_two _ _)).
    - lia.
    - by vm_compute. }
  exists polled. split; [|reflexivity].
  refine (step_other _ _ _ _ poll_it eq_refl _ (ran_poll 4 answered 19 _)).
  - split; [intros ? [= <-]; lia|done].
  - by vm_compute.
Qed.

Lemma streams_witness :
  well_formed polled ∧ numbered polled ∧ all_idle polled ∧ streamed hearing polled exchange.
Proof. exact (streams 5 zero_time hearing polled exchange hearing_well_formed hearing_numbered hearing_idle exchange_steps). Defined.

Example exchange_data :
  exchange ≫= sent_on 0 = [65; 66] ∧ exchange ≫= received_on 0 = [72; 73] ∧
  bytes_sent 0 (n_hw polled) = [65; 66] ∧ rx_taken (rx_of 0 (n_hw polled)) = [72; 73].
Proof. vm_compute. done. Qed.
