(* ===== verification/W5100Datagrams.v ===== *)
(** * Datagrams: [sendto] and [recvfrom] of [src/w5100_socket.c] on UDP sockets

    The chip keeps the datagrams that arrive one behind the other, each with a
    header that names its sender, and sends each SEND of a UDP socket as one
    datagram to the address in its registers ([W5100Udp], [W5100Datagrams]). From
    this a [recvfrom] yields exactly the next datagram, and a [sendto] hands over
    one datagram for the destination it is given, or none. *)

From stdpp Require Import prelude list numbers functions relations.
From S2P Require Import Prelude Timespec Clock ClockDummy Inet Files Poll Sockets Opencm3 W5100Spi W5100Socket W5100Chip W5100Ring W5100Stream W5100Ledger W5100Sent W5100Received W5100Table W5100Data W5100Calls W5100Net W5100Streams.

(** A datagram in the receive queue; address and port are as in a
    [sockaddr_in], in network order. *)
Record dgram := Dgram { dg_ip : Z; dg_port : Z; dg_data : list Z }.

Definition dgram_ok (d : dgram) : Prop :=
  is_u32 (dg_ip d) ∧ is_u16 (dg_port d) ∧ is_u16 (Z.of_nat (length (dg_data d))).

Definition dg_header (d : dgram) : list Z :=
  le_bytes 4 (dg_ip d) ++ le_bytes 2 (dg_port d) ++ le_bytes 2 (htons (Z.of_nat (length (dg_data d)))).
Definition frame (d : dgram) : list Z := dg_header d ++ dg_data d.

(** The bytes of a destination in the registers of a socket. *)
Definition dest_bytes (peer : sockaddr_in) : list Z := le_bytes 4 (sin_addr peer) ++ le_bytes 2 (sin_port peer).

(** The registers of a socket up to those of the destination; those of its mode,
    command and status. *)
Definition peer_reg (a i : Z) : Prop := sreg W5100_Sn_MR i ≤ a < sreg W5100_Sn_DPORT i + 2.
Definition mode_reg (a i : Z) : Prop := sreg W5100_Sn_MR i ≤ a ≤ sreg W5100_Sn_SR i.

(** What the chip promises of a socket that is open for datagrams ([udp]): its
    status shows it, and the destination is what the driver writes. *)
Class W5100Udp (H : Type) `{!W5100 H, !W5100Transmit H} := {
  udp : Z → H → Prop;
  udp_status i h : chip_ok h → is_sock i → (chip_load (sreg W5100_Sn_SR i) h).1 = W5100_SOCK_UDP →
    udp i (chip_load (sreg W5100_Sn_SR i) h).2;
  udp_load a i h : chip_ok h → is_sock i → udp i h →
    udp i (chip_load a h).2 ∧ tx_dest i (chip_load a h).2 = tx_dest i h;
  udp_store a v i h : chip_ok h → is_sock i → a ≠ W5100_MR → ¬ mode_reg a i → udp i h → udp i (chip_store a v h);
  udp_send i h : chip_ok h → is_sock i → udp i h → udp i (chip_store (sreg W5100_Sn_CR i) W5100_CMD_SEND h);
  udp_dest a v i h : chip_ok h → is_sock i → a ≠ W5100_MR → ¬ peer_reg a i → udp i h →
    tx_dest i (chip_store a v h) = tx_dest i h;
  udp_peer bs i h : chip_ok h → is_sock i → length bs = 6%nat → Forall is_u8 bs → udp i h →
    tx_dest i (stores (zip ((λ k : nat, sreg W5100_Sn_DIPR i + Z.of_nat k) <$> seq 0 6) bs) h) = bs;
}.

(** The receive queue of the socket [i], open for datagrams, holds [ds]. *)
Definition waiting `{!W5100 H, !W5100Transmit H, !W5100Udp H, !W5100Receive H} (i : Z) (ds : list dgram) (h : H) : Prop :=
  udp i h ∧ rx_queue (rx_of i h) = ds ≫= frame ∧ Forall dgram_ok ds.

(** A socket that the chip has opened for datagrams holds whole ones; they arrive
    whole, and a RECV up to the end of the first leaves the others. *)
Class W5100Datagrams (H : Type) `{!W5100 H, !W5100Transmit H, !W5100Udp H, !W5100Receive H} : Prop := {
  dg_open i h h' : chip_ok h → is_sock i → cell (sreg W5100_Sn_MR i) h = W5100_SOCK_MODE_UDP →
    still (chip_store (sreg W5100_Sn_CR i) W5100_CMD_OPEN h) h' → udp i h' → ∃ ds, waiting i ds h';
  dg_load a i ds h : chip_ok h → is_sock i → waiting i ds h →
    ∃ ds', ds `prefix_of` ds' ∧ waiting i ds' (chip_load a h).2;
  dg_store a v i ds h : chip_ok h → is_sock i → a ≠ W5100_MR → a < W5100_RX_MEM_BASE → ¬ rx_reg a i → ¬ mode_reg a i →
    waiting i ds h → ∃ ds', ds `prefix_of` ds' ∧ waiting i ds' (chip_store a v h);
  dg_send i ds h : chip_ok h → is_sock i → waiting i ds h →
    ∃ ds', ds `prefix_of` ds' ∧ waiting i ds' (chip_store (sreg W5100_Sn_CR i) W5100_CMD_SEND h);
  dg_recv d ds i h : chip_ok h → is_sock i → waiting i (d :: ds) h → rx_start (rx_of i h) = rx_ptr (rx_of i h) →
    ∃ ds', ds `prefix_of` ds' ∧
      waiting i ds' (advance W5100_Sn_RX_RD (u16 (rx_ptr (rx_of i h) + Z.of_nat (length (frame d)))) W5100_CMD_RECV i h);
}.

Lemma dg_header_length d : length (dg_header d) = 8%nat.
Proof. done. Qed.

(** The header reads back. *)
Lemma dg_header_reads d : dgram_ok d →
  le_val (take 4 (drop 0 (dg_header d))) = dg_ip d ∧ le_val (take 2 (drop 4 (dg_header d))) = dg_port d ∧
  ntohs (le_val (take 2 (drop 6 (dg_header d)))) = Z.of_nat (length (dg_data d)).
Proof.
  intros (Hip & Hport & Hlen). unfold is_u32, is_u16 in *.
  change (take 4 (drop 0 (dg_header d))) with (le_bytes 4 (dg_ip d)).
  change (take 2 (drop 4 (dg_header d))) with (le_bytes 2 (dg_port d)).
  change (take 2 (drop 6 (dg_header d))) with (le_bytes 2 (htons (Z.of_nat (length (dg_data d))))).
  pose proof (bswap16_range (Z.of_nat (length (dg_data d)))) as Hr. unfold htons, is_u16 in *.
  rewrite !le_val_bytes, !Z.mod_small by lia. split; [done|]. split; [done|]. by apply bswap16_involutive.
Qed.

Section waiting.
Context {H : Type} `{!W5100 H, !W5100Commands H, !W5100Transmit H, !W5100Udp H, !W5100Receive H, !W5100Datagrams H}.

Lemma waiting_still i ds h h' : is_sock i → still h h' → waiting i ds h → ∃ ds', ds `prefix_of` ds' ∧ waiting i ds' h'.
Proof.
  intros Hi (_ & Hok & l & ->). revert ds h Hok. induction l as [|a l IH]; intros ds h Hok Hw; [by exists ds|].
  destruct (dg_load a i ds h Hok Hi Hw) as (d1 & Hp1 & Hw1). destruct (IH d1 _ (load_ok a h Hok) Hw1) as (d2 & Hp2 & Hw2).
  exists d2. split; [by etrans|]. simpl. destruct (chip_load a h) as [v h1]. simpl in *. by destruct (loads l h1).
Qed.

Lemma udp_still i h h' : is_sock i → still h h' → udp i h → udp i h' ∧ tx_dest i h' = tx_dest i h.
Proof.
  intros Hi (_ & Hok & l & ->). revert h Hok. induction l as [|a l IH]; intros h Hok Hu; [done|].
  destruct (udp_load a i h Hok Hi Hu) as [Hu1 Hd1]. specialize (IH _ (load_ok a h Hok) Hu1). simpl.
  destruct (chip_load a h) as [v h1]. simpl in *. rewrite <- Hd1. by destruct (loads l h1).
Qed.

(** The queue is longer than a header: it begins with a datagram. *)
Lemma waiting_first i ds h : waiting i ds h → (8 ≤ length (rx_queue (rx_of i h)))%nat →
  ∃ d ds', ds = d :: ds' ∧ dgram_ok d ∧ rx_queue (rx_of i h) = dg_header d ++ dg_data d ++ (ds' ≫= frame).
Proof.
  intros (_ & Hq & Hok) Hlen. destruct ds as [|d ds']; [rewrite Hq in Hlen; simpl in Hlen; lia|].
  exists d, ds'. apply Forall_cons in Hok as [Hd _]. split; [done|]. split; [done|].
  rewrite Hq. change ((d :: ds') ≫= frame) with (frame d ++ (ds' ≫= frame)). unfold frame. by rewrite <- app_assoc.
Qed.

(** More may have arrived behind a datagram that is there. *)
Lemma waiting_more (d : dgram) ds ds' : d :: ds `prefix_of` ds' → ∃ ds'', ds' = d :: ds'' ∧ ds `prefix_of` ds''.
Proof. intros [k ->]. exists (ds ++ k). split; [done|by exists k]. Qed.

Lemma arrives_still i h h' : is_sock i → still h h' → arrives (rx_of i h) (rx_of i h').
Proof. intros Hi (_ & Hok & l & ->). by apply loads_arrive. Qed.

(** A ring from a pointer [j] elements on. *)
Lemma ring_addrs_at base p j n : 0 ≤ p →
  ring_addrs base (u16 (p + Z.of_nat j)) n = (λ k : nat, base + (p + Z.of_nat k) mod 2048) <$> seq j n.
Proof.
  intros Hp. unfold ring_addrs. replace (seq j n) with (Nat.add j <$> seq 0 n) by (by rewrite fmap_add_seq, Nat.add_0_r).
  rewrite <- list_fmap_compose.
  apply list_fmap_ext. intros k a _. simpl. unfold u16. zlia.
Qed.
(** Reading the ring from [j] elements behind the start yields that part of the queue. *)
Lemma loads_queue i p j n h : chip_ok h → is_sock i → 0 ≤ p → p = rx_start (rx_of i h) →
  (j + n ≤ length (rx_queue (rx_of i h)))%nat →
  (loads (ring_addrs (get_rx_base i) (u16 (p + Z.of_nat j)) n) h).1 = take n (drop j (rx_queue (rx_of i h))).
Proof. intros Hok Hi Hp -> Hn. rewrite ring_addrs_at by done. by apply loads_ring. Qed.

(** The datagram that has been read is taken. *)
Lemma recv_first i d ds p h : chip_ok h → is_sock i → sock_idle i h → waiting i (d :: ds) h →
  is_u16 p → p = rx_start (rx_of i h) →
  let h' := advance W5100_Sn_RX_RD (u16 (u16 (p + 8) + Z.of_nat (length (dg_data d)))) W5100_CMD_RECV i h in
  duplex i [] (frame d) h h' ∧ ∃ ds', ds `prefix_of` ds' ∧ waiting i ds' h'.
Proof.
  intros Hok Hi [_ Hidle] Hw Hp Hstart h'. unfold is_u16 in Hp.
  assert (Hlen : length (frame d) = (8 + length (dg_data d))%nat) by (unfold frame; by rewrite length_app).
  assert (Hpe : u16 (u16 (p + 8) + Z.of_nat (length (dg_data d))) = u16 (rx_ptr (rx_of i h) + Z.of_nat (length (frame d)))).
  { rewrite <- Hidle, <- Hstart, Hlen. unfold u16. zlia. }
  unfold h'. rewrite Hpe. split; [|by apply dg_recv].
  split; [by apply recv_sends_nothing|]. destruct Hw as (_ & Hq & _).
  change ((d :: ds) ≫= frame) with (frame d ++ (ds ≫= frame)) in Hq.
  pose proof (advance_takes i (Z.of_nat (length (frame d))) h Hok Hi Hidle) as Ht.
  rewrite Nat2Z.id, Hq, take_app_length, length_app in Ht. apply Ht. lia.
Qed.
End waiting.

(** ** Receiving *)

Section receiving.
Context {H X : Type} `{!SpiDevice H, !W5100 H, !W5100Bus H, !W5100Commands H, !W5100Transmit H, !W5100Udp H, !W5100Receive H, !W5100Datagrams H, !Clock X, !ClockTotal X, !ClockLaws X}.
Context (t : reading) (fuel : nat) (junk : timespec) (Hready : ready (H:=H) t fuel) (Hfuel : t = Total → (4 < fuel)%nat).

(** What a receive of the datagram [d] leaves. *)
Definition dgram_result (d : dgram) (buf : list Z) (address : option sockaddr_in) (address_len : option Z) : recv_result :=
  let '(a, al) := match address, address_len with
    | Some peer, Some _ => (Some (SockaddrIn (sin_family peer) (dg_port d) (dg_ip d)), Some 12)
    | _, _ => (address, address_len)
    end in
  (Z.of_nat (length (dg_data d)), dg_data d ++ drop (length (dg_data d)) buf, a, al).

(** The header of the first datagram is read. *)
Lemma tp_dg_header {B} i ds h l fl er x (k : list Z * Z → M (nstate H X) B) (Q : B → nstate H X → Prop) :
  chip_ok h → is_sock i → sock_idle i h → waiting i ds h → (8 ≤ length (rx_queue (rx_of i h)))%nat →
  (∀ d ds' p h', still h h' → ds `prefix_of` d :: ds' → waiting i (d :: ds') h' → dgram_ok d →
     is_u16 p → p = rx_start (rx_of i h') → twp t (k (dg_header d, u16 (p + 8))) (NState h' l fl er x) Q) →
  twp t (pread ← read_buf_pstart i; r ← read_buf_sure i (replicate 8 0) 8 pread; k r) (NState h l fl er x) Q.
Proof.
  intros Hok Hi Hidle Hw Hlen HQ.
  pose proof (rx_read i h Hok Hi) as Hp. pose proof (reg16_still W5100_Sn_RX_RD i h Hok) as Hs1.
  pose proof (reg16_range W5100_Sn_RX_RD i h Hok) as Hpr.
  twp_step. eapply twp_Done; [by apply read_pair|]. change (proj (NState h l fl er x)) with h.
  destruct (reg16 W5100_Sn_RX_RD i h) as [p h1]. cbn [fst snd] in *.
  destruct (waiting_still i ds h h1 Hi Hs1 Hw) as (ds1 & Hp1 & Hw1).
  destruct (arrives_still i h h1 Hi Hs1) as [m1 Hq1].
  assert (Hstart : p = rx_start (rx_of i h1)) by (rewrite Hq1, Hp; symmetry; apply Hidle).
  assert (Hlen1 : (8 ≤ length (rx_queue (rx_of i h1)))%nat) by (rewrite Hq1; simpl; rewrite length_app; lia).
  destruct (waiting_first i ds1 h1 Hw1 Hlen1) as (d & dr1 & -> & Hdok & Hqd).
  assert (Hhd : (loads (ring_addrs (get_rx_base i) p 8) h1).1 = dg_header d).
  { pose proof (loads_queue i p 0 8 h1 (proj1 Hs1) Hi (proj1 Hpr) Hstart Hlen1) as HL.
    rewrite Z.add_0_r, u16_id, Hqd in HL by done. exact HL. }
  twp_step. eapply twp_Done; [apply read_buf_sure_run; [apply Hs1|done|apply Hpr|done|done]|].
  change (proj (upd h1 _)) with h1. change (Z.to_nat 8) with 8%nat. rewrite Hhd.
  pose proof (loads_still (ring_addrs (get_rx_base i) p 8) h1 (proj1 Hs1)) as Hs2.
  destruct (loads (ring_addrs (get_rx_base i) p 8) h1) as [hd h2]. cbn [fst snd] in *.
  rewrite drop_ge, app_nil_r by done.
  destruct (waiting_still i _ h1 h2 Hi Hs2 Hw1) as (ds2 & Hp2 & Hw2).
  destruct (waiting_more _ _ _ Hp2) as (dr2 & -> & _). destruct (arrives_still i h1 h2 Hi Hs2) as [m2 Hq2].
  by apply (HQ d dr2 p); [eapply still_trans|etrans|..|rewrite Hq2].
Qed.

(** Its data is read, and the datagram taken. *)
Lemma tp_dg_data {B} i d ds p buf h l fl er x (k : list Z → M (nstate H X) B) (Q : B → nstate H X → Prop) :
  chip_ok h → is_sock i → sock_idle i h → waiting i (d :: ds) h → is_u16 p → p = rx_start (rx_of i h) →
  (t ≠ Partial → 2040 ≤ Z.of_nat (length buf)) →
  (∀ ds' h', duplex i [] (frame d) h h' → ds `prefix_of` ds' → waiting i ds' h' →
     twp t (k (dg_data d ++ drop (length (dg_data d)) buf)) (NState h' l fl er x) Q) →
  twp t ('(buf, pread) ← read_buf_sure i buf (Z.of_nat (length (dg_data d))) (u16 (p + 8));
         _ ← read_buf_recv fuel i pread; k buf) (NState h l fl er x) Q.
Proof.
  intros Hok Hi Hidle Hw Hpr Hstart Hlen HQ. pose proof (rx_bound i h Hok Hi) as Hbound.
  pose proof Hw as (_ & Hq & _). change ((d :: ds) ≫= frame) with (frame d ++ (ds ≫= frame)) in Hq. unfold frame at 1 in Hq.
  rewrite <- app_assoc in Hq.
  assert (Hsize : (8 + length (dg_data d) ≤ length (rx_queue (rx_of i h)))%nat).
  { rewrite Hq, !length_app, dg_header_length. lia. }
  pose proof (loads_queue i p 8 (length (dg_data d)) h Hok Hi (proj1 Hpr) Hstart Hsize) as Hdata.
  rewrite Hq, drop_app_length', take_app_length in Hdata by done. change (Z.of_nat 8) with 8 in Hdata.
  pose proof (u16_range (p + 8)) as Hp8. unfold is_u16 in Hp8.
  destruct (decide (Z.of_nat (length (dg_data d)) ≤ Z.of_nat (length buf))) as [Hfit|Hfit].
  2: { twp_step. run tp_read_buf_sure; [done|lia|intros Ht; specialize (Hlen Ht); lia|].
       intros buf' p' h' (_ & _ & Hf) _ _. specialize (Hf ltac:(lia)). lia. }
  twp_step. eapply twp_Done; [apply read_buf_sure_run; [done|done|lia|lia|lia]|].
  change (proj (NState h l fl er x)) with h. rewrite Nat2Z.id, Hdata.
  pose proof (loads_still (ring_addrs (get_rx_base i) (u16 (p + 8)) (length (dg_data d))) h Hok) as Hs.
  destruct (loads (ring_addrs (get_rx_base i) (u16 (p + 8)) (length (dg_data d))) h) as [bs h1]. cbn [fst snd] in *.
  unfold read_buf_recv. twp_step. apply twp_advance; [done|apply Hs|done..|apply u16_range|done|].
  change (proj (upd h1 _)) with h1. intros h3 Hs3.
  destruct (waiting_still i _ h h1 Hi Hs Hw) as (ds1 & Hp1 & Hw1).
  destruct (waiting_more _ _ _ Hp1) as (dr1 & -> & Hp1').
  destruct (arrives_still i h h1 Hi Hs) as [m1 Hq1].
  pose proof (duplex_idle i [] [] i h h1 (duplex_still i h h1 Hs) Hi Hidle) as Hidle1.
  destruct (recv_first i d dr1 p h1 (proj1 Hs) Hi Hidle1 Hw1 Hpr) as [Hd2 (ds2 & Hp2 & Hw2)]; [by rewrite Hq1|].
  destruct (waiting_still i ds2 _ h3 Hi Hs3 Hw2) as (ds3 & Hp3 & Hw3).
  apply (HQ ds3); [|by repeat (etrans; [eassumption|])|done].
  eapply duplex_then; [|by apply duplex_still]. exact (duplex_trans _ _ _ _ _ _ _ _ (duplex_still i h h1 Hs) Hd2).
Qed.

Lemma tp_dgram_next i e ds buf a al h l fl er x (Q : option recv_result → nstate H X → Prop) :
  chip_ok h → is_sock i → l !! Z.to_nat i = Some e → s_isocket e = i →
  sock_idle i h → waiting i ds h → (t ≠ Partial → 2040 ≤ Z.of_nat (length buf)) →
  (∀ h' ds', duplex i [] [] h h' → ds `prefix_of` ds' → waiting i ds' h' → Q None (NState h' l fl er x)) →
  (∀ d h' ds', duplex i [] (frame d) h h' → ds `prefix_of` d :: ds' → waiting i ds' h' →
     Q (Some (dgram_result d buf a al)) (NState h' l fl er x)) →
  twp t (recv_dgram fuel i buf a al) (NState h l fl er x) Q.
Proof.
  intros Hok Hi He Ei Hidle Hw Hlen HN HS. unfold recv_dgram.
  twp_step. eapply tp_sock_at; [done..|]. rewrite Ei.
  twp_step. eapply twp_Done; [by apply read_pair|]. change (proj (NState h l fl er x)) with h.
  pose proof (rx_size_read i h Hok Hi) as Hsz. destruct (reg16 W5100_Sn_RX_RSR i h) as [n h1]. destruct Hsz as [Hn Hs1]. simpl in *.
  destruct (waiting_still i ds h h1 Hi Hs1 Hw) as (ds1 & Hp1 & Hw1).
  pose proof (duplex_still i h h1 Hs1) as Hd1.
  twp_step; [|by apply twp_ret, (HN h1 ds1)].
  eapply tp_dg_header; [apply Hs1|done|by eapply duplex_idle|exact Hw1|lia|].
  intros d ds2 p h2 Hs2 Hp2 Hw2 Hdok Hp Hstart. destruct (dg_header_reads d Hdok) as (Hip & Hport & Hml).
  assert (Hread : ∀ off k, 0 ≤ off → off + Z.of_nat k ≤ 8 →
    mem_read (dg_header d) off k = Done (take k (drop (Z.to_nat off) (dg_header d)))).
  { intros off k Hoff Hk. unfold mem_read. rewrite decide_True; [done|]. rewrite dg_header_length. lia. }
  pose proof (duplex_then _ _ _ _ _ _ Hd1 (duplex_still i h1 h2 Hs2)) as Hd2.
  twp_step. eapply twp_lift; [by apply Hread|]. change (Z.to_nat 0) with 0%nat. rewrite Hip.
  twp_step. eapply twp_lift; [by apply Hread|]. change (Z.to_nat 4) with 4%nat. rewrite Hport.
  specialize (HS d). unfold dgram_result in HS. destruct (match a with Some _ => _ | None => _ end) as [a' al'].
  twp_step. eapply twp_lift; [by apply Hread|]. change (Z.to_nat 6) with 6%nat. rewrite Hml. cbv zeta.
  eapply tp_dg_data; [apply Hs2|done|by eapply duplex_idle|exact Hw2|done..|].
  intros ds3 h3 Hd3 Hp3 Hw3. apply twp_ret, (HS h3 ds3); [exact (duplex_trans _ _ _ _ _ _ _ _ Hd2 Hd3)| |done].
  trans (d :: ds2); [by etrans|]. by apply prefix_cons.
Qed.
(** A receive of a datagram: the next one, or none in time. *)
Definition received_dgram (i : Z) (ds : list dgram) (buf : list Z) (a : option sockaddr_in) (al : option Z)
    (h : H) (r : recv_result) (h' : H) : Prop :=
  ∃ ds', waiting i ds' h' ∧
    ((r = (-1, buf, a, al) ∧ ds `prefix_of` ds' ∧ duplex i [] [] h h') ∨
     ∃ d, r = dgram_result d buf a al ∧ ds `prefix_of` d :: ds' ∧ duplex i [] (frame d) h h').

(** A socket that [recvfrom] takes datagrams from. *)
Definition dgram_socket (e : w5100_socket) : Prop :=
  s_type e = SOCK_DGRAM ∧ (s_state e = W5100_SOCK_STATE_BOUND ∨ s_state e = W5100_SOCK_STATE_CREATED).

Lemma tp_recvfrom_dgram fd i e ds buf len a al (s : nstate H X) :
  well_formed s → own_fd (n_files s) i fd → n_socks s !! Z.to_nat i = Some e → dgram_socket e →
  sock_idle i (n_hw s) → waiting i ds (n_hw s) → len ≠ 0 → (t ≠ Partial → 2040 ≤ Z.of_nat (length buf)) →
  (t ≠ Partial → data_fd s fd) → (t = Total → prompt fuel s_recv_timeout 0 s fd) →
  twp t (recvfrom fuel junk fd buf len a al) s (λ r s', received_dgram i ds buf a al (n_hw s) r (n_hw s')).
Proof.
  destruct s as [h l fl er x]. unfold well_formed, inv. simpl. set (cfg := λ b, cell b h).
  intros Hinv Hown He [Hty Hst] Hidle Hw Hlen0 Hlen Hd Hpr. unfold recvfrom.
  pose proof (ti_chip _ _ _ _ Hinv) as Hok. pose proof Hown as (Hfd & f & Hf & _ & _ & _ & _ & Hop & _).
  twp_step. eapply (tp_get_socket t cfg); [exact Hinv|lia|intros er' Hno; by destruct (Hno i)|].
  intros i' e' f' Hi He' _ Hf' _ Hop'. assert (i' = i) as -> by congruence. assert (e' = e) as -> by congruence.
  twp_step. eapply tp_sock_at; [done..|].
  rewrite decide_False by (rewrite Hty; by intros []). rewrite decide_False by naive_solver. rewrite decide_False by done.
  eapply tp_data_flags with (fuel := fuel) (d := s_recv_timeout) (n := 0%nat); [done..|]. intros p g Hu Hflag. cbv zeta.
  apply tp_deadline with (fuel := fuel) (n := 0%nat) (d := s_recv_timeout e); [done..|]. intros tom x1 Htom.
  apply tp_wait_loop with (nonblock := Z.land (status_flags g) O_NONBLOCK) (tom := tom) (μ := λ _, 0%nat)
    (I := λ _ s, ∃ h' er' x', s = NState h' l fl er' x' ∧ duplex i [] [] h h' ∧ ∃ ds', ds `prefix_of` ds' ∧ waiting i ds' h').
  { exact Hfuel. }
  { done. }
  { exists h, er, x1. split; [done|]. split; [by apply duplex_refl|by exists ds]. }
  intros [] s' (h1 & er1 & x2 & -> & Hd1 & ds1 & Hp1 & Hw1). twp_step.
  rewrite decide_False by (by rewrite Hty). rewrite decide_True by done.
  eapply (tp_dgram_next i e ds1); [by eapply duplex_ok|done|done|by apply Hu|by eapply duplex_idle|done|done|..].
  - intros h2 ds2 Hd2 Hp2 Hw2. pose proof (duplex_then _ _ _ _ _ _ Hd1 Hd2) as Hd'.
    assert (Hp' : ds `prefix_of` ds2) by (by etrans).
    apply tp_wait_turn with (fuel := fuel) (tom := tom); [done|..].
    + intros er'. exists ds2. split; [done|by left].
    + intros er' x'. exists ds2. split; [done|by left].
    + intros er' x' Hz Hstep. rewrite !Nat.add_0_r. split; [done|]. split; [|exact Hstep].
      exists h2, er', x'. split; [done|]. split; [done|by exists ds2].
  - intros d h2 ds2 Hd2 Hp2 Hw2. apply twp_ret. exists ds2. split; [done|]. right. exists d. split; [done|].
    split; [by etrans|]. exact (duplex_trans _ _ _ _ _ _ _ _ Hd1 Hd2).
Qed.
End receiving.

(** ** Sending *)

Section sending.
Context {H X : Type} `{!SpiDevice H, !W5100 H, !W5100Bus H, !W5100Commands H, !W5100Transmit H, !W5100Udp H, !W5100Receive H, !Clock X, !ClockTotal X, !ClockLaws X}.
Context (fuel : nat) (junk : timespec).

(** The wait for the status of an open UDP socket ends when the chip shows it. *)
Lemma pp_wait_udp i (s : nstate H X) (Q : Z → nstate H X → Prop) :
  chip_ok (n_hw s) → is_sock i → (∀ v h', still (n_hw s) h' → udp i h' → Q v (upd h' s)) →
  twp Partial (wait_status fuel i [W5100_SOCK_UDP]) s Q.
Proof.
  intros Hok Hi HQ. unfold wait_status.
  apply twp_loop with (μ := λ _ _, 0%nat) (I := λ _ s', ∃ h', s' = upd h' s ∧ still (n_hw s) h').
  { exists (n_hw s). split; [by destruct s|by apply still_refl]. }
  { done. }
  intros [] s' (h1 & -> & Hs1). twp_step. unfold w5100_read_sock_reg. rewrite sock_reg_eq by done.
  apply twp_read_reg; [apply Hs1|]. change (proj (upd h1 s)) with h1.
  pose proof (load_still (sreg W5100_Sn_SR i) h1 (proj1 Hs1)) as Hs2. pose proof (still_trans _ _ _ Hs1 Hs2) as Hs.
  apply twp_ret. destruct (decide (_ ∈ _)) as [Hv|Hv].
  - apply list_elem_of_singleton in Hv. rewrite upd_upd. apply HQ; [done|]. apply udp_status; [apply Hs1|done|done].
  - split; [|done]. exists (chip_load (sreg W5100_Sn_SR i) h1).2. by rewrite upd_upd.
Qed.

(** What an open socket keeps while a datagram is sent. *)
Record dgram_kept (i : Z) (P : H → Prop) : Prop := {
  dk_udp h : P h → udp i h;
  dk_open h h' : chip_ok h → cell (sreg W5100_Sn_MR i) h = W5100_SOCK_MODE_UDP →
    still (chip_store (sreg W5100_Sn_CR i) W5100_CMD_OPEN h) h' → udp i h' → P h';
  dk_load a h : chip_ok h → P h → P (chip_load a h).2;
  dk_store a v h : chip_ok h → a ≠ W5100_MR → a < W5100_RX_MEM_BASE → ¬ rx_reg a i → ¬ mode_reg a i → P h → P (chip_store a v h);
  dk_send h : chip_ok h → P h → P (chip_store (sreg W5100_Sn_CR i) W5100_CMD_SEND h);
}.

Lemma udp_kept i : is_sock i → dgram_kept i (udp i).
Proof. intros Hi. split; [done|done|intros; by apply udp_load|intros; by apply udp_store|intros; by apply udp_send]. Qed.

Lemma dest_stores i peer (h : H) :
  stores (zip ((λ k : nat, sreg W5100_Sn_DPORT i + Z.of_nat k) <$> seq 0 2) (take 2 (le_bytes 2 (sin_port peer))))
    (stores (zip ((λ k : nat, sreg W5100_Sn_DIPR i + Z.of_nat k) <$> seq 0 4) (take 4 (le_bytes 4 (sin_addr peer)))) h) =
  stores (zip ((λ k : nat, sreg W5100_Sn_DIPR i + Z.of_nat k) <$> seq 0 6) (dest_bytes peer)) h.
Proof.
  rewrite <- stores_app. f_equal. unfold sreg, W5100_Sn_DPORT, W5100_Sn_DIPR. simpl.
  repeat (apply (f_equal2 cons); [apply (f_equal2 pair); [lia|reflexivity]|]). reflexivity.
Qed.

(** What a [sendto] to [peer] that returns [r] has handed over: one datagram, the
    first [r] bytes of the buffer, or none. *)
Definition sent_dgram (i : Z) (peer : sockaddr_in) (buf : list Z) (r : Z) (h h' : H) : Prop :=
  duplex i [Packet (dest_bytes peer) (take (Z.to_nat r) buf)] [] h h' ∨ (r = 0 ∧ duplex i [] [] h h').

(** The outcome of a [sendto]: a count, or an error (-1, or 1 for a full buffer of
    a non-blocking socket) and nothing sent. *)
Definition sendto_outcome (i : Z) (peer : sockaddr_in) (buf : list Z) (len r : Z) (h h' : H) : Prop :=
  (0 ≤ r ≤ len ∧ sent_dgram i peer buf r h h') ∨ ((r = -1 ∨ r = 1) ∧ duplex i [] [] h h').

Context (i : Z) (P : H → Prop) (Hi : is_sock i) (HP : dgram_kept i P).

Lemma kept_tx : tx_kept i P.
Proof.
  split; [apply HP|]. intros a v h Hok Ha. apply HP; [done|..];
    unfold mode_reg, rx_reg, sreg, is_sock, W5100_MR, W5100_RX_MEM_BASE, W5100_Sn_MR, W5100_Sn_SR, W5100_Sn_RX_RSR,
      W5100_Sn_RX_RD, W5100_Sn_TX_WR in *; lia.
Qed.

Lemma kept_still h h' : still h h' → P h → P h'.
Proof. apply (tx_kept_still i), kept_tx. Qed.

(** The registers of port and destination are written. *)
Lemma kept_config r n bs h : chip_ok h → W5100_Sn_SR < r → r + Z.of_nat n ≤ W5100_Sn_TX_RD → P h →
  P (stores (zip ((λ k : nat, sreg r i + Z.of_nat k) <$> seq 0 n) bs) h).
Proof.
  intros Hok Hr Hn. 
  assert (Hl : Forall (λ p, sreg r i ≤ p.1 < sreg r i + Z.of_nat n) (zip ((λ k : nat, sreg r i + Z.of_nat k) <$> seq 0 n) bs)).
  { apply list.Forall_forall. intros [a v] Ha%elem_of_zip_l. apply list_elem_of_fmap in Ha as (k & -> & Hk%elem_of_seq). simpl. lia. }
  revert h Hok. induction Hl as [|[a v] l Ha _ IH]; intros h Hok Hh; [done|]. simpl in *. apply IH; [by apply store_ok|].
  apply HP; [done|..|done]; unfold mode_reg, rx_reg, sreg, is_sock, W5100_MR, W5100_RX_MEM_BASE, W5100_Sn_MR, W5100_Sn_SR,
    W5100_Sn_RX_RSR, W5100_Sn_RX_RD, W5100_Sn_TX_RD in *; lia.
Qed.

Lemma mode_config r n bs h : chip_ok h → W5100_Sn_MR < r → cell (sreg W5100_Sn_MR i) (stores
  (zip ((λ k : nat, sreg r i + Z.of_nat k) <$> seq 0 n) bs) h) = cell (sreg W5100_Sn_MR i) h.
Proof.
  intros Hok Hr. 
  assert (Hl : Forall (λ p, sreg r i ≤ p.1) (zip ((λ k : nat, sreg r i + Z.of_nat k) <$> seq 0 n) bs)).
  { apply list.Forall_forall. intros [a v] Ha%elem_of_zip_l. apply list_elem_of_fmap in Ha as (k & -> & _). simpl. lia. }
  apply stores_out; [done|by apply kept_plain, kept_mode| |].
  - eapply list.Forall_impl; [exact Hl|]. intros p Hp. unfold sreg, is_sock, W5100_MR, W5100_Sn_MR in *. lia.
  - intros (p & Hp & Hin)%list_elem_of_fmap. rewrite list.Forall_forall in Hl. specialize (Hl p Hin).
    unfold sreg in *. lia.
Qed.

(** After [check_bind_udp] the socket is open for datagrams. *)
Lemma pp_check_bind_udp cfg e h l fl er x (Q : unit → nstate H X → Prop) :
  table_inv cfg h l fl → l !! Z.to_nat i = Some e → dgram_socket e → (s_state e = W5100_SOCK_STATE_CREATED ∨ P h) →
  (∀ h' l', duplex i [] [] h h' → P h' → (∃ e', l' !! Z.to_nat i = Some e' ∧ dgram_socket e') → Q tt (NState h' l' fl er x)) →
  twp Partial (check_bind_udp fuel i) (NState h l fl er x) Q.
Proof.
  intros Hinv He [Hty Hst] Hopen HQ. pose proof (ti_chip _ _ _ _ Hinv) as Hok. pose proof (ti_len _ _ _ _ Hinv) as Hl.
  assert (Hu : sock_used fl h i e) by (destruct Hst; (eapply used_of_state; [by apply Hinv|done|done])).
  unfold check_bind_udp. twp_step. eapply tp_sock_at; [done..|].
  twp_step; [|apply twp_ret, HQ; [by apply duplex_refl|by destruct Hopen|by exists e]].
  twp_step. eapply tp_get_avail_port; [done..|]. intros port h1 Hport Hs1. pose proof (duplex_still i h h1 Hs1) as Hd1.
  unfold bind_udp. twp_step. eapply tp_sock_at; [done..|]. rewrite (su_isocket _ _ _ _ Hu).
  twp_step. apply (pp_write_regx i); [apply Hs1|done..|]. intros h2 E2 Hd2. pose proof (duplex_ok _ _ _ _ _ Hd2) as Hok2.
  cbn [n_hw] in *.
  assert (Hmode : cell (sreg W5100_Sn_MR i) h2 = W5100_SOCK_MODE_UDP).
  { transitivity (socket_mode (s_type e)); [|by rewrite Hty]. rewrite <- (su_mode _ _ _ _ Hu), E2.
    rewrite mode_config by (done || apply Hs1). by apply still_calm, kept_mode. }
  unfold upd. simpl.
  twp_step. apply twp_command_still; [done..|]. simpl. intros h3 Hs3.
  twp_step. apply pp_wait_udp; [apply Hs3|done|]. simpl. intros _ h4 Hs4 Hu4.
  twp_step. eapply tp_sock_update; [done..|]. eapply tp_sock_update; [done|by rewrite length_insert|..].
  { apply list_lookup_insert_eq. by eapply lookup_lt_Some. }
  apply HQ.
  - assert (Hd3 : duplex i [] [] h2 (chip_store (sreg W5100_Sn_CR i) W5100_CMD_OPEN h2))
      by (apply duplex_command; [done|done|by apply elem_of_cons; left]).
    pose proof (duplex_still i _ _ (still_trans _ _ _ Hs3 Hs4)). eauto using duplex_then.
  - apply (dk_open i P HP h2); [done|done|by eapply still_trans|done].
  - eexists. rewrite list_insert_insert_eq. split; [apply list_lookup_insert_eq; by eapply lookup_lt_Some|]. split; [done|by left].
Qed.

Lemma pp_bound cfg e h l fl er (x : X) :
  table_inv cfg h l fl → l !! Z.to_nat i = Some e → dgram_socket e → (s_state e = W5100_SOCK_STATE_CREATED ∨ P h) →
  twp Partial (check_bind_udp fuel i) (NState h l fl er x) (λ _ s', ∃ h' l' e', s' = NState h' l' fl er x ∧
    table_inv cfg h' l' fl ∧ l' !! Z.to_nat i = Some e' ∧ dgram_socket e' ∧ duplex i [] [] h h' ∧ P h').
Proof.
  intros Hinv He Hdg Hopen. eapply twp_mono; [|apply twp_both].
  2: { eapply (tp_check_bind_udp Partial cfg fuel) with (Q := λ _ s', ∃ h' l', s' = NState h' l' fl er x ∧
         table_inv cfg h' l' fl ∧ same_socket l' i e); eauto; first [done|by destruct Hdg]. }
  2: { eapply (pp_check_bind_udp cfg) with (Q := λ _ s', ∃ h' l', s' = NState h' l' fl er x ∧ duplex i [] [] h h' ∧ P h' ∧
         ∃ e', l' !! Z.to_nat i = Some e' ∧ dgram_socket e'); [exact Hinv|done..|]. intros. eexists _, _. by split_and!. }
  intros [] ? [(h1 & l1 & -> & Hinv1 & _) (? & ? & [= <- <-] & Hd1 & Hu1 & e1 & He1 & Hdg1)].
  by exists h1, l1, e1.
Qed.

(** The destination stays while the data is written. *)
Lemma tx_kept_dest dest : tx_kept i (λ h : H, P h ∧ tx_dest i h = dest).
Proof.
  split.
  - intros a h Hok [Hh <-]. split; [by apply HP|]. by apply udp_load, HP.
  - intros a v h Hok Ha [Hh <-]. split; [by apply kept_tx|]. apply udp_dest; [done|done| | |by apply HP];
      unfold peer_reg, sreg, is_sock, W5100_MR, W5100_Sn_MR, W5100_Sn_DPORT, W5100_Sn_TX_WR in *; lia.
Qed.

Lemma tx_append_kept bs len h : chip_ok h → P h → P (tx_append i bs len h).2.
Proof.
  intros Hok Hh. unfold tx_append. pose proof (reg16_still W5100_Sn_TX_FSR i h Hok) as Hs1.
  destruct (reg16 W5100_Sn_TX_FSR i h) as [f h1]. cbn [fst snd] in *. case_decide; [by eapply kept_still|].
  pose proof (reg16_still W5100_Sn_TX_WR i h1 (proj1 Hs1)) as Hs2.
  destruct (reg16 W5100_Sn_TX_WR i h1) as [p h2]. cbn [fst snd] in *.
  assert (Hs : still h h2) by (by eapply still_trans). set (n := Z.min len f). set (w := u16 _).
  set (h3 := stores (zip _ _) h2).
  assert (Hkept : chip_ok h3 ∧ P h3).
  { split; [apply stores_ok, Hs|]. apply (tx_kept_stores i); [exact kept_tx|apply Hs|by eapply kept_still|].
    apply list.Forall_forall. intros [a v] Ha%elem_of_zip_l. pose proof (ring_plain i p (Z.to_nat n) Hi) as Hpl.
    rewrite list.Forall_forall in Hpl. left. by apply Hpl. }
  destruct Hkept as [Hok3 Hh3].
  set (l := [(sreg W5100_Sn_TX_WR i, w / 256); (sreg W5100_Sn_TX_WR i + 1, w mod 256)]).
  change (P (chip_store (sreg W5100_Sn_CR i) W5100_CMD_SEND (stores l h3))).
  apply (dk_send i P HP); [by apply stores_ok|]. apply (tx_kept_stores i); [exact kept_tx|done..|]. repeat constructor; simpl; tauto.
Qed.

Lemma pp_send_dgram {B} peer buf len h l fl er x (k : Z → M (nstate H X) B) (Q : B → nstate H X → Prop) :
  chip_ok h → sock_idle i h → P h → Forall is_u8 buf → 0 ≤ len ≤ Z.of_nat (length buf) →
  (∀ r h', 0 ≤ r ≤ len → sent_dgram i peer buf r h h' → P h' → twp Partial (k r) (NState h' l fl er x) Q) →
  twp Partial (_ ← w5100_write_sock_regx W5100_Sn_DIPR W5100_Sn_DIPR_SIZE i (le_bytes 4 (sin_addr peer));
    _ ← w5100_write_sock_regx W5100_Sn_DPORT W5100_Sn_DPORT_SIZE i (le_bytes 2 (sin_port peer));
    ret ← write_buf fuel i buf len; k ret) (NState h l fl er x) Q.
Proof.
  intros Hok Hidle Hh Hbs Hlen HQ.
  twp_step. apply (pp_write_regx i); [done..|]. intros h1 E1 Hd1. cbn [n_hw] in *. pose proof (duplex_ok _ _ _ _ _ Hd1) as Hok1.
  twp_step. apply (pp_write_regx i); [done..|]. intros h2 E2 Hd2. cbn [n_hw upd] in *. pose proof (duplex_ok _ _ _ _ _ Hd2).
  pose proof (duplex_then _ _ _ _ _ _ Hd1 Hd2) as Hd. pose proof (duplex_idle _ _ _ _ _ _ Hd Hi Hidle) as Hidle2.
  assert (Hh2 : P h2 ∧ tx_dest i h2 = dest_bytes peer).
  { split; [rewrite E2; apply kept_config; [done..|]; rewrite E1; by apply kept_config|].
    pose proof (udp_peer (dest_bytes peer) i h Hok Hi ltac:(done)
      ltac:(apply Forall_app; split; apply le_bytes_u8) (dk_udp i P HP h Hh)) as Hpeer.
    rewrite <- dest_stores in Hpeer. rewrite E2, E1. exact Hpeer. }
  twp_step. eapply twp_mono; [|by apply twp_write_buf_tx]. simpl. intros r s' (-> & h3 & -> & Hs3).
  pose proof (tx_append_duplex i _ buf len h2 ltac:(done) Hi Hidle2 Hbs Hlen (tx_kept_dest (dest_bytes peer)) Hh2) as Hsend.
  pose proof (tx_append_kept buf len h2 ltac:(done) (proj1 Hh2)) as Hkept.
  destruct (tx_append i buf len h2) as [r h0]. destruct Hsend as (Hr & pks & Hpk & Hd3). simpl in *.
  apply HQ; [done| |by eapply kept_still].
  pose proof (duplex_then _ _ _ _ _ _ Hd3 (duplex_still i h0 h3 Hs3)) as Hd4.
  pose proof (duplex_trans _ _ _ [] [] _ _ _ Hd Hd4) as Hd5.
  destruct Hpk as [[-> ->]|(h4 & [_ Hdest] & ->)]; [by right|left]. by rewrite <- Hdest.
Qed.

(** What a [sendto] leaves: its outcome, and an open socket. *)
Definition after_sendto (peer : sockaddr_in) (buf : list Z) (len : Z) (h : H) (r : Z) (s' : nstate H X) : Prop :=
  sendto_outcome i peer buf len r h (n_hw s') ∧ P (n_hw s') ∧ ∃ e', n_socks s' !! Z.to_nat i = Some e' ∧ dgram_socket e'.

Lemma pp_sendto_dgram cfg e peer buf len h l fl er (x : X) :
  table_inv cfg h l fl → l !! Z.to_nat i = Some e → dgram_socket e →
  (s_state e = W5100_SOCK_STATE_CREATED ∨ P h) → (∃ f fd, fl !! Z.to_nat fd = Some f ∧ opaque f = Some (ObjSocket i)) →
  sock_idle i h → Forall is_u8 buf → 0 ≤ len ≤ Z.of_nat (length buf) →
  twp Partial (sendto_dgram fuel junk i buf len (Some peer)) (NState h l fl er x) (after_sendto peer buf len h).
Proof.
  intros Hinv He Hdg Hopen (f & fd & Hf & Ho) Hidle Hbs Hlen. unfold sendto_dgram.
  twp_step. eapply twp_mono; [|by eapply pp_bound].
  intros [] ? (h1 & l1 & e1 & -> & Hinv1 & He1 & Hdg1 & Hd1 & Hh1).
  assert (Hu1 : sock_used fl h1 i e1) by (destruct Hdg1 as [_ [|]]; (eapply used_of_state; [by apply Hinv1|done|done])).
  assert (Hnone : ∀ r h' er' x', duplex i [] [] h h' → P h' → r = -1 ∨ r = 1 →
    after_sendto peer buf len h r (NState h' l1 fl er' x')).
  { intros. split; [by right|]. split; [done|]. by exists e1. }
  twp_step. eapply tp_sock_at; [done..|]. rewrite (su_isocket _ _ _ _ Hu1).
  twp_step; [apply tp_fail, Hnone; [done|done|by left]|]. twp_step; [apply tp_fail, Hnone; [done|done|by left]|].
  eapply tp_data_flags with (fuel := fuel) (d := s_send_timeout) (n := 0%nat) (fd := fd); [done..|]. intros p g _ _. cbv zeta.
  apply tp_deadline with (fuel := fuel) (n := 0%nat) (d := s_send_timeout e1); [done..|]. intros tom x1 _.
  apply twp_loop with (μ := λ _ _, 0%nat) (I := λ _ s, ∃ h' er' x', s = NState h' l1 fl er' x' ∧ duplex i [] [] h h' ∧ P h').
  { exists h1, er, x1. done. }
  { done. }
  intros [] s' (h2 & er2 & x2 & -> & Hd2 & Hh2). pose proof (duplex_ok _ _ _ _ _ Hd2) as Hok2.
  twp_step. eapply twp_Done; [by apply read_pair|]. change (proj (NState h2 l1 fl er2 x2)) with h2.
  pose proof (reg16_still W5100_Sn_TX_FSR i h2 Hok2) as Hs3. destruct (reg16 W5100_Sn_TX_FSR i h2) as [n h3]. cbn [fst snd] in *.
  pose proof (duplex_then _ _ _ _ _ _ Hd2 (duplex_still i h2 h3 Hs3)) as Hd3. pose proof (kept_still h2 h3 Hs3 Hh2) as Hh3.
  twp_step.
  - eapply pp_send_dgram; [apply Hs3|by eapply duplex_idle|done..|]. intros r h4 Hr Hsent Hh4. apply twp_ret.
    split; [|split; [done|by exists e1]]. left. split; [done|].
    destruct Hsent as [Hs4|[Hr0 Hs4]]; [left|right; split; [done|]]; exact (duplex_trans _ _ _ [] [] _ _ _ Hd3 Hs4).
  - apply tp_wait_turn with (fuel := fuel) (tom := tom); [done|intros; apply Hnone; by tauto..|].
    intros er' x' _ _. split; [|done]. by exists h3, er', x'.
Qed.

Lemma pp_sendto fd e peer buf len (s : nstate H X) :
  well_formed s → own_fd (n_files s) i fd → n_socks s !! Z.to_nat i = Some e → dgram_socket e →
  (s_state e = W5100_SOCK_STATE_CREATED ∨ P (n_hw s)) →
  sock_idle i (n_hw s) → Forall is_u8 buf → 0 ≤ len ≤ Z.of_nat (length buf) →
  twp Partial (sendto fuel junk fd buf len (Some peer)) s (after_sendto peer buf len (n_hw s)).
Proof.
  destruct s as [h l fl er x]. unfold well_formed, inv. simpl. set (cfg := λ b, cell b h).
  intros Hinv Hown He Hdg Hopen Hidle Hbs Hlen. unfold sendto, sendto_body at 1. pose proof Hdg as [Hty Hst].
  pose proof Hown as (Hfd & f & Hf & _ & _ & _ & _ & Hop & _).
  twp_step. eapply (tp_get_socket Partial cfg); [exact Hinv|done|intros er' Hno; by destruct (Hno i)|].
  intros i' e' f' _ He' _ Hf' _ Hop'. assert (i' = i) as -> by congruence. assert (e' = e) as -> by congruence.
  twp_step. eapply tp_sock_at; [done..|].
  rewrite decide_False by (by rewrite Hty). rewrite decide_True by done.
  eapply pp_sendto_dgram; [exact Hinv|done|done|done|by exists f, fd|done..].
Qed.
End sending.

Lemma waiting_kept {H : Type} `{!W5100 H, !W5100Transmit H, !W5100Udp H, !W5100Receive H, !W5100Datagrams H} i :
  is_sock i → dgram_kept i (λ h, ∃ ds, waiting i ds h).
Proof.
  intros Hi. split.
  - by intros h (ds & Hu & _).
  - intros. by eapply dg_open.
  - intros a h Hok (ds & Hw). destruct (dg_load a i ds h Hok Hi Hw) as (ds' & _ & ?). by exists ds'.
  - intros a v h Hok ? ? ? ? (ds & Hw). destruct (dg_store a v i ds h) as (ds' & _ & ?); [done..|]. by exists ds'.
  - intros h Hok (ds & Hw). destruct (dg_send i ds h Hok Hi Hw) as (ds' & _ & ?). by exists ds'.
Qed.

(** ** The properties *)

Section properties.
Context {H X : Type} `{!SpiDevice H, !W5100 H, !W5100Bus H, !W5100Commands H, !W5100Transmit H, !W5100Udp H, !W5100Receive H, !Clock X, !ClockTotal X, !ClockLaws X}.
Context (fuel : nat) (junk : timespec) (n : nat) (Hresp : responsive H n) (Hn : (n ≤ fuel)%nat) (Hfuel : (4 < fuel)%nat).

(** C11: [sendto] on a UDP socket that is non-blocking or has a timeout
    ([call_prompt]) returns. It has handed over one datagram, for the
    address and port it was given, whose data are the bytes of the buffer it
    counts; or nothing, and returns 0 or an error. Nothing moves in the other
    direction or on the other sockets. The socket is bound first where it is not. *)
Theorem sendto_datagram fd i e peer buf len (s : nstate H X) :
  well_formed s → call_ok (CSendto fd buf len (Some peer)) s → call_prompt fuel (CSendto fd buf len (Some peer)) s →
  own_fd (n_files s) i fd → n_socks s !! Z.to_nat i = Some e → dgram_socket e →
  (s_state e = W5100_SOCK_STATE_CREATED ∨ udp i (n_hw s)) → sock_idle i (n_hw s) → Forall is_u8 buf →
  ∃ r s', sendto fuel junk fd buf len (Some peer) s = Done (r, s') ∧ well_formed s' ∧
    sendto_outcome i peer buf len r (n_hw s) (n_hw s').
Proof.
  intros Hinv (Hfd & Hdata & Hlen & Hu32) Hprompt Hown He Hdg Hopen Hidle Hbs. specialize (Hfd fd eq_refl).
  assert (Hrun : twp Total (sendto fuel junk fd buf len (Some peer)) s (λ _ s', inv (λ b, cell b (n_hw s)) s'))
    by (apply tp_sendto; [intros _; by exists n|done..]).
  pose proof (own_fd_sock s i fd Hinv Hown) as Hi.
  pose proof (pp_sendto fuel junk i (udp i) Hi (udp_kept i Hi) fd e peer buf len s Hinv Hown He Hdg Hopen Hidle Hbs Hlen) as Hsend.
  unfold twp in Hrun, Hsend. destruct (sendto fuel junk fd buf len (Some peer) s) as [[r s']| |]; [|done..].
  exists r, s'. split; [done|]. split; [by eapply inv_well_formed|apply Hsend].
Qed.

(** C12: [recvfrom] on a UDP socket that is non-blocking or has a timeout
    ([prompt]) returns. It has taken the next datagram that
    the chip holds, whole, whose data are at the start of the buffer and counted
    by the result, and whose sender is in the address; or nothing, and returns
    -1. The datagrams behind it stay, in order; nothing moves in the other
    direction or on the other sockets. A buffer of 2040 bytes is enough for
    whatever arrives. *)
Theorem recvfrom_datagram `{!W5100Datagrams H} fd i e ds buf len a al (s : nstate H X) :
  well_formed s → data_fd s fd → prompt fuel s_recv_timeout 0 s fd →
  own_fd (n_files s) i fd → n_socks s !! Z.to_nat i = Some e → dgram_socket e →
  sock_idle i (n_hw s) → waiting i ds (n_hw s) → 0 < len → 2040 ≤ Z.of_nat (length buf) →
  ∃ r s', recvfrom fuel junk fd buf len a al s = Done (r, s') ∧ well_formed s' ∧
    received_dgram i ds buf a al (n_hw s) r (n_hw s').
Proof.
  intros Hinv Hdata Hprompt Hown He Hdg Hidle Hw Hlen Hbuf.
  assert (Hready : ready (H:=H) Total fuel) by (intros _; by exists n).
  pose proof (tp_recvfrom_dgram Total fuel junk Hready (λ _, Hfuel) fd i e ds buf len a al s Hinv Hown He Hdg Hidle Hw
    ltac:(lia) (λ _, Hbuf) (λ _, Hdata) (λ _, Hprompt)) as Hrecv.
  assert (Hrun : twp Partial (recvfrom fuel junk fd buf len a al) s (λ r s', inv (λ b, cell b (n_hw s)) s' ∧ recv_ok buf r)).
  { apply tp_recvfrom; [done..|lia|done|done]. }
  unfold twp in Hrun, Hrecv. destruct (recvfrom fuel junk fd buf len a al s) as [[r s']| |]; [|done..].
  exists r, s'. split; [done|]. split; [by eapply inv_well_formed, Hrun|done].
Qed.
End properties.

(** ** The simulated chip *)

Definition sim_udp_open (i : Z) (c : sim) : Prop := sim_read (sreg W5100_Sn_SR i) c = W5100_SOCK_UDP.

(** What the status of the socket [i] depends on. *)
Lemma sim_sr_eq i c : is_sock i → sim_read (sreg W5100_Sn_SR i) c =
  sim_status (sim_mem c (sreg W5100_Sn_MR i)) (sim_cmd c i) (sim_mem c (sreg W5100_Sn_SR i)).
Proof. intros Hi. destruct (sock_cases i Hi) as [->|[->|[->| ->]]]; reflexivity. Qed.

Lemma sim_store_aside a v i c : is_sock i → a ≠ sreg W5100_Sn_CR i → ¬ peer_reg a i →
  sim_cmd (sim_store a v c) i = sim_cmd c i ∧ ∀ b, peer_reg b i → sim_mem (sim_store a v c) b = sim_mem c b.
Proof.
  intros Hi Hcr Ha. unfold sim_store, peer_reg, sreg, is_sock, W5100_Sn_MR, W5100_Sn_DPORT, W5100_Sn_CR in *.
  case_decide as Hd; simpl; (split; [|intros b Hb; apply fn_lookup_insert_ne; zlia]); [|done].
  apply fn_lookup_insert_ne. zlia.
Qed.

Lemma sim_peer_ext i c c' : (∀ b, peer_reg b i → sim_mem c' b = sim_mem c b) → sim_peer i c' = sim_peer i c.
Proof.
  intros Hm. unfold sim_peer. apply list_fmap_ext. intros j k Hk. apply lookup_seq in Hk as [-> Hk]. apply Hm.
  unfold peer_reg, sreg, W5100_Sn_MR, W5100_Sn_DPORT, W5100_Sn_DIPR. lia.
Qed.

Lemma sim_udp_ext i c c' : is_sock i → sim_cmd c' i = sim_cmd c i → (∀ b, mode_reg b i → sim_mem c' b = sim_mem c b) →
  sim_udp_open i c → sim_udp_open i c'.
Proof.
  intros Hi Hc Hm. unfold sim_udp_open. rewrite !sim_sr_eq, Hc, !Hm by
    (done || unfold mode_reg, sreg, W5100_Sn_MR, W5100_Sn_SR; lia). done.
Qed.

Lemma sim_store_mode a v i c : is_sock i → ¬ mode_reg a i →
  sim_cmd (sim_store a v c) i = sim_cmd c i ∧ ∀ b, mode_reg b i → sim_mem (sim_store a v c) b = sim_mem c b.
Proof.
  intros Hi Ha. unfold sim_store, mode_reg, sreg, is_sock, W5100_Sn_MR, W5100_Sn_SR, W5100_Sn_CR in *.
  case_decide as Hd; simpl; (split; [|intros b Hb; apply fn_lookup_insert_ne; zlia]); [|done].
  apply fn_lookup_insert_ne. zlia.
Qed.

Lemma sim_udp_send i c : is_sock i → sim_udp_open i c → sim_udp_open i (sim_store (sreg W5100_Sn_CR i) W5100_CMD_SEND c).
Proof.
  unfold sim_udp_open. intros Hi Hu. transitivity (sim_read (sreg W5100_Sn_SR i) c); [|exact Hu].
  rewrite (sim_sr_eq i (sim_store _ _ _)) by done.
  destruct (sock_cases i Hi) as [->|[->|[->| ->]]]; reflexivity.
Qed.

#[export] Program Instance sim_udp : W5100Udp sim := {| udp := sim_udp_open |}.
Next Obligation. intros i h _ Hi Hs. exact Hs. Qed.
Next Obligation. intros a i h _ Hi Hu. done. Qed.
Next Obligation.
  intros a v i h _ Hi HMR Ha Hu. destruct (sim_store_mode a v i h Hi Ha) as [Hc Hm]. by eapply sim_udp_ext.
Qed.
Next Obligation. intros i h _ Hi Hu. by apply sim_udp_send. Qed.
Next Obligation.
  intros a v i h _ Hi HMR Ha Hu. apply sim_peer_ext. apply sim_store_aside; [done| |done].
  intros ->. apply Ha. unfold peer_reg, sreg, W5100_Sn_MR, W5100_Sn_CR, W5100_Sn_DPORT. lia.
Qed.
Next Obligation.
  intros bs i h _ Hi Hlen Hbs Hu.
  destruct bs as [|b0 [|b1 [|b2 [|b3 [|b4 [|b5 [|]]]]]]]; try done.
  transitivity (u8 <$> [b0; b1; b2; b3; b4; b5]);
    [destruct (sock_cases i Hi) as [->|[->|[->| ->]]]; reflexivity|rewrite !Forall_cons in Hbs; simpl; rewrite !u8_id by tauto; done].
Qed.

Lemma sim_udp_recv i c : is_sock i → sim_udp_open i c → sim_udp_open i (sim_store (sreg W5100_Sn_CR i) W5100_CMD_RECV c).
Proof.
  unfold sim_udp_open. intros Hi Hu. transitivity (sim_read (sreg W5100_Sn_SR i) c); [|exact Hu].
  rewrite (sim_sr_eq i (sim_store _ _ _)) by done.
  destruct (sock_cases i Hi) as [->|[->|[->| ->]]]; reflexivity.
Qed.

(** The bytes of a whole datagram are its frame. *)
Lemma frame_parse ip pt hi lo bs : length ip = 4%nat → length pt = 2%nat → Forall is_u8 (ip ++ pt ++ hi :: lo :: bs) →
  hi * 256 + lo = Z.of_nat (length bs) →
  let d := Dgram (le_val ip) (le_val pt) bs in frame d = ip ++ pt ++ hi :: lo :: bs ∧ dgram_ok d.
Proof.
  intros Hip Hpt Hu Hlen. apply Forall_app in Hu as [Hip8 Hu]. apply Forall_app in Hu as [Hpt8 Hu].
  apply Forall_cons in Hu as [Hhi Hu]. apply Forall_cons in Hu as [Hlo _].
  pose proof (le_val_range ip Hip8) as Hi. pose proof (le_val_range pt Hpt8) as Hp. rewrite Hip in Hi. rewrite Hpt in Hp.
  change (256 ^ Z.of_nat 4) with 4294967296 in Hi. change (256 ^ Z.of_nat 2) with 65536 in Hp.
  assert (Hn : is_u16 (Z.of_nat (length bs))) by (unfold is_u16, is_u8 in *; lia).
  split; [|split_and!; [exact Hi|exact Hp|exact Hn]].
  unfold frame, dg_header. cbn [dg_ip dg_port dg_data]. pose proof (le_bytes_val ip Hip8) as Eip. pose proof (le_bytes_val pt Hpt8) as Ept.
  rewrite Hip in Eip. rewrite Hpt in Ept. rewrite Eip, Ept, htons_bytes by done. unfold is_u8 in *.
  replace (Z.of_nat (length bs) / 256) with hi by zlia. replace (Z.of_nat (length bs) mod 256) with lo by zlia.
  by rewrite <- !app_assoc.
Qed.

Lemma whole_dgrams_frames n bs : Forall is_u8 bs →
  (whole_dgrams n bs ≤ length bs)%nat ∧ ∃ ds, take (whole_dgrams n bs) bs = ds ≫= frame ∧ Forall dgram_ok ds.
Proof.
  revert bs. induction n as [|n IH]; intros bs Hu.
  { split; [simpl; lia|]. exists []. by rewrite take_0. }
  assert (Hnone : (0 ≤ length bs)%nat ∧ ∃ ds, take 0 bs = ds ≫= frame ∧ Forall dgram_ok ds) by (split; [lia|by exists []]).
  cbn [whole_dgrams]. destruct (drop 6 bs) as [|hi [|lo rest]] eqn:E; [done..|]. case_decide as Hk; [|done].
  clear Hnone. set (k := Z.to_nat (hi * 256 + lo)) in *.
  assert (Hbs : bs = take 4 bs ++ take 2 (drop 4 bs) ++ hi :: lo :: rest).
  { rewrite <- E. change 6%nat with (4 + 2)%nat. by rewrite <- drop_drop, !take_drop. }
  assert (Hl : length bs = (8 + length rest)%nat).
  { pose proof (length_drop bs 6) as Hl. rewrite E in Hl. simpl in Hl. lia. }
  assert (H4 : length (take 4 bs) = 4%nat ∧ length (take 2 (drop 4 bs)) = 2%nat) by (rewrite !length_take, length_drop; lia).
  set (ip := take 4 bs) in *. set (pt := take 2 (drop 4 bs)) in *. clearbody ip pt. subst bs. destruct H4 as [Hip Hpt].
  apply Forall_app in Hu as [Hip8 Hu]. apply Forall_app in Hu as [Hpt8 Hu].
  apply Forall_cons in Hu as [Hhi Hu]. apply Forall_cons in Hu as [Hlo Hu].
  destruct (IH (drop k rest)) as (Hn & ds & Hds & Hok); [by apply Forall_drop|].
  destruct (frame_parse ip pt hi lo (take k rest) Hip Hpt) as [Hf Hd].
  { repeat (apply Forall_app; split); try done. do 2 (apply Forall_cons; split; [done|]). by apply Forall_take. }
  { rewrite length_take. unfold is_u8 in *. lia. }
  rewrite length_drop in Hn. split; [rewrite !length_app; simpl; lia|]. eexists (_ :: ds). split; [|by apply Forall_cons].
  change ((?d :: ds) ≫= frame) with (frame d ++ (ds ≫= frame)). rewrite Hf, <- Hds, <- !app_assoc. simpl.
  rewrite take_app, Hip, take_ge by lia. f_equal. rewrite take_app, Hpt, take_ge by lia. f_equal.
  replace (8 + k + whole_dgrams n (drop k rest) - 4 - 2)%nat with (Datatypes.S (Datatypes.S (k + whole_dgrams n (drop k rest)))) by lia.
  simpl. by rewrite <- take_take_drop.
Qed.

Lemma sim_still (h h' : sim) : still h h' → h' = h.
Proof.
  intros (_ & _ & l & ->). induction l as [|a l IH]; [done|]. simpl in *. by destruct (loads l h).
Qed.

Lemma sim_rx_send i c : is_sock i → sim_rxq i (sim_store (sreg W5100_Sn_CR i) W5100_CMD_SEND c) = sim_rxq i c.
Proof. intros Hi. by rewrite sim_rx_command. Qed.

#[export] Program Instance sim_datagrams : W5100Datagrams sim.
Next Obligation.
  intros i h h' [_ Hok] Hi Hm ->%sim_still Hu. 
  set (bs := sim_ring (24576 + 2048 * i) (q_rx (sim_q h i)) (Z.to_nat (q_size (sim_q h i))) h).
  assert (Hbs : Forall is_u8 bs) by (apply Forall_fmap, list.Forall_forall; intros; apply Hok).
  destruct (whole_dgrams_frames 256 bs Hbs) as (Hlen & ds & Hds & Hdg).
  exists ds. split; [done|]. split; [|done]. rewrite <- Hds.
  change (rx_of i ?h) with (sim_rxq i h). change (chip_store ?a ?v h) with (sim_store a v h).
  rewrite sim_rx_command by done. cbn [rx_queue].
  set (q := sim_command i W5100_CMD_OPEN h).
  assert (Hq : q_rx q = q_rx (sim_q h i) ∧ q_wait q = whole_dgrams 256 bs) by done. destruct Hq as [-> Hq].
  set (m := whole_dgrams 256 bs) in *. clearbody q m.
  assert (Hs : length bs = Z.to_nat (q_size (sim_q h i))) by apply length_sim_ring.
  pose proof (q_size_range (sim_q h i)). unfold q_size at 1.
  rewrite Hq, Z.min_r, Nat2Z.id by lia. unfold bs.
  replace (Z.to_nat (q_size (sim_q h i))) with (m + (length bs - m))%nat by lia.
  by rewrite sim_ring_split, take_app_length' by (by rewrite length_sim_ring).
Qed.
Next Obligation. intros a i ds h _ _ Hw. by exists ds. Qed.
Next Obligation.
  intros a v i ds h Hok Hi HMR Ha Hr Hm (Hu & Hq & Hdg). exists ds. split; [done|].
  split; [by apply udp_store|]. split; [|done]. rewrite <- Hq. f_equal. apply sim_rx_store; [done..|].
  intros ->. apply Hm. unfold mode_reg, sreg, W5100_Sn_MR, W5100_Sn_CR, W5100_Sn_SR. lia.
Qed.
Next Obligation.
  intros i ds h Hok Hi (Hu & Hq & Hdg). exists ds. split; [done|].
  split; [by apply udp_send|]. split; [|done]. rewrite <- Hq. f_equal. by apply sim_rx_send.
Qed.
Next Obligation.
  intros d ds i h Hok Hi (Hu & Hq & Hdg) Hidle. exists ds. split; [done|].
  change ((d :: ds) ≫= frame) with (frame d ++ (ds ≫= frame)) in Hq.
  pose proof (rx_bound i h Hok Hi) as Hb. rewrite Hq, length_app in Hb. apply Forall_cons in Hdg as [_ Hdg].
  unfold advance. set (p := u16 _). set (l := [(sreg W5100_Sn_RX_RD i, p / 256); (sreg W5100_Sn_RX_RD i + 1, p mod 256)]).
  change (stores _ h) with (chip_store (sreg W5100_Sn_CR i) W5100_CMD_RECV (stores l h)).
  pose proof (sim_rx_write p i h Hi (u16_range _)) as Hwr. fold l in Hwr. cbv zeta in Hwr.
  change (sim_rxq i h) with (rx_of i h) in Hwr.
  assert (Hpend : rx_pending (sim_rxq i (stores l h)) = length (frame d)).
  { rewrite Hwr. unfold rx_pending. cbn [rx_ptr rx_start]. rewrite Hidle. unfold p, u16. zlia. }
  pose proof (sim_rx_recv i (stores l h) Hi) as Hrv. cbv zeta in Hrv. rewrite Hpend, Hwr in Hrv. cbn [rx_queue rx_taken rx_ptr] in Hrv.
  rewrite Hq in Hrv.
  split; [|split; [|done]].
  - apply sim_udp_recv; [done|]. 
    assert (Hside : ∀ k, 0 ≤ k < 2 → sreg W5100_Sn_RX_RD i + k ≠ W5100_MR ∧ ¬ mode_reg (sreg W5100_Sn_RX_RD i + k) i).
    { unfold mode_reg, sreg, is_sock, W5100_MR, W5100_Sn_MR, W5100_Sn_SR, W5100_Sn_RX_RD in *. lia. }
    destruct (Hside 0), (Hside 1); [lia..|]. rewrite Z.add_0_r in *.
    refine (udp_store _ _ i _ _ _ _ _ (udp_store _ _ i _ _ _ _ _ _)); try done. by apply store_ok.
  - change (rx_queue (rx_of i (chip_store (sreg W5100_Sn_CR i) W5100_CMD_RECV (stores l h)))) with
      (rx_queue (sim_rxq i (chip_store (sreg W5100_Sn_CR i) W5100_CMD_RECV (stores l h)))).
    rewrite Hrv by (rewrite length_app; lia). cbn [rx_queue]. by rewrite drop_app_length.
Qed.

(** ** Witnesses *)

(** A UDP socket with timeouts of two microseconds; then bound. *)
Definition udp_created : nstate sim clock_dummy :=
  after (CSetsockopt 3 SOL_SOCKET (inl (SO_RCVTIMEO (Timeval 0 2))))
    (after (CSetsockopt 3 SOL_SOCKET (inl (SO_SNDTIMEO (Timeval 0 2)))) (after (CSocket AF_INET SOCK_DGRAM 0) started)).
Definition udp_bound : nstate sim clock_dummy := after (CBind 3 (SockaddrIn AF_INET (htons 123) 0)) udp_created.

Lemma udp_created_well_formed : well_formed udp_created.
Proof.
  unfold udp_created. do 3 (apply after_well_formed; [|split; [intros ? [= <-]; lia|done]]). exact started_inv.
Qed.

Lemma udp_created_socket e : fd_socket udp_created 3 = Some e → s_fd_data e = Some 3 ∧ s_send_timeout e = Timespec 0 2000.
Proof.
  intros He. assert (Hs : (λ e, (s_fd_data e, s_send_timeout e)) <$> fd_socket udp_created 3 =
    Some (Some 3, Timespec 0 2000)) by (by vm_compute).
  rewrite He in Hs. clear He. simpl in Hs. injection Hs as -> ->. done.
Qed.

Definition some_peer : sockaddr_in := SockaddrIn AF_INET (htons 7) 16777343.
Definition ask : call := CSendto 3 [1; 2] 2 (Some some_peer).

Lemma ask_ok : call_ok ask udp_created.
Proof.
  split; [intros ? [= <-]; lia|]. split; [|done]. intros e [Hd _]%udp_created_socket. by rewrite Hd.
Qed.

Lemma ask_prompt : call_prompt 5 ask udp_created.
Proof.
  right. intros e [_ ->]%udp_created_socket.
  assert (Hn : n_rest udp_created = boot_clock) by (by vm_compute). rewrite Hn. clear Hn.
  split_and!; [done|done|by vm_compute|done|done|vm_compute; lia].
Qed.

Lemma udp_created_entry : ∃ e, n_socks udp_created !! 0%nat = Some e ∧ dgram_socket e ∧ s_state e = W5100_SOCK_STATE_CREATED.
Proof. eexists. split; [by vm_compute|]. split; [split; [done|by right]|done]. Qed.

Lemma udp_created_fd : own_fd (n_files udp_created) 0 3.
Proof. split; [done|]. eexists. split; [by vm_compute|done]. Qed.

Lemma udp_created_idle : sock_idle 0 (n_hw udp_created).
Proof. split; vm_compute; reflexivity. Qed.

Lemma sendto_datagram_witness :
  ∃ r s', sendto 5 zero_time 3 [1; 2] 2 (Some some_peer) udp_created = Done (r, s') ∧ well_formed s' ∧
    sendto_outcome 0 some_peer [1; 2] 2 r (n_hw udp_created) (n_hw s').
Proof.
  destruct udp_created_entry as (e & He & Hdg & Hst). assert (Hbs : Forall is_u8 [1; 2]) by (by repeat constructor).
  exact (sendto_datagram 5 zero_time 1 sim_responsive ltac:(lia) ltac:(lia) 3 0 e some_peer [1; 2] 2 udp_created
    udp_created_well_formed ask_ok ask_prompt udp_created_fd He Hdg (or_introl Hst) udp_created_idle Hbs).
Defined.

Example ask_asks :
  result (sendto 5 zero_time 3 [1; 2] 2 (Some some_peer)) udp_created = Some 2 ∧
  tx_sent (tx_of 0 (n_hw (after ask udp_created))) = [Packet [127; 0; 0; 1; 0; 7] [1; 2]].
Proof. vm_compute. done. Qed.

(** The bytes [bs] arrive in the empty receive queue of the socket 0. *)
Fixpoint ring_put (k : Z) (bs : list Z) (m : Z → Z) : Z → Z :=
  match bs with [] => m | b :: bs => <[24576 + k := b]> (ring_put (k + 1) bs m) end.
Definition arrive {X : Type} (bs : list Z) (s : nstate sim X) : nstate sim X :=
  let c := n_hw s in
  NState (Sim (sim_phase c) (ring_put 0 bs (sim_mem c)) (sim_cmd c) (<[0 := SimQ [] 0 [] 0 (length bs)]> (sim_q c)))
    (n_socks s) (n_files s) (n_errno s) (n_rest s).

Lemma ring_put_u8 bs k m : Forall is_u8 bs → (∀ a, is_u8 (m a)) → ∀ a, is_u8 (ring_put k bs m a).
Proof. intros Hbs. revert k. induction Hbs; intros k Hm; simpl; [exact Hm|]. apply insert_u8; auto. Qed.

Lemma ring_put_out bs k m a : 0 ≤ k → a < 24576 → ring_put k bs m a = m a.
Proof.
  revert k. induction bs as [|b bs IH]; intros k Hk Ha; [done|]. simpl. rewrite fn_lookup_insert_ne by lia. apply IH; lia.
Qed.

Lemma arrive_well_formed {X : Type} bs (s : nstate sim X) : Forall is_u8 bs → well_formed s → well_formed (arrive bs s).
Proof.
  intros Hbs Hinv. apply (inv_well_formed (λ b, cell b (n_hw s))). eapply table_inv_calm; [|exact Hinv].
  destruct (ti_chip _ _ _ _ Hinv) as [Hp Hm]. split; [split; [exact Hp|by apply ring_put_u8]|].
  intros b Hb. unfold kept in Hb. apply bool_decide_eq_true in Hb. apply ring_put_out; lia.
Qed.

(** Two datagrams wait on the bound socket, the second one empty. *)
Definition greeting : dgram := Dgram 16777343 (htons 7) [72; 73].
Definition nothing_said : dgram := Dgram 33554559 (htons 9) [].
Definition udp_greeted : nstate sim clock_dummy := arrive ([greeting; nothing_said] ≫= frame) udp_bound.

Lemma udp_bound_well_formed : well_formed udp_bound.
Proof. unfold udp_bound. apply after_well_formed; [exact udp_created_well_formed|]. split; [intros ? [= <-]; lia|done]. Qed.

Lemma udp_greeted_well_formed : well_formed udp_greeted.
Proof.
  apply arrive_well_formed; [|exact udp_bound_well_formed].
  assert (Hu : forallb (λ b, (0 <=? b) && (b <? 256)) ([greeting; nothing_said] ≫= frame) = true) by (by vm_compute).
  apply list.Forall_forall. intros b Hb. rewrite forallb_forall in Hu. apply list_elem_of_In in Hb. apply Hu in Hb. unfold is_u8. lia.
Qed.

Lemma udp_greeted_socket e : fd_socket udp_greeted 3 = Some e → s_fd_data e = Some 3 ∧ s_recv_timeout e = Timespec 0 2000.
Proof.
  intros He. assert (Hs : (λ e, (s_fd_data e, s_recv_timeout e)) <$> fd_socket udp_greeted 3 =
    Some (Some 3, Timespec 0 2000)) by (by vm_compute).
  rewrite He in Hs. clear He. simpl in Hs. injection Hs as -> ->. done.
Qed.

Lemma udp_greeted_data : data_fd udp_greeted 3.
Proof. intros e [Hd _]%udp_greeted_socket. by rewrite Hd. Qed.

Lemma udp_greeted_prompt : prompt 5 s_recv_timeout 0 udp_greeted 3.
Proof.
  right. intros e [_ ->]%udp_greeted_socket.
  assert (Hn : n_rest udp_greeted = boot_clock) by (by vm_compute). rewrite Hn. clear Hn.
  split_and!; [done|done|by vm_compute|done|done|vm_compute; lia].
Qed.

Lemma udp_greeted_entry : ∃ e, n_socks udp_greeted !! 0%nat = Some e ∧ dgram_socket e.
Proof. eexists. split; [by vm_compute|]. split; [done|by left]. Qed.

Lemma udp_greeted_fd : own_fd (n_files udp_greeted) 0 3.
Proof. split; [done|]. eexists. split; [by vm_compute|done]. Qed.

Lemma udp_greeted_idle : sock_idle 0 (n_hw udp_greeted).
Proof. split; vm_compute; reflexivity. Qed.

Lemma udp_greeted_waiting : waiting 0 [greeting; nothing_said] (n_hw udp_greeted).
Proof. split; [by vm_compute|]. split; [by vm_compute|]. by repeat constructor. Qed.

Definition big_buffer : list Z := replicate (Z.to_nat 2040) 0.
Lemma big_buffer_length : 2040 ≤ Z.of_nat (length big_buffer).
Proof. unfold big_buffer. rewrite length_replicate, Z2Nat.id by lia. lia. Qed.

Lemma recvfrom_datagram_witness :
  ∃ r s', recvfrom 5 zero_time 3 big_buffer 16 (Some some_peer) (Some 12) udp_greeted = Done (r, s') ∧ well_formed s' ∧
    received_dgram 0 [greeting; nothing_said] big_buffer (Some some_peer) (Some 12) (n_hw udp_greeted) r (n_hw s').
Proof.
  destruct udp_greeted_entry as (e & He & Hdg).
  exact (recvfrom_datagram 5 zero_time 1 sim_responsive ltac:(lia) ltac:(lia) 3 0 e [greeting; nothing_said] big_buffer 16
    (Some some_peer) (Some 12) udp_greeted udp_greeted_well_formed udp_greeted_data udp_greeted_prompt udp_greeted_fd He Hdg
    udp_greeted_idle udp_greeted_waiting ltac:(lia) big_buffer_length).
Defined.

(** The two datagrams, one after the other. *)
Definition receive_dgram : call := CRecvfrom 3 (replicate 4 0) 4 (Some some_peer) (Some 16).
Example receives_both :
  result (recvfrom 5 zero_time 3 (replicate 4 0) 4 (Some some_peer) (Some 16)) udp_greeted =
    Some (2, [72; 73; 0; 0], Some (SockaddrIn AF_INET (htons 7) 16777343), Some 12) ∧
  result (recvfrom 5 zero_time 3 (replicate 4 0) 4 (Some some_peer) (Some 16)) (after receive_dgram udp_greeted) =
    Some (0, [0; 0; 0; 0], Some (SockaddrIn AF_INET (htons 9) 33554559), Some 12).
Proof. vm_compute. done. Qed.
