(* ===== verification/W5100Client.v ===== *)
(** * A UDP client on the W5100 chip

    The calls that the network clients make of the interface [Sockets], one by
    one, as the driver of [src/w5100_socket.c] answers them: what each leaves on
    the wire, and that the socket of the client stays the client's. *)

From stdpp Require Import prelude list numbers functions gmap relations.
From S2P Require Import Prelude Timespec Clock Files Sockets Opencm3 W5100Spi W5100Socket W5100Chip W5100Ledger W5100Sent W5100Received W5100Table W5100Data W5100Calls W5100Net W5100Streams W5100Datagrams.

Section client.
Context {H X : Type} `{!SpiDevice H, !W5100 H, !W5100Bus H, !W5100Commands H, !W5100Transmit H, !W5100Udp H, !W5100Receive H, !W5100Datagrams H, !Clock X, !ClockTotal X}.
Context (fuel : nat) (junk : timespec).
#[local] Existing Instance any_clock.
Implicit Types (s : nstate H X).

(** Between the calls of a program. *)
Definition at_rest s : Prop := tables_ok s ∧ numbered s ∧ all_idle s.

(** The socket [i] is the client's, with the descriptor [fd]. *)
Definition client_socket (P : w5100_socket → Prop) (i fd : Z) s : Prop :=
  is_sock i ∧ ∃ e, n_socks s !! Z.to_nat i = Some e ∧ P e ∧ s_fd_data e = Some fd.
Definition new_socket (e : w5100_socket) : Prop := s_type e = SOCK_DGRAM ∧ s_state e = W5100_SOCK_STATE_CREATED.

Lemma new_dgram e : new_socket e → dgram_socket e.
Proof. intros []. split; [done|by right]. Qed.

Lemma client_own P i fd s : tables_ok s → client_socket P i fd s → own_fd (n_files s) i fd.
Proof. intros [Hwf _] (Hi & e & He & _ & Hfd). eapply held_own; [exact Hwf|done|done|by left]. Qed.

(** A call that moves no data. *)
Lemma quiet_call {A} (m : M (nstate H X) A) s (Q : A → nstate H X → Prop) :
  keeps moves_nothing m → at_rest s → twp Partial m s (λ a s', tables_ok s' ∧ Q a s') →
  twp Partial m s (λ a s', Q a s' ∧ at_rest s' ∧ duplex 0 [] [] (n_hw s) (n_hw s')).
Proof.
  intros Hk (Ht & Hn & Hid) Hm. eapply twp_mono; [|by eapply twp_keeps]. intros a s' [[Ht' HQ] Hmv].
  destruct (Hmv Hn) as [Hn' Hd]. split; [done|]. split; [|done]. split; [done|]. split; [done|].
  intros i Hi. by eapply duplex_idle, Hid.
Qed.

Lemma client_socket_call d s : at_rest s →
  twp Partial (W5100Socket.socket d SOCK_DGRAM 0) s (λ r s',
    ((r = -1 ∨ (0 ≤ r ∧ ∃ i, client_socket new_socket i r s')) ∧ n_rest s' = n_rest s) ∧
    at_rest s' ∧ duplex 0 [] [] (n_hw s) (n_hw s')).
Proof.
  intros Hr. apply quiet_call; [by apply mn_socket|done|]. destruct Hr as ([Hwf Hun] & _).
  eapply twp_mono; [|by apply (tp_socket Partial (λ b, cell b (n_hw s)) fuel)].
  intros r s' (Hinv & Hrest & Hun' & Ho & Hnew). split; [by destruct (inv_consistent s s' Hinv (Hun' Hun))|]. split; [|done].
  destruct Ho as [[-> _]|[Hpos _]]; [by left|right]. split; [done|].
  destruct (Hnew ltac:(lia)) as (i & e & Hi & He & Hfd & Hty & Hst). by exists i; split; [|exists e].
Qed.

(** [setsockopt] keeps all fields but those of the options. *)
Definition sock_kind (e : w5100_socket) : Z * w5100_socket_state * option Z := (s_type e, s_state e, s_fd_data e).
Lemma setsockopt_kind fd l o : keeps (λ s s', sock_kind <$> n_socks s' = sock_kind <$> n_socks s) (W5100Socket.setsockopt fd l o).
Proof.
  set (R := λ s s', _).
  assert (PreOrder R) by (split; [done|intros s1 s2 s3; unfold R; congruence]).
  assert (KeepsVar errno R) by (by intros g s).
  assert (KeepsVar H R) by (by intros g s). assert (KeepsVar ftable R) by (by intros g s).
  assert (Hs : ∀ i g, (∀ e, sock_kind (g e) = sock_kind e) → keeps R (sock_update i g)).
  { intros i g Hg. by apply sock_update_same. }
  pose proof (keeps_get_socket R). pose proof (keeps_fail R). unfold W5100Socket.setsockopt. keeps_solve; by apply Hs.
Qed.

Lemma setsockopt_rest fd l o : keeps (λ s s', n_rest s' = n_rest s) (W5100Socket.setsockopt fd l o).
Proof.
  set (R := λ s s', _). assert (PreOrder R) by (split; [done|intros s1 s2 s3; unfold R; congruence]).
  assert (KeepsVar errno R) by (by intros g s). assert (KeepsVar H R) by (by intros g s).
  assert (KeepsVar ftable R) by (by intros g s). assert (KeepsVar socktab R) by (by intros g s).
  apply (keeps_setsockopt R). intros. by apply keeps_sock_update.
Qed.

Lemma client_setsockopt i fd o s : at_rest s → client_socket new_socket i fd s →
  twp Partial (W5100Socket.setsockopt fd SOL_SOCKET (inl o)) s (λ _ s',
    (client_socket new_socket i fd s' ∧ n_rest s' = n_rest s) ∧ at_rest s' ∧ duplex 0 [] [] (n_hw s) (n_hw s')).
Proof.
  intros Hr (Hi & e & He & Hnew & Hfd). apply quiet_call; [apply mn_setsockopt|done|].
  eapply twp_mono; [|eapply twp_keeps; [apply setsockopt_kind|eapply twp_keeps; [apply setsockopt_rest|apply driver_setsockopt, Hr]]].
  intros r s' [[(Ht & _) Hrest] Hk]. split; [done|]. split; [|done]. split; [done|].
  assert (He' : (sock_kind <$> n_socks s) !! Z.to_nat i = Some (sock_kind e)) by (by rewrite list_lookup_fmap, He).
  rewrite <- Hk, list_lookup_fmap in He'. destruct (n_socks s' !! Z.to_nat i) as [e'|]; [|done].
  simpl in He'. injection He' as Ety Est Efd. exists e'. unfold new_socket in *. by rewrite Ety, Est, Efd.
Qed.

(** Reading the clock concerns neither the driver nor the chip. *)
Lemma client_clock id tp s (Q : Z * timespec → nstate H X → Prop) :
  (∀ r x, clock_gettime id tp (n_rest s) = Done (r, x) →
     Q r (NState (n_hw s) (n_socks s) (n_files s) (n_errno s) x)) →
  twp Partial (clock_gettime id tp) s Q.
Proof.
  intros HQ. unfold twp, clock_gettime at 1, nstate_clock.
  destruct (clock_gettime id tp (n_rest s)) as [[r x]| |]; [by apply HQ|done..].
Qed.

Lemma at_rest_clock s x : at_rest s → at_rest (NState (n_hw s) (n_socks s) (n_files s) (n_errno s) x).
Proof. done. Qed.

#[local] Existing Instances same_numbers_order same_numbers_hw same_numbers_files same_numbers_errno same_numbers_clock.

(** After a transfer the numbers of the sockets are those before. *)
Lemma transfer_rest s s' i o n : at_rest s → tables_ok s' → same_numbers s s' → duplex i o n (n_hw s) (n_hw s') → at_rest s'.
Proof.
  intros (_ & [_ Hn] & Hid) Ht Hk Hd. split; [done|]. split; [split; [by eapply duplex_ok|by eapply same_numbers_numbered]|].
  intros j Hj. by eapply duplex_idle, Hid.
Qed.

(** What [sendto] hands over: a datagram with the bytes it counts, or none; the
    receive queue holds whole datagrams from then on. *)
Lemma client_sendto i fd peer bs s : at_rest s → client_socket new_socket i fd s → Forall is_u8 bs →
  Z.of_nat (length bs) < 4294967296 →
  twp Partial (W5100Socket.sendto fuel junk fd bs (u32 (Z.of_nat (length bs))) (Some peer)) s (λ r s',
    sendto_outcome i peer bs (Z.of_nat (length bs)) r (n_hw s) (n_hw s') ∧ at_rest s' ∧
    client_socket dgram_socket i fd s' ∧ ∃ ds, waiting i ds (n_hw s')).
Proof.
  intros Hr Hsock Hbs Hlen. pose proof Hr as (Ht & Hn & Hid). pose proof (client_own _ i fd s Ht Hsock) as Hown.
  destruct Hsock as (Hi & e & He & Hnew & Hfd). rewrite u32_id by (unfold is_u32; lia).
  eapply twp_mono; [|apply twp_both; [|apply twp_both]].
  2: { eapply (pp_sendto fuel junk i _ Hi (waiting_kept i Hi) fd e peer bs); [apply Ht|done|done|by apply new_dgram|
         left; apply Hnew|by apply Hid|done|lia]. }
  2: { rewrite <- (u32_id (Z.of_nat (length bs))) by (unfold is_u32; lia). by apply driver_sendto. }
  2: { apply keeps_twp. apply keeps_and with same_descriptors same_numbers; [| |intros s1 s2 Hd Hk; exact (conj Hd Hk)];
         apply keeps_sendto; try apply _; intros; [by apply same_descriptors_sock|by apply same_numbers_sock]. }
  intros r s' [(Hout & Hw & e' & He' & Hdg) [(Ht' & _) [Hdesc Hk]]]. split; [done|].
  assert (Hd : ∃ o, duplex i o [] (n_hw s) (n_hw s')).
  { destruct Hout as [[_ [?|[_ ?]]]|[_ ?]]; by eexists. }
  destruct Hd as [o Hd]. split; [by eapply transfer_rest|]. split; [|done]. split; [done|]. exists e'. split; [done|]. split; [done|].
  assert (Hl : descriptors (n_socks s') !! Z.to_nat i = Some (s_fd_data e, s_connection e)).
  { rewrite Hdesc. unfold descriptors. by rewrite list_lookup_fmap, He. }
  unfold descriptors in Hl. rewrite list_lookup_fmap, He' in Hl. injection Hl as Efd _. by rewrite Efd.
Qed.

(** What [recv] takes: the next datagram, whole, or none. *)
Definition dgram_taken (i : Z) (buf : list Z) (h : H) (r : Z * list Z) (h' : H) : Prop :=
  (r = (-1, buf) ∧ duplex i [] [] h h') ∨
  ∃ d, r = (Z.of_nat (length (dg_data d)), dg_data d ++ drop (length (dg_data d)) buf) ∧ duplex i [] (frame d) h h'.

Lemma client_recv i fd ds buf s : at_rest s → client_socket dgram_socket i fd s → waiting i ds (n_hw s) →
  0 < Z.of_nat (length buf) < 4294967296 →
  twp Partial (W5100Socket.recv fuel junk fd buf (u32 (Z.of_nat (length buf)))) s (λ r s',
    dgram_taken i buf (n_hw s) r (n_hw s') ∧ at_rest s' ∧ length r.2 = length buf ∧ (Forall is_u8 buf → Forall is_u8 r.2)).
Proof.
  intros Hr Hsock Hw Hlen. pose proof Hr as (Ht & Hn & Hid). pose proof (client_own _ i fd s Ht Hsock) as Hown.
  destruct Hsock as (Hi & e & He & Hdg & Hfd). unfold W5100Socket.recv. twp_step. 
  eapply twp_mono; [|apply twp_both; [|apply twp_both]].
  2: { eapply (tp_recvfrom_dgram Partial fuel junk) with (i := i) (e := e) (ds := ds);
         [done|done|apply Ht|done|done|done|by apply Hid|done|rewrite u32_id by (unfold is_u32; lia); lia|done..]. }
  2: { by apply driver_recvfrom. }
  2: { apply keeps_twp. apply (keeps_recvfrom same_numbers). intros. by apply same_numbers_sock. }
  intros [[[r b] a] al] s' [Htaken [[Hok (Ht' & _)] Hk]]. apply twp_ret.
  assert (Htk : dgram_taken i buf (n_hw s) (r, b) (n_hw s')).
  { destruct Htaken as (ds' & _ & [(Hr1 & _ & ?)|(d & Hr1 & _ & ?)]); [left|right; exists d]; (split; [|done]);
      [congruence|]. unfold dgram_result in Hr1. congruence. }
  split; [done|]. split; [|by destruct Hok as (? & ? & _)].
  destruct Htk as [[_ Hd]|(d & _ & Hd)]; by eapply transfer_rest.
Qed.

Lemma client_close fd s : at_rest s →
  twp Partial (@_close _ _ _ (driver_calls fuel junk) fd) s (λ _ s', at_rest s' ∧ duplex 0 [] [] (n_hw s) (n_hw s')).
Proof.
  intros Hr. eapply twp_mono; [|apply (quiet_call _ s (λ _ _, True)); [|done|]]; [by intros a s' [_ ?]| |].
  - pose proof (mn_close (H:=H) (X:=X) fuel). pose proof (keeps_fd_at (H:=H) (X:=X) moves_nothing).
    pose proof (keeps_fd_update (H:=H) (X:=X) moves_nothing).
    unfold _close, drv_close, driver_calls, set_errno. keeps_solve; apply keeps_var.
  - eapply twp_mono; [|by apply driver_close, Hr]. intros a s' (? & _). done.
Qed.
End client.
