(* ===== verification/Programs.v ===== *)
(** * The network programs on a board with the W5100 chip

    The clients ([w5100_dhcp.c], [sntp.c], [rfc868_time.c], [timesync.c],
    [getaddrinfo.c], [gethostbyname.c]) linked with the socket driver
    ([w5100_socket.c]) and the system calls, as the programs of the repository
    are. The clients are the definitions of [W5100Dhcp], [Sntp], [Rfc868],
    [Timesync] and [Netdb]; the laws they are proved against are those that
    [W5100Net] shows of the driver. *)

From stdpp Require Import prelude list numbers functions gmap relations.
From S2P Require Import Prelude Timespec Clock ClockDummy Inet Files Sockets Dhcp Sntp Rfc868 Timesync Netdb.
From S2P Require Import Opencm3 W5100Spi W5100Socket W5100Chip W5100Table W5100Data W5100Calls W5100Dhcp W5100Net.

(** ** The variables of the clients

    [v_env] is the state of what is not modelled here: the clock, [rand]. *)
Record net_vars (E : Type) := NetVars {
  v_binding : dhcp_binding;
  v_dhcp : w5100_dhcp_state;
  v_sntp : sntp;
  v_rfc868 : rfc868;
  v_syncing : syncing;
  v_heap : Netdb.heap;
  v_resolver : resolver;
  v_hosts : hostdb;
  v_env : E;
}.
Arguments NetVars {E}. Arguments v_binding {E}. Arguments v_dhcp {E}. Arguments v_sntp {E}. Arguments v_rfc868 {E}.
Arguments v_syncing {E}. Arguments v_heap {E}. Arguments v_resolver {E}. Arguments v_hosts {E}. Arguments v_env {E}.

Section vars.
Context {E : Type}.

#[export] Instance has_binding : Has dhcp_binding (net_vars E) :=
  {| proj := v_binding; upd := λ c '(NetVars _ d s r y h n o e), NetVars c d s r y h n o e |}.
#[export] Instance has_dhcp : Has w5100_dhcp_state (net_vars E) :=
  {| proj := v_dhcp; upd := λ c '(NetVars b _ s r y h n o e), NetVars b c s r y h n o e |}.
#[export] Instance has_sntp : Has sntp (net_vars E) :=
  {| proj := v_sntp; upd := λ c '(NetVars b d _ r y h n o e), NetVars b d c r y h n o e |}.
#[export] Instance has_rfc868 : Has rfc868 (net_vars E) :=
  {| proj := v_rfc868; upd := λ c '(NetVars b d s _ y h n o e), NetVars b d s c y h n o e |}.
#[export] Instance has_syncing : Has syncing (net_vars E) :=
  {| proj := v_syncing; upd := λ c '(NetVars b d s r _ h n o e), NetVars b d s r c h n o e |}.
#[export] Instance has_heap : Has Netdb.heap (net_vars E) :=
  {| proj := v_heap; upd := λ c '(NetVars b d s r y _ n o e), NetVars b d s r y c n o e |}.
#[export] Instance has_resolver : Has resolver (net_vars E) :=
  {| proj := v_resolver; upd := λ c '(NetVars b d s r y h _ o e), NetVars b d s r y h c o e |}.
#[export] Instance has_hosts : Has hostdb (net_vars E) :=
  {| proj := v_hosts; upd := λ c '(NetVars b d s r y h n _ e), NetVars b d s r y h n c e |}.
#[export] Instance has_env : Has E (net_vars E) | 20 :=
  {| proj := v_env; upd := λ c '(NetVars b d s r y h n o _), NetVars b d s r y h n o c |}.

#[export] Instance binding_laws : HasLaws dhcp_binding (net_vars E).
Proof. split; by repeat intros []. Qed.
#[export] Instance dhcp_laws : HasLaws w5100_dhcp_state (net_vars E).
Proof. split; by repeat intros []. Qed.
#[export] Instance sntp_laws : HasLaws sntp (net_vars E).
Proof. split; by repeat intros []. Qed.
#[export] Instance rfc868_laws : HasLaws rfc868 (net_vars E).
Proof. split; by repeat intros []. Qed.
#[export] Instance heap_laws : HasLaws Netdb.heap (net_vars E).
Proof. split; by repeat intros []. Qed.
#[export] Instance binding_dhcp : Indep dhcp_binding w5100_dhcp_state (net_vars E).
Proof. intros d []. done. Qed.
#[export] Instance dhcp_binding_ : Indep w5100_dhcp_state dhcp_binding (net_vars E).
Proof. intros d []. done. Qed.

(** The clock and [rand] are those of the environment. *)
Definition env_call {A} (m : M E A) : M (net_vars E) A := λ s,
  match m (v_env s) with Done (a, e) => Done (a, upd e s) | Fault => Fault | Hang => Hang end.
#[export] Instance vars_clock `{!Clock E} : Clock (net_vars E) := λ id tp, env_call (clock_gettime id tp).
#[export] Instance vars_settime `{!ClockSettime E} : ClockSettime (net_vars E) := λ id tp,
  env_call (clock_settime id tp).
#[export] Instance vars_rand `{!Rand E} : Rand (net_vars E) := env_call rand.
End vars.

#[export] Instance nstate_settime {H X} `{!ClockSettime X} : ClockSettime (nstate H X) := λ id tp s,
  match clock_settime id tp (n_rest s) with
  | Done (r, x) => Done (r, NState (n_hw s) (n_socks s) (n_files s) (n_errno s) x)
  | Fault => Fault
  | Hang => Hang
  end.

(** What the environment does, no component of the clients sees. *)
Lemma env_call_rest {E A} (m : M E A) (s : net_vars E) a s' : env_call m s = Done (a, s') →
  ∃ e, m (v_env s) = Done (a, e) ∧ s' = upd e s.
Proof. unfold env_call. destruct (m (v_env s)) as [[b e]| |]; [|done..]. intros [= <- <-]. eauto. Qed.

#[export] Instance vars_clock_total {E} `{!Clock E, !ClockTotal E} : ClockTotal (net_vars E).
Proof.
  intros id tp s. destruct (clock_total id tp (v_env s)) as (r & e & He). exists r, (upd e s).
  unfold clock_gettime, vars_clock, env_call. by rewrite He.
Qed.
#[export] Instance vars_clock_aside {C E} `{!Clock E, !Has C (net_vars E), !Indep C E (net_vars E)} :
  ClockAside C (net_vars E).
Proof. intros id tp x r x' (e & _ & ->)%env_call_rest. apply indep_proj. Qed.
#[export] Instance vars_rand_aside {C E} `{!Rand E, !Has C (net_vars E), !Indep C E (net_vars E)} :
  RandAside C (net_vars E).
Proof. intros x r x' (e & _ & ->)%env_call_rest. apply indep_proj. Qed.
#[export] Instance binding_syncing {E} : Indep dhcp_binding syncing (net_vars E).
Proof. intros d []. done. Qed.
#[export] Instance dhcp_syncing {E} : Indep w5100_dhcp_state syncing (net_vars E).
Proof. intros d []. done. Qed.
#[export] Instance binding_heap {E} : Indep dhcp_binding Netdb.heap (net_vars E).
Proof. intros d []. done. Qed.
#[export] Instance dhcp_heap {E} : Indep w5100_dhcp_state Netdb.heap (net_vars E).
Proof. intros d []. done. Qed.
#[export] Instance binding_hosts {E} : Indep dhcp_binding hostdb (net_vars E).
Proof. intros d []. done. Qed.
#[export] Instance dhcp_hosts {E} : Indep w5100_dhcp_state hostdb (net_vars E).
Proof. intros d []. done. Qed.
#[export] Instance binding_env {E} : Indep dhcp_binding E (net_vars E).
Proof. intros d []. done. Qed.
#[export] Instance dhcp_env {E} : Indep w5100_dhcp_state E (net_vars E).
Proof. intros d []. done. Qed.
#[export] Instance sntp_env {E} : Indep sntp E (net_vars E).
Proof. intros d []. done. Qed.
#[export] Instance rfc868_env {E} : Indep rfc868 E (net_vars E).
Proof. intros d []. done. Qed.
#[export] Instance heap_env {E} : Indep Netdb.heap E (net_vars E).
Proof. intros d []. done. Qed.

(** ** What a client leaves alone *)

Section aside.
Context {H E : Type} `{!SpiDevice H, !W5100 H, !W5100Bus H, !W5100Commands H, !Clock E, !ClockTotal E,
  !ClockSettime E, !Rand E}.
Implicit Types (s : nstate H (net_vars E)).
Context (fuel : nat) (junk : timespec).
#[local] Instance calls : Sockets (nstate H (net_vars E)) := driver_sockets fuel junk.
#[local] Instance laws {C} `{!Has C (net_vars E), !HasLaws C (net_vars E), !Indep C E (net_vars E)} :
  SocketsLaws Partial C (nstate H (net_vars E)) := driver_laws fuel junk.

(** The tables stay consistent, with the same sockets open; the registers of the
    interface and the variables of the DHCP client are what they were. *)
Definition idle s s' : Prop :=
  tables_ok s → tables_ok s' ∧ held (n_socks s') = held (n_socks s) ∧
    (∀ b, 1 ≤ b < 19 → cell b (n_hw s') = cell b (n_hw s)) ∧
    v_binding (n_rest s') = v_binding (n_rest s) ∧ v_dhcp (n_rest s') = v_dhcp (n_rest s).

(** It is the meet of what the driver keeps. *)
Definition same_sockets s s' : Prop := tables_ok s → tables_ok s' ∧ held (n_socks s') = held (n_socks s).
#[local] Instance same_sockets_order : PreOrder same_sockets.
Proof. exact (same_network_order (t:=Partial) (C:=dhcp_binding) (S:=nstate H (net_vars E))). Qed.

Lemma idle_parts s s' : same_sockets s s' → consistent s s' →
  same_component (C:=dhcp_binding) s s' → same_component (C:=w5100_dhcp_state) s s' → idle s s'.
Proof. intros Hn Hc Hb Hd Hok. destruct (Hn Hok), (Hc Hok). by split_and!. Qed.

Definition rest_kept s s' : Prop :=
  consistent s s' ∧ same_component (C:=dhcp_binding) s s' ∧ same_component (C:=w5100_dhcp_state) s s'.
#[local] Instance rest_kept_order : PreOrder rest_kept.
Proof.
  split; [done|]. intros s1 s2 s3 (? & ? & ?) (? & ? & ?). split_and!; by etrans.
Qed.

(** A change of the rest, but not of the DHCP client. *)
Lemma keeps_rest {A} (m : M (nstate H (net_vars E)) A) :
  (∀ s a s', m s = Done (a, s') → ∃ x, s' = NState (n_hw s) (n_socks s) (n_files s) (n_errno s) x ∧
     v_binding x = v_binding (n_rest s) ∧ v_dhcp x = v_dhcp (n_rest s)) →
  keeps rest_kept m ∧ keeps same_sockets m.
Proof.
  intros Hm. split; intros s; destruct (m s) as [[a s']| |] eqn:E1; try done;
    destruct (Hm s a s' E1) as (x & -> & Hb & Hd); [|done].
  split; [done|]. by split.
Qed.

(** What the environment does. *)
Lemma env_rest {A} (m : M E A) (m' : M (nstate H (net_vars E)) A) :
  (∀ s, m' s = match env_call m (n_rest s) with
    | Done (a, x) => Done (a, NState (n_hw s) (n_socks s) (n_files s) (n_errno s) x)
    | Fault => Fault | Hang => Hang end) →
  keeps rest_kept m' ∧ keeps same_sockets m'.
Proof.
  intros Hm. apply keeps_rest. intros s a s'. rewrite Hm.
  destruct (env_call m (n_rest s)) as [[b x]| |] eqn:E1; [|done..]. intros [= <- <-].
  apply env_call_rest in E1 as (e & _ & ->). exists (upd e (n_rest s)). by destruct (n_rest s).
Qed.

Lemma clock_rest id tp : keeps rest_kept (clock_gettime id tp) ∧ keeps same_sockets (clock_gettime id tp).
Proof. by apply (env_rest (clock_gettime id tp)). Qed.
Lemma settime_rest id tp : keeps rest_kept (clock_settime id tp) ∧ keeps same_sockets (clock_settime id tp).
Proof. by apply (env_rest (clock_settime id tp)). Qed.
Lemma rand_rest : keeps rest_kept rand ∧ keeps same_sockets rand.
Proof. by apply (env_rest rand). Qed.

#[local] Instance rest_kept_clock : KeepsClock rest_kept := λ id tp, proj1 (clock_rest id tp).
#[local] Instance network_clock : KeepsClock same_sockets := λ id tp, proj2 (clock_rest id tp).
#[local] Instance rest_kept_settime : KeepsSettime rest_kept := λ id tp, proj1 (settime_rest id tp).
#[local] Instance network_settime : KeepsSettime same_sockets := λ id tp, proj2 (settime_rest id tp).
#[local] Instance rest_kept_rand : KeepsRand rest_kept := proj1 rand_rest.
#[local] Instance network_rand : KeepsRand same_sockets := proj2 rand_rest.

#[local] Instance rest_kept_sockets : KeepsSockets rest_kept.
Proof.
  eapply keeps_sockets_and; [apply driver_consistent|eapply keeps_sockets_and;
    [apply (driver_component (C:=dhcp_binding))|apply (driver_component (C:=w5100_dhcp_state))|]|].
  - intros s s' Hb Hd. exact (conj Hb Hd : (λ s s', _ ∧ _) s s').
  - intros s s' ? [? ?]. by split_and!.
Qed.

(** Variables of the clients that the DHCP client does not read. *)
Lemma var_rest {C} `{!Has C (net_vars E), !Indep dhcp_binding C (net_vars E), !Indep w5100_dhcp_state C (net_vars E)}
    (g : C → C) :
  keeps rest_kept (modifyc g) ∧ keeps same_sockets (modifyc (S:=nstate H (net_vars E)) g).
Proof.
  apply keeps_rest. intros s a s' [= _ <-]. eexists. split; [done|]. split.
  - exact (indep_proj (C:=dhcp_binding) (D:=C) _ (n_rest s)).
  - exact (indep_proj (C:=w5100_dhcp_state) (D:=C) _ (n_rest s)).
Qed.

#[local] Instance rest_kept_heap : KeepsVar Netdb.heap rest_kept := λ g, proj1 (var_rest g).
#[local] Instance rest_kept_hosts : KeepsVar hostdb rest_kept := λ g, proj1 (var_rest g).
#[local] Instance rest_kept_syncing : KeepsVar syncing rest_kept := λ g, proj1 (var_rest g).
#[local] Instance network_heap : KeepsVar Netdb.heap same_sockets := λ g, proj2 (var_rest g).
#[local] Instance network_hosts : KeepsVar hostdb same_sockets := λ g, proj2 (var_rest g).
#[local] Instance network_syncing : KeepsVar syncing same_sockets := λ g, proj2 (var_rest g).

(** ** The clients *)
Section clients.
Context (junk_ts : timespec) (junk_ntp junk_word junk_dns : list Z) (Hntp : length junk_ntp = 48%nat) (Hntp8 : Forall is_u8 junk_ntp).
Context (alloc_fails : Netdb.heap → Z → bool) (junk_ptr : ptr).

Lemma keeps_idle {A} (m : M (nstate H (net_vars E)) A) :
  keeps rest_kept m → keeps same_sockets m → keeps idle m.
Proof. intros Hr Hn. eapply keeps_and; [exact Hr|exact Hn|]. intros s s' (? & ? & ?) ?. by apply idle_parts. Qed.

Lemma same_sockets_twp {A} (m : M (nstate H (net_vars E)) A) :
  (∀ s, tables_ok s → twp Partial m s (λ _ s', tables_ok s' ∧ held (n_socks s') = held (n_socks s))) →
  keeps same_sockets m.
Proof. intros Hm s. specialize (Hm s). unfold twp in Hm. destruct (m s) as [[a s']| |]; [|done..]. exact Hm. Qed.

(** Reading the clock, for the clients whose variables are [C]. *)
Lemma clock_quiet {C} `{!Has C (net_vars E), !Indep C E (net_vars E)} id tp s : tables_ok s →
  twp Partial (clock_gettime id tp) s (λ _ s', tables_ok s' ∧ held (n_socks s') = held (n_socks s) ∧
    proj (C:=C) s' = proj s).
Proof.
  intros Hok. eapply twp_mono; [|apply (twp_keeps (same_component (C:=C)) Partial (clock_gettime id tp) s
    (λ _ s', same_sockets s s')); [apply same_component_clock|apply keeps_twp, network_clock]].
  intros a s' [Hs Hc]. by destruct (Hs Hok).
Qed.

Lemma sntp_network ts : keeps same_sockets (sntp_gettime junk_ts junk_ntp ts).
Proof.
  apply same_sockets_twp. intros s Hn.
  eapply twp_mono; [|apply (twp_sntp_gettime Partial junk_ts junk_ntp Hntp Hntp8); [|exact Hn]].
  - intros r s' (? & ? & _). done.
  - intros id tp s1 Hn1. exact (clock_quiet (C:=sntp) id tp s1 Hn1).
Qed.
Lemma rfc868_network ts : keeps same_sockets (rfc868_gettime junk_word ts).
Proof.
  apply same_sockets_twp. intros s Hn. apply twp_bind, twp_gets, twp_bind.
  eapply twp_mono; [|apply (twp_rfc868_gettime32 Partial (S:=nstate H (net_vars E))); exact Hn].
  intros n s' (? & ? & _). repeat case_decide; by apply twp_ret.
Qed.

Lemma netdb_network fuel' node serv hints res :
  keeps same_sockets (getaddrinfo alloc_fails junk_dns fuel' node serv hints res).
Proof.
  pose proof (network_rand : KeepsRand (same_network (C:=Netdb.heap) (S:=nstate H (net_vars E)) (t:=Partial))).
  exact (getaddrinfo_closes (S:=nstate H (net_vars E)) (t:=Partial) alloc_fails junk_dns fuel' node serv hints res).
Qed.

(** No client leaves a socket open, and only [w5100_dhcp] touches the interface. *)
Lemma idle_sntp_gettime ts : keeps idle (sntp_gettime junk_ts junk_ntp ts).
Proof. apply keeps_idle; [apply keeps_sntp_gettime; apply _|apply sntp_network]. Qed.
Lemma idle_rfc868_gettime ts : keeps idle (rfc868_gettime junk_word ts).
Proof. apply keeps_idle; [apply keeps_rfc868_gettime; apply _|apply rfc868_network]. Qed.
Lemma idle_timesync meth : keeps idle (timesync meth junk_ts junk_ntp junk_word).
Proof.
  apply keeps_idle; apply keeps_timesync; try apply _.
  - intros ts. apply keeps_rfc868_gettime; apply _.
  - intros ts. apply keeps_sntp_gettime; apply _.
  - apply rfc868_network.
  - apply sntp_network.
Qed.
Lemma rest_kept_getaddrinfo fuel' node serv hints res :
  keeps rest_kept (getaddrinfo alloc_fails junk_dns fuel' node serv hints res).
Proof. apply keeps_getaddrinfo; try apply _; intros; [apply ks_send|apply ks_recv]. Qed.
Lemma idle_getaddrinfo fuel' node serv hints res :
  keeps idle (getaddrinfo alloc_fails junk_dns fuel' node serv hints res).
Proof.
  apply keeps_idle; [apply rest_kept_getaddrinfo|apply netdb_network].
Qed.
Lemma idle_gethostbyname fuel' name : keeps idle (gethostbyname alloc_fails junk_dns junk_ptr fuel' name).
Proof.
  apply keeps_idle; apply keeps_gethostbyname; try apply _; intros node res.
  - apply rest_kept_getaddrinfo.
  - apply netdb_network.
Qed.
End clients.

(** ** The DHCP client *)

(** What [w5100_dhcp] relies on: its own binding is consistent, and the chip
    shows what has been configured. *)
Definition dhcp_started s : Prop := initialized (v_dhcp (n_rest s)) = true → client_inv (v_binding (n_rest s)).

(** A bound client's binding is in the registers of the interface. *)
Definition binding_on_chip s : Prop :=
  let b := v_binding (n_rest s) in let h := n_hw s in
  initialized (v_dhcp (n_rest s)) = true → isbound b = true → client b ≠ 0 →
  reg_cells W5100_SIPR h = le_bytes 4 (client b) ∧ reg_cells W5100_GAR h = le_bytes 4 (gateway b) ∧
  reg_cells W5100_SUBR h = le_bytes 4 (subnet b).

Definition board_ok s : Prop :=
  tables_ok s ∧ configured (H:=H) s ∧ dhcp_started s ∧ binding_on_chip s.

Lemma reg_cells_keep reg (h h' : H) : 1 ≤ reg → reg + 4 ≤ 19 →
  (∀ b, 1 ≤ b < 19 → cell b h' = cell b h) → reg_cells reg h' = reg_cells reg h.
Proof.
  intros Hr Hr4 Hc. apply list_fmap_ext. intros i a Ha. pose proof (addr_reg_plain reg Hr Hr4) as Hp.
  rewrite Forall_lookup in Hp. by apply Hc, (Hp i a Ha).
Qed.

Lemma board_ok_idle s s' : idle s s' → board_ok s → board_ok s' ∧ held (n_socks s') = held (n_socks s).
Proof.
  intros Hi (Ht & Hc & Hs & Hb). destruct (Hi Ht) as (Ht' & Hh & Hcell & Eb & Ed). split; [|done].
  split; [done|]. unfold dhcp_started, binding_on_chip. rewrite Eb, Ed. split; [|split; [done|]].
  - destruct Hc as (Hok & H1 & H2 & H3). unfold configured.
    assert (Hd : proj (C:=w5100_dhcp_state) s' = proj s) by exact Ed. rewrite Hd. split; [apply Ht'|]. split_and!; (eapply shows_keep; [done|done| |eassumption]); auto.
  - cbv zeta. rewrite !(reg_cells_keep _ (n_hw s) (n_hw s')) by done. exact Hb.
Qed.

(** The registers of the interface may be written. *)
Lemma tables_ok_chip (h : H) s : tables_ok s → reconfigured (n_hw s) h → tables_ok (upd h s).
Proof.
  intros [[Hok Hl Hfl Hop Hsocks _] Hun] Hr. destruct (Hr Hok) as [Hok' Hcell]. split; [|done].
  split; [done..| |done]. intros i e Hi He. destruct (Hsocks i e Hi He) as [?|[]]; [by left|right].
  split; try done. simpl. rewrite Hcell; [done|by apply kept_plain, kept_mode|].
  unfold is_sock, sreg, W5100_Sn_MR in *. lia.
Qed.

#[local] Instance interface_sockets : KeepsSockets (same_interface (H:=H) (S:=nstate H (net_vars E)) Partial).
Proof.
  eapply keeps_sockets_and; [apply driver_consistent|apply (driver_component (C:=w5100_dhcp_state))|].
  intros s s' Hc Hd. split; [|done]. intros Hn _. destruct (Hc Hn) as [Hn' Hcell].
  split; [done|]. split; [apply Hn'|done].
Qed.
Lemma rest_kept_interface {A} (m : M (nstate H (net_vars E)) A) :
  keeps rest_kept m → keeps (same_interface (H:=H) Partial) m.
Proof.
  intros Hm. eapply keeps_and; [exact Hm|exact Hm|]. intros s s' (Hc & _ & Hd) _. split; [|done].
  intros Hn _. destruct (Hc Hn) as [Hn' Hcell]. split; [done|]. split; [apply Hn'|done].
Qed.
#[local] Instance interface_clock : KeepsClock (same_interface (H:=H) (S:=nstate H (net_vars E)) Partial).
Proof. intros id tp. apply rest_kept_interface, keeps_clock. Qed.
#[local] Instance interface_rand : KeepsRand (same_interface (H:=H) (S:=nstate H (net_vars E)) Partial).
Proof. apply rest_kept_interface, keeps_rand. Qed.

Context (junk_ts : timespec) (junk_msg : list Z) (Hmsg : length junk_msg = DHCP_MESSAGE_LEN_MAX)
  (Hmsg8 : Forall is_u8 junk_msg).

Lemma board_ok_dhcp fuel' s : board_ok s →
  twp Partial (w5100_dhcp junk_ts junk_msg fuel') s
    (λ _ s', board_ok s' ∧ held (n_socks s') = held (n_socks s)).
Proof.
  intros (Ht & Hc & Hs & Hb).
  eapply twp_mono; [|apply (twp_w5100_dhcp (H:=H) (S:=nstate H (net_vars E)) Partial)];
    try apply interface_sockets; try apply interface_clock; try apply interface_rand; try done.
  - intros next s' (Ht' & Hc' & _ & Hi & Ho & Hcell). split; [|exact Ho]. split; [exact Ht'|]. split; [exact Hc'|].
    split; [by intros _|]. intros _. exact Hcell.
  - intros h s1 Hn1 Hr. split; [by apply tables_ok_chip|done].
  - intros id tp s1 Hn1. eapply twp_mono; [|apply (clock_quiet (C:=dhcp_binding) id tp s1 Hn1)].
    intros r s' (? & ? & ?). by split_and!.
  - intros s1 Hn1. eapply twp_mono; [|apply (twp_keeps rest_kept Partial rand s1 (λ _ s', same_sockets s1 s'));
      [apply keeps_rand|apply keeps_twp, network_rand]].
    intros r s' [Hs1 (_ & Hb1 & _)]. destruct (Hs1 Hn1). by split_and!.
Qed.

(** A program that uses the clients in any order. *)
Context (junk_ntp junk_word junk_dns : list Z) (Hntp : length junk_ntp = 48%nat) (Hntp8 : Forall is_u8 junk_ntp).
Context (alloc_fails : Netdb.heap → Z → bool) (junk_ptr : ptr).

Inductive program_step s s' : Prop :=
| step_dhcp n r : w5100_dhcp junk_ts junk_msg n s = Done (r, s') → program_step s s'
| step_sntp ts r : sntp_gettime junk_ts junk_ntp ts s = Done (r, s') → program_step s s'
| step_rfc868 ts r : rfc868_gettime junk_word ts s = Done (r, s') → program_step s s'
| step_timesync meth r : timesync meth junk_ts junk_ntp junk_word s = Done (r, s') → program_step s s'
| step_getaddrinfo n node serv hints res r :
    getaddrinfo alloc_fails junk_dns n node serv hints res s = Done (r, s') → program_step s s'
| step_gethostbyname n name r :
    gethostbyname alloc_fails junk_dns junk_ptr n name s = Done (r, s') → program_step s s'.

Lemma board_ok_step s s' : program_step s s' → board_ok s → board_ok s' ∧ held (n_socks s') = held (n_socks s).
Proof.
  intros Hstep Hok.
  assert (Hidle : ∀ {A} (m : M (nstate H (net_vars E)) A) r, keeps idle m → m s = Done (r, s') →
    board_ok s' ∧ held (n_socks s') = held (n_socks s)).
  { intros A m r Hm Hr. specialize (Hm s). rewrite Hr in Hm. by apply board_ok_idle. }
  destruct Hstep as [n r Hr|ts r Hr|ts r Hr|meth r Hr|n node serv hints res r Hr|n name r Hr].
  - pose proof (board_ok_dhcp n s Hok) as Hd. unfold twp in Hd. by rewrite Hr in Hd.
  - by eapply Hidle, Hr; apply idle_sntp_gettime.
  - by eapply Hidle, Hr; apply idle_rfc868_gettime.
  - by eapply Hidle, Hr; apply idle_timesync.
  - by eapply Hidle, Hr; apply idle_getaddrinfo.
  - by eapply Hidle, Hr; apply idle_gethostbyname.
Qed.
End aside.

Lemma held_free l : Forall sock_free l → unconnected l ∧ held l = ∅.
Proof.
  intros Hf. split; [eapply Forall_impl; [exact Hf|]; by intros e (_ & _ & _ & ?)|].
  apply set_eq. intros q. rewrite elem_of_held. split; [|set_solver].
  intros (j & e & He & Hq). rewrite Forall_lookup in Hf. by destruct (free_holds e q (Hf j e He)).
Qed.

(** ** The property *)

Section properties.
Context {H E : Type} `{!SpiDevice H, !W5100 H, !W5100Bus H, !W5100Commands H, !Clock E, !ClockTotal E,
  !ClockSettime E, !Rand E}.
Context (fuel : nat) (junk junk_ts : timespec) (junk_msg junk_ntp junk_word junk_dns : list Z)
  (alloc_fails : Netdb.heap → Z → bool) (junk_ptr : ptr).

(** Before start-up: the DHCP client has not run. *)
Definition powered_on (s : nstate H (net_vars E)) : Prop :=
  bootable s ∧ v_dhcp (n_rest s) = W5100DhcpState config_zero false.

(** C2: on a board with the W5100 chip, whatever the chip and the network
    answer, a program that starts the driver and then uses the DHCP client, the
    time clients and the resolver in any order, with any arguments, keeps the
    socket table, the descriptor table and the registers of the chip consistent;
    every socket the clients opened is closed; and once the DHCP client is
    bound, the chip answers to the address, the gateway and the mask of the
    binding. *)
Theorem network_programs_consistent board (s0 s1 s : nstate H (net_vars E)) :
  powered_on s0 → w5100_socket_init fuel board s0 = Done (tt, s1) →
  length junk_msg = DHCP_MESSAGE_LEN_MAX → Forall is_u8 junk_msg →
  length junk_ntp = 48%nat → Forall is_u8 junk_ntp →
  rtc (program_step fuel junk junk_ts junk_msg junk_ntp junk_word junk_dns alloc_fails junk_ptr) s1 s →
  well_formed s ∧ held (n_socks s) = ∅ ∧
  let b := v_binding (n_rest s) in
  initialized (v_dhcp (n_rest s)) = true → isbound b = true → client b ≠ 0 →
  reg_cells W5100_SIPR (n_hw s) = le_bytes 4 (client b) ∧ reg_cells W5100_GAR (n_hw s) = le_bytes 4 (gateway b) ∧
  reg_cells W5100_SUBR (n_hw s) = le_bytes 4 (subnet b).
Proof.
  intros [Hboot Hd0] Hinit Hmsg Hmsg8 Hntp Hntp8 Hsteps.
  assert (Hok1 : board_ok s1 ∧ held (n_socks s1) = ∅).
  { assert (Hrun : twp Partial (w5100_socket_init fuel board) s0 (λ _ s, board_ok s ∧ held (n_socks s) = ∅)).
    { apply tp_socket_init; [done|done|]. intros h l Hinv Hfree _ _. destruct (held_free l Hfree) as [Hun Hh].
      split; [|done]. unfold board_ok, dhcp_started, binding_on_chip, configured. simpl. rewrite Hd0. simpl.
      split; [by split|]. split; [|done]. split; [apply Hinv|]. split_and!; by left. }
    unfold twp in Hrun. by rewrite Hinit in Hrun. }
  assert (Hok : board_ok s ∧ held (n_socks s) = ∅).
  { clear Hinit. induction Hsteps as [|s1 s2 s3 H12 _ IH]; [done|]. apply IH. destruct Hok1 as [Hok1 Hh].
    destruct (board_ok_step fuel junk junk_ts junk_msg Hmsg Hmsg8 junk_ntp junk_word junk_dns Hntp Hntp8
      alloc_fails junk_ptr s1 s2 H12 Hok1). split; [done|congruence]. }
  destruct Hok as [([Hwf _] & _ & _ & Hb) Hh]. by split_and!.
Qed.
End properties.

(** ** A board with the simulated chip and a silent network

    Each reading of the clock takes a second. *)
Record ticker := Ticker { tk_now : Z }.
#[export] Instance ticker_clock : Clock ticker := λ id tp e, Done ((0, Timespec (tk_now e) 0), Ticker (tk_now e + 1)).
#[export] Instance ticker_total : ClockTotal ticker.
Proof. intros id tp e. by do 2 eexists. Qed.
#[export] Instance ticker_settime : ClockSettime ticker := λ id tp e, Done (0, Ticker (tv_sec tp)).
#[export] Instance ticker_rand : Rand ticker := mret 4.

Definition vars_init : net_vars ticker :=
  NetVars binding_zero (W5100DhcpState config_zero false) (Sntp DEFAULT_SNTP_SERVER) (Rfc868 DEFAULT_RFC868_SERVER)
    syncing_init (Netdb.Heap ∅) (Resolver 134744072) (Hostdb None [] [] []) (Ticker 1000).
Definition powered : nstate sim (net_vars ticker) :=
  NState sim_init (replicate W5100_N_SOCKETS boot_socket) (files ftable_init) E0 vars_init.
Definition running : nstate sim (net_vars ticker) := final (w5100_socket_init 40 STM32F4) powered.

#[local] Instance witness_calls : Sockets (nstate sim (net_vars ticker)) := driver_sockets 40 zero_time.

(** Nobody answers the DHCP client, nor the time client, nor the resolver. *)
Definition after_dhcp : nstate sim (net_vars ticker) :=
  final (w5100_dhcp zero_time (replicate 548 0) 9) running.
Definition after_sync : nstate sim (net_vars ticker) :=
  final (timesync TIMESYNC_METHOD_SNTP zero_time (replicate 48 0) (replicate 4 0)) after_dhcp.
Definition after_query : nstate sim (net_vars ticker) :=
  final (gethostbyname no_failure (replicate 512 0) None 40 nw_name) after_sync.

Lemma final_run {S A : Type} (m : M S A) s : match m s with Done _ => true | _ => false end = true →
  ∃ r, m s = Done (r, final m s).
Proof. unfold final. destruct (m s) as [[r s']| |]; [by exists r|done..]. Qed.

(** One step of such a program. *)
Definition silent_step : relation (nstate sim (net_vars ticker)) :=
  program_step 40 zero_time zero_time (replicate 548 0) (replicate 48 0) (replicate 4 0) (replicate 512 0) no_failure None.

Lemma after_dhcp_step : silent_step running after_dhcp.
Proof.
  destruct (final_run (w5100_dhcp zero_time (replicate 548 0) 9) running) as [r Hr]; [by vm_compute|].
  exact (step_dhcp _ _ _ _ _ _ _ _ _ _ _ _ _ Hr).
Qed.
Lemma after_sync_step : silent_step after_dhcp after_sync.
Proof.
  destruct (final_run (timesync TIMESYNC_METHOD_SNTP zero_time (replicate 48 0) (replicate 4 0)) after_dhcp)
    as [r Hr]; [by vm_compute|].
  exact (step_timesync _ _ _ _ _ _ _ _ _ _ _ _ _ Hr).
Qed.
Lemma after_query_step : silent_step after_sync after_query.
Proof.
  destruct (final_run (gethostbyname no_failure (replicate 512 0) None 40 nw_name) after_sync) as [r Hr];
    [by vm_compute|].
  exact (step_gethostbyname _ _ _ _ _ _ _ _ _ _ _ _ _ _ Hr).
Qed.

Lemma after_query_reached : rtc silent_step running after_query.
Proof.
  apply (rtc_l _ _ _ _ after_dhcp_step), (rtc_l _ _ _ _ after_sync_step), (rtc_l _ _ _ _ after_query_step), rtc_refl.
Qed.

Lemma powered_powered_on : powered_on powered.
Proof.
  split; [|done]. split; [exact sim_init_ok|done|done|]. intros p f Hf.
  apply lookup_replicate in Hf as [-> _]. done.
Qed.

Lemma running_init : w5100_socket_init 40 STM32F4 powered = Done (tt, running).
Proof.
  destruct (final_run (w5100_socket_init 40 STM32F4) powered) as [[] Hr]; [by vm_compute|]. exact Hr.
Qed.

Lemma zeros_u8 n : Forall is_u8 (replicate n 0).
Proof. apply Forall_replicate. split; lia. Qed.

Lemma network_programs_consistent_witness :
  well_formed after_query ∧ held (n_socks after_query) = ∅ ∧
  let b := v_binding (n_rest after_query) in
  initialized (v_dhcp (n_rest after_query)) = true → isbound b = true → client b ≠ 0 →
  reg_cells W5100_SIPR (n_hw after_query) = le_bytes 4 (client b) ∧
  reg_cells W5100_GAR (n_hw after_query) = le_bytes 4 (gateway b) ∧
  reg_cells W5100_SUBR (n_hw after_query) = le_bytes 4 (subnet b).
Proof.
  apply (network_programs_consistent 40 zero_time zero_time (replicate 548 0) (replicate 48 0) (replicate 4 0)
    (replicate 512 0) no_failure None STM32F4 powered running after_query).
  - exact powered_powered_on.
  - exact running_init.
  - reflexivity.
  - apply zeros_u8.
  - reflexivity.
  - apply zeros_u8.
  - exact after_query_reached.
Defined.

(** What happened: the DHCP client gave up, its sockets are closed again. *)
Example silent_network :
  (state (v_binding (n_rest after_dhcp)), n_errno after_dhcp, held (n_socks after_dhcp)) = (DHCP_INIT, EAGAIN, ∅).
Proof. vm_compute. reflexivity. Qed.
