(* ===== verification/SntpChip.v ===== *)
(** * The SNTP client on the W5100 chip

    [sntp_gettime] of [src/sntp.c], linked with the driver of
    [src/w5100_socket.c]: what a call leaves on the wire, from the first access of
    the chip to the last. *)

From stdpp Require Import prelude list numbers functions gmap relations.
From S2P Require Import Prelude Timespec Clock ClockDummy Inet Files Sockets Sntp Opencm3 W5100Spi W5100Socket W5100Chip W5100Ledger W5100Sent W5100Received W5100Table W5100Data W5100Calls W5100Net W5100Streams W5100Datagrams W5100Client Rfc868 Programs.

Section on_chip.
Context {H X : Type} `{!SpiDevice H, !W5100 H, !W5100Bus H, !W5100Commands H, !W5100Transmit H, !W5100Udp H, !W5100Receive H, !W5100Datagrams H}.
Context `{!Clock X, !ClockTotal X, !Has sntp X}.
Context (fuel : nat) (junk junk_ts : timespec) (junk_msg : list Z) (Hjunk_len : length junk_msg = 48%nat) (Hjunk : Forall is_u8 junk_msg).
#[local] Instance calls : Sockets (nstate H X) := driver_sockets fuel junk.
Implicit Types (s : nstate H X).

(** The clock shows the time [now] in the state [x]. *)
Definition clock_says (x : X) (now : timespec) : Prop :=
  ∃ e x', clock_gettime CLOCK_REALTIME junk_ts x = Done ((e, now), x').

(** The datagram that asks [server]. *)
Definition asks (server : Z) (bs : list Z) : packet := Packet (dest_bytes (sntp_peer server)) bs.

(** What a call that returns [r] has sent and taken: nothing, a request (cut off
    where the chip had no room) and no reply, or a request and a datagram;
    the time comes from a reply of a server, 48 bytes long, and from the clock. *)
Inductive wire (x : X) (ts : timespec) (server : Z) : list packet → list Z → Z * timespec → Prop :=
| wire_none : wire x ts server [] [] (-1, ts)
| wire_asked now n : clock_says x now → wire x ts server [asks server (take n (sntp_packet now))] [] (-1, ts)
| wire_bad now d : clock_says x now → wire x ts server [asks server (sntp_packet now)] (frame d) (-1, ts)
| wire_time now d x4 t4 : clock_says x now → clock_says x4 t4 → length (dg_data d) = 48%nat → server_reply (dg_data d) →
    wire x ts server [asks server (sntp_packet now)] (frame d) (0, sntp_estimate (dg_data d) t4).

Lemma sntp_packet_u8 now : Forall is_u8 (sntp_packet now).
Proof.
  apply Forall_cons. split; [done|]. apply Forall_app. split; [by apply Forall_replicate|].
  apply Forall_app. split; apply le_bytes_u8.
Qed.

(** Opening the socket sends nothing. *)
Lemma chip_sntp_socket s : at_rest s →
  twp Partial sntp_socket s (λ sock s', at_rest s' ∧ duplex 0 [] [] (n_hw s) (n_hw s') ∧
    (sock = -1 ∨ (n_rest s' = n_rest s ∧ 0 ≤ sock ∧ ∃ i, client_socket new_socket i sock s'))).
Proof.
  intros Hr. apply twp_bind. eapply twp_mono; [|by apply (client_socket_call fuel)].
  intros sock s1 ([Hsock Hx1] & Hr1 & Hd1). destruct Hsock as [->|[Hpos [i Hsock]]].
  { rewrite decide_False by lia. apply twp_ret. split; [done|]. split; [done|by left]. }
  rewrite decide_True by lia. cbv zeta.
  assert (Hfail : ∀ s2, at_rest s2 → duplex 0 [] [] (n_hw s) (n_hw s2) →
    twp Partial (_ ← close sock; mret (-1)) s2 (λ sock s', at_rest s' ∧ duplex 0 [] [] (n_hw s) (n_hw s') ∧
      (sock = -1 ∨ (n_rest s' = n_rest s ∧ 0 ≤ sock ∧ ∃ i, client_socket new_socket i sock s')))).
  { intros s2 Hr2 Hd2. apply twp_bind. eapply twp_mono; [|by apply (client_close fuel junk)].
    intros _ s3 [Hr3 Hd3]. apply twp_ret. split; [done|]. split; [by eapply duplex_then|by left]. }
  apply twp_bind. eapply twp_mono; [|by apply (client_setsockopt i)]. intros r2 s2 ([Hsock2 Hx2] & Hr2 & Hd2).
  assert (Hd02 : duplex 0 [] [] (n_hw s) (n_hw s2)) by (by eapply duplex_then). case_decide; [by apply Hfail|].
  apply twp_bind. eapply twp_mono; [|by apply (client_setsockopt i)]. intros r3 s3 ([Hsock3 Hx3] & Hr3 & Hd3).
  assert (Hd03 : duplex 0 [] [] (n_hw s) (n_hw s3)) by (by eapply duplex_then). case_decide; [by apply Hfail|].
  apply twp_ret. split; [done|]. split; [done|]. right. split; [congruence|]. split; [done|by exists i].
Qed.

Lemma chip_sntp_request i sock server s : at_rest s → client_socket new_socket i sock s →
  twp Partial (sntp_request junk_ts sock server) s (λ r s', at_rest s' ∧ ∃ now, clock_says (n_rest s) now ∧
    ((r = 0 ∧ duplex i [asks server (sntp_packet now)] [] (n_hw s) (n_hw s') ∧
        client_socket dgram_socket i sock s' ∧ ∃ ds, waiting i ds (n_hw s')) ∨
     (r = -1 ∧ (duplex i [] [] (n_hw s) (n_hw s') ∨
        ∃ n, duplex i [asks server (take n (sntp_packet now))] [] (n_hw s) (n_hw s'))))).
Proof.
  intros Hr Hsock. apply twp_sntp_ask, client_clock. intros [e now] x Hnow.
  eapply twp_mono; [|apply (client_sendto fuel junk i sock (sntp_peer server) (sntp_packet now)); [exact Hr|exact Hsock|apply sntp_packet_u8|done]].
  intros r s1 (Hout & Hr1 & Hsock1 & Hw). simpl in Hout. split; [done|]. exists now. split; [by eexists _, _|].
  destruct (decide (r = 48)) as [->|Hne].
  - left. split; [done|]. split; [|done]. by destruct Hout as [[_ [Hd|[Hd _]]]|[[Hd|Hd] _]].
  - right. split; [done|]. destruct Hout as [[_ [Hd|[_ Hd]]]|[_ Hd]]; [right; by eexists|by left..].
Qed.

Lemma chip_sntp_reply i sock ts s ds : at_rest s → client_socket dgram_socket i sock s → waiting i ds (n_hw s) →
  twp Partial (sntp_reply junk_ts junk_msg sock ts) s (λ r s', at_rest s' ∧
    ((r = (-1, ts) ∧ (duplex i [] [] (n_hw s) (n_hw s') ∨ ∃ d, duplex i [] (frame d) (n_hw s) (n_hw s'))) ∨
     ∃ d x4 t4, r = (0, sntp_estimate (dg_data d) t4) ∧ clock_says x4 t4 ∧ length (dg_data d) = 48%nat ∧
       server_reply (dg_data d) ∧ duplex i [] (frame d) (n_hw s) (n_hw s'))).
Proof.
  intros Hr Hsock Hw.
  apply (twp_sntp_hear Partial junk_ts junk_msg sock ts s) with
    (P := λ n msg s1, dgram_taken i junk_msg (n_hw s) (n, msg) (n_hw s1) ∧ at_rest s1 ∧ length msg = 48%nat).
  - eapply twp_mono; [|apply (client_recv fuel junk i sock ds junk_msg s Hr Hsock Hw); rewrite Hjunk_len; done].
    intros [n msg] s1 (Htk & Hr1 & Hlen & Hu). simpl in *. rewrite Hjunk_len in Hlen. split; [done|]. split; [by apply Hu|done].
  - intros n msg s1 (Htk & Hr1 & _). split; [done|]. left. split; [done|].
    destruct Htk as [[_ Hd]|(d & _ & Hd)]; [by left|right; by exists d].
  - intros msg s1 (Htk & Hr1 & Hlen) Hreply. apply client_clock. intros [e t4] x Ht4. split; [done|]. right.
    destruct Htk as [[[=] _]|(d & [= Hn Hmsg] & Hd)].
    assert (Hld : length (dg_data d) = 48%nat) by lia.
    assert (msg = dg_data d) as -> by (rewrite Hmsg, drop_ge, app_nil_r by lia; done).
    exists d, (n_rest s1), t4. split_and!; try done. by eexists _, _.
Qed.

Lemma chip_sntp_gettime ts s : at_rest s →
  twp Partial (sntp_gettime junk_ts junk_msg ts) s (λ r s', at_rest s' ∧
    ∃ i out inn, duplex i out inn (n_hw s) (n_hw s') ∧ wire (n_rest s) ts (sntp_server (proj s)) out inn r).
Proof.
  intros Hr. apply twp_bind. eapply twp_mono; [|by apply chip_sntp_socket].
  intros sock s1 (Hr1 & Hd1 & Hsock). destruct Hsock as [->|(Hx & Hpos & i & Hsock)].
  { rewrite decide_False by lia. apply twp_ret. split; [done|]. eexists 0, [], []. split; [done|constructor]. }
  rewrite decide_True by lia. apply twp_bind, twp_gets, twp_bind.
  assert (Hend : ∀ r out inn s2, at_rest s2 → duplex i out inn (n_hw s1) (n_hw s2) → wire (n_rest s) ts (sntp_server (proj s)) out inn r →
    twp Partial (_ ← close sock; mret r) s2 (λ r s', at_rest s' ∧
      ∃ i out inn, duplex i out inn (n_hw s) (n_hw s') ∧ wire (n_rest s) ts (sntp_server (proj s)) out inn r)).
  { intros r out inn s2 Hr2 Hd2 Hwire. apply twp_bind. eapply twp_mono; [|by apply (client_close fuel junk)].
    intros _ s3 [Hr3 Hd3]. apply twp_ret. split; [done|]. exists i, out, inn. split; [|done].
    eapply (duplex_then i); [|by eapply duplex_none].
    exact (duplex_trans i [] out [] inn _ _ _ (duplex_none _ _ _ _ Hd1) Hd2). }
  assert (Hv : proj (C:=sntp) s1 = proj s) by (unfold proj, nstate_rest; by rewrite Hx).
  eapply twp_mono; [|by apply (chip_sntp_request i)]. rewrite Hv, Hx. intros res s2 (Hr2 & now & Hnow & Hres). apply twp_bind.
  destruct Hres as [(-> & Hd2 & Hsock2 & ds & Hw)|(-> & Hd2)].
  - rewrite decide_True by done. eapply twp_mono; [|by eapply chip_sntp_reply].
    intros r s3 (Hr3 & Hreply). cbn [sntp_reply] in *.
    destruct Hreply as [(-> & [Hd3|[d Hd3]])|(d & x4 & t4 & -> & Ht4 & Hlen & Hserver & Hd3)].
    + eapply Hend; [done|exact (duplex_trans _ _ _ _ _ _ _ _ Hd2 Hd3)|].
      rewrite <- (firstn_all (sntp_packet now)). by apply wire_asked.
    + eapply Hend; [done|exact (duplex_trans _ _ _ _ _ _ _ _ Hd2 Hd3)|]. by apply wire_bad.
    + eapply Hend; [done|exact (duplex_trans _ _ _ _ _ _ _ _ Hd2 Hd3)|]. by eapply wire_time.
  - rewrite decide_False by lia. apply twp_ret. destruct Hd2 as [Hd2|[n Hd2]]; (eapply Hend; [done|exact Hd2|by constructor]).
Qed.

(** C13: a call of [sntp_gettime] that returns has handed at most one datagram to
    the chip, over all its sockets, and taken at most one. The datagram sent is
    for port 123 of the server that is set: the 48 bytes of a version 4 request
    with the time of the clock when the call began, or their beginning where the
    chip had no room. The result is 0 only when the whole request went out and
    the datagram taken, whole, is a 48-byte version 4 message of a server; then
    the time is the estimate from its timestamps and the clock. Otherwise the
    result is -1 and the caller's structure is untouched. The driver is at rest
    again: another call may follow. *)
Theorem sntp_on_wire ts s r s' : at_rest s → sntp_gettime junk_ts junk_msg ts s = Done (r, s') →
  at_rest s' ∧ ∃ i out inn, duplex i out inn (n_hw s) (n_hw s') ∧ wire (n_rest s) ts (sntp_server (proj s)) out inn r.
Proof.
  intros Hr Hrun. pose proof (chip_sntp_gettime ts s Hr) as Ht. unfold twp in Ht. by rewrite Hrun in Ht.
Qed.
End on_chip.

(** ** The board of [Programs], with a reply that waits for the client *)

(** The reply of [sw_reply] is on its way to the first socket. *)
Definition the_reply : dgram := Dgram DEFAULT_SNTP_SERVER (htons 123) sw_reply.
Definition answering : nstate sim (net_vars ticker) := arrive (frame the_reply) running.
Abbreviation ask_time :=
  (sntp_gettime (Sockets0 := calls 40 zero_time) zero_time (replicate 48 0) zero_time : M (nstate sim (net_vars ticker)) (Z * timespec)).

(** The request goes to the server, the reply is the time. *)
Example asks_and_hears :
  result ask_time answering = Some (0, Timespec 1602 249999360) ∧
  tx_sent (tx_of 0 (n_hw (final ask_time answering))) = [asks DEFAULT_SNTP_SERVER (sntp_packet (Timespec 1000 0))] ∧
  rx_taken (rx_of 0 (n_hw (final ask_time answering))) = frame the_reply.
Proof. vm_compute. done. Qed.

Lemma run_result {S A : Type} (m : M S A) s a : result m s = Some a → m s = Done (a, final m s).
Proof. unfold result, final. destruct (m s) as [[b s']| |]; [|done..]. by intros [= ->]. Qed.

Lemma answering_runs : ask_time answering = Done ((0, Timespec 1602 249999360), final ask_time answering).
Proof. apply run_result. by vm_compute. Qed.

Lemma running_well_formed : well_formed running.
Proof.
  unfold running. apply wp_final, wp_of_twp. apply tp_socket_init; [|exact (proj1 powered_powered_on)|done].
  intros _. exists 1%nat. split; [exact sim_responsive|lia].
Qed.

Lemma at_rest_intro {X : Type} (s : nstate sim X) : well_formed s →
  descriptors (n_socks s) = replicate 4 (None, None) → s_isocket <$> n_socks s = replicate 4 0 →
  Forall (λ i, sock_idle i (n_hw s)) [0; 1; 2; 3] → at_rest s.
Proof.
  intros Hwf Hd Hn Hid. split; [split; [exact Hwf|]|split; [split; [apply Hwf|]|]].
  - apply (unconnected_descriptors (replicate 4 boot_socket)); [exact Hd|by repeat constructor].
  - assert (Hf : Forall is_sock (s_isocket <$> n_socks s)) by (rewrite Hn; by repeat constructor).
    rewrite Forall_fmap in Hf. exact Hf.
  - intros i Hi. rewrite list.Forall_forall in Hid. apply Hid. destruct (sock_cases i Hi) as [->|[->|[->| ->]]]; set_solver.
Qed.

Lemma answering_at_rest : at_rest answering.
Proof.
  apply at_rest_intro.
  - apply arrive_well_formed; [|exact running_well_formed].
    assert (Hu : forallb (λ b, (0 <=? b) && (b <? 256)) (frame the_reply) = true) by (by vm_compute).
    apply list.Forall_forall. intros b Hb. rewrite forallb_forall in Hu. apply list_elem_of_In in Hb. apply Hu in Hb. unfold is_u8. lia.
  - by vm_compute.
  - by vm_compute.
  - do 4 (apply Forall_cons; split; [split; by vm_compute|]). by apply Forall_nil.
Qed.

Lemma sntp_on_wire_witness : at_rest (final ask_time answering) ∧ ∃ i out inn,
  duplex i out inn (n_hw answering) (n_hw (final ask_time answering)) ∧
  wire zero_time (n_rest answering) zero_time (sntp_server (proj answering)) out inn (0, Timespec 1602 249999360).
Proof.
  exact (sntp_on_wire 40 zero_time zero_time (replicate 48 0) eq_refl (zeros_u8 48) zero_time answering
    (0, Timespec 1602 249999360) (final ask_time answering) answering_at_rest answering_runs).
Defined.
