(* ===== verification/SdSpi.v ===== *)
(** * SD cards over SPI: [src/sd_spi.c]

    Commands, responses and blocks of a card in SPI mode, byte by byte over the
    bus. The card is an interface ([SdCard]): what it does with the bytes of a
    command and of a block, after delays of its own. The functions that read
    and write a block are shown to do so on every such card. *)

From stdpp Require Import prelude list numbers functions.
From S2P Require Import Prelude Opencm3.

Definition DATA_CTRL_START : Z := 254.
Definition DATA_RESP_MASK : Z := 31.
Definition DATA_RESP_ACCEPTED : Z := 5.
Definition DATA_IDLE : Z := 255.
Definition DATA_DUMMY : Z := 255.
Definition BLOCK_SIZE : nat := 512.

Definition crc7_get (cmd arg : Z) : Z :=
  let cmd := Z.land cmd 63 in
  let crc7 :=
    if decide (cmd = 0) then 148
    else if decide (cmd = 8) then 134
    else 255 in
  Z.lor crc7 1.

Definition line_is_idle (data : Z) : bool := bool_decide (Z.land data 128 ≠ 0).

Section sd_spi.
Context {S : Type} `{!Opencm3 S}.
(** Bounds the waits for the card. *)
Context (fuel : nat).

Definition sd_select : M S unit :=
  _ ← hw (gpio_clear GPIOB [GPIO5]);
  _ ← for_find 125 0 (λ _,
        r ← spi_xfer DATA_DUMMY;
        mret (if decide (r = DATA_IDLE) then Some tt else None));
  mret tt.

Definition sd_deselect : M S unit :=
  _ ← hw (gpio_set GPIOB [GPIO5]);
  _ ← spi_xfer DATA_IDLE; mret tt.

Definition send_cmd (cmd arg : Z) : M S unit :=
  let crc7 := crc7_get cmd arg in
  let cmd := Z.lor cmd 64 in
  _ ← spi_xfer cmd;
  _ ← spi_xfer (Z.land (Z.shiftr arg 24) 255);
  _ ← spi_xfer (Z.land (Z.shiftr arg 16) 255);
  _ ← spi_xfer (Z.land (Z.shiftr arg 8) 255);
  _ ← spi_xfer (Z.land (Z.shiftr arg 0) 255);
  _ ← spi_xfer crc7; mret tt.

Definition wait_resp : M S Z :=
  loop fuel (λ _,
    r ← spi_xfer DATA_DUMMY;
    mret (if line_is_idle (u8 r) then inl tt else inr (u8 r))) tt.

(** [resp] is the object the pointer points to, [len] the argument of the call. *)
Definition sd_send_command_inner (cmd arg : Z) (resp : list Z) (len : nat) : M S (list Z) :=
  _ ← send_cmd cmd arg;
  r ← wait_resp;
  resp ← lift (aset resp 0 r);
  for_fold (len - 1) 1 (λ i_byte resp,
    r ← spi_xfer DATA_DUMMY; lift (aset resp i_byte (u8 r))) resp.

Definition sd_send_command (cmd arg : Z) (resp : list Z) (len : nat) : M S (list Z) :=
  _ ← sd_select;
  resp ← sd_send_command_inner cmd arg resp len;
  _ ← sd_deselect; mret resp.

Definition sd_send_command_r1 (cmd arg : Z) : M S Z :=
  resp ← sd_send_command cmd arg [0] 1; lift (aget resp 0).

Definition send_rw_cmd (cmd address : Z) : M S Z :=
  _ ← send_cmd cmd address;
  r1 ← wait_resp;
  mret (if decide (r1 = 0) then 0 else -1).

Definition read_block (dst : list Z) : M S (Z * list Z) :=
  data_ctrl ← loop fuel (λ _,
    r ← spi_xfer DATA_DUMMY;
    mret (if decide (u8 r = DATA_IDLE) then inl tt else inr (u8 r))) tt;
  if decide (data_ctrl = DATA_CTRL_START) then
    dst ← for_fold BLOCK_SIZE 0 (λ i_byte dst,
      r ← spi_xfer DATA_DUMMY; lift (aset dst i_byte (u8 r))) dst;
    _ ← spi_xfer DATA_DUMMY;
    _ ← spi_xfer DATA_DUMMY;
    mret (0, dst)
  else mret (-1, dst).

Definition sd_read_single_block (address : Z) (dst : list Z) : M S (Z * list Z) :=
  _ ← sd_select;
  res ← send_rw_cmd 17 address;
  '(res, dst) ← (if decide (res = 0) then read_block dst else mret (res, dst));
  _ ← sd_deselect; mret (res, dst).

Definition send_block (src : list Z) : M S Z :=
  _ ← spi_xfer DATA_CTRL_START;
  _ ← for_fold BLOCK_SIZE 0 (λ i_byte _,
        b ← lift (aget src i_byte);
        _ ← spi_xfer b; mret tt) tt;
  _ ← spi_xfer DATA_DUMMY;
  _ ← spi_xfer DATA_DUMMY;
  data_resp ← spi_xfer DATA_DUMMY;
  mret (if decide (Z.land (u8 data_resp) DATA_RESP_MASK = DATA_RESP_ACCEPTED) then 0 else -1).

Definition wait_end_write : M S Z :=
  _ ← loop fuel (λ _,
        busy ← spi_xfer DATA_DUMMY;
        mret (if decide (u8 busy ≠ DATA_IDLE) then inl tt else inr tt)) tt;
  r2 ← sd_send_command_inner 13 0 [0; 0] 2;
  mret (if decide (le_val r2 = 0) then 0 else -1).

Definition sd_write_single_block (address : Z) (src : list Z) : M S Z :=
  _ ← sd_select;
  res ← send_rw_cmd 24 address;
  res ← (if decide (res = 0) then send_block src else mret res);
  res ← (if decide (res = 0) then wait_end_write else mret res);
  _ ← sd_deselect; mret res.

Definition sd_spi_init (br : spi_baudrate) : M S unit :=
  hw (spi_init_master br SPI_CR1_CPOL_CLK_TO_0_WHEN_IDLE
        SPI_CR1_CPHA_CLK_TRANSITION_1 SPI_CR1_DFF_8BIT SPI_CR1_MSBFIRST).

Definition sd_full_speed : M S unit := sd_spi_init SPI_CR1_BAUDRATE_FPCLK_DIV_2.

Definition sd_init (board : target) : M S unit :=
  _ ← hw (rcc_periph_clock_enable RCC_SPI1);
  _ ← hw (rcc_periph_clock_enable RCC_GPIOA);
  _ ← hw (rcc_periph_clock_enable RCC_GPIOB);
  _ ← hw (gpio_set GPIOB [GPIO5]);
  _ ← hw (gpio_set GPIOB [GPIO6]);
  _ ← match board with
      | STM32F1 =>
          _ ← hw (gpio_set_mode GPIOB GPIO_MODE_OUTPUT_10_MHZ GPIO_CNF_OUTPUT_PUSHPULL [GPIO5]);
          _ ← hw (gpio_set_mode GPIOB GPIO_MODE_OUTPUT_10_MHZ GPIO_CNF_OUTPUT_PUSHPULL [GPIO6]);
          _ ← hw (gpio_set_mode GPIOA GPIO_MODE_OUTPUT_50_MHZ GPIO_CNF_OUTPUT_ALTFN_PUSHPULL [GPIO_SPI1_SCK]);
          _ ← hw (gpio_set_mode GPIOA GPIO_MODE_OUTPUT_50_MHZ GPIO_CNF_OUTPUT_ALTFN_PUSHPULL [GPIO_SPI1_MOSI]);
          hw (gpio_set_mode GPIOA GPIO_MODE_INPUT GPIO_CNF_INPUT_FLOAT [GPIO_SPI1_MISO])
      | STM32F4 =>
          _ ← hw (gpio_mode_setup GPIOB GPIO_MODE_OUTPUT GPIO_PUPD_NONE [GPIO5; GPIO6]);
          _ ← hw (gpio_set_af GPIOA GPIO_AF5 [GPIO5; GPIO6; GPIO7]);
          hw (gpio_mode_setup GPIOA GPIO_MODE_AF GPIO_PUPD_NONE [GPIO5; GPIO6; GPIO7])
      end;
  let spi_clk_khz := 250 in
  _ ← sd_spi_init SPI_CR1_BAUDRATE_FPCLK_DIV_32;
  _ ← hw spi_enable_software_slave_management;
  _ ← hw spi_set_nss_high;
  _ ← hw spi_enable;
  loop 32 (λ i_dummy_clk,
    _ ← spi_xfer 255;
    let i_dummy_clk := i_dummy_clk + 8 in
    mret (if decide (i_dummy_clk < 74 ∨ i_dummy_clk < spi_clk_khz) then inl i_dummy_clk else inr tt)) 0.
End sd_spi.

(** ** The card *)

(** The checksum of a command: CRC-7 with the polynomial x^7 + x^3 + 1, most
    significant bit first. *)
Definition crc7_bit (crc : Z) (b : bool) : Z :=
  let shifted := Z.land (Z.shiftl crc 1) 127 in
  if xorb b (Z.testbit crc 6) then Z.lxor shifted 9 else shifted.
Definition crc7_byte (crc b : Z) : Z :=
  foldl (λ crc k, crc7_bit crc (Z.testbit b k)) crc [7; 6; 5; 4; 3; 2; 1; 0].
Definition crc7 (bs : list Z) : Z := foldl crc7_byte 0 bs.

(** The six bytes of a command. *)
Definition command_head (cmd arg : Z) : list Z :=
  [Z.lor cmd 64; Z.land (Z.shiftr arg 24) 255; Z.land (Z.shiftr arg 16) 255;
   Z.land (Z.shiftr arg 8) 255; Z.land (Z.shiftr arg 0) 255].

(** A card checks the checksum of the commands 0 and 8 only. *)
Definition crc_accepted (cmd arg crc : Z) : Prop :=
  cmd = 0 ∨ cmd = 8 → crc = 2 * crc7 (command_head cmd arg) + 1.

(** What a selected card does next: it waits for a command, has received some
    bytes of one, sends bytes while it is sent [DATA_DUMMY], or has received
    some bytes of the block to be written at an address. *)
Inductive sd_phase :=
| SdReady
| SdCmd (bytes : list Z)
| SdOut (out : list Z) (next : sd_phase)
| SdRecv (address : Z) (bytes : list Z).

(** The first byte of a response has its upper bit clear. *)
Definition is_r1 (r : Z) : Prop := 0 ≤ r < 128.

(** The length of the response to a command. *)
Definition resp_len (cmd : Z) : nat :=
  if decide (cmd = 8 ∨ cmd = 58) then 5 else if decide (cmd = 13) then 2 else 1.

(** [sd_at p h c]: the device is in the state [h], which is the phase [p] of an
    operation on the card [c]. The delays of the card are below [sd_latency];
    [sd_block a c] are the 512 bytes at the address [a], [sd_valid a c] says that
    there is such a block, [sd_exec] is what a command other than a write does. *)
Class SdCard (H : Type) `{!SpiDevice H} := {
  sd_ok : H → Prop;
  sd_at : sd_phase → H → H → Prop;
  sd_latency : nat;
  sd_block : Z → H → list Z;
  sd_valid : Z → H → Prop;
  sd_reply : Z → Z → H → list Z;
  sd_exec : Z → Z → H → H;
  sd_store : Z → list Z → H → H;
  (* the state of the card *)
  block_length a c : sd_ok c → length (sd_block a c) = BLOCK_SIZE ∧ Forall is_u8 (sd_block a c);
  exec_ok cmd arg c : sd_ok c → sd_ok (sd_exec cmd arg c);
  exec_block cmd arg a c : sd_ok c → cmd = 13 ∨ cmd = 17 ∨ cmd = 24 →
    sd_block a (sd_exec cmd arg c) = sd_block a c;
  exec_valid cmd arg a c : sd_ok c → cmd = 13 ∨ cmd = 17 ∨ cmd = 24 →
    sd_valid a (sd_exec cmd arg c) ↔ sd_valid a c;
  store_ok a bs c : sd_ok c → Forall is_u8 bs → length bs = BLOCK_SIZE → sd_ok (sd_store a bs c);
  store_block a b bs c : sd_ok c → sd_valid a c → sd_valid b c → Forall is_u8 bs → length bs = BLOCK_SIZE →
    sd_block b (sd_store a bs c) = if decide (a = b) then bs else sd_block b c;
  store_valid a bs b c : sd_ok c → sd_valid b (sd_store a bs c) ↔ sd_valid b c;
  reply_shape cmd arg c : sd_ok c → ∃ r1 rest, sd_reply cmd arg c = r1 :: rest ∧ is_r1 r1 ∧
    Forall is_u8 rest ∧ length (sd_reply cmd arg c) = resp_len cmd;
  (* a valid address is accepted, and the status after a write is good *)
  reply_valid cmd a c : sd_ok c → cmd = 17 ∨ cmd = 24 → sd_valid a c → sd_reply cmd a c = [0];
  reply_status a bs c : sd_ok c → sd_valid a c → sd_reply 13 0 (sd_store a bs (sd_exec 24 a c)) = [0; 0];
  (* calls of the hardware and clocks while the card is not selected *)
  hw_ok call c : sd_ok c → call ≠ gpio_clear GPIOB [GPIO5] → sd_ok (dev_hw call c);
  idle_ok c : sd_ok c → sd_ok (dev_xfer DATA_IDLE c).2;
  (* the frames *)
  at_select c : sd_ok c → sd_at SdReady (dev_hw (gpio_clear GPIOB [GPIO5]) c) c;
  at_deselect h c : sd_at SdReady h c → (dev_xfer DATA_IDLE (dev_hw (gpio_set GPIOB [GPIO5]) h)).2 = c;
  at_idle h c : sd_at SdReady h c →
    (dev_xfer DATA_DUMMY h).1 = DATA_IDLE ∧ sd_at SdReady (dev_xfer DATA_DUMMY h).2 c;
  at_start b h c : 64 ≤ b < 128 → sd_at SdReady h c → sd_at (SdCmd [b]) (dev_xfer b h).2 c;
  at_cmd l b h c : (length l < 5)%nat → sd_at (SdCmd l) h c → sd_at (SdCmd (l ++ [b])) (dev_xfer b h).2 c;
  (* the last byte of a command: a delay, the response, and what follows it *)
  at_exec cmd arg crc h c : 0 ≤ cmd < 64 → is_u32 arg → crc_accepted cmd arg crc →
    sd_at (SdCmd (command_head cmd arg)) h c →
    ∃ w data next, (w < sd_latency)%nat ∧
      sd_at (SdOut (replicate w DATA_IDLE ++ sd_reply cmd arg c ++ data) next) (dev_xfer crc h).2 (sd_exec cmd arg c) ∧
      if decide (cmd = 17 ∧ sd_reply cmd arg c = [0]) then
        next = SdReady ∧ ∃ w' token rest, (w' < sd_latency)%nat ∧ is_u8 token ∧ token ≠ DATA_IDLE ∧
          data = replicate w' DATA_IDLE ++ token :: rest ∧
          (token = DATA_CTRL_START → ∃ crc_hi crc_lo, rest = sd_block arg c ++ [crc_hi; crc_lo]) ∧
          (token ≠ DATA_CTRL_START → rest = []) ∧ (sd_valid arg c → token = DATA_CTRL_START)
      else data = [] ∧ next = if decide (cmd = 24 ∧ sd_reply cmd arg c = [0]) then SdRecv arg [] else SdReady;
  at_out b out next h c : sd_at (SdOut (b :: out) next) h c →
    (dev_xfer DATA_DUMMY h).1 = b ∧ sd_at (SdOut out next) (dev_xfer DATA_DUMMY h).2 c;
  at_end next h c : sd_at (SdOut [] next) h c → sd_at next h c;
  (* the token, the block and its checksum; then the answer and the write *)
  at_recv a l b h c : (length l < 514)%nat → sd_at (SdRecv a l) h c → sd_at (SdRecv a (l ++ [b])) (dev_xfer b h).2 c;
  at_store a bs crc_hi crc_lo h c : length bs = BLOCK_SIZE →
    sd_at (SdRecv a (DATA_CTRL_START :: bs ++ [crc_hi])) h c →
    ∃ resp busy, is_u8 resp ∧ Forall (λ b, is_u8 b ∧ b ≠ DATA_IDLE) busy ∧ (length busy < sd_latency)%nat ∧
      if decide (Z.land resp DATA_RESP_MASK = DATA_RESP_ACCEPTED) then
        sd_at (SdOut (resp :: busy ++ [DATA_IDLE]) SdReady) (dev_xfer crc_lo h).2 (sd_store a bs c)
      else ¬ sd_valid a c ∧ sd_at (SdOut [resp] SdReady) (dev_xfer crc_lo h).2 c;
}.

Lemma crc7_get_accepted cmd arg : (cmd = 0 → arg = 0) → (cmd = 8 → arg = 426) →
  crc_accepted cmd arg (crc7_get cmd arg).
Proof. intros H0 H8 [->| ->]; [rewrite H0|rewrite H8]; reflexivity. Qed.

Section bus.
Context {H S : Type} `{!Has H S, !HasLaws H S, !SpiDevice H, !SdCard H}.

Lemma wp_xfer b (s : S) (Q : Z → S → Prop) :
  Q (dev_xfer b (proj s)).1 (upd (dev_xfer b (proj s)).2 s) → wp (spi_xfer b) s Q.
Proof. intros HQ. eapply wp_Done; [apply spi_xfer_run|done]. Qed.

Lemma wp_hw c (s : S) (Q : unit → S → Prop) : Q tt (upd (dev_hw c (proj s)) s) → wp (hw c) s Q.
Proof. intros HQ. eapply wp_Done; [apply hw_run|done]. Qed.

(** A byte of the card. *)
Lemma wp_out b out next c (s : S) (Q : Z → S → Prop) :
  sd_at (SdOut (b :: out) next) (proj s) c →
  (∀ h', sd_at (SdOut out next) h' c → Q b (upd h' s)) → wp (spi_xfer DATA_DUMMY) s Q.
Proof. intros Hat HQ. apply at_out in Hat as [Hb Hat]. apply wp_xfer. rewrite Hb. by apply HQ. Qed.

(** A wait: the bytes [pre] are passed over, [r] ends it. *)
Lemma wp_wait {B} (dec : Z → unit + B) pre r b out next c n (s : S) (Q : B → S → Prop) :
  Forall (λ x, dec x = inl tt) pre → dec r = inr b → (length pre < n)%nat →
  sd_at (SdOut (pre ++ r :: out) next) (proj s) c →
  (∀ h', sd_at (SdOut out next) h' c → Q b (upd h' s)) →
  wp (loop n (λ _, r ← spi_xfer DATA_DUMMY; mret (dec r)) tt) s Q.
Proof.
  intros Hpre Hr. revert n s. induction Hpre as [|x pre Hx _ IH]; intros [|n] s Hn Hat HQ; simpl in Hn; try lia.
  - apply wp_loop_turn, wp_bind. eapply wp_out; [done|]. intros h' Hat'. apply wp_ret. rewrite Hr. by apply HQ.
  - apply wp_loop_turn, wp_bind. eapply wp_out; [done|]. intros h' Hat'. apply wp_ret. rewrite Hx.
    apply IH; [lia|by rewrite proj_upd|]. intros h'' Hat''. rewrite upd_upd. by apply HQ.
Qed.

(** A run of bytes goes into a part of the buffer. *)
Lemma wp_read_bytes bs pre old post out next c (s : S) (Q : list Z → S → Prop) :
  Forall is_u8 bs → length old = length bs →
  sd_at (SdOut (bs ++ out) next) (proj s) c →
  (∀ h', sd_at (SdOut out next) h' c → Q (pre ++ bs ++ post) (upd h' s)) →
  wp (for_fold (length bs) (Z.of_nat (length pre)) (λ i dst,
        r ← spi_xfer DATA_DUMMY; lift (aset dst i (u8 r))) (pre ++ old ++ post)) s Q.
Proof.
  intros Hbs. revert pre old s. induction Hbs as [|b bs Hb _ IH]; intros pre old s Hold Hat HQ.
  { apply nil_length_inv in Hold as ->. apply wp_ret. rewrite <- (upd_proj s). by apply HQ. }
  destruct old as [|x old]; [done|]. injection Hold as Hold.
  apply wp_for_fold_turn, wp_bind. eapply wp_out; [done|]. intros h' Hat'.
  rewrite u8_id by done. simpl. rewrite aset_app by done. eapply wp_lift; [done|].
  replace (Z.of_nat (length pre) + 1) with (Z.of_nat (length (pre ++ [b]))) by (rewrite length_app; simpl; lia).
  replace (pre ++ b :: old ++ post) with ((pre ++ [b]) ++ old ++ post) by (by rewrite <- app_assoc).
  apply IH; [done|by rewrite proj_upd|]. intros h'' Hat''. rewrite upd_upd, <- app_assoc. by apply HQ.
Qed.

(** A run of bytes for the card. *)
Lemma wp_send_bytes a bs pre post l c (s : S) (Q : unit → S → Prop) :
  (length l + length bs ≤ 514)%nat → sd_at (SdRecv a l) (proj s) c →
  (∀ h', sd_at (SdRecv a (l ++ bs)) h' c → Q tt (upd h' s)) →
  wp (for_fold (length bs) (Z.of_nat (length pre)) (λ i _,
        b ← lift (aget (pre ++ bs ++ post) i); _ ← spi_xfer b; mret tt) tt) s Q.
Proof.
  revert pre l s. induction bs as [|b bs IH]; intros pre l s Hlen Hat HQ.
  { apply wp_ret. rewrite <- (upd_proj s). apply HQ. by rewrite app_nil_r. }
  simpl in Hlen. apply wp_for_fold_turn, wp_bind. eapply wp_lift; [apply aget_app|].
  apply wp_bind, wp_xfer, wp_ret.
  replace (Z.of_nat (length pre) + 1) with (Z.of_nat (length (pre ++ [b]))) by (rewrite length_app; simpl; lia).
  replace (pre ++ (b :: bs) ++ post) with ((pre ++ [b]) ++ bs ++ post) by (by rewrite <- app_assoc).
  apply IH with (l := l ++ [b]); [rewrite length_app; simpl; lia| |].
  - rewrite proj_upd. apply at_recv; [lia|done].
  - intros h' Hat'. rewrite upd_upd. apply HQ. by rewrite <- app_assoc in Hat'.
Qed.

Lemma cmd_start cmd : 0 ≤ cmd < 64 → Z.lor cmd 64 = cmd + 64.
Proof.
  intros Hc. exact (lor_disjoint cmd 1 6 ltac:(lia) ltac:(lia)).
Qed.

(** Selecting a card that is not busy. *)
Lemma wp_sd_select (s : S) (Q : unit → S → Prop) :
  sd_ok (proj s) → (∀ h', sd_at SdReady h' (proj s) → Q tt (upd h' s)) → wp sd_select s Q.
Proof.
  intros Hok HQ. unfold sd_select. apply wp_bind, wp_hw.
  destruct (at_idle _ _ (at_select (proj s) Hok)) as [Hb Hat].
  apply wp_bind, wp_for_find_turn, wp_bind, wp_xfer, wp_ret. rewrite proj_upd, Hb, upd_upd.
  rewrite decide_True by done. apply wp_ret. by apply HQ.
Qed.

Lemma wp_sd_deselect c (s : S) (Q : unit → S → Prop) :
  sd_at SdReady (proj s) c → Q tt (upd c s) → wp sd_deselect s Q.
Proof.
  intros Hat HQ. unfold sd_deselect. apply wp_bind, wp_hw, wp_bind, wp_xfer, wp_ret.
  by rewrite proj_upd, upd_upd, (at_deselect _ _ Hat).
Qed.

(** A command, up to its last byte. *)
Lemma wp_send_cmd cmd arg c (s : S) (Q : unit → S → Prop) :
  0 ≤ cmd < 64 → sd_at SdReady (proj s) c →
  (∀ h, sd_at (SdCmd (command_head cmd arg)) h c → Q tt (upd (dev_xfer (crc7_get cmd arg) h).2 s)) →
  wp (send_cmd cmd arg) s Q.
Proof.
  intros Hcmd Hat HQ. unfold send_cmd. cbv zeta.
  apply wp_bind, wp_xfer. apply (at_start (Z.lor cmd 64)) in Hat; [|rewrite cmd_start; lia].
  do 4 (apply wp_bind, wp_xfer; rewrite proj_upd, upd_upd;
    match goal with |- context [dev_xfer ?b (dev_xfer _ _).2] => apply (at_cmd _ b) in Hat; [|simpl; lia] end).
  apply wp_bind, wp_xfer, wp_ret. rewrite proj_upd, upd_upd. by apply HQ.
Qed.

Context (fuel : nat) (Hfuel : (sd_latency < fuel)%nat).

Lemma r1_not_idle r : is_r1 r → line_is_idle (u8 r) = false ∧ u8 r = r.
Proof.
  intros Hr. assert (E : u8 r = r) by (apply u8_id; unfold is_r1, is_u8 in *; lia). rewrite E. split; [|done].
  unfold line_is_idle. apply bool_decide_eq_false. intros Hne. apply Hne.
  unfold is_r1 in Hr. apply Z.bits_inj'. intros n Hn. rewrite Z.land_spec, Z.bits_0.
  destruct (decide (n = 7)) as [->|Hn7].
  - rewrite (Z.bits_above_log2 r 7); [done|lia|].
    destruct (decide (r = 0)) as [->|]; [done|]. apply Z.log2_lt_pow2; lia.
  - change 128 with (2 ^ 7). rewrite Z.pow2_bits_false by done. apply andb_false_r.
Qed.

Lemma wp_wait_resp w r out next c (s : S) (Q : Z → S → Prop) :
  is_r1 r → (w < sd_latency)%nat → sd_at (SdOut (replicate w DATA_IDLE ++ r :: out) next) (proj s) c →
  (∀ h', sd_at (SdOut out next) h' c → Q r (upd h' s)) → wp (wait_resp fuel) s Q.
Proof.
  intros Hr Hw Hat HQ. destruct (r1_not_idle r Hr) as [Hi E].
  apply (wp_wait (λ r, if line_is_idle (u8 r) then inl tt else inr (u8 r)) (replicate w DATA_IDLE) r r out next c);
    [by apply Forall_replicate|by rewrite Hi, E|rewrite length_replicate; lia|done|done].
Qed.

(** A command whose response is all the card sends. *)
Lemma wp_command_inner cmd arg resp c (s : S) (Q : list Z → S → Prop) :
  0 ≤ cmd < 64 → cmd ≠ 17 → cmd ≠ 24 → is_u32 arg → crc_accepted cmd arg (crc7_get cmd arg) →
  length resp = resp_len cmd → sd_ok c → sd_at SdReady (proj s) c →
  (∀ h', sd_at SdReady h' (sd_exec cmd arg c) → Q (sd_reply cmd arg c) (upd h' s)) →
  wp (sd_send_command_inner fuel cmd arg resp (resp_len cmd)) s Q.
Proof.
  intros Hcmd H17 H24 Harg Hcrc Hlen Hok Hat HQ. unfold sd_send_command_inner.
  apply wp_bind. eapply wp_send_cmd; [done|done|]. intros h Hat1.
  destruct (at_exec _ _ _ _ _ Hcmd Harg Hcrc Hat1) as (w & data & next & Hw & Hat2 & Hnext).
  rewrite decide_False in Hnext by tauto. destruct Hnext as [-> ->]. rewrite decide_False in Hat2 by tauto.
  destruct (reply_shape cmd arg c Hok) as (r1 & rest & Er & Hr1 & Hrest & Hl). rewrite Er in *.
  destruct resp as [|x resp]; [rewrite <- Hlen in Hl; done|].
  apply wp_bind. eapply wp_wait_resp; [exact Hr1|exact Hw| |].
  { rewrite proj_upd. rewrite app_nil_r in Hat2. exact Hat2. }
  intros h' Hat3. rewrite upd_upd. apply wp_bind. eapply wp_lift; [reflexivity|]. simpl.
  rewrite <- Hl. simpl. rewrite Nat.sub_0_r. simpl in Hlen, Hl.
  pose proof (wp_read_bytes rest [r1] resp [] [] SdReady (sd_exec cmd arg c) (upd h' s) Q) as Hread.
  rewrite !app_nil_r in Hread. simpl in Hread. apply Hread; [done|lia|by rewrite proj_upd|].
  intros h'' Hat4%at_end. rewrite upd_upd. by apply HQ.
Qed.

Lemma wp_command cmd arg resp (s : S) (Q : list Z → S → Prop) :
  0 ≤ cmd < 64 → cmd ≠ 17 → cmd ≠ 24 → is_u32 arg → (cmd = 0 → arg = 0) → (cmd = 8 → arg = 426) →
  length resp = resp_len cmd → sd_ok (proj s) →
  Q (sd_reply cmd arg (proj s)) (upd (sd_exec cmd arg (proj s)) s) →
  wp (sd_send_command fuel cmd arg resp (resp_len cmd)) s Q.
Proof.
  intros Hcmd H17 H24 Harg H0 H8 Hlen Hok HQ. unfold sd_send_command.
  apply wp_bind, wp_sd_select; [done|]. intros h Hat. apply wp_bind.
  eapply wp_command_inner; [done|done|done|done|by apply crc7_get_accepted|done|exact Hok|by rewrite proj_upd|].
  intros h' Hat'. rewrite upd_upd. apply wp_bind. eapply wp_sd_deselect; [by rewrite proj_upd|].
  apply wp_ret. by rewrite upd_upd.
Qed.

Lemma crc_rw cmd a : cmd = 17 ∨ cmd = 24 → crc_accepted cmd a (crc7_get cmd a).
Proof. intros Hcmd. apply crc7_get_accepted; lia. Qed.

(** A read or write command: the phase that follows its response. *)
Lemma wp_rw_cmd cmd a c (s : S) (Q : Z → S → Prop) :
  cmd = 17 ∨ cmd = 24 → is_u32 a → sd_ok c → sd_at SdReady (proj s) c →
  (sd_reply cmd a c = [0] → ∀ h' data next,
     (cmd = 24 → data = [] ∧ next = SdRecv a []) →
     (cmd = 17 → next = SdReady ∧ ∃ w token rest, (w < sd_latency)%nat ∧ is_u8 token ∧ token ≠ DATA_IDLE ∧
        data = replicate w DATA_IDLE ++ token :: rest ∧
        (token = DATA_CTRL_START → ∃ crc_hi crc_lo, rest = sd_block a c ++ [crc_hi; crc_lo]) ∧
        (token ≠ DATA_CTRL_START → rest = []) ∧ (sd_valid a c → token = DATA_CTRL_START)) →
     sd_at (SdOut data next) h' (sd_exec cmd a c) → Q 0 (upd h' s)) →
  (¬ sd_valid a c → ∀ h', sd_at SdReady h' (sd_exec cmd a c) → Q (-1) (upd h' s)) →
  wp (send_rw_cmd fuel cmd a) s Q.
Proof.
  intros Hcmd Ha Hok Hat HQ Hbad. unfold send_rw_cmd. assert (Hc64 : 0 ≤ cmd < 64) by lia.
  apply wp_bind. eapply wp_send_cmd; [done|done|]. intros h Hat1.
  destruct (at_exec _ _ _ _ _ Hc64 Ha (crc_rw cmd a Hcmd) Hat1) as (w & data & next & Hw & Hat2 & Hnext).
  destruct (reply_shape cmd a c Hok) as (r1 & rest & Er & Hr1 & _ & Hl).
  assert (rest = []) as ->.
  { rewrite Er in Hl. unfold resp_len in Hl. rewrite !decide_False in Hl by lia. by destruct rest. }
  rewrite Er in *. apply wp_bind. eapply wp_wait_resp; [exact Hr1|exact Hw|rewrite proj_upd; exact Hat2|].
  intros h' Hat3. rewrite upd_upd. apply wp_ret. destruct (decide (r1 = 0)) as [Hz|Hz].
  - subst r1. apply (HQ eq_refl h' data next); [| |done].
    + intros ->. rewrite decide_False in Hnext by lia. rewrite decide_True in Hnext by done. done.
    + intros ->. by rewrite decide_True in Hnext by done.
  - rewrite decide_False in Hnext by naive_solver. destruct Hnext as [-> ->].
    rewrite decide_False in Hat3 by naive_solver. apply Hbad; [|by apply at_end].
    intros Hv. pose proof (reply_valid cmd a c Hok Hcmd Hv). congruence.
Qed.

Lemma wp_read_single a dst (s : S) (Q : Z * list Z → S → Prop) :
  sd_ok (proj s) → is_u32 a → (BLOCK_SIZE ≤ length dst)%nat →
  Q (0, sd_block a (proj s) ++ drop BLOCK_SIZE dst) (upd (sd_exec 17 a (proj s)) s) →
  (¬ sd_valid a (proj s) → Q (-1, dst) (upd (sd_exec 17 a (proj s)) s)) →
  wp (sd_read_single_block fuel a dst) s Q.
Proof.
  intros Hok Ha Hdst HQ Hbad. set (c := proj s) in *. unfold sd_read_single_block.
  apply wp_bind, wp_sd_select; [done|]. intros h Hat. fold c in Hat.
  apply wp_bind. eapply (wp_rw_cmd 17 a c); [by left|done|done|by rewrite proj_upd| |].
  2: { intros Hv h' Hat'. rewrite upd_upd. apply wp_bind, wp_ret, wp_bind. eapply wp_sd_deselect; [by rewrite proj_upd|].
       apply wp_ret. rewrite upd_upd. by apply Hbad. }
  intros _ h1 data next _ H17 Hat1. destruct (H17 eq_refl) as (-> & w & token & rest & Hw & Ht8 & Hne & -> & Hstart & Hrest & Hv).
  rewrite upd_upd. rewrite decide_True by done. apply wp_bind. unfold read_block. apply wp_bind.
  eapply (wp_wait (λ r, if decide (u8 r = DATA_IDLE) then inl tt else inr (u8 r)) (replicate w DATA_IDLE) token token);
    [by apply Forall_replicate|by rewrite u8_id, decide_False by done|rewrite length_replicate; lia|by rewrite proj_upd|].
  intros h2 Hat2. rewrite upd_upd.
  assert (Hend : ∀ h' res d, sd_at SdReady h' (sd_exec 17 a c) → Q (res, d) (upd (sd_exec 17 a c) s) →
    wp (_ ← sd_deselect; mret (res, d)) (upd h' s) Q).
  { intros h' res d Hat' HQ'. apply wp_bind. eapply wp_sd_deselect; [by rewrite proj_upd|]. apply wp_ret. by rewrite upd_upd. }
  case_decide as Htok.
  - destruct (Hstart Htok) as (chi & clo & ->). destruct (block_length a c Hok) as [Hbl Hb8].
    apply wp_bind. rewrite <- Hbl.
    pose proof (wp_read_bytes (sd_block a c) [] (take BLOCK_SIZE dst) (drop BLOCK_SIZE dst) [chi; clo] SdReady
      (sd_exec 17 a c) (upd h2 s)) as Hread. simpl in Hread. rewrite take_drop in Hread.
    apply Hread; [done|rewrite length_take, Hbl; lia|by rewrite proj_upd|]. clear Hread.
    intros h3 Hat3. rewrite upd_upd.
    apply wp_bind. eapply wp_out; [by rewrite proj_upd|]. intros h4 Hat4. rewrite upd_upd.
    apply wp_bind. eapply wp_out; [by rewrite proj_upd|]. intros h5 Hat5%at_end. rewrite upd_upd.
    apply wp_ret. by apply Hend.
  - rewrite (Hrest Htok) in Hat2. apply at_end in Hat2. apply wp_ret. apply Hend; [done|].
    apply Hbad. intros Hval. by apply Htok, Hv.
Qed.

(** The block, its checksum and the answer of the card. *)
Lemma wp_send_block a src post c (s : S) (Q : Z → S → Prop) :
  length src = BLOCK_SIZE → sd_at (SdOut [] (SdRecv a [])) (proj s) c →
  (∀ h' busy, Forall (λ b, is_u8 b ∧ b ≠ DATA_IDLE) busy → (length busy < sd_latency)%nat →
     sd_at (SdOut (busy ++ [DATA_IDLE]) SdReady) h' (sd_store a src c) → Q 0 (upd h' s)) →
  (¬ sd_valid a c → ∀ h', sd_at SdReady h' c → Q (-1) (upd h' s)) →
  wp (send_block (src ++ post)) s Q.
Proof.
  intros Hsrc Hat%at_end HQ Hbad. unfold send_block. apply wp_bind, wp_xfer.
  apply (at_recv a [] DATA_CTRL_START) in Hat; [|simpl; lia].
  apply wp_bind. rewrite <- Hsrc.
  pose proof (wp_send_bytes a src [] post [DATA_CTRL_START] c
    (upd (dev_xfer DATA_CTRL_START (proj s)).2 s)) as Hsend.
  simpl app in Hsend. apply Hsend; clear Hsend.
  { rewrite Hsrc. unfold BLOCK_SIZE. simpl. lia. }
  { by rewrite proj_upd. }
  intros h1 Hat1. rewrite upd_upd. apply wp_bind, wp_xfer. rewrite proj_upd, upd_upd.
  apply (at_recv _ _ DATA_DUMMY) in Hat1; [|simpl; rewrite Hsrc; unfold BLOCK_SIZE; lia].
  apply wp_bind, wp_xfer. rewrite proj_upd, upd_upd.
  destruct (at_store a src DATA_DUMMY DATA_DUMMY _ _ Hsrc Hat1) as (resp & busy & Hr8 & Hbusy & Hlb & Hst).
  apply wp_bind. case_decide as Hacc.
  - eapply wp_out; [by rewrite proj_upd|]. intros h2 Hat2. rewrite upd_upd. apply wp_ret.
    rewrite u8_id, decide_True by done. by eapply HQ.
  - destruct Hst as [Hv Hat2]. eapply wp_out; [by rewrite proj_upd|]. intros h2 Hat3%at_end. rewrite upd_upd.
    apply wp_ret. rewrite u8_id, decide_False by done. by apply Hbad.
Qed.

(** After the busy bytes the status is asked for. *)
Lemma wp_wait_end_write busy c (s : S) (Q : Z → S → Prop) :
  Forall (λ b, is_u8 b ∧ b ≠ DATA_IDLE) busy → (length busy < sd_latency)%nat → sd_ok c →
  sd_at (SdOut (busy ++ [DATA_IDLE]) SdReady) (proj s) c →
  (∀ h', sd_at SdReady h' (sd_exec 13 0 c) →
     Q (if decide (le_val (sd_reply 13 0 c) = 0) then 0 else -1) (upd h' s)) →
  wp (wait_end_write fuel) s Q.
Proof.
  intros Hbusy Hl Hok Hat HQ. unfold wait_end_write. apply wp_bind.
  eapply (wp_wait (λ r, if decide (u8 r ≠ DATA_IDLE) then inl tt else inr tt) busy DATA_IDLE tt [] SdReady);
    [|done|lia|exact Hat|].
  { apply list.Forall_forall. intros b Hin. rewrite list.Forall_forall in Hbusy.
    destruct (Hbusy b Hin) as [Hb Hne]. rewrite u8_id by done. by rewrite decide_True. }
  intros h Hat1%at_end. apply wp_bind.
  apply (wp_command_inner 13 0 [0; 0] c); [lia|done|done|done|by apply crc7_get_accepted|done|done|by rewrite proj_upd|].
  intros h' Hat2. rewrite upd_upd. apply wp_ret. by apply HQ.
Qed.

Lemma wp_write_single a src post (s : S) (Q : Z → S → Prop) :
  sd_ok (proj s) → is_u32 a → length src = BLOCK_SIZE → Forall is_u8 src →
  (∀ res c', let stored := sd_exec 13 0 (sd_store a src (sd_exec 24 a (proj s))) in
     sd_ok c' → res = 0 ∧ c' = stored ∨ res = -1 ∧ ¬ (sd_valid a (proj s)) → Q res (upd c' s)) →
  wp (sd_write_single_block fuel a (src ++ post)) s Q.
Proof.
  intros Hok Ha Hsrc Hsrc8 HQ. set (c := proj s) in *. unfold sd_write_single_block.
  assert (Hok1 : sd_ok (sd_exec 24 a c)) by (by apply exec_ok).
  assert (Hend : ∀ h' res c', sd_at SdReady h' c' → sd_ok c' →
    res = 0 ∧ c' = sd_exec 13 0 (sd_store a src (sd_exec 24 a c)) ∨ res = -1 ∧ ¬ sd_valid a c →
    wp (_ ← sd_deselect; mret res) (upd h' s) Q).
  { intros h' res c' Hat' Hc' Hres. apply wp_bind. eapply wp_sd_deselect; [by rewrite proj_upd|].
    apply wp_ret. rewrite upd_upd. by apply HQ. }
  apply wp_bind, wp_sd_select; [done|]. intros h Hat. fold c in Hat.
  apply wp_bind. eapply (wp_rw_cmd 24 a c); [by right|done|done|by rewrite proj_upd| |].
  2: { intros Hv h' Hat'. rewrite upd_upd. apply wp_bind, wp_ret, wp_bind, wp_ret. eapply Hend; [done|done|by right]. }
  intros _ h1 data next H24 _ Hat1. destruct (H24 eq_refl) as [-> ->]. rewrite upd_upd.
  apply wp_bind. simpl. eapply wp_send_block; [done|by rewrite proj_upd| |].
  - intros h2 busy Hbusy Hlb Hat2. rewrite upd_upd. apply wp_bind.
    assert (Hok2 : sd_ok (sd_store a src (sd_exec 24 a c))) by (by apply store_ok).
    eapply wp_wait_end_write; [exact Hbusy|done|exact Hok2|by rewrite proj_upd|].
    intros h3 Hat3. rewrite upd_upd. eapply Hend; [done|by apply exec_ok|].
    case_decide as Hs; [by left|right]. split; [done|]. intros Hv. apply Hs. by rewrite reply_status.
  - intros Hv h2 Hat2. rewrite upd_upd. apply wp_bind, wp_ret. eapply Hend; [done|done|].
    right. split; [done|]. intros Hv'. apply Hv, exec_valid; [done|lia|done].
Qed.
End bus.
