(* ===== verification/SdSim.v ===== *)
(** * A simulated SD card, and what the card driver does on any card

    A card with a memory, a number of refusals before it is ready, and delays:
    it takes commands byte by byte, checks the checksums of the first two, and
    satisfies the interface [SdCard]. The round trip of a block through
    [src/sd_spi.c] is stated for every card; without a card the driver waits for
    ever. *)

From stdpp Require Import prelude list numbers functions.
From S2P Require Import Prelude Opencm3 SdSpi.

(** [sc_idle] is how often the card still answers that it is initialising. *)
Record card_data := CardData {
  sc_mem : Z → list Z;
  sc_size : Z;
  sc_high_capacity : bool;
  sc_idle : nat;
}.

(** A card that is not selected has no phase. *)
Record sim_card := SimCard { sc_data : card_data; sc_phase : option sd_phase }.

Fixpoint phase_norm (p : sd_phase) : sd_phase :=
  match p with SdOut [] next => phase_norm next | _ => p end.

(** The distance of the addresses of two sectors. *)
Definition card_unit (d : card_data) : Z := if sc_high_capacity d then 1 else 512.
Definition card_valid (d : card_data) (a : Z) : bool :=
  bool_decide (sc_idle d = 0%nat ∧ 0 ≤ a ∧ a mod card_unit d = 0 ∧ a < card_unit d * sc_size d).

Definition r1_of (d : card_data) (err : Z) : Z := (if decide (sc_idle d = 0%nat) then 0 else 1) + err.

Definition card_reply (cmd arg : Z) (d : card_data) : list Z :=
  if decide (cmd = 0) then [1]
  else if decide (cmd = 8) then [r1_of d 0; 0; 0; Z.land (Z.shiftr arg 8) 15; Z.land arg 255]
  else if decide (cmd = 58) then [r1_of d 0; if sc_high_capacity d then 192 else 128; 255; 128; 0]
  else if decide (cmd = 13) then [r1_of d 0; 0]
  else if decide (cmd = 17 ∨ cmd = 24) then [if card_valid d arg then 0 else r1_of d 4]
  else if decide (cmd = 41 ∨ cmd = 55 ∨ cmd = 16) then [r1_of d 0]
  else [r1_of d 4].

(** The memory keeps its contents; only the initialisation changes. *)
Definition card_exec (cmd : Z) (d : card_data) : card_data :=
  let idle n := CardData (sc_mem d) (sc_size d) (sc_high_capacity d) n in
  if decide (cmd = 0) then idle 3%nat
  else if decide (cmd = 41) then idle (pred (sc_idle d))
  else d.

Definition card_store (a : Z) (bs : list Z) (d : card_data) : card_data :=
  CardData (<[a := bs]> (sc_mem d)) (sc_size d) (sc_high_capacity d) (sc_idle d).

(** The last byte of a command: its checksum, and what is sent then. *)
Definition card_command (l : list Z) (crc : Z) (d : card_data) : card_data * sd_phase :=
  let cmd := nth 0 l 0 - 64 in
  let arg := le_val (rev (drop 1 l)) in
  if decide ((cmd = 0 ∨ cmd = 8) ∧ crc ≠ 2 * crc7 l + 1) then (d, SdOut [r1_of d 8] SdReady)
  else
    let reply := card_reply cmd arg d in
    let head := [DATA_IDLE] ++ reply in
    (card_exec cmd d,
     if decide (cmd = 17 ∧ reply = [0]) then
       SdOut (head ++ [DATA_IDLE; DATA_IDLE; DATA_CTRL_START] ++ sc_mem d arg ++ [0; 0]) SdReady
     else if decide (cmd = 24 ∧ reply = [0]) then SdOut head (SdRecv arg [])
     else SdOut head SdReady).

Definition card_step (b : Z) (p : sd_phase) (d : card_data) : Z * card_data * sd_phase :=
  match p with
  | SdReady => (DATA_IDLE, d, if decide (64 ≤ b < 128) then SdCmd [b] else SdReady)
  | SdCmd l =>
      if decide (length l < 5)%nat then (DATA_IDLE, d, SdCmd (l ++ [b]))
      else let '(d, p) := card_command l b d in (DATA_IDLE, d, p)
  | SdOut (x :: out) next => (x, d, phase_norm (SdOut out next))
  | SdOut [] next => (DATA_IDLE, d, phase_norm next)
  | SdRecv a l =>
      if decide (length l < 514)%nat then (DATA_IDLE, d, SdRecv a (l ++ [b]))
      else if card_valid d a then
        (DATA_IDLE, card_store a (take BLOCK_SIZE (drop 1 l)) d, SdOut [229; 0; 0; DATA_IDLE] SdReady)
      else (DATA_IDLE, d, SdOut [237] SdReady)
  end.

#[export] Instance card_device : SpiDevice sim_card := {|
  dev_hw call c :=
    match call with
    | gpio_clear GPIOB [GPIO5] => SimCard (sc_data c) (Some SdReady)
    | gpio_set GPIOB [GPIO5] => SimCard (sc_data c) None
    | _ => c
    end;
  dev_xfer b c :=
    match sc_phase c with
    | None => (DATA_IDLE, c)
    | Some p => let '(r, d, p) := card_step b p (sc_data c) in (r, SimCard d (Some p))
    end;
|}.

Definition card_ok (c : sim_card) : Prop :=
  sc_phase c = None ∧ ∀ a, length (sc_mem (sc_data c) a) = BLOCK_SIZE ∧ Forall is_u8 (sc_mem (sc_data c) a).

Definition card_at (p : sd_phase) (h c : sim_card) : Prop :=
  sc_phase c = None ∧ h = SimCard (sc_data c) (Some (phase_norm p)).

(** ** The laws of the interface *)

Lemma arg_bytes arg : is_u32 arg →
  le_val (rev [Z.land (Z.shiftr arg 24) 255; Z.land (Z.shiftr arg 16) 255;
               Z.land (Z.shiftr arg 8) 255; Z.land (Z.shiftr arg 0) 255]) = arg.
Proof.
  intros Ha. simpl. rewrite !(Z.land_ones _ 8) by done. rewrite !Z.shiftr_div_pow2 by done.
  unfold is_u32 in Ha. Z.to_euclidean_division_equations. lia.
Qed.

Lemma r1_of_ok d e : 0 ≤ e < 100 → is_r1 (r1_of d e).
Proof. intros He. unfold r1_of, is_r1. case_decide; lia. Qed.

Lemma card_reply_shape cmd arg d : ∃ r1 rest, card_reply cmd arg d = r1 :: rest ∧ is_r1 r1 ∧
  Forall is_u8 rest ∧ length (card_reply cmd arg d) = resp_len cmd.
Proof.
  pose proof (λ e, r1_of_ok d e) as Hr. unfold card_reply, resp_len.
  assert (is_r1 1 ∧ is_r1 0) as [H1 H0] by (unfold is_r1; lia).
  assert (H8 : ∀ x k, 0 ≤ k → is_u8 (Z.land x (Z.ones k)) ∨ 8 < k).
  { intros x k Hk. destruct (decide (k ≤ 8)); [left|right; lia]. rewrite Z.land_ones by done.
    unfold is_u8. pose proof (Z.mod_pos_bound x (2 ^ k) ltac:(lia)).
    assert (2 ^ k ≤ 2 ^ 8) by (apply Z.pow_le_mono_r; lia). lia. }
  destruct (decide (cmd = 0)) as [->|]; [by eauto 10|].
  destruct (decide (cmd = 8)) as [->|].
  { eexists _, _. split; [done|]. split; [apply Hr; lia|]. split; [|done].
    destruct (H8 (Z.shiftr arg 8) 4 ltac:(lia)) as [?|?]; [|lia].
    destruct (H8 arg 8 ltac:(lia)) as [?|?]; [|lia]. rewrite !list.Forall_cons. split_and!; [done|done|exact H|exact H2|constructor]. }
  destruct (decide (cmd = 58)) as [->|].
  { eexists _, _. split; [done|]. split; [apply Hr; lia|]. split; [|done].
    repeat constructor; unfold is_u8; destruct (sc_high_capacity d); lia. }
  destruct (decide (cmd = 13)) as [->|].
  { eexists _, _. split; [done|]. split; [apply Hr; lia|]. split; [|done]. repeat constructor; unfold is_u8; lia. }
  rewrite (decide_False (P := cmd = 8 ∨ cmd = 58)) by lia.
  repeat case_decide; eexists _, []; (split; [reflexivity|]); split_and!; try done;
    repeat case_match; auto; apply Hr; lia.
Qed.

Lemma card_command_run cmd arg crc d : 0 ≤ cmd < 64 → is_u32 arg → crc_accepted cmd arg crc →
  card_command (command_head cmd arg) crc d =
  (card_exec cmd d,
   if decide (cmd = 17 ∧ card_reply cmd arg d = [0]) then
     SdOut ([DATA_IDLE] ++ card_reply cmd arg d ++ [DATA_IDLE; DATA_IDLE; DATA_CTRL_START] ++ sc_mem d arg ++ [0; 0]) SdReady
   else if decide (cmd = 24 ∧ card_reply cmd arg d = [0]) then
     SdOut ([DATA_IDLE] ++ card_reply cmd arg d) (SdRecv arg [])
   else SdOut ([DATA_IDLE] ++ card_reply cmd arg d) SdReady).
Proof.
  intros Hcmd Harg Hcrc. unfold card_command. simpl nth. simpl drop. rewrite arg_bytes by done.
  rewrite cmd_start by done. replace (cmd + 64 - 64) with cmd by lia.
  rewrite decide_False; [done|]. intros [Hc Hne]. apply Hne. rewrite (Hcrc Hc). unfold command_head.
  by rewrite cmd_start by done.
Qed.

#[export, refine] Instance card_sd : SdCard sim_card := {|
  sd_ok := card_ok;
  sd_at := card_at;
  sd_latency := 8;
  sd_block a c := sc_mem (sc_data c) a;
  sd_valid a c := card_valid (sc_data c) a = true;
  sd_reply cmd arg c := card_reply cmd arg (sc_data c);
  sd_exec cmd _ c := SimCard (card_exec cmd (sc_data c)) (sc_phase c);
  sd_store a bs c :=
    if card_valid (sc_data c) a then SimCard (card_store a bs (sc_data c)) (sc_phase c) else c;
|}.
Proof.
  - intros a c [_ Hm]. apply Hm.
  - intros cmd arg c [Hp Hm]. split; [done|]. unfold card_exec. intros a. simpl. repeat case_decide; apply Hm.
  - intros cmd arg a c _ [->|[->| ->]]; done.
  - intros cmd arg a c _ [->|[->| ->]]; done.
  - intros a bs c [Hp Hm] H8 Hl. case_match; [|done]. split; [done|]. intros b. simpl.
    destruct (decide (a = b)) as [->|]; [by rewrite fn_lookup_insert|rewrite fn_lookup_insert_ne by done; apply Hm].
  - intros a b bs c _ Hv _ _ _. rewrite Hv. simpl.
    case_decide as E; [subst b; by rewrite fn_lookup_insert|by rewrite fn_lookup_insert_ne].
  - intros a bs b c _. by case_match.
  - intros cmd arg c _. apply card_reply_shape.
  - intros cmd a c _ [->| ->] Hv; unfold card_reply; simpl; by rewrite Hv.
  - intros a bs c _ Hv. change (card_exec 24 (sc_data c)) with (sc_data c). cbv beta. cbn [sc_data sc_phase].
    rewrite Hv. simpl. apply bool_decide_eq_true in Hv as [Hi _].
    unfold card_reply, r1_of. simpl. by rewrite decide_True by done.
  - intros call c [Hp Hm] Hne. destruct call; try done.
    + destruct p; [done|]. destruct pins as [|[] [|]]; done.
    + destruct p; [done|]. destruct pins as [|[] [|]]; done.
  - intros c [Hp Hm]. simpl. by rewrite Hp.
  - intros c [Hp _]. done.
  - intros h c [Hp ->]. simpl. destruct c. simpl in *. by rewrite Hp.
  - intros h c [Hp ->]. done.
  - intros b h c Hb [Hp ->]. split; [done|]. simpl. by rewrite decide_True by done.
  - intros l b h c Hl [Hp ->]. split; [done|]. simpl. by rewrite decide_True by done.
  - intros cmd arg crc h c Hcmd Harg Hcrc [Hp ->].
    set (d := sc_data c). assert (Hx : (dev_xfer crc (SimCard d (Some (phase_norm (SdCmd (command_head cmd arg)))))).2 =
      let '(d, p) := card_command (command_head cmd arg) crc d in SimCard d (Some p)).
    { simpl. by destruct (card_command _ _ _). }
    rewrite Hx, card_command_run by done. exists 1%nat.
    destruct (decide (cmd = 17 ∧ card_reply cmd arg d = [0])) as [E|E].
    + exists ([DATA_IDLE; DATA_IDLE; DATA_CTRL_START] ++ sc_mem d arg ++ [0; 0]), SdReady.
      split; [lia|]. split; [by split|]. split; [done|]. exists 2%nat, DATA_CTRL_START, (sc_mem d arg ++ [0; 0]).
      split_and!; [lia|done|done|done|by eauto|done|done].
    + exists [], (if decide (cmd = 24 ∧ card_reply cmd arg d = [0]) then SdRecv arg [] else SdReady).
      split; [lia|]. split; [|done]. rewrite app_nil_r. split; [done|]. simpl. by case_decide.
  - intros b out next h c [Hp ->]. split; [done|]. by split.
  - intros next h c [Hp ->]. by split.
  - intros a l b h c Hl [Hp ->]. split; [done|]. simpl. by rewrite decide_True by done.
  - intros a bs hi lo h c Hbs [Hp ->]. simpl phase_norm. assert (Hl : ¬ (length (DATA_CTRL_START :: bs ++ [hi]) < 514)%nat)
      by (simpl; rewrite length_app, Hbs; unfold BLOCK_SIZE; simpl; lia).
    assert (Ht : take BLOCK_SIZE (drop 1 (DATA_CTRL_START :: bs ++ [hi])) = bs)
      by (by apply take_app_length').
    assert (Hx : (dev_xfer lo (SimCard (sc_data c) (Some (SdRecv a (DATA_CTRL_START :: bs ++ [hi]))))).2 =
      if card_valid (sc_data c) a then SimCard (card_store a bs (sc_data c)) (Some (SdOut [229; 0; 0; DATA_IDLE] SdReady))
      else SimCard (sc_data c) (Some (SdOut [237] SdReady))).
    { unfold dev_xfer, card_device. cbn [sc_phase sc_data]. unfold card_step.
      rewrite decide_False by done. rewrite Ht. by destruct (card_valid _ _). }
    rewrite Hx. destruct (card_valid (sc_data c) a) eqn:Hv.
    + exists 229, [0; 0]. split; [done|]. split; [by repeat constructor|]. split; [simpl; lia|]. by split.
    + exists 237, [0; 0]. split; [done|]. split; [by repeat constructor|]. split; [simpl; lia|].
      rewrite decide_False by done. split; [done|by split].
Defined.

(** ** A block, written and read *)
Section block.
Context {H S : Type} `{!Has H S, !HasLaws H S, !SpiDevice H, !SdCard H}.

(** A block written to a card and accepted is what is read from its address;
    the other blocks are untouched. *)
Definition write_then_read (fuel : nat) (a : Z) (src : list Z) (b : Z) (dst : list Z) : M S (Z * Z * list Z) :=
  w ← sd_write_single_block fuel a src;
  '(r, dst) ← sd_read_single_block fuel b dst;
  mret (w, r, dst).

(** Write a block to a card and read one: both succeed when the card has
    blocks at the two addresses, after any delays below the fuel, and what is read
    is what was written if the addresses are equal, and the old block otherwise;
    only the first 512 bytes of the buffer change. *)
Theorem sd_block_roundtrip fuel a src b dst (s : S) :
  (sd_latency < fuel)%nat → sd_ok (proj s) → is_u32 a → is_u32 b → sd_valid a (proj s) → sd_valid b (proj s) →
  length src = BLOCK_SIZE → Forall is_u8 src → (BLOCK_SIZE ≤ length dst)%nat →
  wp (write_then_read fuel a src b dst) s (λ res _,
    res = (0, 0, (if decide (a = b) then src else sd_block b (proj s)) ++ drop BLOCK_SIZE dst)).
Proof.
  intros Hfuel Hok Ha Hb Hva Hvb Hsrc Hsrc8 Hdst. unfold write_then_read.
  apply wp_bind. rewrite <- (app_nil_r src). apply wp_write_single; [done..|]. rewrite app_nil_r. intros res c' stored Hc' [[-> ->]|[_ Hno]]; [|done]. subst stored.
  assert (Hok1 : sd_ok (sd_exec 24 a (proj s))) by (by apply exec_ok).
  assert (Hok2 : sd_ok (sd_store a src (sd_exec 24 a (proj s)))) by (by apply store_ok).
  apply wp_bind, wp_read_single; [done|by rewrite proj_upd|done|done| |]; rewrite proj_upd.
  - apply wp_ret. repeat f_equal. rewrite exec_block by tauto.
    rewrite store_block; [|done|apply exec_valid; tauto..|done|done].
    case_decide; [done|]. by rewrite exec_block by tauto.
  - intros Hno. exfalso. apply Hno. apply exec_valid; [done|tauto|]. apply store_valid; [done|].
    apply exec_valid; [done|tauto|done].
Qed.

(** The clocks a card gets when the bus is set up. *)
Definition spi_setup (br : spi_baudrate) : hw_call :=
  spi_init_master br SPI_CR1_CPOL_CLK_TO_0_WHEN_IDLE SPI_CR1_CPHA_CLK_TRANSITION_1 SPI_CR1_DFF_8BIT SPI_CR1_MSBFIRST.

(** What calls and clocks make of a card that is not selected meanwhile. *)
Inductive idle_path (c : H) : H → Prop :=
| idle_here : idle_path c c
| idle_call call c' : idle_path c c' → call ≠ gpio_clear GPIOB [GPIO5] → idle_path c (dev_hw call c')
| idle_clock c' : idle_path c c' → idle_path c (dev_xfer DATA_IDLE c').2.

Lemma idle_path_ok c c' : sd_ok c → idle_path c c' → sd_ok c'.
Proof. intros Hok. induction 1; [done|by apply hw_ok|by apply idle_ok]. Qed.

(** The state, but for what the card made of calls and clocks. *)
Definition idle_since (s t : S) : Prop := ∃ c, idle_path (proj s) c ∧ t = upd c s.

Lemma wp_idle_clocks n i (s t : S) (Q : unit → S → Prop) :
  idle_since s t → 0 ≤ i < 250 → 250 ≤ i + 8 * Z.of_nat n → (∀ t, idle_since s t → Q tt t) →
  wp (loop n (λ i_dummy_clk,
    _ ← spi_xfer 255;
    let i_dummy_clk := i_dummy_clk + 8 in
    mret (if decide (i_dummy_clk < 74 ∨ i_dummy_clk < 250) then inl i_dummy_clk else inr tt)) i) t Q.
Proof.
  revert i t. induction n as [|n IH]; intros i t (c & Hc & ->) Hi Hn HQ; [lia|].
  apply wp_loop_turn, wp_bind, wp_xfer, wp_ret. rewrite proj_upd, upd_upd.
  assert (Hnext : idle_since s (upd (dev_xfer 255 c).2 s)) by (eexists; split; [by apply idle_clock|done]).
  case_decide as E; [|by apply HQ]. apply IH; [done|lia|lia|done].
Qed.

Lemma wp_hw_idle call (s t : S) (Q : unit → S → Prop) : call ≠ gpio_clear GPIOB [GPIO5] →
  idle_since s t → (∀ t', idle_since s t' → Q tt t') → wp (hw call) t Q.
Proof.
  intros Hne (c & Hc & ->) HQ. apply wp_hw. rewrite proj_upd, upd_upd. apply HQ.
  eexists. split; [|done]. by apply idle_call.
Qed.

(** Setting up the bus takes 32 bytes of clocks and leaves a card idle. *)
Lemma wp_sd_init board (s : S) (Q : unit → S → Prop) :
  (∀ t, idle_since s t → Q tt t) → wp (sd_init board) s Q.
Proof.
  intros HQ. unfold sd_init, sd_spi_init.
  assert (Hs : idle_since s s) by (exists (proj s); split; [apply idle_here|by rewrite upd_proj]).
  do 5 (apply wp_bind; eapply wp_hw_idle; [done|eassumption|]; intros ? ?).
  apply wp_bind, (wp_mono _ _ (λ _ t, idle_since s t)); cycle 1.
  { destruct board;
      [do 4 (apply wp_bind; eapply wp_hw_idle; [done|eassumption|]; intros ? ?)
      |do 2 (apply wp_bind; eapply wp_hw_idle; [done|eassumption|]; intros ? ?)];
      (eapply (wp_hw_idle _ s); [done|eassumption|done]). }
  intros _ t1 Ht1. do 4 (apply wp_bind; eapply wp_hw_idle; [done|eassumption|]; intros ? ?).
  by apply (wp_idle_clocks 32 0 s).
Qed.

Lemma wp_sd_full_speed (s t : S) (Q : unit → S → Prop) :
  idle_since s t → (∀ t', idle_since s t' → Q tt t') → wp sd_full_speed t Q.
Proof. intros Hs HQ. by apply (wp_hw_idle _ s). Qed.
End block.

Section witness.
Definition sample_card : sim_card :=
  SimCard (CardData (λ _, replicate BLOCK_SIZE 0) 8 true 0) None.

Lemma sample_card_ok : card_ok sample_card.
Proof. split; [done|]. intros a. split; [apply length_replicate|by apply Forall_replicate]. Qed.

Lemma sd_block_roundtrip_witness :
  wp (write_then_read 9 3 (replicate BLOCK_SIZE 7) 3 (replicate BLOCK_SIZE 0)) sample_card
    (λ res _, res = (0, 0, replicate BLOCK_SIZE 7 ++ [])).
Proof.
  apply (sd_block_roundtrip (H := sim_card) 9 3 (replicate BLOCK_SIZE 7) 3 (replicate BLOCK_SIZE 0) sample_card);
    [simpl; lia|exact sample_card_ok|done|done|done|done|apply length_replicate|by apply Forall_replicate|reflexivity].
Defined.
End witness.
