(* ===== verification/SdDisk.v ===== *)
(** * Disk access: [src/sd_spi_diskio.c]

    The functions through which FatFs reaches a disk, over the card driver
    ([SdSpi]). Reading and writing sectors is shown to act on the card as on an
    array of blocks, and the initialisation to recognise exactly the cards that
    answer as it asks. *)

From stdpp Require Import prelude list numbers.
From S2P Require Import Prelude Opencm3 SdSpi SdSim.

Definition N_PDRV : Z := 1.
Definition SD_STATE_IDLE : Z := 1.
Definition SD_SECTOR_SIZE : Z := 512.

(** The results and commands are constants of FatFs, which is not part of the
    repository; [DISK_OK] is the status 0. *)
Inductive DSTATUS := DISK_OK | STA_NOINIT | STA_NODISK | STA_PROTECT.
Inductive DRESULT := RES_OK | RES_ERROR | RES_NOTRDY | RES_PARERR.
Inductive ioctl_cmd :=
| CTRL_SYNC | GET_SECTOR_COUNT | GET_SECTOR_SIZE | GET_BLOCK_SIZE | CTRL_TRIM
| other_cmd (cmd : Z).

#[export] Instance DSTATUS_eq_dec : EqDecision DSTATUS.
Proof. solve_decision. Defined.

(** [struct pdrv]. *)
Record pdrv := Pdrv {
  initialized : bool;
  present : bool;
  write_protected : bool;
  byte_addressable : bool;
}.

(** [pdrv_data]. *)
Definition pdrvs : Type := list pdrv.
Definition pdrvs_init : pdrvs := replicate (Z.to_nat N_PDRV) (Pdrv false false false false).

Section diskio.
Context {S : Type} `{!Has pdrvs S, !Opencm3 S}.
(** The waits of the driver, the board, and [SD_SPI_DISKIO_READONLY]. *)
Context (fuel : nat) (board : target) (readonly : bool).

Definition pdrv_data (i : Z) : M S pdrv := d ← getc; lift (aget d i).
Definition pdrv_set (i : Z) (f : pdrv → pdrv) : M S unit :=
  d ← getc;
  p ← lift (aget d i);
  d ← lift (aset d i (f p));
  modifyc (λ _, d).

Definition set_byte_addressable (b : bool) (p : pdrv) : pdrv :=
  Pdrv (initialized p) (present p) (write_protected p) b.

(** The four stages of the initialisation. *)
Definition init_reset : M S DSTATUS :=
  r1 ← loop 4 (λ tries,
    r1 ← sd_send_command_r1 fuel 0 0;
    let tries := tries - 1 in
    mret (if decide (r1 ≠ SD_STATE_IDLE ∧ tries > 0) then inl tries else inr r1)) 4;
  mret (if decide (r1 ≠ SD_STATE_IDLE) then STA_NODISK else DISK_OK).

Definition init_voltage : M S DSTATUS :=
  r7 ← sd_send_command fuel 8 426 [0; 0; 0; 0; 0] 5;
  r7_0 ← lift (aget r7 0);
  r7_3 ← lift (aget r7 3);
  r7_4 ← lift (aget r7 4);
  mret (if decide (r7_0 ≠ SD_STATE_IDLE ∨ Z.land r7_3 15 ≠ 1 ∨ r7_4 ≠ 170) then STA_NODISK else DISK_OK).

Definition init_ready : M S DSTATUS :=
  let arg_hcs := 1073741824 in
  r1 ← loop 1000 (λ tries,
    _ ← sd_send_command_r1 fuel 55 0;
    r1 ← sd_send_command_r1 fuel 41 arg_hcs;
    let tries := tries - 1 in
    mret (if decide (Z.land r1 SD_STATE_IDLE ≠ 0 ∧ tries > 0) then inl tries else inr r1)) 1000;
  mret (if decide (Z.land r1 SD_STATE_IDLE ≠ 0) then STA_NODISK else DISK_OK).

Definition init_capacity (i : Z) : M S DSTATUS :=
  r3 ← sd_send_command fuel 58 0 [0; 0; 0; 0; 0] 5;
  r3_1 ← lift (aget r3 1);
  if decide (Z.land r3_1 64 ≠ 0) then
    _ ← pdrv_set i (set_byte_addressable false); mret DISK_OK
  else
    _ ← pdrv_set i (set_byte_addressable true);
    r1 ← sd_send_command_r1 fuel 16 SD_SECTOR_SIZE;
    mret (if decide (r1 ≠ 0) then STA_NODISK else DISK_OK).

Definition init_done (i : Z) : M S DSTATUS :=
  _ ← sd_full_speed;
  _ ← pdrv_set i (λ p, Pdrv true (present p) (write_protected p) (byte_addressable p));
  _ ← pdrv_set i (λ p, Pdrv (initialized p) true (write_protected p) (byte_addressable p));
  _ ← pdrv_set i (λ p, Pdrv (initialized p) (present p) readonly (byte_addressable p));
  mret (if readonly then STA_PROTECT else DISK_OK).

(** [if (status == 0) { ... }] *)
Definition if_ok (status : DSTATUS) (m : M S DSTATUS) : M S DSTATUS :=
  if decide (status = DISK_OK) then m else mret status.

Definition disk_initialize (i : Z) : M S DSTATUS :=
  if decide (i < N_PDRV) then
    _ ← sd_init board;
    status ← init_reset;
    status ← if_ok status init_voltage;
    status ← if_ok status init_ready;
    status ← if_ok status (init_capacity i);
    if_ok status (init_done i)
  else mret STA_NODISK.

Definition disk_status (i : Z) : M S DSTATUS :=
  if decide (i < N_PDRV) then
    p ← pdrv_data i;
    mret (if negb (initialized p) then STA_NOINIT
          else if negb (present p) then STA_NODISK
          else if write_protected p then STA_PROTECT
          else DISK_OK)
  else mret STA_NODISK.

Definition get_addr (sector : Z) (byte_addressable : bool) : Z :=
  if byte_addressable then u32 (sector * SD_SECTOR_SIZE) else sector.

(** The pointer [buff] is the offset [off] in the caller's buffer. *)
Definition disk_read (i : Z) (buff : list Z) (sector count : Z) : M S (DRESULT * list Z) :=
  if decide (i >= N_PDRV) then mret (RES_ERROR, buff)
  else
    p ← pdrv_data i;
    if negb (initialized p) then mret (RES_NOTRDY, buff)
    else if negb (present p) then mret (RES_ERROR, buff)
    else
      '(count, buff) ← loop (Datatypes.S (Z.to_nat count)) (λ '(buff, off, sector, count),
        if decide (count > 0) then
          p ← pdrv_data i;
          let addr := get_addr sector (byte_addressable p) in
          '(read_res, dst) ← sd_read_single_block fuel addr (drop off buff);
          let buff := take off buff ++ dst in
          mret (if decide (read_res ≠ 0) then inr (count, buff)
                else inl (buff, (off + Z.to_nat SD_SECTOR_SIZE)%nat, u32 (sector + 1), count - 1))
        else mret (inr (count, buff))) (buff, 0%nat, sector, count);
      mret (if decide (count > 0) then RES_ERROR else RES_OK, buff).

Definition disk_write (i : Z) (buff : list Z) (sector count : Z) : M S DRESULT :=
  if decide (i >= N_PDRV) then mret RES_ERROR
  else
    p ← pdrv_data i;
    if negb (initialized p) then mret RES_NOTRDY
    else if negb (present p) then mret RES_ERROR
    else if write_protected p then mret RES_ERROR
    else
      count ← loop (Datatypes.S (Z.to_nat count)) (λ '(off, sector, count),
        if decide (count > 0) then
          p ← pdrv_data i;
          let addr := get_addr sector (byte_addressable p) in
          write_res ← sd_write_single_block fuel addr (drop off buff);
          mret (if decide (write_res ≠ 0) then inr count
                else inl ((off + Z.to_nat SD_SECTOR_SIZE)%nat, u32 (sector + 1), count - 1))
        else mret (inr count)) (0%nat, sector, count);
      mret (if decide (count > 0) then RES_ERROR else RES_OK).

(** [buff] is the word behind the pointer, for the commands that store one. *)
Definition disk_ioctl (i : Z) (cmd : ioctl_cmd) (buff : Z) : M S (DRESULT * Z) :=
  if decide (i >= N_PDRV) then mret (RES_ERROR, buff)
  else
    p ← pdrv_data i;
    if negb (initialized p) then mret (RES_NOTRDY, buff)
    else if negb (present p) then mret (RES_ERROR, buff)
    else mret
      match cmd with
      | CTRL_SYNC => (RES_OK, buff)
      | GET_SECTOR_COUNT => (RES_OK, 2 * 1024 * (1024 / SD_SECTOR_SIZE))
      | GET_SECTOR_SIZE => (RES_OK, SD_SECTOR_SIZE)
      | GET_BLOCK_SIZE => (RES_OK, SD_SECTOR_SIZE)
      | CTRL_TRIM => (RES_OK, buff)
      | other_cmd _ => (RES_PARERR, buff)
      end.
End diskio.

(** ** Sectors *)
Section sectors.
Context {H S : Type} `{!Has pdrvs S, !HasLaws pdrvs S, !Has H S, !HasLaws H S, !Indep pdrvs H S, !Indep H pdrvs S,
  !SpiDevice H, !SdCard H}.
Context (fuel : nat) (Hfuel : (sd_latency < fuel)%nat).

Definition drive (s : S) : option pdrv := (proj (C := pdrvs) s) !! 0%nat.

(** A sector of the drive [p] is a block of the card; the numbers of a byte
    addressed card go up to 2^23, where [get_addr] wraps. *)
Definition sector_of (p : pdrv) (c : H) (k : Z) : list Z := sd_block (get_addr k (byte_addressable p)) c.
Definition sector_valid (p : pdrv) (c : H) (k : Z) : Prop := sd_valid (get_addr k (byte_addressable p)) c.
Definition addressable (p : pdrv) (k : Z) : Prop := 0 ≤ k < if byte_addressable p then 8388608 else 4294967296.
Definition sectors (p : pdrv) (c : H) (sector : Z) (n : nat) : list Z :=
  mjoin (sector_of p c <$> seqZ sector (Z.of_nat n)).

(** Cards with the same sectors. *)
Definition same_card (c c' : H) : Prop :=
  (∀ a, sd_block a c' = sd_block a c) ∧ (∀ a, sd_valid a c' ↔ sd_valid a c).

Lemma same_card_trans c1 c2 c3 : same_card c1 c2 → same_card c2 c3 → same_card c1 c3.
Proof. intros [Hb Hv] [Hb' Hv']. split; intros a; etrans; eauto. Qed.

Lemma same_card_exec cmd arg c : sd_ok c → cmd = 13 ∨ cmd = 17 ∨ cmd = 24 → same_card c (sd_exec cmd arg c).
Proof. intros Hok Hcmd. split; intros a; [by apply exec_block|by apply exec_valid]. Qed.

Lemma get_addr_u32 p k : addressable p k → is_u32 (get_addr k (byte_addressable p)).
Proof. unfold addressable, get_addr, is_u32. intros Hk. destruct (byte_addressable p); [apply u32_range|done]. Qed.

Lemma get_addr_inj p j k : addressable p j → addressable p k →
  get_addr j (byte_addressable p) = get_addr k (byte_addressable p) → j = k.
Proof.
  unfold addressable, get_addr, SD_SECTOR_SIZE. intros Hj Hk. destruct (byte_addressable p); [|done].
  rewrite !u32_id by (unfold is_u32; lia). lia.
Qed.

Lemma sectors_S p c sector n : sectors p c sector (Datatypes.S n) = sector_of p c sector ++ sectors p c (sector + 1) n.
Proof. unfold sectors. rewrite seqZ_cons by lia. rewrite fmap_cons. simpl mjoin. do 3 f_equal. f_equal. lia. Qed.

Lemma sectors_same p c c' sector n : same_card c c' → sectors p c' sector n = sectors p c sector n.
Proof. intros [Hb _]. unfold sectors, sector_of. f_equal. apply list_fmap_ext. intros i x _. apply Hb. Qed.

Lemma pdrv_data_run (s : S) p : drive s = Some p → pdrv_data 0 s = Done (p, s).
Proof. intros Hp. unfold pdrv_data, mbind, M_bind, getc, gets. simpl. by rewrite (aget_nat _ 0 p). Qed.

Lemma drive_upd (c : H) (s : S) : drive (upd c s) = drive s.
Proof. unfold drive. by rewrite indep_proj. Qed.

(** The number of the next sector is not used after the last one. *)
Lemma next_sector p sector n : (∀ k, sector ≤ k < sector + Z.of_nat (Datatypes.S n) → addressable p k) →
  n = 0%nat ∨ u32 (sector + 1) = sector + 1.
Proof.
  intros Ha. destruct n; [by left|right]. apply u32_id. specialize (Ha (sector + 1) ltac:(lia)).
  unfold addressable, is_u32 in *. destruct (byte_addressable p); lia.
Qed.

(** Reading a run of sectors into a buffer. *)
Lemma wp_read_sectors p n sector pre rest (s : S) (Q : Z * list Z → S → Prop) :
  drive s = Some p → sd_ok (proj s) → (n * BLOCK_SIZE ≤ length rest)%nat →
  (∀ k, sector ≤ k < sector + Z.of_nat n → addressable p k) →
  (∀ c m, sd_ok c → same_card (proj s) c → (m ≤ n)%nat →
     (m = n ∨ ¬ sector_valid p (proj s) (sector + Z.of_nat m)) →
     Q (Z.of_nat (n - m), pre ++ sectors p (proj s) sector m ++ drop (m * BLOCK_SIZE) rest) (upd c s)) →
  wp (loop (Datatypes.S n) (λ '(buff, off, sector, count),
        if decide (count > 0) then
          p ← pdrv_data 0;
          let addr := get_addr sector (byte_addressable p) in
          '(read_res, dst) ← sd_read_single_block fuel addr (drop off buff);
          let buff := take off buff ++ dst in
          mret (if decide (read_res ≠ 0) then inr (count, buff)
                else inl (buff, (off + Z.to_nat SD_SECTOR_SIZE)%nat, u32 (sector + 1), count - 1))
        else mret (inr (count, buff))) (pre ++ rest, length pre, sector, Z.of_nat n)) s Q.
Proof.
  revert sector pre rest s. induction n as [|n IH]; intros sector pre rest s Hp Hok Hlen Ha HQ.
  { apply wp_loop_turn. rewrite decide_False by lia. apply wp_ret. rewrite <- (upd_proj s).
    by apply (HQ (proj s) 0%nat); [| |lia|left]. }
  apply wp_loop_turn. rewrite decide_True by lia.
  apply wp_bind. eapply wp_Done; [by apply pdrv_data_run|].
  rewrite drop_app_length, take_app_length.
  assert (Hs : addressable p sector) by (apply Ha; lia).
  apply wp_bind. apply wp_read_single; [done|done|by apply get_addr_u32|lia| |].
  - apply wp_ret. rewrite decide_False by lia. fold (sector_of p (proj s) sector).
    destruct (block_length (get_addr sector (byte_addressable p)) (proj s) Hok) as [Hbl _].
    set (c1 := sd_exec 17 (get_addr sector (byte_addressable p)) (proj s)).
    assert (Hsame : same_card (proj s) c1) by (apply same_card_exec; [done|lia]).
    assert (Hok1 : sd_ok c1) by (by apply exec_ok).
    replace (length pre + Z.to_nat SD_SECTOR_SIZE)%nat with (length (pre ++ sector_of p (proj s) sector))
      by (rewrite length_app; unfold sector_of; rewrite Hbl; done).
    replace (Z.of_nat (Datatypes.S n) - 1) with (Z.of_nat n) by lia. rewrite app_assoc.
    assert (Hnext : ∀ k, u32 (sector + 1) ≤ k < u32 (sector + 1) + Z.of_nat n → n ≠ 0%nat → addressable p k).
    { intros k Hk Hn. destruct (next_sector p sector n Ha) as [?|E]; [done|]. rewrite E in Hk. apply Ha. lia. }
    apply IH; [by rewrite drive_upd|by rewrite proj_upd|rewrite length_drop; lia|intros k Hk; apply Hnext; lia|].
    rewrite proj_upd. intros c m Hc Hsame' Hm Hend. rewrite upd_upd.
    assert (Hsec : sectors p c1 (u32 (sector + 1)) m = sectors p (proj s) (sector + 1) m).
    { rewrite (sectors_same p _ _ _ _ Hsame). destruct (next_sector p sector n Ha) as [->|E]; [|by rewrite E].
      by destruct m; [|lia]. }
    rewrite Hsec, drop_drop, <- !app_assoc.
    pose proof (HQ c (Datatypes.S m)) as HQ1. rewrite sectors_S, <- app_assoc in HQ1.
    apply HQ1; [done|by eapply same_card_trans|lia|].
    destruct Hend as [->|Hend]; [by left|]. destruct (next_sector p sector n Ha) as [->|E]; [left; lia|right].
    intros Hv. apply Hend. rewrite E. replace (sector + 1 + Z.of_nat m) with (sector + Z.of_nat (Datatypes.S m)) by lia.
    by apply Hsame.
  - intros Hv. apply wp_ret. rewrite decide_True by lia.
    pose proof (HQ (sd_exec 17 (get_addr sector (byte_addressable p)) (proj s)) 0%nat) as HQ0. simpl in HQ0.
    apply HQ0; [by apply exec_ok|apply same_card_exec; [done|lia]|lia|].
    right. by rewrite Z.add_0_r.
Qed.

(** C25: Reading sectors from a disk that is initialised ends, and either all the
    sectors are in the buffer and the result is OK, or the result is an error,
    one of the sectors is not on the card, and those before it are in the buffer;
    the rest of the buffer, the card's sectors and the drive do not change. *)
Theorem disk_read_sectors p (n : nat) sector buff (s : S) :
  drive s = Some p → initialized p = true → present p = true → sd_ok (proj s) →
  (n * BLOCK_SIZE ≤ length buff)%nat → (∀ k, sector ≤ k < sector + Z.of_nat n → addressable p k) →
  wp (disk_read fuel 0 buff sector (Z.of_nat n)) s (λ res t,
    drive t = drive s ∧ sd_ok (proj t) ∧ same_card (proj s) (proj t) ∧
    ∃ m, (m ≤ n)%nat ∧ res.2 = sectors p (proj s) sector m ++ drop (m * BLOCK_SIZE) buff ∧
      match res.1 with
      | RES_OK => m = n
      | RES_ERROR => (m < n)%nat ∧ ¬ sector_valid p (proj s) (sector + Z.of_nat m)
      | _ => False
      end).
Proof.
  intros Hp Hi Hpr Hok Hlen Ha. unfold disk_read. rewrite decide_False by (unfold N_PDRV; lia).
  apply wp_bind. eapply wp_Done; [by apply pdrv_data_run|]. rewrite Hi, Hpr. simpl negb. cbv iota.
  rewrite Nat2Z.id. apply wp_bind. eapply (wp_read_sectors p n sector [] buff); [done|done|done|done|].
  intros c m Hc Hsame Hm Hend. apply wp_ret. rewrite drive_upd, !proj_upd.
  split_and!; [done|done|done|]. exists m. split_and!; [done|done|].
  simpl fst. case_decide as Hcount; [|lia]. split; [lia|]. destruct Hend; [lia|done].
Qed.

(** The contents of a card after a run of sectors is written. *)
Definition written (p : pdrv) (c : H) (sector : Z) (bs : list Z) (n : nat) (c' : H) : Prop :=
  (∀ a, sd_valid a c' ↔ sd_valid a c) ∧
  ∀ k, addressable p k → sector_valid p c k →
    sector_of p c' k = if decide (sector ≤ k < sector + Z.of_nat n)
                       then take BLOCK_SIZE (drop (Z.to_nat (k - sector) * BLOCK_SIZE) bs) else sector_of p c k.

(** One sector is written, then the others. *)
Lemma written_step p c sector b bs n c1 c2 next :
  sd_ok c → addressable p sector → sector_valid p c sector → Forall is_u8 b → length b = BLOCK_SIZE →
  c1 = sd_exec 13 0 (sd_store (get_addr sector (byte_addressable p)) b
         (sd_exec 24 (get_addr sector (byte_addressable p)) c)) →
  (n = 0%nat ∨ next = sector + 1) → written p c1 next bs n c2 → written p c sector (b ++ bs) (Datatypes.S n) c2.
Proof.
  intros Hok Ha Hv Hb8 Hb -> Hnext [Hvalid Hsec]. set (a := get_addr sector _) in *.
  assert (Hok1 : sd_ok (sd_exec 24 a c)) by (by apply exec_ok).
  assert (Hok2 : sd_ok (sd_store a b (sd_exec 24 a c))) by (by apply store_ok).
  assert (Hv1 : ∀ x, sd_valid x (sd_exec 13 0 (sd_store a b (sd_exec 24 a c))) ↔ sd_valid x c).
  { intros x. rewrite exec_valid by tauto. rewrite store_valid by done. rewrite exec_valid by tauto. done. }
  split; [intros x; by rewrite Hvalid|]. intros k Hk Hvk.
  rewrite Hsec; [|done|by apply Hv1].
  assert (E : sector_of p (sd_exec 13 0 (sd_store a b (sd_exec 24 a c))) k =
    if decide (k = sector) then b else sector_of p c k).
  { unfold sector_of. rewrite exec_block by tauto.
    rewrite store_block; [|done|apply exec_valid; tauto..|done|done]. rewrite exec_block by tauto.
    destruct (decide (a = get_addr k (byte_addressable p))) as [E|E].
    - apply get_addr_inj in E; [|done|done]. by rewrite decide_True.
    - rewrite decide_False; [done|]. intros ->. done. }
  rewrite E. destruct (decide (k = sector)) as [->|Hne].
  - rewrite decide_False by (destruct Hnext; lia). rewrite decide_True by lia.
    rewrite Z.sub_diag. by rewrite drop_0, take_app_length'.
  - destruct Hnext as [->| ->].
    + by rewrite !decide_False by lia.
    + destruct (decide (sector + 1 ≤ k < sector + 1 + Z.of_nat n)) as [Hin|Hout].
      * rewrite decide_True by lia. replace (Z.to_nat (k - sector)) with (Datatypes.S (Z.to_nat (k - (sector + 1)))) by lia.
        rewrite Nat.mul_succ_l, Nat.add_comm, <- drop_drop. by rewrite drop_app_length'.
      * by rewrite decide_False by lia.
Qed.

(** Writing a run of sectors the card has. *)
Lemma wp_write_sectors p n sector pre bs post (s : S) (Q : Z → S → Prop) :
  drive s = Some p → sd_ok (proj s) → length bs = (n * BLOCK_SIZE)%nat → Forall is_u8 bs →
  (∀ k, sector ≤ k < sector + Z.of_nat n → addressable p k ∧ sector_valid p (proj s) k) →
  (∀ c, sd_ok c → written p (proj s) sector bs n c → Q 0 (upd c s)) →
  wp (loop (Datatypes.S n) (λ '(off, sector, count),
        if decide (count > 0) then
          p ← pdrv_data 0;
          let addr := get_addr sector (byte_addressable p) in
          write_res ← sd_write_single_block fuel addr (drop off (pre ++ bs ++ post));
          mret (if decide (write_res ≠ 0) then inr count
                else inl ((off + Z.to_nat SD_SECTOR_SIZE)%nat, u32 (sector + 1), count - 1))
        else mret (inr count)) (length pre, sector, Z.of_nat n)) s Q.
Proof.
  revert sector pre bs s. induction n as [|n IH]; intros sector pre bs s Hp Hok Hlen H8 Ha HQ.
  { apply wp_loop_turn. rewrite decide_False by lia. apply wp_ret. rewrite <- (upd_proj s).
    apply HQ; [done|]. split; [done|]. intros k _ _. by rewrite decide_False by lia. }
  apply wp_loop_turn. rewrite decide_True by lia.
  apply wp_bind. eapply wp_Done; [by apply pdrv_data_run|]. rewrite drop_app_length.
  destruct (Ha sector ltac:(lia)) as [Hs Hv].
  rewrite <- (take_drop BLOCK_SIZE bs). set (b := take BLOCK_SIZE bs). set (bs' := drop BLOCK_SIZE bs).
  rewrite <- (take_drop BLOCK_SIZE bs) in H8. apply Forall_app in H8 as [Hb8 Hbs8].
  assert (Hb : length b = BLOCK_SIZE) by (subst b; rewrite length_take; lia).
  assert (Hbs : length bs' = (n * BLOCK_SIZE)%nat) by (subst bs'; rewrite length_drop; lia).
  rewrite <- app_assoc. apply wp_bind. apply wp_write_single; [done|done|by apply get_addr_u32|done|done|].
  intros res c1 stored Hc1 [[-> ->]|[_ Hno]]; [|done]. apply wp_ret. rewrite decide_False by lia.
  replace (Z.of_nat (Datatypes.S n) - 1) with (Z.of_nat n) by lia.
  replace (length pre + Z.to_nat SD_SECTOR_SIZE)%nat with (length (pre ++ b)) by (rewrite length_app, Hb; done).
  rewrite (app_assoc pre). pose proof (next_sector p sector n (λ k Hk, proj1 (Ha k Hk))) as Hnext.
  assert (Hv1 : ∀ x, sd_valid x stored ↔ sd_valid x (proj s)).
  { intros x. subst stored. assert (sd_ok (sd_exec 24 (get_addr sector (byte_addressable p)) (proj s))) by (by apply exec_ok).
    rewrite exec_valid; [|by apply store_ok|tauto]. rewrite store_valid by done. apply exec_valid; tauto. }
  apply IH; [by rewrite drive_upd|by rewrite proj_upd|done|done| |].
  - intros k Hk. rewrite proj_upd. destruct Hnext as [->|E]; [lia|]. rewrite E in Hk.
    destruct (Ha k ltac:(lia)) as [? ?]. split; [done|]. by apply Hv1.
  - rewrite proj_upd. intros c2 Hc2 Hw. rewrite upd_upd. apply HQ; [done|].
    rewrite <- (take_drop BLOCK_SIZE bs). fold b bs'. by eapply written_step.
Qed.

(** C16: Writing sectors to a disk that is initialised and not write protected, when
    the card has them: the result is OK, each of these sectors is the part of the
    buffer for it, every other sector of the card is as before, and so is the drive. *)
Theorem disk_write_sectors p (n : nat) sector bs post (s : S) :
  drive s = Some p → initialized p = true → present p = true → write_protected p = false → sd_ok (proj s) →
  length bs = (n * BLOCK_SIZE)%nat → Forall is_u8 bs →
  (∀ k, sector ≤ k < sector + Z.of_nat n → addressable p k ∧ sector_valid p (proj s) k) →
  wp (disk_write fuel 0 (bs ++ post) sector (Z.of_nat n)) s (λ res t,
    res = RES_OK ∧ drive t = drive s ∧ sd_ok (proj t) ∧ written p (proj s) sector bs n (proj t)).
Proof.
  intros Hp Hi Hpr Hwp Hok Hlen H8 Ha. unfold disk_write. rewrite decide_False by (unfold N_PDRV; lia).
  apply wp_bind. eapply wp_Done; [by apply pdrv_data_run|]. rewrite Hi, Hpr, Hwp. simpl negb. cbv iota.
  rewrite Nat2Z.id. apply wp_bind. eapply (wp_write_sectors p n sector [] bs post); [done..|].
  intros c Hc Hw. apply wp_ret. rewrite drive_upd, !proj_upd. by rewrite decide_False by lia.
Qed.
End sectors.

(** ** Recognising a card *)
Section identify.
Context {H S : Type} `{!Has pdrvs S, !HasLaws pdrvs S, !Has H S, !HasLaws H S, !Indep pdrvs H S, !Indep H pdrvs S,
  !SpiDevice H, !SdCard H}.
Context (fuel : nat) (Hfuel : (sd_latency < fuel)%nat).

(** The first byte of the response to a command. *)
Definition r1 (cmd arg : Z) (c : H) : Z := nth 0 (sd_reply cmd arg c) 0.

(** A card for which [P] holds for the first time after [k] of at most [n] steps. *)
Definition first_at (n : nat) (P : H → Prop) (step : H → H) (c : H) (k : nat) : Prop :=
  (k < n)%nat ∧ (∀ i, (i < k)%nat → ¬ P (Nat.iter i step c)) ∧ P (Nat.iter k step c).

Definition hcs : Z := 1073741824.
Definition is_reset (c : H) : Prop := r1 0 0 c = SD_STATE_IDLE.
Definition is_ready (c : H) : Prop := Z.land (r1 41 hcs (sd_exec 55 0 c)) SD_STATE_IDLE = 0.
Definition poll_ready (c : H) : H := sd_exec 41 hcs (sd_exec 55 0 c).
Definition voltage_ok (c : H) : Prop :=
  r1 8 426 c = SD_STATE_IDLE ∧ Z.land (nth 3 (sd_reply 8 426 c) 0) 15 = 1 ∧ nth 4 (sd_reply 8 426 c) 0 = 170.
Definition high_capacity (c : H) : bool := bool_decide (Z.land (nth 1 (sd_reply 58 0 c) 0) 64 ≠ 0).

(** What a card has to answer: it resets at one of four commands 0, takes the
    voltage, is ready at one of a thousand commands 41, and takes the length of a
    block unless its capacity is high. *)
Definition identified (c : H) (cap : bool) (c' : H) : Prop :=
  ∃ k j,
    first_at 4 is_reset (sd_exec 0 0) c k ∧
    let c1 := Nat.iter (Datatypes.S k) (sd_exec 0 0) c in
    voltage_ok c1 ∧
    first_at 1000 is_ready poll_ready (sd_exec 8 426 c1) j ∧
    let c3 := Nat.iter (Datatypes.S j) poll_ready (sd_exec 8 426 c1) in
    cap = high_capacity c3 ∧
    let c4 := sd_exec 58 0 c3 in
    if cap then c' = c4 else r1 16 512 c4 = 0 ∧ c' = sd_exec 16 512 c4.

Lemma first_at_unique n P step c j k : first_at n P step c j → first_at n P step c k → j = k.
Proof.
  intros (_ & Hj & Pj) (_ & Hk & Pk). destruct (Nat.lt_trichotomy j k) as [?|[?|?]]; [|done|].
  - exfalso. by apply (Hk j).
  - exfalso. by apply (Hj k).
Qed.

Lemma iter_ok step c n : (∀ c, sd_ok c → sd_ok (step c)) → sd_ok c → sd_ok (Nat.iter n step c).
Proof. intros Hstep Hok. induction n; simpl; auto. Qed.

Lemma poll_ready_ok c : sd_ok c → sd_ok (poll_ready c).
Proof. intros Hok. by apply exec_ok, exec_ok. Qed.

(** A state with another card and the same drives. *)
Definition with_card (s : S) (c : H) (t : S) : Prop := proj t = c ∧ drive t = drive s.

Lemma with_card_upd (s : S) c : with_card s c (upd c s).
Proof. split; [apply proj_upd|apply drive_upd]. Qed.

Lemma wp_r1 cmd arg (s : S) (Q : Z → S → Prop) :
  0 ≤ cmd < 64 → cmd ∉ [8; 58; 13; 17; 24] → is_u32 arg → (cmd = 0 → arg = 0) → sd_ok (proj s) →
  (∀ t, with_card s (sd_exec cmd arg (proj s)) t → Q (r1 cmd arg (proj s)) t) →
  wp (sd_send_command_r1 fuel cmd arg) s Q.
Proof.
  intros Hcmd Hne Harg H0 Hok HQ. rewrite !list.elem_of_cons in Hne. unfold sd_send_command_r1. apply wp_bind.
  assert (Hlen : resp_len cmd = 1%nat) by (unfold resp_len; rewrite !decide_False by lia; done).
  rewrite <- Hlen. apply wp_command; [done|done|lia|lia|done|done|lia|by rewrite Hlen|done|].
  destruct (reply_shape cmd arg (proj s) Hok) as (x & rest & E & _ & _ & Hl).
  eapply wp_lift; [|apply HQ, with_card_upd]. unfold r1. rewrite E in *. rewrite Hlen in Hl. by destruct rest.
Qed.

Lemma wp_r5 cmd arg (s : S) (Q : list Z → S → Prop) :
  cmd = 8 ∧ arg = 426 ∨ cmd = 58 ∧ arg = 0 → sd_ok (proj s) →
  (∀ t, with_card s (sd_exec cmd arg (proj s)) t → length (sd_reply cmd arg (proj s)) = 5%nat →
     Q (sd_reply cmd arg (proj s)) t) →
  wp (sd_send_command fuel cmd arg [0; 0; 0; 0; 0] 5) s Q.
Proof.
  intros Hcmd Hok HQ. assert (Hlen : resp_len cmd = 5%nat) by (by destruct Hcmd as [[-> ->]|[-> ->]]).
  destruct (reply_shape cmd arg (proj s) Hok) as (x & rest & _ & _ & _ & Hl). rewrite Hlen in Hl.
  rewrite <- Hlen. apply wp_command; [done|lia|lia|lia|unfold is_u32; lia|lia|lia|by rewrite Hlen|done|].
  apply HQ; [apply with_card_upd|done].
Qed.

Lemma lift_nth (l : list Z) k d (s : S) (Q : Z → S → Prop) :
  (k < length l)%nat → Q (nth k l d) s → wp (lift (aget l (Z.of_nat k))) s Q.
Proof.
  intros Hk HQ. eapply wp_lift; [|done]. apply aget_nat.
  destruct (nth_lookup_or_length l k d); [done|lia].
Qed.

(** A loop that tries up to [n] times: it stops at the first success, or at the
    last try. *)
Lemma wp_tries (P : H → Prop) `{!∀ c, Decision (P c)} (reply : H → Z) step n body (s : S) (Q : Z → S → Prop) :
  (∀ c, sd_ok c → sd_ok (step c)) →
  (∀ tries t (Q' : Z + Z → S → Prop), sd_ok (proj t) →
     (∀ t', with_card t (step (proj t)) t' →
        Q' (if decide (¬ P (proj t) ∧ tries - 1 > 0) then inl (tries - 1) else inr (reply (proj t))) t') →
     wp (body tries) t Q') →
  sd_ok (proj s) → (0 < n)%nat →
  (∀ k t, first_at n P step (proj s) k → with_card s (Nat.iter (Datatypes.S k) step (proj s)) t →
     Q (reply (Nat.iter k step (proj s))) t) →
  (∀ c t, ¬ P c → (∀ k, ¬ first_at n P step (proj s) k) → sd_ok (step c) → with_card s (step c) t → Q (reply c) t) →
  wp (loop n body (Z.of_nat n)) s Q.
Proof.
  intros Hstep Hbody. revert s. induction n as [|n IH]; intros s Hok Hn HQ Hbad; [lia|].
  apply wp_loop_turn, Hbody; [done|]. intros t [Ht Hd]. case_decide as E.
  - destruct E as [HP Hn'].
    assert (Hshift : ∀ k, first_at n P step (step (proj s)) k → first_at (Datatypes.S n) P step (proj s) (Datatypes.S k)).
    { intros k (Hk & Hbefore & Hat). split_and!; [lia| |by rewrite Nat.iter_succ_r].
      intros [|i] Hi; [done|]. rewrite Nat.iter_succ_r. apply Hbefore. lia. }
    replace (Z.of_nat (Datatypes.S n) - 1) with (Z.of_nat n) by lia.
    apply IH; [rewrite Ht; by apply Hstep|lia| |]; rewrite Ht.
    + intros k t' Hk [Ht' Hd']. rewrite <- Nat.iter_succ_r. apply (HQ (Datatypes.S k)); [by apply Hshift|].
      split; [by rewrite Ht', <- Nat.iter_succ_r|by rewrite Hd'].
    + intros c t' Hc Hno Hok' [Ht' Hd']. apply Hbad; [done| |done|split; congruence].
      intros [|k] (Hk & Hbefore & Hat); [done|]. apply (Hno k). split_and!; [lia| |by rewrite <- Nat.iter_succ_r].
      intros i Hi. rewrite <- Nat.iter_succ_r. apply Hbefore. lia.
  - destruct (decide (P (proj s))) as [HP|HP].
    + apply (HQ 0%nat); [|by split]. split_and!; [lia| |done]. intros i Hi. lia.
    + assert (n = 0%nat) as -> by (destruct n; [done|]; exfalso; apply E; split; [done|lia]).
      apply Hbad; [done| |by apply Hstep|by split]. intros k (Hk & _ & Hat). by assert (k = 0%nat) as -> by lia.
Qed.

#[local] Instance is_reset_dec c : Decision (is_reset c).
Proof. unfold is_reset. apply _. Defined.
#[local] Instance is_ready_dec c : Decision (is_ready c).
Proof. unfold is_ready. apply _. Defined.
#[local] Instance voltage_ok_dec c : Decision (voltage_ok c).
Proof. unfold voltage_ok. apply _. Defined.

Lemma wp_init_reset (s : S) (Q : DSTATUS → S → Prop) : sd_ok (proj s) →
  (∀ k t, first_at 4 is_reset (sd_exec 0 0) (proj s) k →
     with_card s (Nat.iter (Datatypes.S k) (sd_exec 0 0) (proj s)) t → Q DISK_OK t) →
  (∀ c t, (∀ k, ¬ first_at 4 is_reset (sd_exec 0 0) (proj s) k) → sd_ok c → with_card s c t → Q STA_NODISK t) →
  wp (init_reset fuel) s Q.
Proof.
  intros Hok HQ Hbad. unfold init_reset. apply wp_bind.
  apply (wp_tries is_reset (r1 0 0) (sd_exec 0 0) 4); [intros; by apply exec_ok| |done|lia| |].
  - intros tries t Q' Ht HQ'. apply wp_bind, wp_r1; [lia|by apply (bool_decide_unpack _)|done|done|done|].
    intros t' Ht'. apply wp_ret. by apply HQ'.
  - intros k t Hk Ht. apply wp_ret. rewrite decide_False by (intros Hne; by apply Hne, Hk). by eapply HQ.
  - intros c t Hc Hno Hok' Ht. apply wp_ret. rewrite decide_True by done. by eapply Hbad.
Qed.

Lemma wp_init_voltage (s : S) (Q : DSTATUS → S → Prop) : sd_ok (proj s) →
  (∀ t, with_card s (sd_exec 8 426 (proj s)) t →
     Q (if decide (voltage_ok (proj s)) then DISK_OK else STA_NODISK) t) →
  wp (init_voltage fuel) s Q.
Proof.
  intros Hok HQ. unfold init_voltage. apply wp_bind, wp_r5; [by left|done|]. intros t Ht Hlen.
  apply wp_bind, (lift_nth _ 0 0); [lia|]. apply wp_bind, (lift_nth _ 3 0); [lia|].
  apply wp_bind, (lift_nth _ 4 0); [lia|]. apply wp_ret. specialize (HQ t Ht). unfold voltage_ok, r1 in HQ.
  case_decide as E; case_decide as E'; try done; exfalso; lia.
Qed.

Lemma wp_init_ready (s : S) (Q : DSTATUS → S → Prop) : sd_ok (proj s) →
  (∀ k t, first_at 1000 is_ready poll_ready (proj s) k →
     with_card s (Nat.iter (Datatypes.S k) poll_ready (proj s)) t → Q DISK_OK t) →
  (∀ c t, (∀ k, ¬ first_at 1000 is_ready poll_ready (proj s) k) → sd_ok c → with_card s c t → Q STA_NODISK t) →
  wp (init_ready fuel) s Q.
Proof.
  intros Hok HQ Hbad. unfold init_ready. apply wp_bind.
  apply (wp_tries is_ready (λ c, r1 41 hcs (sd_exec 55 0 c)) poll_ready 1000); [apply poll_ready_ok| |done|lia| |].
  - intros tries t Q' Ht HQ'. apply wp_bind, wp_r1; [lia|by apply (bool_decide_unpack _)|done|done|done|].
    intros t1 [Ht1 Hd1]. apply wp_bind, wp_r1; [lia|by apply (bool_decide_unpack _)|done|done|by rewrite Ht1; apply exec_ok|].
    intros t2 [Ht2 Hd2]. rewrite Ht1 in *. apply wp_ret. apply HQ'. split; [done|congruence].
  - intros k t Hk Ht. apply wp_ret. rewrite decide_False by (intros Hne; by apply Hne, Hk). by eapply HQ.
  - intros c t Hc Hno Hok' Ht. apply wp_ret. rewrite decide_True by done. by eapply Hbad.
Qed.

Lemma wp_pdrv_set f p (s : S) (Q : unit → S → Prop) : drive s = Some p →
  (∀ t, proj (C := H) t = proj s → drive t = Some (f p) → Q tt t) → wp (pdrv_set 0 f) s Q.
Proof.
  intros Hp HQ. unfold pdrv_set. apply wp_bind, wp_gets, wp_bind. unfold drive in *.
  eapply wp_lift; [by apply (aget_nat _ 0)|]. apply wp_bind.
  destruct (proj s) as [|p' d] eqn:E; [done|]. eapply wp_lift; [reflexivity|].
  apply wp_modify, HQ; [by rewrite indep_proj|by rewrite proj_upd].
Qed.

Lemma wp_init_done readonly p (s : S) (Q : DSTATUS → S → Prop) : drive s = Some p →
  (∀ t, idle_path (proj s) (proj t) → drive t = Some (Pdrv true true readonly (byte_addressable p)) →
     Q (if readonly then STA_PROTECT else DISK_OK) t) →
  wp (init_done readonly 0) s Q.
Proof.
  intros Hp HQ. unfold init_done. apply wp_bind, (wp_hw_idle _ s); [done| |].
  { exists (proj s). split; [apply idle_here|by rewrite upd_proj]. }
  intros t0 (c & Hc & ->). apply wp_bind.
  eapply wp_pdrv_set; [by rewrite drive_upd|]. intros t1 E1 D1.
  apply wp_bind. eapply wp_pdrv_set; [done|]. intros t2 E2 D2.
  apply wp_bind. eapply wp_pdrv_set; [done|]. intros t3 E3 D3.
  apply wp_ret, HQ; [|done]. by rewrite E3, E2, E1, proj_upd.
Qed.

Lemma wp_init_capacity readonly p (s : S) (Q : DSTATUS → S → Prop) :
  let c := proj s in let c4 := sd_exec 58 0 c in
  sd_ok c → drive s = Some p →
  (∀ t c', (if high_capacity c then c' = c4 else r1 16 512 c4 = 0 ∧ c' = sd_exec 16 512 c4) →
     idle_path c' (proj t) → drive t = Some (Pdrv true true readonly (negb (high_capacity c))) →
     Q (if readonly then STA_PROTECT else DISK_OK) t) →
  (∀ t, high_capacity c = false → r1 16 512 c4 ≠ 0 → drive t = Some (set_byte_addressable true p) →
     Q STA_NODISK t) →
  wp (status ← init_capacity fuel 0; if_ok status (init_done readonly 0)) s Q.
Proof.
  intros c c4 Hok Hp HQ Hbad. unfold init_capacity. apply wp_bind, wp_bind, wp_r5; [by right|done|].
  intros t [Et Dt] Hlen. fold c c4 in Et |- *. apply wp_bind, (lift_nth _ 1 0); [unfold c; lia|].
  case_decide as E.
  - assert (Hcap : high_capacity c = true) by (apply bool_decide_eq_true; exact E). rewrite Hcap in *.
    apply wp_bind. eapply wp_pdrv_set; [by rewrite Dt|]. intros t1 E1 D1. apply wp_ret.
    unfold if_ok. rewrite decide_True by done. eapply wp_init_done; [done|]. intros t2 E2 D2.
    apply (HQ t2 c4); [done|by rewrite <- Et, <- E1|done].
  - assert (Hcap : high_capacity c = false) by (apply bool_decide_eq_false; tauto). rewrite Hcap in *.
    apply wp_bind. eapply wp_pdrv_set; [by rewrite Dt|]. intros t1 E1 D1.
    rewrite Et in E1. apply wp_bind, wp_r1; [lia|by apply (bool_decide_unpack _)|done|done|rewrite E1; by apply exec_ok|].
    intros t2 [E2 D2]. rewrite E1 in *. apply wp_ret. change SD_SECTOR_SIZE with 512 in *. unfold if_ok.
    destruct (decide (r1 16 512 c4 = 0)) as [Hr|Hr].
    + rewrite (decide_False (P := r1 16 512 c4 ≠ 0)) by tauto. rewrite decide_True by done.
      eapply wp_init_done; [by rewrite D2|]. intros t3 E3 D3.
      apply (HQ t3 (sd_exec 16 512 c4)); [done|by rewrite <- E2|done].
    + rewrite (decide_True (P := r1 16 512 c4 ≠ 0)) by done. rewrite decide_False by done.
      apply wp_ret. apply Hbad; [done|done|]. by rewrite D2.
Qed.

Lemma if_ok_stop st (m : M S DSTATUS) : st ≠ DISK_OK → if_ok st m = mret st.
Proof. intros Hst. unfold if_ok. by rewrite decide_False. Qed.

Lemma if_ok_go (m : M S DSTATUS) : if_ok DISK_OK m = m.
Proof. done. Qed.

(** The stages in a row. *)
Lemma wp_identify readonly p (s : S) (Q : DSTATUS → S → Prop) :
  sd_ok (proj s) → drive s = Some p →
  (∀ t cap c', identified (proj s) cap c' → idle_path c' (proj t) →
     drive t = Some (Pdrv true true readonly (negb cap)) → Q (if readonly then STA_PROTECT else DISK_OK) t) →
  (∀ t b, (∀ cap c', ¬ identified (proj s) cap c') → drive t = Some (set_byte_addressable b p) → Q STA_NODISK t) →
  wp (status ← init_reset fuel; status ← if_ok status (init_voltage fuel);
      status ← if_ok status (init_ready fuel); status ← if_ok status (init_capacity fuel 0);
      if_ok status (init_done readonly 0)) s Q.
Proof.
  intros Hok Hp HQ Hbad. set (c := proj s) in *.
  assert (Hsame : p = set_byte_addressable (byte_addressable p) p) by (by destruct p).
  assert (Hstop : ∀ t, (∀ cap c', ¬ identified c cap c') → drive t = drive s →
    wp (status ← if_ok STA_NODISK (init_ready fuel); status ← if_ok status (init_capacity fuel 0);
        if_ok status (init_done readonly 0)) t Q).
  { intros t Hno Dt. rewrite if_ok_stop by done. apply wp_bind, wp_ret. rewrite if_ok_stop by done.
    apply wp_bind, wp_ret. rewrite if_ok_stop by done. apply wp_ret, (Hbad t (byte_addressable p)); [done|].
    by rewrite <- Hsame, Dt. }
  apply wp_bind, wp_init_reset; [done| |].
  2: { intros c1 t Hno _ [_ Dt]. rewrite if_ok_stop by done. apply wp_bind, wp_ret. apply Hstop; [|done].
       intros cap c' (k & j & Hk & _). by apply (Hno k). }
  intros k t1 Hk [E1 D1]. fold c in Hk, E1. apply wp_bind. rewrite if_ok_go.
  assert (Hok1 : sd_ok (proj t1)) by (rewrite E1; apply iter_ok; [intros; by apply exec_ok|done]).
  assert (Hk' : ∀ k', first_at 4 is_reset (sd_exec 0 0) c k' → k' = k) by (intros k' Hk''; by eapply first_at_unique).
  apply wp_init_voltage; [done|]. intros t2 [E2 D2]. rewrite E1 in *.
  case_decide as Hv.
  2: { apply Hstop; [|congruence]. intros cap c' (k' & j & Hk'' & Hv' & _). by rewrite (Hk' k' Hk'') in Hv'. }
  apply wp_bind. rewrite if_ok_go.
  apply wp_init_ready; [rewrite E2; by apply exec_ok| |].
  2: { intros c1 t Hno _ [_ Dt]. rewrite E2 in Hno. rewrite if_ok_stop by done. apply wp_bind, wp_ret.
       rewrite if_ok_stop by done. apply wp_ret, (Hbad t (byte_addressable p)); [|rewrite <- Hsame; congruence].
       intros cap c' (k' & j & Hk'' & _ & Hj & _). rewrite (Hk' k' Hk'') in Hj. by apply (Hno j). }
  intros j t3 Hj [E3 D3]. rewrite E2 in *. rewrite if_ok_go.
  assert (Hok3 : sd_ok (proj t3)).
  { rewrite E3. apply iter_ok; [apply poll_ready_ok|by apply exec_ok]. }
  apply (wp_init_capacity readonly p); [done|congruence| |]; rewrite E3.
  - intros t c' Hc' Ht Dt. eapply (HQ t); [|exact Ht|exact Dt]. by exists k, j.
  - intros t Hcap Hr Dt. apply (Hbad t true); [|done].
    intros cap c' (k' & j' & Hk'' & _ & Hj' & Ec & Hc'). rewrite (Hk' k' Hk'') in *.
    rewrite (first_at_unique _ _ _ _ _ _ Hj' Hj) in *. rewrite Ec, Hcap in Hc'. by destruct Hc' as [? _].
Qed.

(** C24: Initialisation ends on every card, whatever its delays: it succeeds when the
    card answers as required, and then the drive is initialised, present, write
    protected if the build is read only, and byte addressed unless the card is of
    high capacity; otherwise the result is that there is no disk, and only the
    addressing of the drive may have changed. *)
Theorem disk_initialize_spec board readonly p (s : S) :
  drive s = Some p → sd_ok (proj s) →
  wp (disk_initialize fuel board readonly 0) s (λ st t, ∃ c, idle_path (proj s) c ∧
    ((∃ cap c', identified c cap c' ∧ st = (if readonly then STA_PROTECT else DISK_OK) ∧
        idle_path c' (proj t) ∧ drive t = Some (Pdrv true true readonly (negb cap))) ∨
     ((∀ cap c', ¬ identified c cap c') ∧ st = STA_NODISK ∧
        ∃ b, drive t = Some (set_byte_addressable b p)))).
Proof.
  intros Hp Hok. unfold disk_initialize. rewrite decide_True by (unfold N_PDRV; lia).
  apply wp_bind, wp_sd_init. intros t0 (c & Hc & ->).
  apply (wp_identify readonly p); [rewrite proj_upd; by eapply idle_path_ok|by rewrite drive_upd| |];
    rewrite proj_upd.
  - intros t cap c' Hid Ht Dt. exists c. split; [done|]. left. by exists cap, c'.
  - intros t b Hno Dt. exists c. split; [done|]. right. by eauto.
Qed.
End identify.

(** ** Programs with a disk *)
Record disk_world (H : Type) := DiskWorld { dw_pdrvs : pdrvs; dw_card : H }.
Arguments DiskWorld {H} _ _.
Arguments dw_pdrvs {H} _.
Arguments dw_card {H} _.

#[export] Instance dkw_has_pdrvs H : Has pdrvs (disk_world H) :=
  {| proj := dw_pdrvs; upd d w := DiskWorld d (dw_card w) |}.
#[export] Instance dkw_has_card H : Has H (disk_world H) :=
  {| proj := dw_card; upd c w := DiskWorld (dw_pdrvs w) c |}.
#[export] Instance dkw_laws_pdrvs H : HasLaws pdrvs (disk_world H).
Proof. by split; intros; destruct s. Qed.
#[export] Instance dkw_laws_card H : HasLaws H (disk_world H).
Proof. by split; intros; destruct s. Qed.
#[export] Instance dkw_indep1 H : Indep pdrvs H (disk_world H).
Proof. by intros ? []. Qed.
#[export] Instance dkw_indep2 H : Indep H pdrvs (disk_world H).
Proof. by intros ? []. Qed.

(** A socket without a card: the line stays high. *)
Inductive empty_socket := EmptySocket.
#[export] Instance empty_device : SpiDevice empty_socket :=
  {| dev_hw _ h := h; dev_xfer _ h := (DATA_IDLE, h) |}.

Lemma wait_resp_empty fuel (w : disk_world empty_socket) : wait_resp fuel w = Hang.
Proof.
  unfold wait_resp. revert w. induction fuel as [|fuel IH]; intros w; [done|].
  rewrite (loop_inl fuel _ tt tt w w); [apply IH|by destruct w as [? []]].
Qed.

(** Without a card the first command is waited for without end: neither the four
    tries of [disk_initialize] nor its answer that there is no disk are reached. *)
Lemma no_card_hangs fuel board readonly d :
  disk_initialize fuel board readonly 0 (DiskWorld d EmptySocket) = Hang.
Proof.
  assert (Hr1 : ∀ w : disk_world empty_socket, sd_send_command_r1 fuel 0 0 w = Hang).
  { intros [d' []]. unfold sd_send_command_r1, sd_send_command, sd_send_command_inner.
    unfold mbind, M_bind. change (sd_select (DiskWorld d' EmptySocket)) with (Done (tt, DiskWorld d' EmptySocket)).
    cbv beta iota. change (send_cmd 0 0 (DiskWorld d' EmptySocket)) with (Done (tt, DiskWorld d' EmptySocket)).
    cbv beta iota. by rewrite wait_resp_empty. }
  unfold disk_initialize. rewrite decide_True by (unfold N_PDRV; lia). unfold mbind, M_bind.
  assert (Hinit : sd_init board (DiskWorld d EmptySocket) = Done (tt, DiskWorld d EmptySocket)) by (by destruct board).
  rewrite Hinit. cbv beta iota. unfold init_reset at 1. unfold mbind, M_bind.
  unfold loop at 1. unfold mbind, M_bind. by rewrite Hr1.
Qed.

(** The size given to FatFs is 4096 sectors, which are two mebibytes. *)
Lemma sector_count_two_mebibytes p (w : disk_world sim_card) buff :
  drive w = Some p → initialized p = true → present p = true →
  disk_ioctl 0 GET_SECTOR_COUNT buff w = Done ((RES_OK, 4096), w) ∧ 4096 * SD_SECTOR_SIZE = 2 * 1024 * 1024.
Proof.
  intros Hp Hi Hpr. split; [|done]. unfold disk_ioctl. rewrite decide_False by (unfold N_PDRV; lia).
  unfold mbind, M_bind. rewrite (pdrv_data_run w p Hp). by rewrite Hi, Hpr.
Qed.

Section witnesses.
Definition fresh_disk : disk_world sim_card := DiskWorld pdrvs_init sample_card.
Definition ready_drive : pdrv := Pdrv true true false false.
Definition ready_disk : disk_world sim_card := DiskWorld [ready_drive] sample_card.

(** The simulated card is recognised, through all delays. *)
Example sample_card_initialized :
  match disk_initialize 9 STM32F4 false 0 fresh_disk with
  | Done (st, t) => Some (st, drive t)
  | _ => None
  end = Some (DISK_OK, Some ready_drive).
Proof. vm_compute. reflexivity. Qed.

Lemma disk_initialize_spec_witness :
  wp (disk_initialize 9 STM32F1 true 0) fresh_disk (λ st t, ∃ c, idle_path (proj fresh_disk) c ∧
    ((∃ cap c', identified c cap c' ∧ st = STA_PROTECT ∧
        idle_path c' (proj t) ∧ drive t = Some (Pdrv true true true (negb cap))) ∨
     ((∀ cap c', ¬ identified c cap c') ∧ st = STA_NODISK ∧
        ∃ b, drive t = Some (set_byte_addressable b (Pdrv false false false false))))).
Proof.
  apply (disk_initialize_spec 9); [simpl; lia|reflexivity|exact sample_card_ok].
Defined.

Lemma ready_range sector n k : 0 ≤ sector → sector + n ≤ 8 → sector ≤ k < sector + n →
  addressable ready_drive k ∧ sector_valid ready_drive sample_card k.
Proof.
  intros H1 H2 Hk. split; [unfold addressable; simpl; lia|]. unfold sector_valid. simpl.
  apply bool_decide_eq_true. cbn. rewrite Z.mod_1_r. lia.
Qed.

Lemma disk_read_sectors_witness :
  wp (disk_read 9 0 (replicate 1025 1) 5 (Z.of_nat 2)) ready_disk (λ res t,
    drive t = drive ready_disk ∧ sd_ok (proj t) ∧ same_card (proj ready_disk) (proj t) ∧
    ∃ m, (m ≤ 2)%nat ∧ res.2 = sectors ready_drive (proj ready_disk) 5 m ++ drop (m * BLOCK_SIZE) (replicate 1025 1) ∧
      match res.1 with
      | RES_OK => m = 2%nat
      | RES_ERROR => (m < 2)%nat ∧ ¬ sector_valid ready_drive (proj ready_disk) (5 + Z.of_nat m)
      | _ => False
      end).
Proof.
  assert (Hl : (sd_latency (H := sim_card) < 9)%nat) by (simpl; lia).
  apply (disk_read_sectors 9 Hl ready_drive 2 5 (replicate 1025 1) ready_disk);
    [reflexivity|reflexivity|reflexivity|exact sample_card_ok|rewrite length_replicate; unfold BLOCK_SIZE; lia|].
  intros k Hk. by apply (ready_range 5 2).
Defined.

Lemma disk_write_sectors_witness :
  wp (disk_write 9 0 (replicate 1024 7 ++ [1]) 5 (Z.of_nat 2)) ready_disk (λ res t,
    res = RES_OK ∧ drive t = drive ready_disk ∧ sd_ok (proj t) ∧
    written ready_drive (proj ready_disk) 5 (replicate 1024 7) 2 (proj t)).
Proof.
  assert (Hl : (sd_latency (H := sim_card) < 9)%nat) by (simpl; lia).
  apply (disk_write_sectors 9 Hl ready_drive 2 5 (replicate 1024 7) [1] ready_disk);
    [reflexivity|reflexivity|reflexivity|reflexivity|exact sample_card_ok|rewrite length_replicate; unfold BLOCK_SIZE; lia|by apply Forall_replicate|].
  intros k Hk. by apply (ready_range 5 2).
Defined.
End witnesses.
