(* ===== verification/Fatfs.v ===== *)
(** * Files and directories: [src/fatfs.c]

    The POSIX calls on files and directories, on top of the FatFs library. FatFs
    is not part of the repository: it is the interface [FatFs], functions on the
    state of a volume and on its own file and directory objects. The array
    [files], whose elements hold a file or a directory, is the state of this
    component; a pointer into it is an [object] of the descriptor table. *)

From stdpp Require Import prelude list numbers.
From S2P Require Import Prelude Files.

(** ** The library *)

Inductive FRESULT :=
| FR_OK | FR_DISK_ERR | FR_INT_ERR | FR_NOT_READY | FR_NO_FILE | FR_NO_PATH
| FR_INVALID_NAME | FR_DENIED | FR_EXIST | FR_INVALID_OBJECT | FR_WRITE_PROTECTED
| FR_INVALID_DRIVE | FR_NOT_ENABLED | FR_NO_FILESYSTEM | FR_MKFS_ABORTED
| FR_TIMEOUT | FR_LOCKED | FR_NOT_ENOUGH_CORE | FR_TOO_MANY_OPEN_FILES
| FR_INVALID_PARAMETER | FR_OTHER (code : Z).

#[export] Instance FRESULT_eq_dec : EqDecision FRESULT.
Proof. solve_decision. Defined.

(** The flags of a mode; a mode is the list of those set. *)
Inductive FA :=
| FA_READ | FA_WRITE | FA_OPEN_EXISTING | FA_CREATE_NEW | FA_CREATE_ALWAYS | FA_OPEN_ALWAYS.

#[export] Instance FA_eq_dec : EqDecision FA.
Proof. solve_decision. Defined.

(** A name is its characters, without the final zero; the two attributes are the
    bits under [AM_MASK] that the source tests. *)
Definition path : Type := list Z.
Record FILINFO := Filinfo {
  fname : list Z;
  fsize : Z;
  AM_DIR : bool;
  AM_RDO : bool;
}.

(** A function that takes a pointer to an object gets the object and gives it
    back. [f_read] gives the bytes it stores, [f_write] how many it took;
    [f_rewinddir] is [f_readdir] with a null pointer. *)
Class FatFs (V : Type) := {
  FIL : Type;
  FFDIR : Type;
  fil_zero : FIL;
  ffdir_zero : FFDIR;
  f_mount : V → FRESULT * V;
  f_open : path → list FA → FIL → V → FRESULT * FIL * V;
  f_close : FIL → V → FRESULT * FIL * V;
  f_read : Z → FIL → V → FRESULT * list Z * FIL * V;
  f_write : list Z → FIL → V → FRESULT * Z * FIL * V;
  f_lseek : Z → FIL → V → FRESULT * FIL * V;
  f_sync : FIL → V → FRESULT * FIL * V;
  f_size : FIL → Z;
  f_tell : FIL → Z;
  f_opendir : path → FFDIR → V → FRESULT * FFDIR * V;
  f_closedir : FFDIR → V → FRESULT * FFDIR * V;
  f_readdir : FFDIR → V → FRESULT * FILINFO * FFDIR * V;
  f_rewinddir : FFDIR → V → FRESULT * FFDIR * V;
  f_stat : path → FILINFO → V → FRESULT * FILINFO * V;
  f_unlink : path → V → FRESULT * V;
  f_rename : path → path → V → FRESULT * V;
  f_mkdir : path → V → FRESULT * V;
  f_chdir : path → V → FRESULT * V;
  f_getcwd : list Z → Z → V → FRESULT * list Z * V;
}.
Arguments FIL V {_}.
Arguments FFDIR V {_}.

(** ** The state *)

Definition NAME_MAX : nat := 12.

(** [struct dirent] and [struct dirent_storage]: [d_name] is all the bytes the
    object has for it. *)
Record dirent := Dirent { d_ino : Z; d_name : list Z }.

Record dirstream (V : Type) `{!FatFs V} := Dirstream {
  ds_fd : Z;
  ds_loc : Z;
  cur_entry : dirent;
  ffdir : FFDIR V;
}.
Arguments Dirstream {V _} _ _ _ _.
Arguments ds_fd {V _} _.
Arguments ds_loc {V _} _.
Arguments cur_entry {V _} _.
Arguments ffdir {V _} _.

Definition dirstream_zero {V} `{!FatFs V} : dirstream V :=
  Dirstream 0 0 (Dirent 0 (replicate (NAME_MAX + 1) 0)) ffdir_zero.

(** The union of an element of [files]: zeros, a file or a directory. *)
Inductive member (V : Type) `{!FatFs V} :=
| MemZero
| MemFil (fil : FIL V)
| MemDir (dir : dirstream V).
Arguments MemZero {V _}.
Arguments MemFil {V _} _.
Arguments MemDir {V _} _.

Record fat_slot (V : Type) `{!FatFs V} := FatSlot { allocated : bool; content : member V }.
Arguments FatSlot {V _} _ _.
Arguments allocated {V _} _.
Arguments content {V _} _.

Record fat_files (V : Type) `{!FatFs V} := FatFiles { fat_slots : list (fat_slot V) }.
Arguments FatFiles {V _} _.
Arguments fat_slots {V _} _.

Definition fat_files_init {V} `{!FatFs V} : fat_files V :=
  FatFiles (replicate OPEN_MAX (FatSlot false MemZero)).

Definition fresult2errno (result : FRESULT) : errno :=
  match result with
  | FR_OK => E0
  | FR_EXIST => EEXIST
  | FR_NO_FILE => ENOENT
  | FR_NO_PATH | FR_INVALID_NAME => ENOTDIR
  | FR_WRITE_PROTECTED => EROFS
  | FR_DENIED => EACCES
  | FR_TOO_MANY_OPEN_FILES => ENFILE
  | FR_NOT_ENOUGH_CORE => ENOMEM
  | _ => EINVAL
  end.

Definition flags2mode (flags : Z) : list FA :=
  let accmode := Z.land flags O_ACCMODE in
  let mode := if decide (accmode = O_RDONLY ∨ accmode = O_RDWR) then [FA_READ] else [] in
  if decide (accmode = O_WRONLY ∨ accmode = O_RDWR) then
    mode ++ [FA_WRITE] ++
    (if decide (Z.land flags O_CREAT = 0) then [FA_OPEN_EXISTING]
     else if decide (Z.land flags O_EXCL ≠ 0) then [FA_CREATE_NEW]
     else if decide (Z.land flags O_TRUNC ≠ 0) then [FA_CREATE_ALWAYS]
     else [FA_OPEN_ALWAYS])
  else mode.

(** The permission bits [S_IRUSR|S_IRGRP|S_IROTH] and so on. *)
Definition S_IR : Z := 292.
Definition S_IX : Z := 73.
Definition S_IW : Z := 146.

(** [S_IFDIR] and [S_IFREG] with the permissions. *)
Definition fill_stat (fno : FILINFO) : stat :=
  let mode := Z.lor S_IR S_IX in
  let mode := if AM_RDO fno then mode else Z.lor mode S_IW in
  Stat (if AM_DIR fno then S_IFDIR else S_IFREG) mode (fsize fno) 0.

Definition get_fattime : Z :=
  Z.lor (Z.lor (Z.shiftl (2015 - 1980) 25) (Z.shiftl 1 21)) (Z.shiftl 1 16).

(** [strncpy] of [n] bytes over an object. *)
Definition strncpy (dst src : list Z) (n : nat) : outcome (list Z) :=
  mem_write dst 0 (take n (src ++ replicate n 0)).

Definition SEEK_SET : Z := 0.
Definition SEEK_CUR : Z := 1.
Definition SEEK_END : Z := 2.

Section fatfs.
Context {V S : Type} `{!FatFs V, !Has (fat_files V) S, !Has V S, !Has ftable S, !Has errno S}.
(** The variable [fno] before [f_stat] fills it, its name already empty. *)
Context (junk : FILINFO).

(** [files[i]] and [files[i] = x]. *)
Definition slot_at (i : Z) : M S (fat_slot V) := t ← getc; lift (aget (fat_slots t) i).
Definition slot_put (i : Z) (x : fat_slot V) : M S unit :=
  t ← getc; l ← lift (aset (fat_slots t) i x); modifyc (λ _, FatFiles l).

(** The object behind a pointer; bytes of one member read as another are not
    modelled. *)
Definition fil_at (p : object) : M S (FIL V) :=
  match p with
  | ObjFil i =>
      s ← slot_at i;
      match content s with
      | MemFil f => mret f
      | MemZero => mret fil_zero
      | MemDir _ => fault
      end
  | _ => fault
  end.
Definition fil_put (p : object) (f : FIL V) : M S unit :=
  match p with
  | ObjFil i => s ← slot_at i; slot_put i (FatSlot (allocated s) (MemFil f))
  | _ => fault
  end.
Definition dir_at (p : object) : M S (dirstream V) :=
  match p with
  | ObjDir i =>
      s ← slot_at i;
      match content s with
      | MemDir d => mret d
      | MemZero => mret dirstream_zero
      | MemFil _ => fault
      end
  | _ => fault
  end.
Definition dir_put (p : object) (d : dirstream V) : M S unit :=
  match p with
  | ObjDir i => s ← slot_at i; slot_put i (FatSlot (allocated s) (MemDir d))
  | _ => fault
  end.

(** A call of the library, with the volume, with a file, with a directory. *)
Definition ff {A} (f : V → A * V) : M S A :=
  v ← getc; let '(a, v) := f v in _ ← modifyc (λ _, v); mret a.
Definition ff_fil {A} (p : object) (f : FIL V → V → A * FIL V * V) : M S A :=
  x ← fil_at p; '(a, x) ← ff (f x); _ ← fil_put p x; mret a.
Definition ff_dir {A} (p : object) (f : FFDIR V → V → A * FFDIR V * V) : M S A :=
  d ← dir_at p;
  '(a, x) ← ff (f (ffdir d));
  _ ← dir_put p (Dirstream (ds_fd d) (ds_loc d) (cur_entry d) x); mret a.

Definition fatfs_fildir_alloc : M S Z :=
  r ← for_find OPEN_MAX 0 (λ i_fil,
    s ← slot_at i_fil;
    if negb (allocated s) then _ ← slot_put i_fil (FatSlot true (content s)); mret (Some i_fil)
    else mret None);
  mret (default (-1) r).

Definition fatfs_fil_alloc : M S (option object) :=
  i_fil ← fatfs_fildir_alloc;
  mret (if decide (i_fil = -1) then None else Some (ObjFil i_fil)).

Definition fatfs_dir_alloc : M S (option object) :=
  i_fil ← fatfs_fildir_alloc;
  mret (if decide (i_fil = -1) then None else Some (ObjDir i_fil)).

(** The two members of an element have the same address. *)
Definition points_at (fp : object) (i_fil : Z) : bool :=
  match fp with ObjFil i | ObjDir i => bool_decide (i = i_fil) | ObjSocket _ => false end.

Definition fatfs_fildir_free (fp : object) : M S Z :=
  r ← for_find OPEN_MAX 0 (λ i_fil,
    s ← slot_at i_fil;
    if allocated s && points_at fp i_fil
    then _ ← slot_put i_fil (FatSlot false (content s)); mret (Some i_fil)
    else mret None);
  mret (default (-1) r).

(** [memset] of one member; what is left of the other one is not modelled. *)
Definition clear_fil (s : fat_slot V) : outcome (fat_slot V) :=
  match content s with MemDir _ => Fault | _ => Done (FatSlot (allocated s) MemZero) end.
Definition clear_dir (s : fat_slot V) : outcome (fat_slot V) :=
  match content s with MemFil _ => Fault | _ => Done (FatSlot (allocated s) MemZero) end.

Definition fatfs_dir_free (fp : object) : M S unit :=
  i_fil ← fatfs_fildir_free fp;
  if decide (i_fil ≠ -1) then s ← slot_at i_fil; s ← lift (clear_dir s); slot_put i_fil s
  else mret tt.

Definition fatfs_fil_free (fp : object) : M S unit :=
  i_fil ← fatfs_fildir_free fp;
  if decide (i_fil ≠ -1) then s ← slot_at i_fil; s ← lift (clear_fil s); slot_put i_fil s
  else mret tt.

(** [errno = e; ret = -1]. *)
Definition fail (e : errno) : M S Z := _ ← set_errno e; mret (-1).

Definition fatfs_write (fd : Z) (ptr : list Z) : M S Z :=
  match file_struct_get fd with
  | None => fail EBADF
  | Some pfd =>
      e ← fd_at pfd;
      match opaque e with
      | None => fail EBADF
      | Some filp =>
          if S_ISREG (fd_stat e) then
            result ← (if decide (Z.land (status_flags e) O_APPEND ≠ 0) then
                        size ← (f ← fil_at filp; mret (f_size f)); ff_fil filp (f_lseek size)
                      else mret FR_OK);
            '(result, written) ← (if decide (result = FR_OK) then ff_fil filp (f_write ptr)
                                  else mret (result, 0));
            if decide (result = FR_OK) then mret (i32 written) else fail (fresult2errno result)
          else if S_ISDIR (fd_stat e) then fail EISDIR
          else fail EBADF
      end
  end.

Definition fatfs_read (fd len : Z) : M S (Z * list Z) :=
  match file_struct_get fd with
  | None => r ← fail EBADF; mret (r, [])
  | Some pfd =>
      e ← fd_at pfd;
      match opaque e with
      | None => r ← fail EBADF; mret (r, [])
      | Some filp =>
          if S_ISREG (fd_stat e) then
            '(result, bs) ← ff_fil filp (f_read (u32 len));
            if decide (result = FR_OK) then mret (i32 (Z.of_nat (length bs)), bs)
            else r ← fail (fresult2errno result); mret (r, bs)
          else if S_ISDIR (fd_stat e) then r ← fail EISDIR; mret (r, [])
          else r ← fail EBADF; mret (r, [])
      end
  end.

Definition fatfs_close (fd : Z) : M S Z :=
  match file_struct_get fd with
  | None => fail EBADF
  | Some pfd =>
      e ← fd_at pfd;
      match opaque e with
      | None => fail EBADF
      | Some p =>
          if S_ISREG (fd_stat e) then
            result ← ff_fil p f_close;
            if decide (result = FR_OK) then
              _ ← fatfs_fil_free p; _ ← file_free fd; mret 0
            else fail (fresult2errno result)
          else if S_ISDIR (fd_stat e) then
            result ← ff_dir p f_closedir;
            if decide (result = FR_OK) then
              _ ← fatfs_dir_free p; _ ← file_free fd; mret 0
            else fail (fresult2errno result)
          else fail EBADF
      end
  end.

(** The assignments of [fill_fd]; the two pointers are set for a file only. *)
Definition fill_fd (flags : Z) (fno : FILINFO) (e : fd_t) : fd_t :=
  let drv old := if AM_DIR fno then old else Some DrvFatfs in
  Fd (fd_fd e) (fill_stat fno) false true (drv (fd_write e)) (drv (fd_read e)) (Some DrvFatfs)
     (fd_poll e) (isallocated e) 0 flags (opaque e).

Definition with_opaque (p : object) (e : fd_t) : fd_t :=
  Fd (fd_fd e) (fd_stat e) (isatty e) (isopen e) (fd_write e) (fd_read e) (fd_close e)
     (fd_poll e) (isallocated e) (descriptor_flags e) (status_flags e) (Some p).

Definition fill_fd_fil (fildes : Z) (fp : object) (flags : Z) (fno : FILINFO) : M S unit :=
  pfd ← lift (deref (file_struct_get fildes));
  _ ← fd_update pfd (fill_fd flags fno);
  fd_update pfd (with_opaque fp).

Definition fill_fd_dir (fildes : Z) (fp : object) (flags : Z) (fno : FILINFO) : M S unit :=
  pfd ← lift (deref (file_struct_get fildes));
  _ ← fd_update pfd (fill_fd flags fno);
  fd_update pfd (with_opaque fp).

Definition fatfs_open_file (pathname : path) (flags fildes : Z) (fno : FILINFO) : M S FRESULT :=
  fp ← fatfs_fil_alloc;
  match fp with
  | None => mret FR_TOO_MANY_OPEN_FILES
  | Some fp =>
      let mode := flags2mode flags in
      result ← ff_fil fp (f_open pathname mode);
      '(result, fno) ← (if decide (result = FR_OK ∧ fname fno = []) then
                          '(result, fno_after) ← ff (f_stat pathname junk); mret (result, fno_after)
                        else mret (result, fno));
      if decide (result = FR_OK) then _ ← fill_fd_fil fildes fp flags fno; mret result
      else _ ← fatfs_fil_free fp; mret result
  end.

Definition fatfs_open_dir (pathname : path) (flags fildes : Z) (fno : FILINFO) : M S FRESULT :=
  dp ← fatfs_dir_alloc;
  match dp with
  | None => mret FR_TOO_MANY_OPEN_FILES
  | Some dp =>
      result ← ff_dir dp (f_opendir pathname);
      if decide (result = FR_OK) then
        d ← dir_at dp; _ ← dir_put dp (Dirstream fildes (ds_loc d) (cur_entry d) (ffdir d));
        d ← dir_at dp; _ ← dir_put dp (Dirstream (ds_fd d) 0 (cur_entry d) (ffdir d));
        _ ← fill_fd_dir fildes dp flags fno; mret result
      else _ ← fatfs_dir_free dp; mret result
  end.

Definition fatfs_open_file_or_dir (pathname : path) (flags fildes : Z) : M S FRESULT :=
  '(result, fno) ← ff (f_stat pathname (Filinfo [] (fsize junk) (AM_DIR junk) (AM_RDO junk)));
  if decide (result ≠ FR_OK ∧ result ≠ FR_NO_FILE) then mret result
  else if decide (result = FR_OK ∧ AM_DIR fno = true) then fatfs_open_dir pathname flags fildes fno
  else fatfs_open_file pathname flags fildes fno.

(** [DIR *] arguments are pointers the caller got; null is [None]. *)
Definition is_dir (dirp : option object) : M S bool :=
  p ← lift (deref dirp);
  d ← dir_at p;
  match file_struct_get (ds_fd d) with
  | None => _ ← set_errno EBADF; mret false
  | Some pfd =>
      e ← fd_at pfd;
      if S_ISDIR (fd_stat e) then mret true else _ ← set_errno ENOTDIR; mret false
  end.

Definition fatfs_open (pathname : path) (flags : Z) : M S Z :=
  fildes ← file_alloc;
  if decide (fildes < 0) then fail ENFILE
  else
    result ← fatfs_open_file_or_dir pathname flags fildes;
    if decide (result = FR_OK) then mret fildes
    else
      _ ← set_errno (fresult2errno result);
      _ ← file_free fildes;
      mret (-1).

Definition fatfs_lseek (fd offset whence : Z) : M S Z :=
  match file_struct_get fd with
  | None => fail EBADF
  | Some pfd =>
      e ← fd_at pfd;
      match opaque e with
      | None => fail EBADF
      | Some filp =>
          if S_ISREG (fd_stat e) then
            pos ← (if decide (whence = SEEK_CUR) then f ← fil_at filp; mret (f_tell f)
                   else if decide (whence = SEEK_END) then f ← fil_at filp; mret (f_size f)
                   else if decide (whence = SEEK_CUR) then mret 0
                   else mret 0);
            let pos := u32 (pos + offset) in
            result ← ff_fil filp (f_lseek pos);
            if decide (result = FR_OK) then mret (i32 pos) else fail (fresult2errno result)
          else fail EINVAL
      end
  end.

(** [ret = 0] or the error of the library. *)
Definition status (result : FRESULT) : M S Z :=
  if decide (result = FR_OK) then mret 0 else fail (fresult2errno result).

Definition fatfs_unlink (p : path) : M S Z := result ← ff (f_unlink p); status result.

Definition fatfs_link (path1 path2 : path) : M S Z := fail EMLINK.

Definition fatfs_rename (old new : path) : M S Z := result ← ff (f_rename old new); status result.

Definition fatfs_fsync (fd : Z) : M S Z :=
  match file_struct_get fd with
  | None => fail EBADF
  | Some pfd =>
      e ← fd_at pfd;
      match opaque e with
      | None => fail EBADF
      | Some filp =>
          if S_ISREG (fd_stat e) then result ← ff_fil filp f_sync; status result
          else fail EINVAL
      end
  end.

Definition fatfs_stat (p : path) (buf : stat) : M S (Z * stat) :=
  '(result, fno) ← ff (f_stat p junk);
  if decide (result = FR_OK) then mret (0, fill_stat fno)
  else r ← fail (fresult2errno result); mret (r, buf).

Definition fatfs_mkdir (p : path) (mode : Z) : M S Z := result ← ff (f_mkdir p); status result.

Definition fatfs_rmdir (p : path) : M S Z :=
  result ← ff (f_unlink p);
  if decide (result = FR_OK) then mret 0
  else if decide (result = FR_DENIED) then
    '(result, fno) ← ff (f_stat p junk);
    if decide (result = FR_OK) then
      if AM_RDO fno then fail EACCES else fail ENOTEMPTY
    else fail (fresult2errno result)
  else fail (fresult2errno result).

Definition fatfs_chdir (p : path) : M S Z := result ← ff (f_chdir p); status result.

(** The result says whether the pointer [buf] is returned, or null. *)
Definition fatfs_getcwd (buf : list Z) (size : Z) : M S (bool * list Z) :=
  '(result, buf) ← ff (f_getcwd buf size);
  if decide (result = FR_OK) then mret (true, buf)
  else _ ← set_errno (fresult2errno result); mret (false, buf).

Definition fatfs_opendir (p : path) : M S (option object) :=
  result ← fatfs_open p O_RDONLY;
  if decide (result = -1) then mret None
  else
    match file_struct_get result with
    | None => _ ← set_errno EBADF; mret None
    | Some pfd => e ← fd_at pfd; mret (opaque e)
    end.

Definition fatfs_closedir (dirp : option object) : M S Z :=
  p ← lift (deref dirp); d ← dir_at p; fatfs_close (ds_fd d).

Definition fatfs_dirfd (dirp : option object) : M S Z :=
  b ← is_dir dirp;
  if (b : bool) then p ← lift (deref dirp); d ← dir_at p; mret (ds_fd d)
  else fail EINVAL.

Definition fatfs_fdopendir (fd : Z) : M S (option object) :=
  match file_struct_get fd with
  | None => _ ← set_errno EBADF; mret None
  | Some pfd =>
      e ← fd_at pfd;
      if S_ISDIR (fd_stat e) then mret (opaque e)
      else _ ← set_errno ENOTDIR; mret None
  end.

(** [entry] is the object of the caller; [*result] points at it or is null, or
    keeps its value ([old]). *)
Definition fatfs_readdir_r (dirp : option object) (entry : dirent) (old : bool) : M S (Z * dirent * bool) :=
  b ← is_dir dirp;
  if negb b then r ← fail EBADF; mret (r, entry, old)
  else
    p ← lift (deref dirp);
    '(fresult, fno) ← ff_dir p (λ x v, f_readdir x v);
    if decide (fresult ≠ FR_OK) then r ← fail (fresult2errno fresult); mret (r, entry, false)
    else if decide (fname fno = []) then mret (0, entry, false)
    else
      d ← dir_at p;
      _ ← dir_put p (Dirstream (ds_fd d) (i32 (ds_loc d + 1)) (cur_entry d) (ffdir d));
      d ← dir_at p;
      name ← lift (strncpy (d_name entry) (fname fno) (NAME_MAX + 1));
      mret (0, Dirent (u16 (ds_loc d)) name, true).

(** The entry is the member [cur_entry] of the stream. *)
Definition fatfs_readdir (dirp : option object) (old : bool) : M S (option dirent) :=
  b ← is_dir dirp;
  if (b : bool) then
    p ← lift (deref dirp);
    d ← dir_at p;
    '(_, entry, ret) ← fatfs_readdir_r dirp (cur_entry d) old;
    d ← dir_at p;
    _ ← dir_put p (Dirstream (ds_fd d) (ds_loc d) entry (ffdir d));
    mret (if (ret : bool) then Some entry else None)
  else _ ← set_errno EBADF; mret None.

Definition fatfs_rewinddir (dirp : option object) : M S unit :=
  b ← is_dir dirp;
  if negb b then mret tt
  else
    p ← lift (deref dirp);
    result ← ff_dir p f_rewinddir;
    if decide (result = FR_OK) then
      d ← dir_at p; dir_put p (Dirstream (ds_fd d) 0 (cur_entry d) (ffdir d))
    else mret tt.

Definition fatfs_telldir (dirp : option object) : M S Z :=
  b ← is_dir dirp;
  if (b : bool) then p ← lift (deref dirp); d ← dir_at p; mret (ds_loc d) else mret (-1).

(** [struct dirent] has no room for the name: its last member has no length. *)
Definition dirent_on_stack : dirent := Dirent 0 [].

Definition fatfs_seekdir (fuel : nat) (dirp : option object) (loc : Z) (old : bool) : M S unit :=
  b ← is_dir dirp;
  if (b : bool) then
    cur_loc ← fatfs_telldir dirp;
    _ ← (if decide (loc < cur_loc) then fatfs_rewinddir dirp else mret tt);
    loop fuel (λ cur_loc,
      if decide (loc > cur_loc) then
        '(ret, _, result) ← fatfs_readdir_r dirp dirent_on_stack old;
        if negb result || bool_decide (ret ≠ 0) then mret (inr tt)
        else cur_loc ← fatfs_telldir dirp; mret (inl cur_loc)
      else mret (inr tt)) cur_loc
  else mret tt.

Definition fatfs_init : M S unit := _ ← ff f_mount; mret tt.
End fatfs.

(** ** The calls of [src/syscalls.c] on names and directories

    The driver of an entry is reached through its function pointers. *)
Section fat_syscalls.
Context {V S : Type} `{!FatFs V, !Has (fat_files V) S, !Has V S, !Has ftable S, !Has errno S}.
Context (junk : FILINFO).

Definition _open (pathname : path) (flags : Z) : M S Z := fatfs_open junk pathname flags.
Definition _unlink (p : path) : M S Z := fatfs_unlink p.
Definition _link (path1 path2 : path) : M S Z := fatfs_link path1 path2.
Definition _stat (p : path) (buf : stat) : M S (Z * stat) := fatfs_stat junk p buf.
Definition rename (old new : path) : M S Z := fatfs_rename old new.
Definition fsync (fd : Z) : M S Z := fatfs_fsync fd.
Definition mkdir (p : path) (mode : Z) : M S Z := fatfs_mkdir p mode.
Definition rmdir (p : path) : M S Z := fatfs_rmdir junk p.
Definition chdir (p : path) : M S Z := fatfs_chdir p.
Definition getcwd (buf : list Z) (size : Z) : M S (bool * list Z) := fatfs_getcwd buf size.
Definition opendir (p : path) : M S (option object) := fatfs_opendir junk p.
Definition closedir (dirp : option object) : M S Z := fatfs_closedir dirp.
Definition readdir (dirp : option object) (old : bool) : M S (option dirent) := fatfs_readdir dirp old.
Definition readdir_r (dirp : option object) (entry : dirent) (old : bool) : M S (Z * dirent * bool) :=
  fatfs_readdir_r dirp entry old.
Definition rewinddir (dirp : option object) : M S unit := fatfs_rewinddir dirp.
Definition telldir (dirp : option object) : M S Z := fatfs_telldir dirp.
Definition dirfd (dirp : option object) : M S Z := fatfs_dirfd dirp.
Definition fdopendir (fd : Z) : M S (option object) := fatfs_fdopendir fd.
Definition seekdir (fuel : nat) (dirp : option object) (loc : Z) (old : bool) : M S unit :=
  fatfs_seekdir fuel dirp loc old.
End fat_syscalls.

(** A program whose descriptors are all files: the functions of an entry. *)
Definition fatfs_drivers {V S : Type} `{!FatFs V, !Has (fat_files V) S, !Has V S, !Has ftable S, !Has errno S} :
  Drivers S := {|
  drv_write d fd ptr := match d with DrvFatfs => fatfs_write fd ptr | _ => fault end;
  drv_read d fd len := match d with DrvFatfs => fatfs_read fd len | _ => fault end;
  drv_close d fd := match d with DrvFatfs => fatfs_close fd | _ => fault end;
  drv_poll _ _ := fault;
|}.
