(* ===== verification/FatfsTable.v ===== *)
(** * The tables of the file driver agree

    The descriptors of [src/file.c] and the array [files] of [src/fatfs.c]: every
    open file or directory has an element of the array of its own, of its kind,
    and every element in use belongs to an open descriptor ([fat_inv]). Every
    operation of [fatfs.c] keeps this for any behaviour of FatFs. *)

From stdpp Require Import prelude list numbers.
From S2P Require Import Prelude Files Fatfs.

(** A program with files: the array, the volume, the descriptors, [errno]. *)
Record fat_world (V : Type) `{!FatFs V} := FatWorld {
  w_slots : list (fat_slot V);
  w_vol : V;
  w_tab : list fd_t;
  w_errno : errno;
}.
Arguments FatWorld {V _} _ _ _ _.
Arguments w_slots {V _} _.
Arguments w_vol {V _} _.
Arguments w_tab {V _} _.
Arguments w_errno {V _} _.

Section instances.
Context {V : Type} `{!FatFs V}.
#[export] Instance fw_has_slots : Has (fat_files V) (fat_world V) :=
  {| proj w := FatFiles (w_slots w); upd c w := FatWorld (fat_slots c) (w_vol w) (w_tab w) (w_errno w) |}.
#[export] Instance fw_has_vol : Has V (fat_world V) :=
  {| proj := w_vol; upd c w := FatWorld (w_slots w) c (w_tab w) (w_errno w) |}.
#[export] Instance fw_has_tab : Has ftable (fat_world V) :=
  {| proj w := Ftable (w_tab w); upd c w := FatWorld (w_slots w) (w_vol w) (files c) (w_errno w) |}.
#[export] Instance fw_has_errno : Has errno (fat_world V) :=
  {| proj := w_errno; upd c w := FatWorld (w_slots w) (w_vol w) (w_tab w) c |}.
#[export] Instance fw_laws_tab : HasLaws ftable (fat_world V).
Proof. split; [by intros []|by intros []|done]. Qed.
End instances.

(** ** The parts of the state *)
Section parts.
Context {V : Type} `{!FatFs V}.
Implicit Types (l : list (fat_slot V)) (v : V) (t : list fd_t) (e : errno).

Lemma wp_slot_at i s l v t e (Q : fat_slot V → fat_world V → Prop) :
  l !! i = Some s → Q s (FatWorld l v t e) → wp (slot_at (Z.of_nat i)) (FatWorld l v t e) Q.
Proof. intros Hs HQ. apply wp_bind, wp_gets. eapply wp_lift; [by apply aget_nat|done]. Qed.

Lemma wp_slot_put i x l v t e (Q : unit → fat_world V → Prop) :
  (i < length l)%nat → Q tt (FatWorld (<[i := x]> l) v t e) →
  wp (slot_put (Z.of_nat i) x) (FatWorld l v t e) Q.
Proof.
  intros Hi HQ. apply wp_bind, wp_gets, wp_bind. eapply wp_lift; [apply aset_in_range; simpl; lia|].
  apply wp_modify. by rewrite Nat2Z.id.
Qed.

Lemma wp_tab_at n x l v t e (Q : fd_t → fat_world V → Prop) :
  t !! n = Some x → Q x (FatWorld l v t e) → wp (fd_at (Z.of_nat n)) (FatWorld l v t e) Q.
Proof. intros Hx HQ. apply wp_bind, wp_gets. eapply wp_lift; [by apply aget_nat|done]. Qed.

Lemma wp_tab_update n g x l v t e (Q : unit → fat_world V → Prop) :
  t !! n = Some x → Q tt (FatWorld l v (<[n := g x]> t) e) →
  wp (fd_update (Z.of_nat n) g) (FatWorld l v t e) Q.
Proof.
  intros Hx HQ. apply wp_bind. eapply wp_tab_at; [done|]. apply wp_bind, wp_gets, wp_bind.
  pose proof (lookup_lt_Some _ _ _ Hx).
  eapply wp_lift; [apply aset_in_range; simpl; lia|]. apply wp_modify. by rewrite Nat2Z.id.
Qed.

Lemma wp_fail er l v t e (Q : Z → fat_world V → Prop) :
  Q (-1) (FatWorld l v t er) → wp (fail er) (FatWorld l v t e) Q.
Proof. intros HQ. by apply wp_bind, wp_modify, wp_ret. Qed.

(** The library answers what it likes. *)
Lemma wp_ff {A} (f : V → A * V) l v t e (Q : A → fat_world V → Prop) :
  (∀ a v', f v = (a, v') → Q a (FatWorld l v' t e)) → wp (ff f) (FatWorld l v t e) Q.
Proof.
  intros HQ. apply wp_bind, wp_gets. simpl. destruct (f v) as [a v'] eqn:E.
  by apply wp_bind, wp_modify, wp_ret, HQ.
Qed.

(** The file or directory an element holds. *)
Definition holds_fil (c : member V) (x : FIL V) : Prop := c = MemFil x ∨ c = MemZero ∧ x = fil_zero.
Definition holds_dir (c : member V) (d : dirstream V) : Prop := c = MemDir d ∨ c = MemZero ∧ d = dirstream_zero.

Lemma wp_fil_at i s x l v t e (Q : FIL V → fat_world V → Prop) :
  l !! i = Some s → holds_fil (content s) x → Q x (FatWorld l v t e) →
  wp (fil_at (ObjFil (Z.of_nat i))) (FatWorld l v t e) Q.
Proof.
  intros Hs Hx HQ. apply wp_bind. eapply wp_slot_at; [done|].
  destruct Hx as [-> |[-> ->]]; by apply wp_ret.
Qed.

Lemma wp_dir_at i s d l v t e (Q : dirstream V → fat_world V → Prop) :
  l !! i = Some s → holds_dir (content s) d → Q d (FatWorld l v t e) →
  wp (dir_at (ObjDir (Z.of_nat i))) (FatWorld l v t e) Q.
Proof.
  intros Hs Hx HQ. apply wp_bind. eapply wp_slot_at; [done|].
  destruct Hx as [-> |[-> ->]]; by apply wp_ret.
Qed.

Lemma wp_dir_put i s d l v t e (Q : unit → fat_world V → Prop) :
  l !! i = Some s → Q tt (FatWorld (<[i := FatSlot (allocated s) (MemDir d)]> l) v t e) →
  wp (dir_put (ObjDir (Z.of_nat i)) d) (FatWorld l v t e) Q.
Proof.
  intros Hs HQ. apply wp_bind. eapply wp_slot_at; [done|]. apply wp_slot_put; [|done].
  by eapply lookup_lt_Some.
Qed.

Lemma wp_ff_fil {A} i s x (f : FIL V → V → A * FIL V * V) l v t e (Q : A → fat_world V → Prop) :
  l !! i = Some s → holds_fil (content s) x →
  (∀ a x' v', f x v = (a, x', v') → Q a (FatWorld (<[i := FatSlot (allocated s) (MemFil x')]> l) v' t e)) →
  wp (ff_fil (ObjFil (Z.of_nat i)) f) (FatWorld l v t e) Q.
Proof.
  intros Hs Hx HQ. apply wp_bind. eapply wp_fil_at; [done..|]. apply wp_bind, wp_ff. intros [a x'] v' E.
  apply wp_bind, wp_bind. eapply wp_slot_at; [done|]. apply wp_slot_put; [by eapply lookup_lt_Some|].
  by apply wp_ret, HQ.
Qed.

Lemma wp_ff_dir {A} i s d (f : FFDIR V → V → A * FFDIR V * V) l v t e (Q : A → fat_world V → Prop) :
  l !! i = Some s → holds_dir (content s) d →
  (∀ a x v', f (ffdir d) v = (a, x, v') →
     Q a (FatWorld (<[i := FatSlot (allocated s) (MemDir (Dirstream (ds_fd d) (ds_loc d) (cur_entry d) x))]> l) v' t e)) →
  wp (ff_dir (ObjDir (Z.of_nat i)) f) (FatWorld l v t e) Q.
Proof.
  intros Hs Hx HQ. apply wp_bind. eapply wp_dir_at; [done..|]. apply wp_bind, wp_ff. intros [a x] v' E.
  apply wp_bind. eapply wp_dir_put; [done|]. by apply wp_ret, HQ.
Qed.

(** ** Elements are taken and given back *)
Lemma wp_fildir_alloc l v t e (Q : Z → fat_world V → Prop) :
  length l = OPEN_MAX →
  (∀ i s, l !! i = Some s → allocated s = false → (i < OPEN_MAX)%nat →
     Q (Z.of_nat i) (FatWorld (<[i := FatSlot true (content s)]> l) v t e)) →
  (Forall (λ s, allocated s = true) l → Q (-1) (FatWorld l v t e)) →
  wp fatfs_fildir_alloc (FatWorld l v t e) Q.
Proof.
  intros Hl HQ Hfull. unfold fatfs_fildir_alloc. apply wp_bind.
  apply wp_for_find with (I := λ j w, w = FatWorld l v t e ∧
    ∀ i s, Z.of_nat i < j → l !! i = Some s → allocated s = true).
  - split; [done|lia].
  - intros j w Hj [-> Hlow]. destruct (lookup_lt_is_Some_2 l (Z.to_nat j)) as [s Hs]; [lia|].
    replace j with (Z.of_nat (Z.to_nat j)) by lia. apply wp_bind. eapply wp_slot_at; [done|].
    destruct (allocated s) eqn:Ha; simpl.
    + apply wp_ret. split; [done|]. intros i s' Hi Hs'.
      destruct (decide (i = Z.to_nat j)) as [->|]; [congruence|]. apply (Hlow i); [lia|done].
    + apply wp_bind, wp_slot_put; [lia|]. apply wp_ret. apply wp_ret. simpl. apply HQ; [done|done|lia].
  - intros w [-> Hall]. apply wp_ret. apply Hfull, Forall_lookup_2. intros i s Hs.
    apply (Hall i); [|done]. apply lookup_lt_Some in Hs. lia.
Qed.

Lemma wp_fildir_free p i s l v t e (Q : Z → fat_world V → Prop) :
  length l = OPEN_MAX → l !! i = Some s → allocated s = true → (∀ j, points_at p j = bool_decide (Z.of_nat i = j)) →
  Q (Z.of_nat i) (FatWorld (<[i := FatSlot false (content s)]> l) v t e) →
  wp (fatfs_fildir_free p) (FatWorld l v t e) Q.
Proof.
  intros Hl Hs Ha Hp HQ. unfold fatfs_fildir_free. apply wp_bind.
  pose proof (lookup_lt_Some _ _ _ Hs) as Hi.
  apply wp_for_find with (I := λ j w, w = FatWorld l v t e ∧ j ≤ Z.of_nat i).
  - split; [done|lia].
  - intros j w Hj [-> Hlow]. destruct (lookup_lt_is_Some_2 l (Z.to_nat j)) as [s' Hs']; [lia|].
    replace j with (Z.of_nat (Z.to_nat j)) by lia. apply wp_bind. eapply wp_slot_at; [done|].
    rewrite Hp. destruct (decide (i = Z.to_nat j)) as [->|Hne].
    + rewrite bool_decide_true by done. assert (s' = s) as -> by congruence. rewrite Ha. simpl.
      apply wp_bind, wp_slot_put; [lia|]. apply wp_ret. by apply wp_ret.
    + rewrite bool_decide_false by lia. rewrite andb_false_r. apply wp_ret. split; [done|lia].
  - intros w [-> Hall]. lia.
Qed.

Lemma wp_fil_free i s l v t e (Q : unit → fat_world V → Prop) :
  length l = OPEN_MAX → l !! i = Some s → allocated s = true → (∀ d, content s ≠ MemDir d) →
  Q tt (FatWorld (<[i := FatSlot false MemZero]> l) v t e) →
  wp (fatfs_fil_free (ObjFil (Z.of_nat i))) (FatWorld l v t e) Q.
Proof.
  intros Hl Hs Ha Hc HQ. pose proof (lookup_lt_Some _ _ _ Hs). apply wp_bind.
  eapply wp_fildir_free; [done|done|done|done|]. rewrite decide_True by lia.
  apply wp_bind. eapply wp_slot_at; [by apply list_lookup_insert_eq|]. apply wp_bind.
  eapply wp_lift with (a := FatSlot false MemZero); [unfold clear_fil; simpl; destruct (content s) eqn:E; try done; by edestruct Hc|].
  apply wp_slot_put; [by rewrite length_insert|]. by rewrite list_insert_insert_eq.
Qed.

Lemma wp_dir_free i s l v t e (Q : unit → fat_world V → Prop) :
  length l = OPEN_MAX → l !! i = Some s → allocated s = true → (∀ x, content s ≠ MemFil x) →
  Q tt (FatWorld (<[i := FatSlot false MemZero]> l) v t e) →
  wp (fatfs_dir_free (ObjDir (Z.of_nat i))) (FatWorld l v t e) Q.
Proof.
  intros Hl Hs Ha Hc HQ. pose proof (lookup_lt_Some _ _ _ Hs). apply wp_bind.
  eapply wp_fildir_free; [done|done|done|done|]. rewrite decide_True by lia.
  apply wp_bind. eapply wp_slot_at; [by apply list_lookup_insert_eq|]. apply wp_bind.
  eapply wp_lift with (a := FatSlot false MemZero); [unfold clear_dir; simpl; destruct (content s) eqn:E; try done; by edestruct Hc|].
  apply wp_slot_put; [by rewrite length_insert|]. by rewrite list_insert_insert_eq.
Qed.
End parts.

(** ** The invariant *)
Section tables.
Context {V : Type} `{!FatFs V}.
Implicit Types (l : list (fat_slot V)) (t : list fd_t) (s : fat_slot V).

(** A descriptor of the driver that is in use. *)
Definition fat_entry t (n : nat) (x : fd_t) : Prop :=
  t !! n = Some x ∧ isallocated x = true ∧ fd_close x = Some DrvFatfs.

(** An open entry; its functions are the driver's. *)
Definition entry_open (x : fd_t) : Prop :=
  isopen x = true ∧ (fd_write x = None ∨ fd_write x = Some DrvFatfs) ∧ (fd_read x = None ∨ fd_read x = Some DrvFatfs).

(** The entry [x] of the descriptor [n] and the element [i], which is [s]. *)
Definition entry_slot (n : nat) (x : fd_t) (i : nat) s : Prop :=
  allocated s = true ∧ entry_open x ∧
  match content s with
  | MemFil _ => opaque x = Some (ObjFil (Z.of_nat i)) ∧ st_type (fd_stat x) = S_IFREG
  | MemDir d => opaque x = Some (ObjDir (Z.of_nat i)) ∧ st_type (fd_stat x) = S_IFDIR ∧
      ds_fd d = Z.of_nat n ∧ length (d_name (cur_entry d)) = (NAME_MAX + 1)%nat
  | MemZero => False
  end.

(** [open] is the element an operation has taken and no descriptor has yet. *)
Record tables (open : option nat) l t : Prop := {
  tb_slots : length l = OPEN_MAX;
  tb_tab : length t = OPEN_MAX;
  tb_entry : ∀ n x, fat_entry t n x → ∃ i s, l !! i = Some s ∧ open ≠ Some i ∧ entry_slot n x i s;
  tb_inj : ∀ n n' x x' i s, fat_entry t n x → fat_entry t n' x' → l !! i = Some s →
    entry_slot n x i s → entry_slot n' x' i s → n = n';
  tb_owner : ∀ i s, l !! i = Some s → allocated s = true → open = Some i ∨ ∃ n x, fat_entry t n x ∧ entry_slot n x i s;
  tb_free : ∀ i s, l !! i = Some s → allocated s = false → content s = MemZero;
}.

(** An entry determines its element. *)
Lemma entry_slot_index n x i j s s' : entry_slot n x i s → entry_slot n x j s' → i = j.
Proof.
  intros (_ & _ & H) (_ & _ & H'). destruct (content s), (content s'); try done;
    destruct H as [H ?], H' as [H' ?]; apply Nat2Z.inj; congruence.
Qed.

(** The content of an element changes, its kind and its number do not. *)
Definition same_kind s s' : Prop :=
  allocated s' = allocated s ∧
  match content s, content s' with
  | MemFil _, MemFil _ => True
  | MemDir d, MemDir d' => ds_fd d' = ds_fd d ∧ length (d_name (cur_entry d')) = length (d_name (cur_entry d))
  | _, _ => False
  end.

Lemma same_kind_entry s s' n x i : same_kind s s' → entry_slot n x i s ↔ entry_slot n x i s'.
Proof.
  unfold same_kind, entry_slot. intros [-> H]. destruct (content s), (content s'); try done.
  destruct H as [-> ->]. done.
Qed.

Lemma tables_content open l t i s s' :
  tables open l t → l !! i = Some s → same_kind s s' → tables open (<[i := s']> l) t.
Proof.
  intros [Hl Ht He Hi Ho Hf] Hs Hk. pose proof (lookup_lt_Some _ _ _ Hs) as Hlt.
  assert (Hback : ∀ j s1, <[i := s']> l !! j = Some s1 → ∃ s0, l !! j = Some s0 ∧
    (∀ n x, entry_slot n x j s0 ↔ entry_slot n x j s1) ∧ allocated s0 = allocated s1 ∧
    (content s0 = MemZero → content s1 = MemZero)).
  { intros j s1 [(<- & <- & _)|[Hne Hj]]%list_lookup_insert_Some; [|exists s1; done].
    exists s. split_and!; [done|intros; by apply same_kind_entry|by destruct Hk as [-> _]|].
    destruct Hk as [_ Hk]. intros E. rewrite E in Hk. by destruct (content s'). }
  split; [by rewrite length_insert|done| | | |].
  - intros n x Hx. destruct (He n x Hx) as (j & s0 & Hj & Hne & Hes).
    destruct (decide (j = i)) as [->|Hji].
    + exists i, s'. split_and!; [by apply list_lookup_insert_eq|done|].
      assert (s0 = s) as -> by congruence. by apply (proj1 (same_kind_entry s s' n x i Hk)).
    + exists j, s0. by rewrite list_lookup_insert_ne by done.
  - intros n n' x x' j s1 Hx Hx' Hj H1 H2. destruct (Hback j s1 Hj) as (s0 & Hj0 & Heq & _).
    apply (Hi n n' x x' j s0); [done..|by apply Heq|by apply Heq].
  - intros j s1 Hj Ha. destruct (Hback j s1 Hj) as (s0 & Hj0 & Heq & Ha0 & _).
    destruct (Ho j s0 Hj0) as [?|(n & x & Hx & Hes)]; [congruence|by left|right; exists n, x].
    split; [done|by apply Heq].
  - intros j s1 Hj Ha. destruct (Hback j s1 Hj) as (s0 & Hj0 & _ & Ha0 & Hz). apply Hz. apply (Hf j); [done|congruence].
Qed.

(** An operation takes a free element, writes it, and gives it back. *)
Lemma tables_put open l t i s c :
  tables open l t → open = None ∨ open = Some i → l !! i = Some s →
  (open = None → allocated s = false) → tables (Some i) (<[i := FatSlot true c]> l) t.
Proof.
  intros [Hl Ht He Hi Ho Hf] Hopen Hs Hfree. pose proof (lookup_lt_Some _ _ _ Hs) as Hlt.
  assert (Hno : ∀ n x, fat_entry t n x → ∃ j s0, l !! j = Some s0 ∧ j ≠ i ∧ entry_slot n x j s0).
  { intros n x Hx. destruct (He n x Hx) as (j & s0 & Hj & Hne & Hes). exists j, s0. split_and!; [done| |done].
    intros ->. destruct Hopen as [->| ->]; [|done]. destruct Hes as [Ha _]. rewrite Hs in Hj. injection Hj as ->.
    rewrite Hfree in Ha by done. done. }
  split; [by rewrite length_insert|done| | | |].
  - intros n x Hx. destruct (Hno n x Hx) as (j & s0 & Hj & Hji & Hes). exists j, s0.
    rewrite list_lookup_insert_ne by done. split_and!; [done|congruence|done].
  - intros n n' x x' j s1 Hx Hx' [(<- & <- & _)|[Hne Hj]]%list_lookup_insert_Some H1 H2; [|by eapply Hi].
    destruct (Hno n x Hx) as (k & s0 & Hk & Hki & Hes). by destruct Hki; eapply entry_slot_index.
  - intros j s1 [(<- & <- & _)|[Hne Hj]]%list_lookup_insert_Some Ha; [by left|right].
    destruct (Ho j s1 Hj Ha) as [?|?]; [|done]. destruct Hopen; congruence.
  - intros j s1 [(<- & <- & _)|[Hne Hj]]%list_lookup_insert_Some Ha; [done|by eapply Hf].
Qed.

Lemma tables_give l t i : tables (Some i) l t → (i < length l)%nat → tables None (<[i := FatSlot false MemZero]> l) t.
Proof.
  intros [Hl Ht He Hi Ho Hf] Hlt. split; [by rewrite length_insert|done| | | |].
  - intros n x Hx. destruct (He n x Hx) as (j & s0 & Hj & Hji & Hes). exists j, s0.
    rewrite list_lookup_insert_ne by congruence. done.
  - intros n n' x x' j s1 Hx Hx' [(<- & <- & _)|[Hne Hj]]%list_lookup_insert_Some H1 H2; [|by eapply Hi].
    by destruct H1.
  - intros j s1 [(<- & <- & _)|[Hne Hj]]%list_lookup_insert_Some Ha; [done|right].
    destruct (Ho j s1 Hj Ha) as [?|?]; [congruence|done].
  - intros j s1 [(<- & <- & _)|[Hne Hj]]%list_lookup_insert_Some Ha; [done|by eapply Hf].
Qed.

(** Entries that are not the driver's come and go. *)
Lemma tables_entry open l t n x y :
  tables open l t → t !! n = Some y → ¬ fat_entry t n y → ¬ (isallocated x = true ∧ fd_close x = Some DrvFatfs) →
  tables open l (<[n := x]> t).
Proof.
  intros [Hl Ht He Hi Ho Hf] Hy Hny Hnx.
  assert (Hiff : ∀ m z, fat_entry (<[n := x]> t) m z ↔ fat_entry t m z).
  { intros m z. unfold fat_entry. destruct (decide (m = n)) as [->|Hne]; [|by rewrite list_lookup_insert_ne].
    rewrite list_lookup_insert_eq by (by eapply lookup_lt_Some). split.
    - intros ([= <-] & ? & ?). by destruct Hnx.
    - intros (Hz & ? & ?). destruct Hny. rewrite Hy in Hz. injection Hz as ->. by repeat split. }
  split; [done|by rewrite length_insert| | | |done].
  - intros m z Hz. by apply He, Hiff.
  - intros m m' z z' i s Hz Hz'. apply Hi; by apply Hiff.
  - intros i s Hs Ha. destruct (Ho i s Hs Ha) as [?|(m & z & Hz & ?)]; [by left|right]. exists m, z. by rewrite Hiff.
Qed.

(** A descriptor becomes the owner of the element that was taken. *)
Lemma tables_open l t n x y i s :
  tables (Some i) l t → t !! n = Some y → ¬ fat_entry t n y → l !! i = Some s → entry_slot n x i s →
  isallocated x = true → fd_close x = Some DrvFatfs → tables None l (<[n := x]> t).
Proof.
  intros [Hl Ht He Hi Ho Hf] Hy Hny Hs Hes Hax Hcx.
  assert (Hcase : ∀ m z, fat_entry (<[n := x]> t) m z → m = n ∧ z = x ∨ m ≠ n ∧ fat_entry t m z).
  { intros m z ([(<- & <- & _)|[Hne Hz]]%list_lookup_insert_Some & ? & ?); [by left|right]. done. }
  assert (Hkeep : ∀ m z, fat_entry t m z → fat_entry (<[n := x]> t) m z).
  { intros m z Hz. destruct (decide (m = n)) as [->|Hne].
    - destruct Hny. destruct Hz as (Hz & ? & ?). rewrite Hy in Hz. injection Hz as ->. done.
    - unfold fat_entry. by rewrite list_lookup_insert_ne. }
  assert (Hother : ∀ m z, fat_entry t m z → ¬ entry_slot m z i s).
  { intros m z Hz Hz'. destruct (He m z Hz) as (j & s0 & Hj & Hji & Hes0).
    destruct Hji. f_equal. symmetry. by eapply entry_slot_index. }
  split; [done|by rewrite length_insert| | | |done].
  - intros m z [[-> ->]|[Hne Hz]]%Hcase; [by exists i, s|].
    destruct (He m z Hz) as (j & s0 & Hj & Hji & Hes0). by exists j, s0.
  - intros m m' z z' j s1 [[-> ->]|[Hne Hz]]%Hcase [[-> ->]|[Hne' Hz']]%Hcase Hj H1 H2; [done| | |by eapply Hi].
    + assert (j = i) as -> by exact (entry_slot_index _ _ _ _ _ _ H1 Hes). assert (s1 = s) as -> by congruence. by edestruct Hother.
    + assert (j = i) as -> by exact (entry_slot_index _ _ _ _ _ _ H2 Hes). assert (s1 = s) as -> by congruence. by edestruct Hother.
  - intros j s1 Hj Ha. right. destruct (Ho j s1 Hj Ha) as [[= ->]|(m & z & Hz & Hz')].
    + exists n, x. assert (s1 = s) as -> by congruence. split; [|done].
      split_and!; [|done|done]. apply list_lookup_insert_eq. by eapply lookup_lt_Some.
    + exists m, z. split; [by apply Hkeep|done].
Qed.

(** A descriptor is closed, with its element. *)
Lemma tables_close l t n x i s :
  tables None l t → fat_entry t n x → l !! i = Some s → entry_slot n x i s →
  tables None (<[i := FatSlot false MemZero]> l) (<[n := with_allocated false x]> t).
Proof.
  intros [Hl Ht He Hi Ho Hf] Hx Hs Hes.
  assert (Hcase : ∀ m z, fat_entry (<[n := with_allocated false x]> t) m z → m ≠ n ∧ fat_entry t m z).
  { intros m z ([(<- & <- & _)|[Hne Hz]]%list_lookup_insert_Some & ? & ?); done. }
  split; [by rewrite length_insert|by rewrite length_insert| | | |].
  - intros m z [Hne Hz]%Hcase. destruct (He m z Hz) as (j & s0 & Hj & Hji & Hes0). exists j, s0.
    rewrite list_lookup_insert_ne; [done|]. intros <-. assert (s0 = s) as -> by congruence.
    apply Hne. by apply (Hi m n z x i s).
  - intros m m' z z' j s1 [Hne Hz]%Hcase [Hne' Hz']%Hcase
      [(<- & <- & _)|[Hji Hj]]%list_lookup_insert_Some H1 H2; [by destruct H1|by eapply Hi].
  - intros j s1 [(<- & <- & _)|[Hji Hj]]%list_lookup_insert_Some Ha; [done|right].
    destruct (Ho j s1 Hj Ha) as [?|(m & z & Hz & Hz')]; [done|]. exists m, z. split; [|done].
    unfold fat_entry. rewrite list_lookup_insert_ne; [done|]. intros <-.
    assert (z = x) as -> by (destruct Hz as [Hz _], Hx as [Hx _]; congruence). apply Hji. exact (entry_slot_index _ _ _ _ _ _ Hes Hz').
  - intros j s1 [(<- & <- & _)|[Hne Hj]]%list_lookup_insert_Some Ha; [done|by eapply Hf].
Qed.
End tables.
