(* ===== verification/FatfsSafe.v ===== *)
(** * Any sequence of file calls: [src/fatfs.c]

    The calls a program may make ([fat_call]) on the descriptors and directories
    it holds, in any order. They keep the tables of [FatfsTable] consistent, so
    that none reads one kind of object as another, and no element of the array
    is lost; they all return. *)

From stdpp Require Import prelude list numbers.
From S2P Require Import Prelude Files Fatfs FatfsTable.

(** What is relied on: a status query that finds no file leaves the name in the
    structure alone, and what can be opened as a file is not a directory. *)
Class FatFsLaws (V : Type) `{!FatFs V} : Prop := {
  stat_no_file (p : path) fno fno' (v v' : V) : f_stat p fno v = (FR_NO_FILE, fno', v') → fname fno' = fname fno;
  stat_opened (p : path) m f f' fno fno' (v v' v'' : V) : f_open p m f v = (FR_OK, f', v') →
    f_stat p fno v' = (FR_OK, fno', v'') → AM_DIR fno' = false;
}.

Section operations.
Context {V : Type} `{!FatFs V, !FatFsLaws V}.
Abbreviation W := (fat_world V).

Definition consistent (w : W) : Prop := tables None (w_slots w) (w_tab w).

(** The element [i] is an open file, or an open directory. *)
Definition is_fil (i : nat) (w : W) : Prop := ∃ f, w_slots w !! i = Some (FatSlot true (MemFil f)).
Definition is_dirstream (i : nat) (w : W) (d : dirstream V) : Prop :=
  w_slots w !! i = Some (FatSlot true (MemDir d)).

(** The same descriptors, and consistent. *)
Definition same_tab (w w' : W) : Prop := consistent w' ∧ w_tab w' = w_tab w.

Lemma wp_fil_call {A} i (f : FIL V → V → A * FIL V * V) (w : W) (Q : A → W → Prop) :
  consistent w → is_fil i w → (∀ a w', same_tab w w' → is_fil i w' → Q a w') →
  wp (ff_fil (ObjFil (Z.of_nat i)) f) w Q.
Proof.
  destruct w as [l v t e]. intros Hc (x & Hx) HQ. eapply wp_ff_fil; [exact Hx|by left|].
  intros a x' v' _. simpl. apply HQ.
  - split; [|done]. by eapply tables_content.
  - exists x'. apply list_lookup_insert_eq. by eapply lookup_lt_Some.
Qed.

Lemma wp_fil_look {A} i (g : FIL V → A) (w : W) (Q : A → W → Prop) :
  is_fil i w → (∀ a, Q a w) → wp (f ← fil_at (ObjFil (Z.of_nat i)); mret (g f)) w Q.
Proof.
  destruct w as [l v t e]. intros (x & Hx) HQ. apply wp_bind. eapply wp_fil_at; [done|by left|]. apply wp_ret, HQ.
Qed.

(** A directory whose entry keeps its room. *)
Definition dir_like (d d' : dirstream V) : Prop :=
  ds_fd d' = ds_fd d ∧ length (d_name (cur_entry d')) = length (d_name (cur_entry d)).

Lemma wp_dir_set i d d' (w : W) (Q : unit → W → Prop) :
  consistent w → is_dirstream i w d → dir_like d d' →
  (∀ w', same_tab w w' → is_dirstream i w' d' → Q tt w') → wp (dir_put (ObjDir (Z.of_nat i)) d') w Q.
Proof.
  destruct w as [l v t e]. intros Hc Hd Hlike HQ. eapply wp_dir_put; [done|]. apply HQ.
  - split; [|done]. by eapply tables_content.
  - apply list_lookup_insert_eq. by eapply lookup_lt_Some.
Qed.

Lemma wp_dir_get i d (w : W) (Q : dirstream V → W → Prop) :
  is_dirstream i w d → Q d w → wp (dir_at (ObjDir (Z.of_nat i))) w Q.
Proof. destruct w as [l v t e]. intros Hd HQ. eapply wp_dir_at; [done|by left|done]. Qed.

Lemma wp_dir_call {A} i d (f : FFDIR V → V → A * FFDIR V * V) (w : W) (Q : A → W → Prop) :
  consistent w → is_dirstream i w d →
  (∀ a d' w', same_tab w w' → dir_like d d' → ds_loc d' = ds_loc d → cur_entry d' = cur_entry d →
     is_dirstream i w' d' → Q a w') →
  wp (ff_dir (ObjDir (Z.of_nat i)) f) w Q.
Proof.
  destruct w as [l v t e]. intros Hc Hd HQ. eapply wp_ff_dir; [exact Hd|by left|].
  intros a x v' _. simpl. apply (HQ a (Dirstream (ds_fd d) (ds_loc d) (cur_entry d) x)); [| |done|done|].
  - split; [|done]. by eapply tables_content.
  - done.
  - apply list_lookup_insert_eq. by eapply lookup_lt_Some.
Qed.

Lemma wp_err er (w : W) (Q : Z → W → Prop) :
  (∀ w', same_tab w w' → (∀ i d, is_dirstream i w d → is_dirstream i w' d) → Q (-1) w') →
  consistent w → wp (fail er) w Q.
Proof. destruct w as [l v t e]. intros HQ Hc. apply wp_fail. by apply HQ. Qed.

Lemma wp_seterr er (w : W) (Q : unit → W → Prop) :
  (∀ w', same_tab w w' → Q tt w') → consistent w → wp (set_errno er) w Q.
Proof. destruct w as [l v t e]. intros HQ Hc. by apply wp_modify, HQ. Qed.

Lemma wp_vol {A} (f : V → A * V) (w : W) (Q : A → W → Prop) :
  consistent w → (∀ a v' w', f (w_vol w) = (a, v') → w_vol w' = v' → same_tab w w' → w_slots w' = w_slots w → Q a w') →
  wp (ff f) w Q.
Proof. destruct w as [l v t e]. intros Hc HQ. apply wp_ff. intros a v' E. by eapply HQ. Qed.

Lemma same_tab_trans (w1 w2 w3 : W) : same_tab w1 w2 → same_tab w2 w3 → same_tab w1 w3.
Proof. intros [_ H] [? H']. split; [done|congruence]. Qed.

(** ** Calls on a descriptor

    A program uses the numbers of open descriptors, or numbers that are no
    descriptors of this driver. *)
Definition fd_usable (w : W) (fd : Z) : Prop :=
  Z.of_nat OPEN_MAX ≤ fd ∨ ∃ n x, fd = Z.of_nat n ∧ w_tab w !! n = Some x ∧ (opaque x = None ∨ fat_entry (w_tab w) n x).

Lemma wp_on_fd {A} fd (w : W) (none empty : M W A) (some : fd_t → object → M W A) (Q : A → W → Prop) :
  consistent w → fd_usable w fd → wp none w Q → wp empty w Q →
  (∀ n x i, fd = Z.of_nat n → fat_entry (w_tab w) n x → opaque x = Some (ObjFil (Z.of_nat i)) → S_ISREG (fd_stat x) = true →
     is_fil i w → wp (some x (ObjFil (Z.of_nat i))) w Q) →
  (∀ n x i d, fd = Z.of_nat n → fat_entry (w_tab w) n x → opaque x = Some (ObjDir (Z.of_nat i)) → S_ISREG (fd_stat x) = false →
     S_ISDIR (fd_stat x) = true → is_dirstream i w d → ds_fd d = fd →
     wp (some x (ObjDir (Z.of_nat i))) w Q) →
  wp (match file_struct_get fd with
      | None => none
      | Some pfd => e ← fd_at pfd; match opaque e with None => empty | Some p => some e p end
      end) w Q.
Proof.
  intros Hc Hfd Hnone Hempty Hfil Hdir. unfold file_struct_get.
  destruct Hfd as [Hfd|(n & x & -> & Hx & Hop)]; [by rewrite decide_True by lia|].
  pose proof (lookup_lt_Some _ _ _ Hx) as Hn. pose proof (tb_tab _ _ _ Hc) as Hlen.
  rewrite decide_False by lia. destruct w as [l v t e]. simpl in *. apply wp_bind. eapply wp_tab_at; [done|].
  destruct Hop as [->|Hent]; [done|].
  destruct (tb_entry _ _ _ Hc n x Hent) as (i & s & Hs & _ & Ha & _ & Hk). destruct s as [b c]. simpl in *. subst b.
  destruct c as [|f|d]; [done| |].
  - destruct Hk as [Ho Ht]. rewrite Ho. eapply Hfil; [done|exact Hent|done| |by exists f].
    by apply bool_decide_eq_true.
  - destruct Hk as (Ho & Ht & Hfd & _). rewrite Ho. eapply Hdir; [done|exact Hent|done| | |done|done].
    + apply bool_decide_eq_false. by rewrite Ht.
    + by apply bool_decide_eq_true.
Qed.

Lemma ok_write fd ptr (w : W) : consistent w → fd_usable w fd → wp (fatfs_write fd ptr) w (λ _ w', consistent w').
Proof.
  intros Hc Hfd. unfold fatfs_write.
  apply wp_on_fd; [done|done|apply wp_err; [by intros w' []|done]|apply wp_err; [by intros w' []|done]| |].
  - intros n x i -> _ _ -> Hf. apply wp_bind. eapply (wp_mono _ _ (λ _ w', consistent w' ∧ is_fil i w')).
    + intros r w1 [Hc1 Hf1]. apply wp_bind.
      assert (Hend : ∀ res k (w2 : W), consistent w2 →
        wp (if decide (res = FR_OK) then mret (i32 k) else fail (fresult2errno res)) w2 (λ _ w', consistent w')).
      { intros res k w2 Hc2. case_decide; [by apply wp_ret|]. apply wp_err; [by intros w' []|done]. }
      case_decide; [|by apply wp_ret, Hend]. apply wp_fil_call; [done|done|]. intros [res k] w2 [Hc2 _] _. by apply Hend.
    + case_decide; [|by apply wp_ret]. apply wp_bind, wp_fil_look; [done|]. intros a.
      apply wp_fil_call; [done|done|]. by intros r w1 [Hc1 _] Hf1.
  - intros n x i d _ _ _ -> -> _ _. apply wp_err; [by intros w' []|done].
Qed.

(** The end of most operations. *)
Lemma ok_status res (w : W) : consistent w → wp (status res) w (λ _ w', consistent w').
Proof. intros Hc. unfold status. case_decide; [by apply wp_ret|]. apply wp_err; [by intros w' []|done]. Qed.
Lemma ok_fail er (w : W) : consistent w → wp (fail er) w (λ _ w', consistent w').
Proof. apply wp_err. by intros w' []. Qed.
Lemma ok_fail_with {B} er (b : Z → B) (w : W) : consistent w →
  wp (r ← fail er; mret (b r)) w (λ _ w', consistent w').
Proof. intros Hc. apply wp_bind, wp_err; [|done]. intros w' [Hc' _] _. by apply wp_ret. Qed.

Lemma ok_read fd len (w : W) : consistent w → fd_usable w fd → wp (fatfs_read fd len) w (λ _ w', consistent w').
Proof.
  intros Hc Hfd. unfold fatfs_read. apply wp_on_fd; [done|done|by apply ok_fail_with|by apply ok_fail_with| |].
  - intros n x i _ _ _ -> Hf. apply wp_bind, wp_fil_call; [done|done|]. intros [res bs] w1 [Hc1 _] _.
    case_decide; [by apply wp_ret|by apply ok_fail_with].
  - intros n x i d _ _ _ -> -> _ _. by apply ok_fail_with.
Qed.

Lemma ok_lseek fd off whence (w : W) : consistent w → fd_usable w fd →
  wp (fatfs_lseek fd off whence) w (λ _ w', consistent w').
Proof.
  intros Hc Hfd. unfold fatfs_lseek. apply wp_on_fd; [done|done|by apply ok_fail|by apply ok_fail| |].
  - intros n x i _ _ _ -> Hf. apply wp_bind. eapply (wp_mono _ _ (λ _ w', w' = w)).
    + intros pos w' ->. apply wp_bind, wp_fil_call; [done|done|]. intros res w1 [Hc1 _] _.
      case_decide; [by apply wp_ret|by apply ok_fail].
    + repeat case_decide; first [by apply wp_fil_look|by apply wp_ret].
  - intros n x i d _ _ _ -> _ _ _. by apply ok_fail.
Qed.

Lemma ok_fsync fd (w : W) : consistent w → fd_usable w fd → wp (fatfs_fsync fd) w (λ _ w', consistent w').
Proof.
  intros Hc Hfd. unfold fatfs_fsync. apply wp_on_fd; [done|done|by apply ok_fail|by apply ok_fail| |].
  - intros n x i _ _ _ -> Hf. apply wp_bind, wp_fil_call; [done|done|]. intros res w1 [Hc1 _] _. by apply ok_status.
  - intros n x i d _ _ _ -> _ _ _. by apply ok_fail.
Qed.

(** Closing a descriptor gives back its element. *)
Lemma wp_close_free n x i m free l v t e :
  tables None l t → fat_entry t n x → entry_slot n x i (FatSlot true m) → l !! i = Some (FatSlot true m) →
  (∀ Q : unit → W → Prop, Q tt (FatWorld (<[i := FatSlot false MemZero]> l) v t e) → wp free (FatWorld l v t e) Q) →
  wp (_ ← free; _ ← file_free (Z.of_nat n); mret 0) (FatWorld l v t e) (λ _ w', consistent w').
Proof.
  intros Hc Hent Hes Hs Hfree. apply wp_bind, Hfree. destruct Hent as (Hx & Ha & Hcl).
  pose proof (lookup_lt_Some _ _ _ Hx) as Hn. pose proof (tb_tab _ _ _ Hc) as Hlen.
  unfold file_free. rewrite decide_True by lia. apply wp_bind, wp_bind. eapply wp_tab_at; [done|]. rewrite Ha.
  eapply wp_tab_update; [done|]. apply wp_ret. by eapply tables_close.
Qed.

Lemma ok_close fd (w : W) : consistent w → fd_usable w fd → wp (fatfs_close fd) w (λ _ w', consistent w').
Proof.
  intros Hc Hfd. unfold fatfs_close. apply wp_on_fd; [done|done|by apply ok_fail|by apply ok_fail| |].
  - intros n x i -> Hent Ho Ht Hf. rewrite Ht. apply wp_bind, wp_fil_call; [done|done|].
    intros res [l v t e] [Hc1 Et] (f & Hf1). simpl in Et. subst t. case_decide; [|by apply ok_fail].
    eapply wp_close_free; [exact Hc1|exact Hent| |exact Hf1|].
    + destruct (tb_entry _ _ _ Hc n x Hent) as (j & s & _ & _ & _ & Hopen & _). split_and!; [done|done|].
      split; [done|]. by apply bool_decide_eq_true in Ht.
    + intros Q HQ. eapply wp_fil_free; [by apply (tb_slots _ _ _ Hc1)|exact Hf1|done|done|done].
  - intros n x i d -> Hent Ho -> Ht Hd Hfd'. rewrite Ht. apply wp_bind. eapply wp_dir_call; [done|done|].
    intros res d' [l v t e] [Hc1 Et] [E1 E2] _ _ Hd1. simpl in Et. subst t. case_decide; [|by apply ok_fail].
    eapply wp_close_free; [exact Hc1|exact Hent| |exact Hd1|].
    + destruct (tb_entry _ _ _ Hc n x Hent) as (j & s & Hs & _ & Hes). destruct Hes as (Ha & Hopen & Hk).
      split_and!; [done|done|]. split_and!; [done|by apply bool_decide_eq_true in Ht|congruence|].
      rewrite E2. destruct s as [b [|f|d0]]; simpl in *; [done|destruct Hk as [Hk _]; congruence|].
      destruct Hk as (Ho' & _ & _ & Hlen). assert (j = i) as -> by (apply Nat2Z.inj; congruence).
      unfold is_dirstream in Hd. congruence.
    + intros Q HQ. eapply wp_dir_free; [by apply (tb_slots _ _ _ Hc1)|exact Hd1|done|done|done].
Qed.

(** ** Opening *)

(** The entry [x] after a successful open of the element [i]. *)
Definition opened_entry (n : nat) (flags : Z) (fno : FILINFO) (p : object) : fd_t :=
  with_opaque p (fill_fd flags fno (fd_fresh (Z.of_nat n))).

Lemma opened_entry_open n flags fno p : entry_open (opened_entry n flags fno p).
Proof. unfold entry_open. simpl. destruct (AM_DIR fno); auto. Qed.

Lemma wp_fill n flags fno p l v t e (Q : unit → W → Prop) :
  length t = OPEN_MAX → t !! n = Some (fd_fresh (Z.of_nat n)) →
  Q tt (FatWorld l v (<[n := opened_entry n flags fno p]> t) e) →
  wp (fill_fd_fil (Z.of_nat n) p flags fno) (FatWorld l v t e) Q.
Proof.
  intros Hlen Ht HQ. pose proof (lookup_lt_Some _ _ _ Ht) as Hn. unfold fill_fd_fil, file_struct_get.
  rewrite decide_False by lia. apply wp_bind. eapply wp_lift; [done|].
  apply wp_bind. eapply wp_tab_update; [done|]. eapply wp_tab_update; [by apply list_lookup_insert_eq|].
  by rewrite list_insert_insert_eq.
Qed.

(** What an attempt at opening leaves: the descriptor refers to an element that
    was free, or nothing is changed. *)
Definition attempted (n : nat) (flags : Z) (w : W) (r : FRESULT) (w' : W) : Prop :=
  consistent w' ∧
  if decide (r = FR_OK) then ∃ i fno p m,
    w_slots w' = <[i := FatSlot true m]> (w_slots w) ∧ w_slots w !! i = Some (FatSlot false MemZero) ∧
    (p = ObjFil (Z.of_nat i) ∧ AM_DIR fno = false ∨ p = ObjDir (Z.of_nat i) ∧ AM_DIR fno = true) ∧
    w_tab w' = <[n := opened_entry n flags fno p]> (w_tab w)
  else w_slots w' = w_slots w ∧ w_tab w' = w_tab w.

Lemma open_give (i : nat) (l : list (fat_slot V)) : l !! i = Some (FatSlot false MemZero) → ∀ s, <[i := FatSlot false MemZero]> (<[i := s]> l) = l.
Proof. intros Hi s. rewrite list_insert_insert_eq. by apply list_insert_id. Qed.

Lemma not_fat_fresh (t : list fd_t) (n : nat) : t !! n = Some (fd_fresh (Z.of_nat n)) → ¬ fat_entry t n (fd_fresh (Z.of_nat n)).
Proof. intros _ (_ & _ & H). done. Qed.

Lemma attempt_file path flags n fno (junk : FILINFO) (w : W) :
  consistent w → w_tab w !! n = Some (fd_fresh (Z.of_nat n)) → (fname fno ≠ [] → AM_DIR fno = false) →
  wp (fatfs_open_file junk path flags (Z.of_nat n) fno) w (attempted n flags w).
Proof.
  destruct w as [l v t e]. intros Hc Ht Hfno. simpl in *. pose proof (tb_slots _ _ _ Hc) as Hl.
  unfold fatfs_open_file. apply wp_bind, wp_bind. apply wp_fildir_alloc; [done| |].
  2: { intros _. apply wp_ret. simpl. apply wp_ret. by split. }
  intros i [b c] Hs Hb Hi. simpl in *. subst b. assert (c = MemZero) as -> by (by apply (tb_free _ _ _ Hc i _ Hs)).
  apply wp_ret. rewrite decide_False by lia. pose proof (lookup_lt_Some _ _ _ Hs) as Hlt.
  apply wp_bind. eapply wp_ff_fil; [by apply list_lookup_insert_eq|by right|].
  intros r x v1 Hopen. rewrite list_insert_insert_eq. simpl allocated.
  pose proof (tables_put None l t i _ (MemFil x) Hc (or_introl eq_refl) Hs (λ _, eq_refl)) as Hc1.
  assert (Hend : ∀ res fno' v2 e2, (res = FR_OK → AM_DIR fno' = false) →
    wp (if decide (res = FR_OK) then _ ← fill_fd_fil (Z.of_nat n) (ObjFil (Z.of_nat i)) flags fno'; mret res
        else _ ← fatfs_fil_free (ObjFil (Z.of_nat i)); mret res)
      (FatWorld (<[i := FatSlot true (MemFil x)]> l) v2 t e2) (attempted n flags (FatWorld l v t e))).
  { intros res fno' v2 e2 Hdir. case_decide as Hres.
    - specialize (Hdir Hres). apply wp_bind, wp_fill; [by apply (tb_tab _ _ _ Hc)|done|]. apply wp_ret.
      split; simpl; [|rewrite decide_True by done].
      + eapply (tables_open _ _ n _ _ i); [exact Hc1|exact Ht|by apply not_fat_fresh|by apply list_lookup_insert_eq| |done|done].
        split; [done|]. split; [apply opened_entry_open|]. simpl. split; [done|]. by rewrite Hdir.
      + exists i, fno', (ObjFil (Z.of_nat i)), (MemFil x). split_and!; [done|done|by left|done].
    - apply wp_bind. eapply wp_fil_free; [by rewrite length_insert|by apply list_lookup_insert_eq|done|done|].
      rewrite open_give by done. apply wp_ret. split; [done|]. by rewrite decide_False. }
  apply wp_bind. case_decide as Hcase.
  - destruct Hcase as [-> Hname]. apply wp_bind, wp_ff. intros [r2 fno2] v2 Hstat. apply wp_ret. apply Hend.
    intros ->. by eapply stat_opened.
  - apply wp_ret. apply Hend. intros ->. apply Hfno. intros Hname. by apply Hcase.
Qed.

Lemma attempt_dir path flags n fno (w : W) :
  consistent w → w_tab w !! n = Some (fd_fresh (Z.of_nat n)) → AM_DIR fno = true →
  wp (fatfs_open_dir path flags (Z.of_nat n) fno) w (attempted n flags w).
Proof.
  destruct w as [l v t e]. intros Hc Ht Hfno. simpl in *. pose proof (tb_slots _ _ _ Hc) as Hl.
  unfold fatfs_open_dir. apply wp_bind, wp_bind. apply wp_fildir_alloc; [done| |].
  2: { intros _. apply wp_ret. simpl. apply wp_ret. by split. }
  intros i [b c] Hs Hb Hi. simpl in *. subst b. assert (c = MemZero) as -> by (by apply (tb_free _ _ _ Hc i _ Hs)).
  apply wp_ret. rewrite decide_False by lia. pose proof (lookup_lt_Some _ _ _ Hs) as Hlt.
  apply wp_bind. eapply wp_ff_dir; [by apply list_lookup_insert_eq|by right|].
  intros r x v1 Hopen. rewrite list_insert_insert_eq. simpl allocated. case_decide as Hres.
  - apply wp_bind. eapply wp_dir_at; [by apply list_lookup_insert_eq|by left|].
    apply wp_bind. eapply wp_dir_put; [by apply list_lookup_insert_eq|]. rewrite list_insert_insert_eq. simpl.
    apply wp_bind. eapply wp_dir_at; [by apply list_lookup_insert_eq|by left|].
    apply wp_bind. eapply wp_dir_put; [by apply list_lookup_insert_eq|]. rewrite list_insert_insert_eq. simpl.
    set (d := Dirstream (Z.of_nat n) 0 _ x).
    pose proof (tables_put None l t i _ (MemDir d) Hc (or_introl eq_refl) Hs (λ _, eq_refl)) as Hc1.
    apply wp_bind, (wp_fill n flags fno (ObjDir (Z.of_nat i))); [by apply (tb_tab _ _ _ Hc)|done|]. apply wp_ret.
    split; simpl; [|rewrite decide_True by done].
    + eapply (tables_open _ _ n _ _ i); [exact Hc1|exact Ht|by apply not_fat_fresh|by apply list_lookup_insert_eq| |done|done].
      split; [done|]. split; [apply opened_entry_open|]. simpl. split; [done|]. rewrite Hfno. by split_and!.
    + exists i, fno, (ObjDir (Z.of_nat i)), (MemDir d). split_and!; [done|done|by right|done].
  - apply wp_bind. eapply wp_dir_free; [by rewrite length_insert|by apply list_lookup_insert_eq|done|done|].
    rewrite open_give by done. apply wp_ret. split; [done|]. by rewrite decide_False.
Qed.

Lemma attempt_open path flags n (junk : FILINFO) (w : W) :
  consistent w → w_tab w !! n = Some (fd_fresh (Z.of_nat n)) →
  wp (fatfs_open_file_or_dir junk path flags (Z.of_nat n)) w (attempted n flags w).
Proof.
  intros Hc Ht. unfold fatfs_open_file_or_dir. apply wp_bind, wp_vol; [done|].
  intros [res fno] v1 w1 Hstat _ [Hc1 Et] Es.
  assert (Hsame : ∀ r w2, attempted n flags w1 r w2 → attempted n flags w r w2).
  { intros r w2. unfold attempted. by rewrite Et, Es. }
  case_decide as H1; [apply wp_ret, Hsame|].
  { split; [done|]. by rewrite decide_False by tauto. }
  case_decide as H2.
  - destruct H2 as [-> Hdir]. eapply wp_mono; [apply Hsame|]. apply attempt_dir; [done|by rewrite Et|done].
  - eapply wp_mono; [apply Hsame|]. apply attempt_file; [done|by rewrite Et|]. intros Hname.
    destruct (decide (res = FR_OK)) as [->|Hne].
    + destruct (AM_DIR fno); [by destruct H2|done].
    + assert (res = FR_NO_FILE) as -> by (destruct (decide (res = FR_NO_FILE)); tauto).
      apply stat_no_file in Hstat. by rewrite Hstat in Hname.
Qed.

Lemma wp_alloc_fd l v t e (Q : Z → W → Prop) :
  length t = OPEN_MAX →
  (∀ n y, (3 ≤ n < OPEN_MAX)%nat → t !! n = Some y → isallocated y = false →
     (∀ k z, (3 ≤ k < n)%nat → t !! k = Some z → isallocated z = true) →
     Q (Z.of_nat n) (FatWorld l v (<[n := fd_fresh (Z.of_nat n)]> t) e)) →
  ((∀ k z, (3 ≤ k)%nat → t !! k = Some z → isallocated z = true) → Q (-1) (FatWorld l v t e)) →
  wp file_alloc (FatWorld l v t e) Q.
Proof.
  intros Hlen HQ Hfull. eapply wp_mono, wp_file_alloc; [|done].
  intros r w' [(-> & -> & Hall)|(Hr & Hno & Hlow & ->)].
  - apply Hfull. intros k z Hk Hz. pose proof (lookup_lt_Some _ _ _ Hz).
    destruct (Hall (Z.of_nat k)) as (f & Hf & Ha); [lia|]. unfold entry in Hf. rewrite Nat2Z.id in Hf.
    simpl in Hf. congruence.
  - destruct (lookup_lt_is_Some_2 t (Z.to_nat r)) as [y Hy]; [unfold OPEN_MAX in *; lia|].
    specialize (HQ (Z.to_nat r) y). rewrite Z2Nat.id in HQ by lia. apply HQ; [lia|done| |].
    + destruct (isallocated y) eqn:E; [|done]. destruct Hno. by exists y.
    + intros k z Hk Hz. destruct (Hlow (Z.of_nat k)) as (f & Hf & Ha); [lia|]. unfold entry in Hf.
      rewrite Nat2Z.id in Hf. simpl in Hf. congruence.
Qed.

(** A successful open is of the lowest free descriptor, which refers to an element
    that was free; a failed one changes nothing but [errno] and the contents of
    the descriptor entry it freed. *)
Definition open_result (flags : Z) (w : W) (r : Z) (w' : W) : Prop :=
  consistent w' ∧
  (r = -1 ∧ w_slots w' = w_slots w ∧ (∀ k z, (3 ≤ k)%nat → w_tab w !! k = Some z → isallocated z = true) ∧
     w_tab w' = w_tab w ∧ w_errno w' = ENFILE ∨
   ∃ n y, (3 ≤ n < OPEN_MAX)%nat ∧ w_tab w !! n = Some y ∧ isallocated y = false ∧
     (∀ k z, (3 ≤ k < n)%nat → w_tab w !! k = Some z → isallocated z = true) ∧
     (r = -1 ∧ w_slots w' = w_slots w ∧ w_tab w' = <[n := with_fd (Z.of_nat n) fd_zero]> (w_tab w) ∧
        w_errno w' ≠ E0 ∨
      r = Z.of_nat n ∧ ∃ i fno p m, w_slots w' = <[i := FatSlot true m]> (w_slots w) ∧
        w_slots w !! i = Some (FatSlot false MemZero) ∧
        (p = ObjFil (Z.of_nat i) ∧ AM_DIR fno = false ∨ p = ObjDir (Z.of_nat i) ∧ AM_DIR fno = true) ∧
        w_tab w' = <[n := opened_entry n flags fno p]> (w_tab w))).

Lemma fresult2errno_error r : r ≠ FR_OK → fresult2errno r ≠ E0.
Proof. by destruct r. Qed.

Lemma wp_open path flags (junk : FILINFO) (w : W) :
  consistent w → wp (fatfs_open junk path flags) w (open_result flags w).
Proof.
  destruct w as [l v t e]. intros Hc. pose proof (tb_tab _ _ _ Hc) as Hlen. simpl in Hlen. unfold fatfs_open.
  apply wp_bind, wp_alloc_fd; [done| |].
  2: { intros Hall. rewrite decide_True by lia. apply wp_fail. split; [done|left]. done. }
  intros n y Hn Hy Hay Hlow. rewrite decide_False by lia.
  assert (Hc1 : consistent (FatWorld l v (<[n := fd_fresh (Z.of_nat n)]> t) e)).
  { eapply tables_entry; [exact Hc|exact Hy| |by intros [_ ?]]. intros (_ & Ha & _). congruence. }
  assert (Ht1 : <[n := fd_fresh (Z.of_nat n)]> t !! n = Some (fd_fresh (Z.of_nat n)))
    by (apply list_lookup_insert_eq; lia).
  apply wp_bind. eapply wp_mono; [|by apply attempt_open].
  intros res [l' v' t' e'] [Hc' Hres]. simpl in *. case_decide as Hr.
  - apply wp_ret. destruct Hres as (i & fno & p & m & -> & Hi & Hp & ->). rewrite list_insert_insert_eq in *.
    split; [done|right]. exists n, y. split_and!; [lia|lia|done|done|done|]. right. split; [done|]. by exists i, fno, p, m.
  - destruct Hres as [-> ->]. apply wp_bind, wp_modify, wp_bind. unfold file_free. rewrite decide_True by lia.
    apply wp_bind. eapply wp_tab_at; [exact Ht1|]. simpl isallocated. cbv iota.
    eapply wp_tab_update; [exact Ht1|]. apply wp_ret. simpl. rewrite list_insert_insert_eq. split; simpl.
    + eapply tables_entry; [exact Hc|exact Hy| |by intros [? _]]. intros (_ & Ha & _). congruence.
    + right. exists n, y. split_and!; [lia|lia|done|done|done|]. left. split_and!; [done|done|done|].
      by apply fresult2errno_error.
Qed.

(** ** Directories

    A program uses the streams it got from [opendir] and has not closed. *)
Definition dirp_usable (w : W) (dirp : option object) : Prop :=
  ∃ i d, dirp = Some (ObjDir (Z.of_nat i)) ∧ is_dirstream i w d.

Lemma dir_owner i d (w : W) : consistent w → is_dirstream i w d →
  ∃ n x, fat_entry (w_tab w) n x ∧ ds_fd d = Z.of_nat n ∧ S_ISDIR (fd_stat x) = true ∧
    length (d_name (cur_entry d)) = (NAME_MAX + 1)%nat.
Proof.
  intros Hc Hd. destruct (tb_owner _ _ _ Hc i _ Hd eq_refl) as [?|(n & x & Hx & _ & _ & _ & Ht & Hfd & Hl)]; [done|].
  exists n, x. split_and!; [done|done|by apply bool_decide_eq_true|done].
Qed.

Lemma wp_is_dir i d (w : W) (Q : bool → W → Prop) :
  consistent w → is_dirstream i w d → Q true w → wp (is_dir (Some (ObjDir (Z.of_nat i)))) w Q.
Proof.
  intros Hc Hd HQ. destruct (dir_owner i d w Hc Hd) as (n & x & (Hx & _) & Hfd & Hdir & _).
  unfold is_dir. apply wp_bind. eapply wp_lift; [done|]. apply wp_bind. eapply wp_dir_get; [done|].
  pose proof (lookup_lt_Some _ _ _ Hx) as Hn. pose proof (tb_tab _ _ _ Hc) as Hlen.
  unfold file_struct_get. rewrite Hfd, decide_False by lia. apply wp_bind. destruct w as [l v t e].
  eapply wp_tab_at; [done|]. rewrite Hdir. by apply wp_ret.
Qed.

(** The stream after an operation on it. *)
Definition dir_step (i : nat) (w : W) (d : dirstream V) (w' : W) (d' : dirstream V) : Prop :=
  same_tab w w' ∧ is_dirstream i w' d' ∧ dir_like d d'.

Lemma dir_like_trans d1 d2 d3 : dir_like d1 d2 → dir_like d2 d3 → dir_like d1 d3.
Proof. unfold dir_like. intros [-> ->] [-> ->]. done. Qed.

Lemma dir_step_trans i w1 w2 w3 d1 d2 d3 : dir_step i w1 d1 w2 d2 → dir_step i w2 d2 w3 d3 → dir_step i w1 d1 w3 d3.
Proof.
  intros (H1 & _ & L1) (H2 & D & L2). split_and!; [by eapply same_tab_trans|done|by eapply dir_like_trans].
Qed.

Lemma strncpy_room dst src n : (n ≤ length dst)%nat → ∃ r, strncpy dst src n = Done r ∧ length r = length dst ∧
  r = take n (src ++ replicate n 0) ++ drop n dst.
Proof.
  intros Hn. unfold strncpy, mem_write.
  assert (Hl : length (take n (src ++ replicate n 0)) = n).
  { rewrite length_take, length_app, length_replicate. lia. }
  rewrite Hl, decide_True by lia. eexists. split; [done|]. rewrite !length_app, Hl, length_drop, length_take.
  simpl Z.to_nat. split; [lia|done].
Qed.

Lemma wp_readdir_r i d entry old (w : W) (Q : Z * dirent * bool → W → Prop) :
  consistent w → is_dirstream i w d → (NAME_MAX < length (d_name entry))%nat →
  (∀ r entry' b w' d', dir_step i w d w' d' → cur_entry d' = cur_entry d →
     length (d_name entry') = length (d_name entry) → Q (r, entry', b) w') →
  wp (fatfs_readdir_r (Some (ObjDir (Z.of_nat i))) entry old) w Q.
Proof.
  intros Hc Hd Hroom HQ. unfold fatfs_readdir_r. apply wp_bind. eapply wp_is_dir; [done|done|]. simpl negb. cbv iota.
  apply wp_bind. eapply wp_lift; [done|]. apply wp_bind. eapply wp_dir_call; [done|done|].
  intros [res fno] d1 w1 H1 L1 _ E1 D1. pose proof (conj H1 (conj D1 L1) : dir_step i w d w1 d1) as Hstep.
  case_decide as Hres.
  { apply wp_bind, wp_err; [|by destruct H1]. intros w2 H2 Hd2. apply wp_ret. apply (HQ _ _ _ _ d1); [|done|done].
    eapply dir_step_trans; [exact Hstep|]. split_and!; [done|by apply Hd2|done]. }
  case_decide as Hname; [apply wp_ret; by apply (HQ _ _ _ _ d1)|].
  apply wp_bind. eapply wp_dir_get; [done|]. apply wp_bind. eapply wp_dir_set; [by destruct H1|done|done|].
  intros w2 H2 D2. apply wp_bind. eapply wp_dir_get; [done|]. apply wp_bind.
  destruct (strncpy_room (d_name entry) (fname fno) (NAME_MAX + 1)) as (name & E & Hl & _); [lia|].
  eapply wp_lift; [done|]. apply wp_ret.
  apply (HQ _ _ _ _ (Dirstream (ds_fd d1) (i32 (ds_loc d1 + 1)) (cur_entry d1) (ffdir d1))); [|done|done].
  eapply dir_step_trans; [exact Hstep|]. split_and!; [done|done|done].
Qed.

Lemma wp_telldir i d (w : W) (Q : Z → W → Prop) :
  consistent w → is_dirstream i w d → Q (ds_loc d) w → wp (fatfs_telldir (Some (ObjDir (Z.of_nat i)))) w Q.
Proof.
  intros Hc Hd HQ. unfold fatfs_telldir. apply wp_bind. eapply wp_is_dir; [done..|].
  apply wp_bind. eapply wp_lift; [done|]. apply wp_bind. eapply wp_dir_get; [done|]. by apply wp_ret.
Qed.

Lemma wp_rewinddir i d (w : W) (Q : unit → W → Prop) :
  consistent w → is_dirstream i w d → (∀ w' d', dir_step i w d w' d' → Q tt w') →
  wp (fatfs_rewinddir (Some (ObjDir (Z.of_nat i)))) w Q.
Proof.
  intros Hc Hd HQ. unfold fatfs_rewinddir. apply wp_bind. eapply wp_is_dir; [done..|]. simpl negb. cbv iota.
  apply wp_bind. eapply wp_lift; [done|]. apply wp_bind. eapply wp_dir_call; [done..|].
  intros res d1 w1 H1 L1 _ _ D1. pose proof (conj H1 (conj D1 L1) : dir_step i w d w1 d1) as Hstep.
  case_decide; [|apply wp_ret; by eapply HQ]. apply wp_bind. eapply wp_dir_get; [done|].
  eapply wp_dir_set; [by destruct H1|done|done|]. intros w2 H2 D2.
  eapply HQ, dir_step_trans; [exact Hstep|]. by split_and!.
Qed.

Lemma ok_readdir dirp old (w : W) : consistent w → dirp_usable w dirp →
  wp (fatfs_readdir dirp old) w (λ _ w', consistent w').
Proof.
  intros Hc (i & d & -> & Hd). destruct (dir_owner i d w Hc Hd) as (n & x & _ & _ & _ & Hroom).
  unfold fatfs_readdir. apply wp_bind. eapply wp_is_dir; [done..|].
  apply wp_bind. eapply wp_lift; [done|]. apply wp_bind. eapply wp_dir_get; [done|].
  apply wp_bind. eapply wp_readdir_r; [done|done|lia|].
  intros r entry b w1 d1 (H1 & D1 & [Lf Ll]) E1 Hlen. apply wp_bind. eapply wp_dir_get; [done|].
  apply wp_bind. eapply wp_dir_set; [by destruct H1|done| |].
  - split; [done|]. simpl. rewrite Hlen. congruence.
  - intros w2 [Hc2 _] _. by apply wp_ret.
Qed.

Lemma ok_seekdir fuel dirp loc old (w : W) : consistent w → dirp_usable w dirp →
  (∀ i d, dirp = Some (ObjDir (Z.of_nat i)) → is_dirstream i w d → loc ≤ ds_loc d) → (0 < fuel)%nat →
  wp (fatfs_seekdir fuel dirp loc old) w (λ _ w', consistent w').
Proof.
  intros Hc (i & d & -> & Hd) Hloc Hfuel. specialize (Hloc i d eq_refl Hd). unfold fatfs_seekdir.
  apply wp_bind. eapply wp_is_dir; [done..|]. apply wp_bind. eapply wp_telldir; [done..|].
  assert (Hend : ∀ w', consistent w' → wp (loop fuel (λ cur_loc : Z,
      if decide (loc > cur_loc) then
        '(ret, _, result) ← fatfs_readdir_r (Some (ObjDir (Z.of_nat i))) dirent_on_stack old;
        if negb result || bool_decide (ret ≠ 0) then mret (inr tt)
        else cur_loc ← fatfs_telldir (Some (ObjDir (Z.of_nat i))); mret (inl cur_loc)
      else mret (inr tt)) (ds_loc d)) w' (λ _ w', consistent w')).
  { intros w' Hc'. destruct fuel as [|fuel]; [lia|]. apply wp_loop_turn. rewrite decide_False by lia. by apply wp_ret. }
  apply wp_bind. case_decide; [|by apply wp_ret, Hend].
  eapply wp_rewinddir; [done..|]. intros w' d' ([Hc' _] & _ & _). by apply Hend.
Qed.

Lemma ok_closedir dirp (w : W) : consistent w → dirp_usable w dirp →
  wp (fatfs_closedir dirp) w (λ _ w', consistent w').
Proof.
  intros Hc (i & d & -> & Hd). destruct (dir_owner i d w Hc Hd) as (n & x & Hx & Hfd & _).
  unfold fatfs_closedir. apply wp_bind. eapply wp_lift; [done|]. apply wp_bind. eapply wp_dir_get; [done|].
  apply ok_close; [done|]. right. exists n, x. split_and!; [done|by destruct Hx|by right].
Qed.
End operations.
