(* ===== verification/FatfsCalls.v ===== *)
(** * Programs with files: any sequence of calls, and what they mean

    The system calls of [src/syscalls.c] on files and directories, down to
    [src/fatfs.c]. A program makes them in any order ([fat_step]); no state it
    reaches is inconsistent. A simulated FatFs is a volume in memory. *)

From stdpp Require Import prelude list numbers gmap relations.
From S2P Require Import Prelude Files Fatfs FatfsTable FatfsSafe.

Inductive fat_call :=
| COpen (p : path) (flags : Z)
| CFileRead (fd len : Z)
| CFileWrite (fd : Z) (ptr : list Z)
| CFileClose (fd : Z)
| CLseek (fd off whence : Z)
| CFstat (fd : Z) (buf : stat)
| CIsatty (fd : Z)
| CFsync (fd : Z)
| CUnlink (p : path)
| CLink (old new : path)
| CRename (old new : path)
| CStat (p : path) (buf : stat)
| CMkdir (p : path) (mode : Z)
| CRmdir (p : path)
| CChdir (p : path)
| CGetcwd (buf : list Z) (size : Z)
| COpendir (p : path)
| CFdopendir (fd : Z)
| CDirfd (dirp : option object)
| CReaddir (dirp : option object)
| CReaddirR (dirp : option object) (entry : dirent)
| CRewinddir (dirp : option object)
| CTelldir (dirp : option object)
| CSeekdir (dirp : option object) (loc : Z)
| CClosedir (dirp : option object).

Section calls.
Context {V : Type} `{!FatFs V, !FatFsLaws V}.
Context (junk : FILINFO) (old : bool).
Abbreviation W := (fat_world V).
#[local] Existing Instance fatfs_drivers.

(** A call, its results left aside. *)
Definition run_fat_call (c : fat_call) : M W unit :=
  match c with
  | COpen p flags => _ ← _open junk p flags; mret tt
  | CFileRead fd len => _ ← _read fd len; mret tt
  | CFileWrite fd ptr => _ ← _write fd ptr; mret tt
  | CFileClose fd => _ ← _close fd; mret tt
  | CLseek fd off whence => _ ← _lseek fatfs_lseek fd off whence; mret tt
  | CFstat fd buf => _ ← _fstat fd buf; mret tt
  | CIsatty fd => _ ← _isatty fd; mret tt
  | CFsync fd => _ ← fsync fd; mret tt
  | CUnlink p => _ ← _unlink p; mret tt
  | CLink p q => _ ← _link p q; mret tt
  | CRename p q => _ ← rename p q; mret tt
  | CStat p buf => _ ← _stat junk p buf; mret tt
  | CMkdir p mode => _ ← mkdir p mode; mret tt
  | CRmdir p => _ ← rmdir junk p; mret tt
  | CChdir p => _ ← chdir p; mret tt
  | CGetcwd buf size => _ ← getcwd buf size; mret tt
  | COpendir p => _ ← opendir junk p; mret tt
  | CFdopendir fd => _ ← fdopendir fd; mret tt
  | CDirfd dirp => _ ← dirfd dirp; mret tt
  | CReaddir dirp => _ ← readdir dirp old; mret tt
  | CReaddirR dirp entry => _ ← readdir_r dirp entry old; mret tt
  | CRewinddir dirp => rewinddir dirp
  | CTelldir dirp => _ ← telldir dirp; mret tt
  | CSeekdir dirp loc => seekdir 1 dirp loc old
  | CClosedir dirp => _ ← closedir dirp; mret tt
  end.

(** The number of an open file, of an entry that is not open, or of no entry. *)
Definition sys_usable (w : W) (fd : Z) : Prop :=
  Z.of_nat OPEN_MAX ≤ fd ∨
  ∃ n x, fd = Z.of_nat n ∧ w_tab w !! n = Some x ∧ (isopen x = false ∨ fat_entry (w_tab w) n x).

(** The calls a program may make: on descriptors and streams it has open, with
    room for a name, and no position ahead of the stream for [seekdir]. *)
Definition fat_call_ok (c : fat_call) (w : W) : Prop :=
  match c with
  | CFileRead fd _ | CFileWrite fd _ | CFileClose fd | CLseek fd _ _ | CFstat fd _ | CIsatty fd => sys_usable w fd
  | CFsync fd => fd_usable w fd
  | CFdopendir fd => 0 ≤ fd
  | CDirfd dirp | CReaddir dirp | CRewinddir dirp | CTelldir dirp | CClosedir dirp => dirp_usable w dirp
  | CReaddirR dirp entry => dirp_usable w dirp ∧ (NAME_MAX < length (d_name entry))%nat
  | CSeekdir dirp loc => dirp_usable w dirp ∧
      ∀ i d, dirp = Some (ObjDir (Z.of_nat i)) → is_dirstream i w d → loc ≤ ds_loc d
  | _ => True
  end.

Lemma wp_forget {A} (m : M W A) (w : W) : wp m w (λ _ w', consistent w') →
  wp (_ ← m; mret tt) w (λ _ w', consistent w').
Proof. intros Hm. apply wp_bind. eapply wp_mono, Hm. intros. by apply wp_ret. Qed.

(** The common beginning of the calls on a descriptor. *)
Lemma wp_sys {A} fd (w : W) (none closed : M W A) (some : Z → fd_t → M W A) (Q : A → W → Prop) :
  consistent w → sys_usable w fd → wp none w Q → wp closed w Q →
  (∀ n x, fd = Z.of_nat n → fat_entry (w_tab w) n x → entry_open x → st_type (fd_stat x) ≠ S_IFSOCK → wp (some fd x) w Q) →
  wp (match file_struct_get fd with
      | None => none
      | Some p => f ← fd_at p; if negb (isopen f) then closed else some p f
      end) w Q.
Proof.
  intros Hc Hfd Hnone Hclosed Hsome. unfold file_struct_get.
  destruct Hfd as [Hfd|(n & x & -> & Hx & Hop)]; [by rewrite decide_True by lia|].
  pose proof (lookup_lt_Some _ _ _ Hx) as Hn. pose proof (tb_tab _ _ _ Hc) as Hlen.
  rewrite decide_False by lia. destruct w as [l v t e]. simpl in *. apply wp_bind. eapply wp_tab_at; [done|].
  destruct Hop as [->|Hent]; [done|].
  destruct (tb_entry _ _ _ Hc n x Hent) as (i & s & _ & _ & _ & Hopen & Hk).
  destruct (isopen x) eqn:Eo; [|done]. simpl. eapply Hsome; [done|done|done|].
  destruct (content s); [done| |]; destruct Hk as (_ & Hk); [by rewrite Hk|destruct Hk as [Hk _]; by rewrite Hk].
Qed.

Lemma sys_fd (w : W) n x : fat_entry (w_tab w) n x → fd_usable w (Z.of_nat n).
Proof. intros Hx. right. exists n, x. split_and!; [done|by destruct Hx|by right]. Qed.

Lemma ok_sys_write fd ptr (w : W) : consistent w → sys_usable w fd → wp (_write fd ptr) w (λ _ w', consistent w').
Proof.
  intros Hc Hfd. unfold _write. apply wp_sys; [done|done|by apply ok_fail|by apply ok_fail|].
  intros n x -> Hx (_ & [-> | ->] & _) _; [by apply ok_fail|]. simpl. apply ok_write; [done|by eapply sys_fd].
Qed.

Lemma ok_seterr er {A} (a : A) (w : W) : consistent w → wp (_ ← set_errno er; mret a) w (λ _ w', consistent w').
Proof. intros Hc. apply wp_bind, wp_seterr; [|done]. intros w' [Hc' _]. by apply wp_ret. Qed.

Lemma ok_sys_read fd len (w : W) : consistent w → sys_usable w fd → wp (_read fd len) w (λ _ w', consistent w').
Proof.
  intros Hc Hfd. unfold _read. apply wp_sys; [done|done|by apply ok_seterr|by apply ok_seterr|].
  intros n x -> Hx (_ & _ & [-> | ->]) _; [by apply ok_seterr|]. simpl. apply ok_read; [done|by eapply sys_fd].
Qed.

Lemma ok_sys_close fd (w : W) : consistent w → sys_usable w fd → wp (_close fd) w (λ _ w', consistent w').
Proof.
  intros Hc Hfd. unfold _close. apply wp_sys; [done|done|by apply ok_seterr|by apply ok_seterr|].
  intros n x -> Hx _ _. destruct (Hx) as (_ & _ & ->). simpl. apply ok_close; [done|by eapply sys_fd].
Qed.

Lemma ok_sys_lseek fd off whence (w : W) : consistent w → sys_usable w fd →
  wp (_lseek fatfs_lseek fd off whence) w (λ _ w', consistent w').
Proof.
  intros Hc Hfd. unfold _lseek. apply wp_sys; [done|done|by apply ok_seterr|by apply ok_seterr|].
  intros n x -> Hx _ Ht. unfold S_ISSOCK. rewrite bool_decide_false by done.
  case_match; [apply ok_lseek; [done|by eapply sys_fd]|by apply ok_seterr].
Qed.

Lemma ok_sys_fstat fd buf (w : W) : consistent w → sys_usable w fd → wp (_fstat fd buf) w (λ _ w', consistent w').
Proof.
  intros Hc Hfd. unfold _fstat. apply wp_sys; [done|done|by apply ok_seterr|by apply ok_seterr|].
  intros n x _ _ _ _. by apply wp_ret.
Qed.

Lemma ok_sys_isatty fd (w : W) : consistent w → sys_usable w fd → wp (_isatty fd) w (λ _ w', consistent w').
Proof.
  intros Hc Hfd. unfold _isatty. apply wp_sys; [done|done|by apply ok_seterr|by apply ok_seterr|].
  intros n x _ _ _ _. destruct (isatty x); [by apply wp_ret|by apply ok_seterr].
Qed.

(** Calls on names. *)
Lemma ok_vol_status (f : V → FRESULT * V) (w : W) : consistent w →
  wp (result ← ff f; status result) w (λ _ w', consistent w').
Proof. intros Hc. apply wp_bind, wp_vol; [done|]. intros r v' w' _ _ [Hc' _] _. by apply ok_status. Qed.

Lemma ok_rmdir p (w : W) : consistent w → wp (rmdir junk p) w (λ _ w', consistent w').
Proof.
  intros Hc. apply wp_bind, wp_vol; [done|]. intros r v' w' _ _ [Hc' _] _.
  case_decide; [by apply wp_ret|]. case_decide; [|by apply ok_fail].
  apply wp_bind, wp_vol; [done|]. intros [r2 fno] v2 w2 _ _ [Hc2 _] _.
  case_decide; [|by apply ok_fail]. destruct (AM_RDO fno); by apply ok_fail.
Qed.

Lemma ok_stat p buf (w : W) : consistent w → wp (_stat junk p buf) w (λ _ w', consistent w').
Proof.
  intros Hc. apply wp_bind, wp_vol; [done|]. intros [r fno] v' w' _ _ [Hc' _] _.
  case_decide; [by apply wp_ret|by apply ok_fail_with].
Qed.

Lemma ok_getcwd buf size (w : W) : consistent w → wp (getcwd buf size) w (λ _ w', consistent w').
Proof.
  intros Hc. apply wp_bind, wp_vol; [done|]. intros [r buf'] v' w' _ _ [Hc' _] _.
  case_decide; [by apply wp_ret|by apply ok_seterr].
Qed.

Lemma ok_fdopendir fd (w : W) : consistent w → 0 ≤ fd → wp (fdopendir fd) w (λ _ w', consistent w').
Proof.
  intros Hc Hfd. unfold fdopendir, fatfs_fdopendir, file_struct_get. case_decide; [by apply ok_seterr|].
  destruct w as [l v t e]. pose proof (tb_tab _ _ _ Hc) as Hlen. simpl in Hlen.
  destruct (lookup_lt_is_Some_2 t (Z.to_nat fd)) as [x Hx]; [lia|].
  replace fd with (Z.of_nat (Z.to_nat fd)) by lia. apply wp_bind. eapply wp_tab_at; [done|].
  destruct (S_ISDIR (fd_stat x)); [by apply wp_ret|by apply ok_seterr].
Qed.

Lemma ok_opendir p (w : W) : consistent w → wp (opendir junk p) w (λ _ w', consistent w').
Proof.
  intros Hc. unfold opendir, fatfs_opendir. apply wp_bind. eapply wp_mono; [|by apply wp_open].
  intros r w' [Hc' Hr]. case_decide as E; [by apply wp_ret|].
  assert (∃ n, r = Z.of_nat n ∧ (n < OPEN_MAX)%nat) as (n & -> & Hn).
  { destruct Hr as [[? _]|(n & y & Hn & _ & _ & _ & [[? _]|[-> _]])]; [done|done|]. exists n. lia. }
  unfold file_struct_get. rewrite decide_False by lia. destruct w' as [l v t e].
  pose proof (tb_tab _ _ _ Hc') as Hlen. simpl in Hlen.
  destruct (lookup_lt_is_Some_2 t n) as [x Hx]; [lia|].
  apply wp_bind. eapply wp_tab_at; [done|]. by apply wp_ret.
Qed.

Lemma ok_on_dir {A} (m : option object → M W A) dirp (w : W) : dirp_usable w dirp →
  (∀ i d, is_dirstream i w d → wp (m (Some (ObjDir (Z.of_nat i)))) w (λ _ w', consistent w')) →
  wp (m dirp) w (λ _ w', consistent w').
Proof. intros (i & d & -> & Hd) Hm. by eapply Hm. Qed.

(** Every call keeps the tables consistent, and returns. *)
Lemma ok_run c (w : W) : consistent w → fat_call_ok c w → wp (run_fat_call c) w (λ _ w', consistent w').
Proof.
  intros Hc Hok. destruct c; simpl in *; try apply wp_forget; destruct_and?.
  - eapply wp_mono; [|by apply wp_open]. by intros r w' [Hc' _].
  - by apply ok_sys_read.
  - by apply ok_sys_write.
  - by apply ok_sys_close.
  - by apply ok_sys_lseek.
  - by apply ok_sys_fstat.
  - by apply ok_sys_isatty.
  - by apply ok_fsync.
  - by apply ok_vol_status.
  - by apply ok_fail.
  - by apply ok_vol_status.
  - by apply ok_stat.
  - by apply ok_vol_status.
  - by apply ok_rmdir.
  - by apply ok_vol_status.
  - by apply ok_getcwd.
  - by apply ok_opendir.
  - by apply ok_fdopendir.
  - apply ok_on_dir; [done|]. intros i d Hd. apply wp_bind. eapply wp_is_dir; [done..|].
    apply wp_bind. eapply wp_lift; [done|]. apply wp_bind. eapply wp_dir_get; [done|]. by apply wp_ret.
  - by apply ok_readdir.
  - apply (ok_on_dir (λ dirp, readdir_r dirp entry old)); [done|]. intros i d Hd.
    eapply wp_readdir_r; [done..|]. by intros r entry' b w' d' ([Hc' _] & _).
  - apply ok_on_dir; [done|]. intros i d Hd. eapply wp_rewinddir; [done..|]. by intros w' d' ([Hc' _] & _).
  - apply ok_on_dir; [done|]. intros i d Hd. by eapply wp_telldir.
  - apply ok_seekdir; [done|done|done|lia].
  - by apply ok_closedir.
Qed.

(** One call of the program, in a state in which it may make it. *)
Inductive fat_step (w w' : W) : Prop :=
| fat_made c : fat_call_ok c w → run_fat_call c w = Done (tt, w') → fat_step w w'.

(** ** The properties *)

(** C14: over a FatFs that keeps [FatFsLaws] (a status query that finds no file
    leaves the name in the structure alone, and what opens as a file is no
    directory) and whatever it answers otherwise: in any state a program reaches by
    calls [fat_call_ok] admits, every open descriptor has an object of its own, of
    its kind, every object in use belongs to an open descriptor, and every further
    call [fat_call_ok] admits returns without an invalid access. Admitted are the
    calls on descriptors and streams the program has open or on numbers that are
    not open, with room for a name in [readdir_r], and [seekdir] to positions not
    ahead of the stream: forward it writes past a structure on the stack
    ([seekdir_wrong] in [FatfsSim]). *)
Theorem fat_calls_safe (w w' : W) :
  consistent w → rtc fat_step w w' →
  consistent w' ∧ ∀ c, fat_call_ok c w' → ∃ w'', run_fat_call c w' = Done (tt, w'').
Proof.
  intros Hc Hsteps. assert (Hc' : consistent w').
  { induction Hsteps as [|w1 w2 w3 [c Hok Hrun] _ IH]; [done|]. apply IH.
    pose proof (ok_run c w1 Hc Hok) as Hwp. unfold wp in Hwp. by rewrite Hrun in Hwp. }
  split; [done|]. intros c Hok. pose proof (ok_run c w' Hc' Hok) as Hwp. unfold wp in Hwp.
  destruct (run_fat_call c w') as [[[] w'']| |]; [by exists w''|done|done].
Qed.

(** C27: [open] takes the lowest free descriptor from 3 on and a free object, which
    it fills in for a file or a directory; when it fails, with no descriptor free
    or by an error of FatFs, the objects are as before, the descriptor is free
    again, and [errno] says why. *)
Theorem fatfs_open_allocates p flags (w : W) :
  consistent w → wp (_open junk p flags) w (open_result flags w).
Proof. apply wp_open. Qed.
End calls.
