(* ===== verification/FatfsFile.v ===== *)
(** * What reading, writing, seeking and listing do

    POSIX describes an open file by its contents, an offset and the append flag.
    The calls of [src/fatfs.c] are shown to act on it as POSIX says, and a
    directory to be listed entry by entry, when FatFs keeps what its own
    documentation promises of one open file and one open directory. *)

From stdpp Require Import prelude list numbers.
From S2P Require Import Prelude Files Fatfs FatfsTable FatfsSafe.

(** [fil_data f v] is the contents of the open file [f] on the volume [v]. *)
Class FatFsContents (V : Type) `{!FatFs V} := {
  fil_data : FIL V → V → option (list Z);
  data_size f v d : fil_data f v = Some d → f_size f = Z.of_nat (length d);
  data_tell f v d : fil_data f v = Some d → 0 ≤ f_tell f ≤ f_size f;
  data_read n f v d bs f' v' : fil_data f v = Some d → 0 ≤ n → f_read n f v = (FR_OK, bs, f', v') →
    bs = take (Z.to_nat n) (drop (Z.to_nat (f_tell f)) d) ∧ fil_data f' v' = Some d ∧
    f_tell f' = f_tell f + Z.of_nat (length bs);
  data_write bs f v d n f' v' : fil_data f v = Some d → f_write bs f v = (FR_OK, n, f', v') →
    0 ≤ n ≤ Z.of_nat (length bs) ∧
    fil_data f' v' = Some (take (Z.to_nat (f_tell f)) d ++ take (Z.to_nat n) bs ++ drop (Z.to_nat (f_tell f + n)) d) ∧
    f_tell f' = f_tell f + n;
  data_lseek p f v d f' v' : fil_data f v = Some d → 0 ≤ p ≤ f_size f → f_lseek p f v = (FR_OK, f', v') →
    fil_data f' v' = Some d ∧ f_tell f' = p;
}.

(** [dir_rest x v] are the entries a directory has still to give. *)
Class FatFsEntries (V : Type) `{!FatFs V} := {
  dir_rest : FFDIR V → V → option (list FILINFO);
  rest_end x v fno x' v' : dir_rest x v = Some [] → f_readdir x v = (FR_OK, fno, x', v') → fname fno = [];
  rest_next e rest x v fno x' v' : dir_rest x v = Some (e :: rest) → f_readdir x v = (FR_OK, fno, x', v') →
    fno = e ∧ fname e ≠ [] ∧ (length (fname e) ≤ NAME_MAX)%nat ∧ dir_rest x' v' = Some rest;
}.

(** ** The open file of POSIX *)

Record open_file := OpenFile { of_data : list Z; of_offset : Z; of_append : bool }.

(** [posix_read] gives the bytes, [posix_write] is told how many of them fit. *)
Definition posix_read (len : Z) (o : open_file) : list Z * open_file :=
  let bs := take (Z.to_nat len) (drop (Z.to_nat (of_offset o)) (of_data o)) in
  (bs, OpenFile (of_data o) (of_offset o + Z.of_nat (length bs)) (of_append o)).

Definition posix_write (bs : list Z) (n : Z) (o : open_file) : open_file :=
  let off := if of_append o then Z.of_nat (length (of_data o)) else of_offset o in
  OpenFile (take (Z.to_nat off) (of_data o) ++ take (Z.to_nat n) bs ++ drop (Z.to_nat (off + n)) (of_data o))
    (off + n) (of_append o).

(** The position [whence] starts from, and where the offset goes: nowhere for
    another [whence] and before the beginning, where POSIX asks for [EINVAL]. *)
Definition seek_base (whence : Z) (o : open_file) : option Z :=
  if decide (whence = SEEK_SET) then Some 0
  else if decide (whence = SEEK_CUR) then Some (of_offset o)
  else if decide (whence = SEEK_END) then Some (Z.of_nat (length (of_data o)))
  else None.

Definition posix_seek (off whence : Z) (o : open_file) : option Z :=
  base ← seek_base whence o; if decide (0 ≤ base + off) then Some (base + off) else None.

Section files.
Context {V : Type} `{!FatFs V, !FatFsContents V}.
Abbreviation W := (fat_world V).

(** The descriptor [fd] is the open file [o]. *)
Definition describes (w : W) (fd : Z) (o : open_file) : Prop :=
  ∃ n x i f, fd = Z.of_nat n ∧ fat_entry (w_tab w) n x ∧ opaque x = Some (ObjFil (Z.of_nat i)) ∧
    S_ISREG (fd_stat x) = true ∧ w_slots w !! i = Some (FatSlot true (MemFil f)) ∧
    fil_data f (w_vol w) = Some (of_data o) ∧ f_tell f = of_offset o ∧
    of_append o = bool_decide (Z.land (status_flags x) O_APPEND ≠ 0).

(** A failed call: the result and the cause. *)
Definition failed (r : Z) (w' : W) : Prop := r = -1 ∧ w_errno w' ≠ E0.

(** The common part of the three calls: the entry, the object, the file. *)
Lemma wp_file_call {A} fd o (w : W) (none empty : M W A) (some : fd_t → object → M W A) (Q : A → W → Prop) :
  length (w_tab w) = OPEN_MAX → describes w fd o →
  (∀ n x i f l v t e, w = FatWorld l v t e → fd = Z.of_nat n → fat_entry t n x → opaque x = Some (ObjFil (Z.of_nat i)) →
     S_ISREG (fd_stat x) = true → l !! i = Some (FatSlot true (MemFil f)) → fil_data f v = Some (of_data o) →
     f_tell f = of_offset o → of_append o = bool_decide (Z.land (status_flags x) O_APPEND ≠ 0) →
     wp (some x (ObjFil (Z.of_nat i))) (FatWorld l v t e) Q) →
  wp (match file_struct_get fd with
      | None => none
      | Some pfd => e ← fd_at pfd; match opaque e with None => empty | Some p => some e p end
      end) w Q.
Proof.
  intros Hlen (n & x & i & f & -> & Hx & Ho & Ht & Hs & Hd & Htell & Happ) Hsome.
  destruct w as [l v t e]. simpl in *. destruct Hx as (Hx & Ha). pose proof (lookup_lt_Some _ _ _ Hx) as Hn.
  unfold file_struct_get. rewrite decide_False by lia. apply wp_bind. eapply wp_tab_at; [done|].
  rewrite Ho. by eapply (Hsome n x i f l v t e).
Qed.

Lemma wp_failed r (w : W) (Q : Z → W → Prop) : r ≠ FR_OK →
  (∀ w', failed (-1) w' → Q (-1) w') → wp (fail (fresult2errno r)) w Q.
Proof.
  destruct w as [l v t e]. intros Hr HQ. apply wp_fail, HQ. split; [done|]. simpl. by apply fresult2errno_error.
Qed.

Lemma describes_intro n x i f o l v t e : fat_entry t n x → opaque x = Some (ObjFil (Z.of_nat i)) →
  S_ISREG (fd_stat x) = true → (i < length l)%nat → fil_data f v = Some (of_data o) → f_tell f = of_offset o →
  of_append o = bool_decide (Z.land (status_flags x) O_APPEND ≠ 0) →
  describes (FatWorld (<[i := FatSlot true (MemFil f)]> l) v t e) (Z.of_nat n) o.
Proof.
  intros Hx Ho Ht Hi Hd Htell Happ. exists n, x, i, f. split_and!; try done. by apply list_lookup_insert_eq.
Qed.

Lemma refines_read fd len o (w : W) :
  length (w_tab w) = OPEN_MAX → describes w fd o → 0 ≤ len ≤ INT_MAX →
  wp (fatfs_read fd len) w (λ res w', failed res.1 w' ∨
    let (bs, o') := posix_read len o in res = (Z.of_nat (length bs), bs) ∧ describes w' fd o').
Proof.
  intros Hlen Hdesc Hn. unfold fatfs_read. eapply wp_file_call; [done|exact Hdesc|].
  intros n x i f l v t e -> -> Hx Ho Ht Hs Hd Htell Happ. rewrite Ht.
  rewrite u32_id by (unfold is_u32, INT_MAX in *; lia).
  apply wp_bind. eapply wp_ff_fil; [exact Hs|by left|]. intros [res bs] f' v' E.
  destruct (decide (res = FR_OK)) as [Hres|Hres].
  - subst res. destruct (data_read len f v (of_data o) bs f' v' Hd ltac:(lia) E) as (-> & Hd' & Htell').
    apply wp_ret. right. unfold posix_read. rewrite Htell in *. split.
    + f_equal. apply i32_id. unfold is_i32. rewrite length_take. unfold INT_MAX in Hn. lia.
    + eapply describes_intro; [done|done|done|by eapply lookup_lt_Some|exact Hd'|by rewrite Htell'|done].
  - apply wp_bind, wp_failed; [done|]. intros w' Hw'. apply wp_ret. by left.
Qed.

Lemma refines_write fd ptr o (w : W) :
  length (w_tab w) = OPEN_MAX → describes w fd o → Z.of_nat (length ptr) ≤ INT_MAX →
  wp (fatfs_write fd ptr) w (λ r w', failed r w' ∨
    0 ≤ r ≤ Z.of_nat (length ptr) ∧ describes w' fd (posix_write ptr r o)).
Proof.
  intros Hlen Hdesc Hn. unfold fatfs_write. eapply wp_file_call; [done|exact Hdesc|].
  intros n x i f l v t e -> -> Hx Ho Ht Hs Hd Htell Happ. rewrite Ht.
  pose proof (lookup_lt_Some _ _ _ Hs) as Hi.
  set (off := if of_append o then Z.of_nat (length (of_data o)) else of_offset o).
  apply wp_bind, (wp_mono _ _ (λ r w', if decide (r = FR_OK) then ∃ f1 v1,
    w' = FatWorld (<[i := FatSlot true (MemFil f1)]> l) v1 t e ∧ fil_data f1 v1 = Some (of_data o) ∧ f_tell f1 = off else True)).
  { intros r w' Hr. destruct (decide (r = FR_OK)) as [E|E].
    - destruct Hr as (f1 & v1 & -> & Hd1 & Htell1). apply wp_bind.
      eapply wp_ff_fil; [by apply list_lookup_insert_eq|by left|]. intros [res k] f2 v2 E2.
      rewrite list_insert_insert_eq. destruct (decide (res = FR_OK)) as [Hres|Hres]; [|by apply wp_failed; [|left]].
      subst res. destruct (data_write _ _ _ _ _ _ _ Hd1 E2) as (Hk & Hd2 & Htell2). apply wp_ret.
      rewrite i32_id by (unfold is_i32, INT_MAX in *; lia). right. split; [done|]. rewrite Htell1 in *.
      by eapply describes_intro.
    - apply wp_bind, wp_ret. rewrite decide_False by done. apply wp_failed; [done|]. by left. }
  destruct (of_append o); symmetry in Happ.
  - apply bool_decide_eq_true in Happ. rewrite decide_True by done.
    apply wp_bind, wp_bind. eapply wp_fil_at; [exact Hs|by left|]. apply wp_ret.
    eapply wp_ff_fil; [exact Hs|by left|]. intros r f1 v1 E1.
    destruct (decide (r = FR_OK)) as [Hr|Hr]; [|done]. subst r.
    destruct (data_lseek (f_size f) f v (of_data o) f1 v1 Hd ltac:(rewrite (data_size _ _ _ Hd); lia) E1) as [Hd1 Htell1].
    exists f1, v1. split_and!; [done|done|]. by rewrite Htell1, (data_size _ _ _ Hd).
  - apply bool_decide_eq_false in Happ. rewrite decide_False by done. apply wp_ret. simpl.
    exists f, v. rewrite list_insert_id by done. done.
Qed.

Lemma posix_seek_Some off whence o pos : posix_seek off whence o = Some pos →
  ∃ base, seek_base whence o = Some base ∧ pos = base + off ∧ 0 ≤ pos.
Proof.
  unfold posix_seek. destruct (seek_base whence o) as [base|]; [|done]. simpl.
  case_decide; [|done]. intros [= <-]. by eexists.
Qed.

(** Every other [whence] is taken for [SEEK_SET]. *)
Lemma lseek_unknown_whence fd off whence (w : W) : whence ≠ SEEK_CUR → whence ≠ SEEK_END →
  fatfs_lseek fd off whence w = fatfs_lseek fd off SEEK_SET w.
Proof.
  intros Hc He. unfold fatfs_lseek. destruct (decide (whence = SEEK_CUR)); [done|].
  by destruct (decide (whence = SEEK_END)).
Qed.

Lemma refines_lseek fd off whence pos o (w : W) :
  length (w_tab w) = OPEN_MAX → describes w fd o →
  posix_seek off whence o = Some pos → pos ≤ Z.of_nat (length (of_data o)) → pos ≤ INT_MAX →
  wp (fatfs_lseek fd off whence) w (λ r w', failed r w' ∨
    r = pos ∧ describes w' fd (OpenFile (of_data o) pos (of_append o))).
Proof.
  intros Hlen Hdesc (base & Hbase & Htarget & Hpos)%posix_seek_Some Hend Hmax. unfold fatfs_lseek. eapply wp_file_call; [done|exact Hdesc|].
  intros n x i f l v t e -> -> Hx Ho Ht Hs Hd Htell Happ. rewrite Ht.
  apply wp_bind, (wp_mono _ _ (λ r w', w' = FatWorld l v t e ∧ r = base)).
  - intros r w' [-> ->]. rewrite <- Htarget, u32_id by (unfold is_u32, INT_MAX in *; lia).
    apply wp_bind. eapply wp_ff_fil; [exact Hs|by left|]. intros res f1 v1 E1.
    destruct (decide (res = FR_OK)) as [Hres|Hres]; [|by apply wp_failed; [|left]]. subst res. apply wp_ret. right.
    rewrite i32_id by (unfold is_i32, INT_MAX in *; lia). split; [done|].
    destruct (data_lseek pos f v (of_data o) f1 v1 Hd ltac:(rewrite (data_size _ _ _ Hd); lia) E1) as [Hd1 Htell1].
    eapply describes_intro; [done|done|done|by eapply lookup_lt_Some|done|done|done].
  - unfold seek_base in Hbase. destruct (decide (whence = SEEK_SET)) as [->|].
    { injection Hbase as <-. by apply wp_ret. }
    destruct (decide (whence = SEEK_CUR)).
    { injection Hbase as <-. apply wp_bind. eapply wp_fil_at; [exact Hs|by left|]. by apply wp_ret. }
    destruct (decide (whence = SEEK_END)); [|done]. injection Hbase as <-.
    apply wp_bind. eapply wp_fil_at; [exact Hs|by left|]. apply wp_ret. split; [done|]. apply (data_size _ _ _ Hd).
Qed.

(** C15: reading, writing and seeking on a descriptor refine the open file of
    POSIX: [read] gives the bytes at the offset and moves it past them, [write]
    puts the bytes it reports at the offset, or at the end when the file is open
    for appending, and [lseek] from the beginning, the offset or the end
    ([SEEK_SET], [SEEK_CUR], [SEEK_END]) moves the offset to the position its
    arguments give, when that is within the file; or the call fails and says why. *)
Theorem file_io_refines fd o (w : W) :
  length (w_tab w) = OPEN_MAX → describes w fd o →
  (∀ len, 0 ≤ len ≤ INT_MAX → wp (fatfs_read fd len) w (λ res w', failed res.1 w' ∨
     let (bs, o') := posix_read len o in res = (Z.of_nat (length bs), bs) ∧ describes w' fd o')) ∧
  (∀ ptr, Z.of_nat (length ptr) ≤ INT_MAX → wp (fatfs_write fd ptr) w (λ r w', failed r w' ∨
     0 ≤ r ≤ Z.of_nat (length ptr) ∧ describes w' fd (posix_write ptr r o))) ∧
  (∀ off whence pos, posix_seek off whence o = Some pos → pos ≤ Z.of_nat (length (of_data o)) → pos ≤ INT_MAX →
     wp (fatfs_lseek fd off whence) w (λ r w', failed r w' ∨
       r = pos ∧ describes w' fd (OpenFile (of_data o) pos (of_append o)))).
Proof.
  intros Hlen Hdesc. split_and!; intros; [by apply refines_read|by apply refines_write|by eapply refines_lseek].
Qed.
End files.

(** ** Listing a directory *)
Section directories.
Context {V : Type} `{!FatFs V, !FatFsEntries V}.
Abbreviation W := (fat_world V).

(** The entry given for [e], the one of number [loc]. *)
Definition entry_of (loc : Z) (e : FILINFO) : dirent :=
  Dirent (u16 loc) (fname e ++ replicate (NAME_MAX + 1 - length (fname e)) 0).

(** The stream has still to give [rest] after [loc] entries. *)
Definition to_list (w : W) (i : nat) (loc : Z) (rest : list FILINFO) : Prop :=
  consistent w ∧ ∃ d, is_dirstream i w d ∧ dir_rest (ffdir d) (w_vol w) = Some rest ∧ ds_loc d = loc.

(** A name goes into the room of an entry, with zeros after it. *)
Lemma strncpy_name dst name : length dst = (NAME_MAX + 1)%nat → (length name ≤ NAME_MAX)%nat →
  strncpy dst name (NAME_MAX + 1) = Done (name ++ replicate (NAME_MAX + 1 - length name) 0).
Proof.
  intros Hd Hn. destruct (strncpy_room dst name (NAME_MAX + 1)) as (r & -> & _ & ->); [lia|].
  rewrite (drop_ge dst), app_nil_r by lia. rewrite take_app_ge by lia. do 2 f_equal.
  rewrite take_replicate. f_equal. lia.
Qed.

Lemma wp_readdir_r_step w i loc rest entry old (Q : Z * dirent * bool → W → Prop) :
  to_list w i loc rest → length (d_name entry) = (NAME_MAX + 1)%nat → 0 ≤ loc < INT_MAX →
  (∀ r w', consistent w' → (∃ d', is_dirstream i w' d') → (rest = [] ∧ w_errno w' = w_errno w ∨ failed r w') → Q (r, entry, false) w') →
  (∀ e rest' w', rest = e :: rest' → length (d_name (entry_of (loc + 1) e)) = (NAME_MAX + 1)%nat →
     w_errno w' = w_errno w → to_list w' i (loc + 1) rest' → Q (0, entry_of (loc + 1) e, true) w') →
  wp (fatfs_readdir_r (Some (ObjDir (Z.of_nat i))) entry old) w Q.
Proof.
  destruct w as [l v t er]. intros (Hc & d & Hd & Hrest & Hloc) Hroom Hrange Hend Hnext. unfold fatfs_readdir_r.
  apply wp_bind. eapply wp_is_dir; [done|done|]. simpl negb. cbv iota. apply wp_bind. eapply wp_lift; [done|].
  apply wp_bind. eapply wp_ff_dir; [exact Hd|by left|]. intros [res fno] x v' E. simpl allocated.
  set (d1 := Dirstream (ds_fd d) (ds_loc d) (cur_entry d) x).
  pose proof (lookup_lt_Some _ _ _ Hd) as Hi. simpl in Hi.
  assert (Hc1 : ∀ d2 v2 e2, dir_like d d2 → consistent (FatWorld (<[i := FatSlot true (MemDir d2)]> l) v2 t e2)).
  { intros d2 v2 e2 Hlike. by eapply tables_content. }
  assert (Hat : ∀ d2 v2 e2, is_dirstream i (FatWorld (<[i := FatSlot true (MemDir d2)]> l) v2 t e2) d2).
  { intros d2 v2 e2. by apply list_lookup_insert_eq. }
  destruct (decide (res = FR_OK)) as [->|Hres].
  - rewrite decide_False by tauto. destruct rest as [|e rest'].
    + rewrite (rest_end _ _ _ _ _ Hrest E), decide_True by done. apply wp_ret. apply Hend; [by apply Hc1|by eexists|by left].
    + destruct (rest_next _ _ _ _ _ _ _ Hrest E) as (-> & Hne & Hlen & Hrest'). rewrite decide_False by done.
      apply wp_bind. eapply wp_dir_at; [by apply list_lookup_insert_eq|by left|].
      apply wp_bind. eapply wp_dir_put; [by apply list_lookup_insert_eq|]. rewrite list_insert_insert_eq. simpl.
      apply wp_bind. eapply wp_dir_at; [by apply list_lookup_insert_eq|by left|].
      apply wp_bind. rewrite strncpy_name by done. eapply wp_lift; [done|]. apply wp_ret.
      simpl. rewrite Hloc. rewrite i32_id by (unfold is_i32, INT_MAX in *; lia).
      apply (Hnext e rest'); [done|unfold entry_of; cbn [d_name]; rewrite length_app, length_replicate; lia|done|]. split; [by apply Hc1|]. eexists. split; [by apply Hat|done].
  - rewrite decide_True by done. apply wp_bind. apply wp_fail. apply wp_ret. apply Hend; [by apply Hc1|by eexists|].
    right. split; [done|]. simpl. by apply fresult2errno_error.
Qed.

Lemma wp_readdir_step w i loc rest old (Q : option dirent → W → Prop) :
  to_list w i loc rest → 0 ≤ loc < INT_MAX →
  (∀ w', consistent w' → (rest = [] ∧ w_errno w' = w_errno w ∨ w_errno w' ≠ E0) → Q None w') →
  (∀ e rest' w', rest = e :: rest' → w_errno w' = w_errno w → to_list w' i (loc + 1) rest' → Q (Some (entry_of (loc + 1) e)) w') →
  wp (fatfs_readdir (Some (ObjDir (Z.of_nat i))) old) w Q.
Proof.
  intros Hlist Hrange Hend Hnext. pose proof Hlist as (Hc & d & Hd & _).
  destruct (dir_owner i d w Hc Hd) as (n & x & _ & _ & _ & Hroom).
  unfold fatfs_readdir. apply wp_bind. eapply wp_is_dir; [done..|].
  apply wp_bind. eapply wp_lift; [done|]. apply wp_bind. eapply wp_dir_get; [done|].
  apply wp_bind. eapply wp_readdir_r_step; [done|done|done| |].
  - intros r w1 Hc1 (d1 & Hd1) Hr. destruct (dir_owner i d1 w1 Hc1 Hd1) as (n1 & x1 & _ & _ & _ & Hroom1).
    apply wp_bind. eapply wp_dir_get; [done|]. destruct w1 as [l v t e]. apply wp_bind. eapply wp_dir_put; [exact Hd1|].
    apply wp_ret. apply Hend.
    + eapply tables_content; [exact Hc1|exact Hd1|]. split; [done|]. simpl. split; [done|congruence].
    + destruct Hr as [?|[_ Hr]]; [by left|by right].
  - intros e rest' w1 Erest Hlen Herr (Hc1 & d1 & Hd1 & Hrest1 & Hloc1).
    destruct (dir_owner i d1 w1 Hc1 Hd1) as (n1 & x1 & _ & _ & _ & Hroom1).
    apply wp_bind. eapply wp_dir_get; [done|]. destruct w1 as [l v t er]. apply wp_bind. eapply wp_dir_put; [exact Hd1|].
    apply wp_ret. apply (Hnext e rest'); [done|done|]. split.
    + eapply tables_content; [exact Hc1|exact Hd1|]. split; [done|]. split; [done|]. by rewrite Hroom1.
    + exists (Dirstream (ds_fd d1) (ds_loc d1) (entry_of (loc + 1) e) (ffdir d1)).
      split; [|done]. apply list_lookup_insert_eq. by eapply lookup_lt_Some.
Qed.

(** A program that lists a directory. *)
Definition read_all (fuel : nat) (dirp : option object) (old : bool) : M W (list dirent) :=
  loop fuel (λ acc,
    e ← fatfs_readdir dirp old;
    mret (match e with Some e => inl (acc ++ [e]) | None => inr acc end)) [].

(** The entries, numbered after [loc]. *)
Definition entries (loc : Z) (l : list FILINFO) : list dirent :=
  imap (λ k e, entry_of (loc + 1 + Z.of_nat k) e) l.

Lemma entries_cons loc e l : entries loc (e :: l) = entry_of (loc + 1) e :: entries (loc + 1) l.
Proof.
  unfold entries. rewrite imap_cons. f_equal; [f_equal; lia|]. apply imap_ext. intros k x _. simpl. f_equal. lia.
Qed.

Lemma wp_read_all n acc w i loc rest old (Q : list dirent → W → Prop) :
  to_list w i loc rest → 0 ≤ loc → loc + Z.of_nat (length rest) < INT_MAX → (length rest < n)%nat →
  (∀ k w', consistent w' → (k ≤ length rest)%nat → (k = length rest ∧ w_errno w' = w_errno w ∨ w_errno w' ≠ E0) →
     Q (acc ++ entries loc (take k rest)) w') →
  wp (loop n (λ acc, e ← fatfs_readdir (Some (ObjDir (Z.of_nat i))) old;
        mret (match e with Some e => inl (acc ++ [e]) | None => inr acc end)) acc) w Q.
Proof.
  revert acc w loc rest. induction n as [|n IH]; intros acc w loc rest Hlist Hloc Hmax Hn HQ; [lia|].
  apply wp_loop_turn, wp_bind. eapply wp_readdir_step; [exact Hlist|lia| |].
  - intros w' Hc' Hr. apply wp_ret. specialize (HQ 0%nat w' Hc' ltac:(lia)). rewrite take_0, app_nil_r in HQ.
    apply HQ. destruct Hr as [[-> ?]|?]; [by left|by right].
  - intros e rest' w' -> Herr Hlist'. apply wp_ret. simpl in Hmax, Hn. eapply IH; [exact Hlist'|lia|lia|lia|].
    intros k w2 Hc2 Hk Hend. specialize (HQ (Datatypes.S k) w2 Hc2). simpl in HQ. rewrite entries_cons in HQ.
    rewrite <- app_assoc. apply HQ; [lia|]. destruct Hend as [[-> ?]|?]; [left; split; [done|congruence]|by right].
Qed.

(** C29: listing an open directory ends, and gives the names of its entries in the
    order of FatFs, each padded with zeros and numbered: all of them, with [errno]
    left alone, or those before an error, which [errno] tells. *)
Theorem readdir_lists_directory fuel i loc rest old (w : W) :
  to_list w i loc rest → 0 ≤ loc → loc + Z.of_nat (length rest) < INT_MAX → (length rest < fuel)%nat →
  wp (read_all fuel (Some (ObjDir (Z.of_nat i))) old) w (λ l w', ∃ k, (k ≤ length rest)%nat ∧
    (k = length rest ∧ w_errno w' = w_errno w ∨ w_errno w' ≠ E0) ∧ l = entries loc (take k rest) ∧ consistent w').
Proof.
  intros Hlist Hloc Hmax Hfuel. eapply (wp_read_all fuel []); [done..|].
  intros k w' Hc' Hk Hend. by exists k.
Qed.
End directories.
