(* ===== verification/FatfsSim.v ===== *)
(** * A simulated FatFs, and what the file calls do wrong

    A volume in memory with files and directories, which has all the laws the
    theorems on [src/fatfs.c] rely on; on it the theorems are applied, and the
    defects of the calls are shown. *)

From stdpp Require Import prelude list numbers gmap relations.
From S2P Require Import Prelude Files Fatfs FatfsTable FatfsSafe FatfsCalls FatfsFile.

(** The contents of the files, and the names in the directories. *)
Record volume := Volume { v_files : gmap path (list Z); v_dirs : gmap path (list path) }.

(** An open file: its path, position, size and mode. *)
Record sim_file := SimFile { sf_path : path; sf_pos : nat; sf_size : nat; sf_mode : list FA }.

Definition sim_info (p : path) (size : Z) (dir : bool) : FILINFO := Filinfo p size dir false.

Definition sim_open (p : path) (m : list FA) (f : option sim_file) (v : volume) : FRESULT * option sim_file * volume :=
  let opened d v := (FR_OK, Some (SimFile p 0 (length d) m), v) in
  match v_files v !! p with
  | Some d =>
      if decide (FA_CREATE_NEW ∈ m) then (FR_EXIST, f, v)
      else if decide (FA_CREATE_ALWAYS ∈ m) then opened [] (Volume (<[p := []]> (v_files v)) (v_dirs v))
      else opened d v
  | None =>
      if decide (v_dirs v !! p = None ∧ (FA_CREATE_NEW ∈ m ∨ FA_CREATE_ALWAYS ∈ m ∨ FA_OPEN_ALWAYS ∈ m))
      then opened [] (Volume (<[p := []]> (v_files v)) (v_dirs v))
      else (FR_NO_FILE, f, v)
  end.

(** The contents of an open file. *)
Definition sim_data (f : option sim_file) (v : volume) : option (list Z) :=
  f ← f; d ← v_files v !! sf_path f;
  if decide (length d = sf_size f ∧ (sf_pos f ≤ sf_size f)%nat) then Some d else None.

Definition sim_read (n : Z) (f : option sim_file) (v : volume) : FRESULT * list Z * option sim_file * volume :=
  match f, sim_data f v with
  | Some x, Some d =>
      if decide (FA_READ ∈ sf_mode x) then
        let bs := take (Z.to_nat n) (drop (sf_pos x) d) in
        (FR_OK, bs, Some (SimFile (sf_path x) (sf_pos x + length bs) (sf_size x) (sf_mode x)), v)
      else (FR_DENIED, [], f, v)
  | _, _ => (FR_INVALID_OBJECT, [], f, v)
  end.

Definition sim_write (bs : list Z) (f : option sim_file) (v : volume) : FRESULT * Z * option sim_file * volume :=
  match f, sim_data f v with
  | Some x, Some d =>
      if decide (FA_WRITE ∈ sf_mode x) then
        let d' := take (sf_pos x) d ++ bs ++ drop (sf_pos x + length bs) d in
        (FR_OK, Z.of_nat (length bs), Some (SimFile (sf_path x) (sf_pos x + length bs) (length d') (sf_mode x)),
         Volume (<[sf_path x := d']> (v_files v)) (v_dirs v))
      else (FR_DENIED, 0, f, v)
  | _, _ => (FR_INVALID_OBJECT, 0, f, v)
  end.

(** A position past the end extends a file that is written, and is cut to the
    size of one that is not. *)
Definition sim_lseek (p : Z) (f : option sim_file) (v : volume) : FRESULT * option sim_file * volume :=
  match f, sim_data f v with
  | Some x, Some d =>
      if decide (p ≤ Z.of_nat (sf_size x)) then
        (FR_OK, Some (SimFile (sf_path x) (Z.to_nat p) (sf_size x) (sf_mode x)), v)
      else if decide (FA_WRITE ∈ sf_mode x) then
        let n := Z.to_nat p in
        (FR_OK, Some (SimFile (sf_path x) n n (sf_mode x)),
         Volume (<[sf_path x := d ++ replicate (n - sf_size x) 0]> (v_files v)) (v_dirs v))
      else (FR_OK, Some (SimFile (sf_path x) (sf_size x) (sf_size x) (sf_mode x)), v)
  | _, _ => (FR_INVALID_OBJECT, f, v)
  end.

Definition sim_stat (p : path) (fno : FILINFO) (v : volume) : FRESULT * FILINFO * volume :=
  match v_files v !! p with
  | Some d => (FR_OK, sim_info p (Z.of_nat (length d)) false, v)
  | None =>
      match v_dirs v !! p with
      | Some _ => (FR_OK, sim_info p 0 true, v)
      | None => (FR_NO_FILE, fno, v)
      end
  end.

(** An open directory: its path and the names still to give. *)
Definition sim_dir : Type := option (path * list path).

Definition sim_readdir (x : sim_dir) (v : volume) : FRESULT * FILINFO * sim_dir * volume :=
  match x with
  | Some (p, []) => (FR_OK, sim_info [] 0 false, x, v)
  | Some (p, name :: rest) => (FR_OK, sim_info name 0 false, Some (p, rest), v)
  | None => (FR_INVALID_OBJECT, sim_info [] 0 false, x, v)
  end.

#[export] Instance sim_fatfs : FatFs volume := {|
  FIL := option sim_file;
  FFDIR := sim_dir;
  fil_zero := None;
  ffdir_zero := None;
  f_mount v := (FR_OK, v);
  f_open := sim_open;
  f_close f v := if decide (f = None) then (FR_INVALID_OBJECT, f, v) else (FR_OK, None, v);
  f_read := sim_read;
  f_write := sim_write;
  f_lseek := sim_lseek;
  f_sync f v := (match f with Some _ => FR_OK | None => FR_INVALID_OBJECT end, f, v);
  f_size f := match f with Some x => Z.of_nat (sf_size x) | None => 0 end;
  f_tell f := match f with Some x => Z.of_nat (sf_pos x) | None => 0 end;
  f_opendir p x v := match v_dirs v !! p with Some l => (FR_OK, Some (p, l), v) | None => (FR_NO_PATH, x, v) end;
  f_closedir x v := match x with Some _ => (FR_OK, None, v) | None => (FR_INVALID_OBJECT, x, v) end;
  f_readdir := sim_readdir;
  f_rewinddir x v := match x with
    | Some (p, _) => (FR_OK, Some (p, default [] (v_dirs v !! p)), v)
    | None => (FR_INVALID_OBJECT, x, v) end;
  f_stat := sim_stat;
  f_unlink p v := match v_files v !! p with
    | Some _ => (FR_OK, Volume (delete p (v_files v)) (v_dirs v))
    | None => (FR_NO_FILE, v) end;
  f_rename p q v := match v_files v !! p with
    | Some d => (FR_OK, Volume (<[q := d]> (delete p (v_files v))) (v_dirs v))
    | None => (FR_NO_FILE, v) end;
  f_mkdir p v := (FR_OK, Volume (v_files v) (<[p := []]> (v_dirs v)));
  f_chdir p v := (match v_dirs v !! p with Some _ => FR_OK | None => FR_NO_PATH end, v);
  f_getcwd buf size v := (FR_OK, buf, v);
|}.

#[export] Instance sim_fatfs_laws : FatFsLaws volume.
Proof.
  split.
  - intros p fno fno' v v'. simpl. unfold sim_stat. repeat case_match; intros [=]; by subst.
  - intros p m f f' fno fno' v v' v'' Hopen. simpl in *. unfold sim_stat.
    assert (is_Some (v_files v' !! p)) as [d ->]; [|by intros [= <- <-]].
    unfold sim_open in Hopen. destruct (v_files v !! p) as [d|] eqn:Hp.
    + repeat case_decide; simplify_eq/=; [rewrite lookup_insert_eq|rewrite Hp]; by eexists.
    + case_decide; simplify_eq/=. rewrite lookup_insert_eq. by eexists.
Qed.

(** A file whose contents are known. *)
Lemma sim_data_Some f v d : sim_data f v = Some d → ∃ x, f = Some x ∧ v_files v !! sf_path x = Some d ∧
  length d = sf_size x ∧ (sf_pos x ≤ sf_size x)%nat.
Proof.
  unfold sim_data. destruct f as [x|]; [|done]. simpl. destruct (v_files v !! sf_path x) as [d'|] eqn:E; [|done].
  simpl. case_decide; [|done]. intros [= ->]. exists x. tauto.
Qed.

Lemma sim_data_intro x v d : v_files v !! sf_path x = Some d → length d = sf_size x → (sf_pos x ≤ sf_size x)%nat →
  sim_data (Some x) v = Some d.
Proof. intros Hd Hs Hp. unfold sim_data. simpl. rewrite Hd. simpl. by rewrite decide_True. Qed.

#[local] Arguments sim_data : simpl never.

#[export, refine] Instance sim_contents : FatFsContents volume := {| fil_data := sim_data |}.
Proof.
  - intros f v d (x & -> & _ & Hl & _)%sim_data_Some. simpl. by rewrite Hl.
  - intros f v d (x & -> & _ & Hl & Hp)%sim_data_Some. simpl. lia.
  - intros n f v d bs f' v' Hd Hn. pose proof (sim_data_Some _ _ _ Hd) as (x & -> & Hf & Hl & Hp). simpl.
    unfold sim_read. rewrite Hd. case_decide; [|by intros [=]]. intros [= <- <- <-].
    rewrite Nat2Z.id. split; [done|]. split; [|simpl; lia].
    apply sim_data_intro; [done|done|]. simpl. rewrite length_take, length_drop. lia.
  - intros bs f v d n f' v' Hd. pose proof (sim_data_Some _ _ _ Hd) as (x & -> & Hf & Hl & Hp). simpl.
    unfold sim_write. rewrite Hd. case_decide; [|by intros [=]]. intros [= <- <- <-].
    split; [lia|]. split; [|simpl; lia].
    rewrite !Nat2Z.id. rewrite (take_ge bs) by lia.
    replace (Z.to_nat (Z.of_nat (sf_pos x) + Z.of_nat (length bs))) with (sf_pos x + length bs)%nat by lia.
    apply sim_data_intro; simpl; [by rewrite lookup_insert_eq|done|].
    rewrite !length_app, length_take, length_drop. lia.
  - intros p f v d f' v' Hd Hp. pose proof (sim_data_Some _ _ _ Hd) as (x & -> & Hf & Hl & Hpos). simpl in *.
    unfold sim_lseek. rewrite Hd. rewrite decide_True by lia. intros [= <- <-].
    split; [|simpl; lia]. apply sim_data_intro; simpl; [done|done|lia].
Defined.

(** Names FatFs gives: eight characters, a point and three. *)
Definition short_names (l : list path) : Prop := Forall (λ name, name ≠ [] ∧ (length name ≤ NAME_MAX)%nat) l.

Definition sim_rest (x : sim_dir) : option (list FILINFO) :=
  match x with
  | Some (p, l) => if decide (short_names l) then Some ((λ name, sim_info name 0 false) <$> l) else None
  | None => None
  end.
#[local] Arguments sim_rest : simpl never.

Lemma sim_rest_Some x r : sim_rest x = Some r ↔
  ∃ p l, x = Some (p, l) ∧ short_names l ∧ r = (λ name, sim_info name 0 false) <$> l.
Proof.
  unfold sim_rest. split.
  - destruct x as [[p l]|]; [|done]. destruct (decide (short_names l)); [|done]. intros [= <-]. eauto.
  - intros (p & l & -> & Hs & ->). by destruct (decide (short_names l)).
Qed.

#[export, refine] Instance sim_entries : FatFsEntries volume := {| dir_rest x v := sim_rest x |}.
Proof.
  - intros x v fno x' v' (p & [|name l] & -> & _ & Hr)%sim_rest_Some; [|done]. by intros [= <- <- <-].
  - intros e rest x v fno x' v' (p & [|name l] & -> & Hs & Hr)%sim_rest_Some; [done|]. intros [= <- <- <-].
    injection Hr as -> ->. apply Forall_cons_1 in Hs as [[Hne Hlen] Hs].
    split_and!; [done|done|done|]. apply sim_rest_Some. eauto.
Defined.

(** ** A program with files *)
Definition sample_volume : volume :=
  Volume {[ [97] := [1; 2; 3; 4; 5] ]} {[ [47] := [[97]; [98; 98]; [99]] ]}.
Definition no_info : FILINFO := Filinfo [] 0 false false.
Definition fat_start : fat_world volume :=
  FatWorld (replicate OPEN_MAX (FatSlot false MemZero)) sample_volume (replicate OPEN_MAX fd_zero) E0.

Lemma fat_start_consistent : consistent fat_start.
Proof.
  assert (Hno : ∀ n x, ¬ fat_entry (w_tab fat_start) n x).
  { intros n x ([-> _]%lookup_replicate & ? & _). done. }
  split; [done|done| | | |].
  - intros n x Hx. by destruct (Hno n x).
  - intros n n' x x' i s Hx. by destruct (Hno n x).
  - intros i s [-> _]%lookup_replicate. done.
  - intros i s [-> _]%lookup_replicate. done.
Qed.

Definition fat_after (c : fat_call) (w : fat_world volume) : fat_world volume :=
  match run_fat_call no_info false c w with Done (_, w') => w' | _ => w end.

Lemma fat_after_step c w w' :
  match run_fat_call no_info false c w with Done _ => true | _ => false end = true → fat_call_ok c w →
  rtc (fat_step no_info false) (fat_after c w) w' → rtc (fat_step no_info false) w w'.
Proof.
  intros Hd Hc Hr. eapply rtc_l; [|exact Hr]. apply fat_made with c; [done|]. unfold fat_after.
  by destruct (run_fat_call no_info false c w) as [[[] ?]| |].
Qed.

(** The file is open for both as 3, the directory as 4. *)
Definition one_open : fat_world volume := fat_after (COpen [97] O_RDWR) fat_start.
Definition both_open : fat_world volume := fat_after (COpendir [47]) one_open.

Lemma both_open_reached : rtc (fat_step no_info false) fat_start both_open.
Proof.
  unfold both_open, one_open. apply (fat_after_step (COpen [97] O_RDWR)); [by vm_compute|done|].
  apply (fat_after_step (COpendir [47])); [by vm_compute|done|]. apply rtc_refl.
Qed.

Lemma both_open_consistent : consistent both_open.
Proof.
  pose proof both_open_reached as Hr. pose proof fat_start_consistent as Hc.
  induction Hr as [|w1 w2 w3 [c Hok Hrun] _ IH]; [done|]. apply IH.
  pose proof (ok_run no_info false c w1 Hc Hok) as Hwp. unfold wp in Hwp. by rewrite Hrun in Hwp.
Qed.

Lemma fat_calls_safe_witness :
  consistent both_open ∧ ∀ c, fat_call_ok c both_open →
    ∃ w'', run_fat_call no_info false c both_open = Done (tt, w'').
Proof. apply (fat_calls_safe no_info false fat_start both_open); [exact fat_start_consistent|exact both_open_reached]. Defined.

Lemma fatfs_open_allocates_witness : wp (_open no_info [97] O_RDWR) fat_start (open_result O_RDWR fat_start).
Proof. apply (fatfs_open_allocates no_info [97] O_RDWR fat_start). exact fat_start_consistent. Defined.

Definition the_file : open_file := OpenFile [1; 2; 3; 4; 5] 0 false.

(** What an element holds. *)
Definition slot_file (w : fat_world volume) (i : nat) : option (option sim_file) :=
  match w_slots w !! i with Some (FatSlot true (MemFil f)) => Some f | _ => None end.
Definition slot_dir (w : fat_world volume) (i : nat) : option (Z * Z * sim_dir) :=
  match w_slots w !! i with Some (FatSlot true (MemDir d)) => Some (ds_fd d, ds_loc d, ffdir d) | _ => None end.

Lemma slot_file_Some w i f : slot_file w i = Some f → w_slots w !! i = Some (FatSlot true (MemFil f)).
Proof. unfold slot_file. destruct (w_slots w !! i) as [[[] []]|]; try done. by intros [= ->]. Qed.
Lemma slot_dir_Some w i n loc x : slot_dir w i = Some (n, loc, x) →
  ∃ d, is_dirstream i w d ∧ ffdir d = x ∧ ds_loc d = loc.
Proof.
  unfold slot_dir, is_dirstream. destruct (w_slots w !! i) as [[[] []]|]; try done. intros [= <- <- <-]. eauto.
Qed.

Lemma both_open_describes : describes both_open 3 the_file.
Proof.
  assert (Hf : slot_file both_open 0 = Some (Some (SimFile [97] 0 5 [FA_READ; FA_WRITE; FA_OPEN_EXISTING])))
    by (vm_compute; reflexivity).
  assert (Hx : ∃ x, w_tab both_open !! 3%nat = Some x ∧ isallocated x = true ∧ fd_close x = Some DrvFatfs ∧
    opaque x = Some (ObjFil 0) ∧ S_ISREG (fd_stat x) = true ∧ bool_decide (Z.land (status_flags x) O_APPEND ≠ 0) = false).
  { eexists. split; [vm_compute; reflexivity|]. vm_compute. done. }
  destruct Hx as (x & Hx & Ha & Hc & Ho & Hr & Happ).
  exists 3%nat, x, 0%nat, (Some (SimFile [97] 0 5 [FA_READ; FA_WRITE; FA_OPEN_EXISTING])).
  assert (Hd : sim_data (Some (SimFile [97] 0 5 [FA_READ; FA_WRITE; FA_OPEN_EXISTING])) (w_vol both_open) =
    Some [1; 2; 3; 4; 5]) by (vm_compute; reflexivity).
  split; [done|]. split; [by split|]. split; [done|]. split; [done|]. split; [by apply slot_file_Some|].
  split; [exact Hd|]. split; [done|]. symmetry. exact Happ.
Qed.

Lemma file_io_refines_witness :
  (∀ len, 0 ≤ len ≤ INT_MAX → wp (fatfs_read 3 len) both_open (λ res w', failed res.1 w' ∨
     let (bs, o') := posix_read len the_file in res = (Z.of_nat (length bs), bs) ∧ describes w' 3 o')) ∧
  (∀ ptr, Z.of_nat (length ptr) ≤ INT_MAX → wp (fatfs_write 3 ptr) both_open (λ r w', failed r w' ∨
     0 ≤ r ≤ Z.of_nat (length ptr) ∧ describes w' 3 (posix_write ptr r the_file))) ∧
  (∀ off whence pos, posix_seek off whence the_file = Some pos → pos ≤ 5 → pos ≤ INT_MAX →
     wp (fatfs_lseek 3 off whence) both_open (λ r w', failed r w' ∨
       r = pos ∧ describes w' 3 (OpenFile [1; 2; 3; 4; 5] pos false))).
Proof. apply (file_io_refines 3 the_file both_open); [by vm_compute|exact both_open_describes]. Defined.

Lemma both_open_to_list :
  to_list both_open 1 0 ((λ name, sim_info name 0 false) <$> [[97]; [98; 98]; [99]]).
Proof.
  assert (Hd : slot_dir both_open 1 = Some (4, 0, Some ([47], [[97]; [98; 98]; [99]]))) by (vm_compute; reflexivity).
  split; [exact both_open_consistent|]. destruct (slot_dir_Some _ _ _ _ _ Hd) as (d & Hat & Hx & Hl).
  exists d. split; [done|]. split; [|done]. rewrite Hx. apply sim_rest_Some. eexists _, _. split; [done|].
  split; [|done]. by repeat constructor.
Qed.

Lemma readdir_lists_directory_witness :
  wp (read_all 4 (Some (ObjDir 1)) false) both_open (λ l w', ∃ k, (k ≤ 3)%nat ∧
    (k = 3%nat ∧ w_errno w' = w_errno both_open ∨ w_errno w' ≠ E0) ∧
    l = entries 0 (take k ((λ name, sim_info name 0 false) <$> [[97]; [98; 98]; [99]])) ∧ consistent w').
Proof.
  apply (readdir_lists_directory 4 1 0 _ false both_open both_open_to_list); [lia|unfold INT_MAX; simpl; lia|simpl; lia].
Defined.

(** ** What the calls do wrong *)
Definition fat_result {A} (m : M (fat_world volume) A) (w : fat_world volume) : option (A * errno) :=
  match m w with Done (a, w') => Some (a, w_errno w') | _ => None end.

Definition faults {A} (m : M (fat_world volume) A) (w : fat_world volume) : bool :=
  match m w with Fault => true | _ => false end.

(** A closed descriptor is still marked as open: reading it fails with [EINVAL],
    by what FatFs makes of a zeroed object, and not with [EBADF]. *)
Lemma closed_file_stays_open :
  let w := fat_after (CFileClose 3) one_open in
  isopen <$> w_tab w !! 3%nat = Some true ∧
  fat_result (_read (Drivers0 := fatfs_drivers) 3 1) w = Some ((-1, []), EINVAL).
Proof. vm_compute. done. Qed.

(** [opendir] of a file gives a pointer to the file as one to a directory, which
    [readdir] follows. *)
Lemma opendir_of_file :
  fst <$> fat_result (opendir no_info [97]) fat_start = Some (Some (ObjFil 0)) ∧
  faults (readdir (Some (ObjFil 0)) false) one_open = true.
Proof. vm_compute. done. Qed.

(** [seekdir] forward writes a name past the end of a structure without room for
    one; backward it goes to the beginning, wherever it was told to go. *)
Definition after_three : fat_world volume :=
  fat_after (CReaddir (Some (ObjDir 1))) (fat_after (CReaddir (Some (ObjDir 1)))
    (fat_after (CReaddir (Some (ObjDir 1))) both_open)).

Lemma seekdir_wrong :
  faults (seekdir 5 (Some (ObjDir 1)) 1 false) both_open = true ∧
  fst <$> fat_result (telldir (Some (ObjDir 1))) after_three = Some 3 ∧
  fst <$> fat_result (telldir (Some (ObjDir 1))) (fat_after (CSeekdir (Some (ObjDir 1)) 2) after_three) = Some 0.
Proof. vm_compute. done. Qed.

(** A position before the beginning is taken modulo 2^32: on a file open for
    reading the position becomes the end of the file, and the result is -1 with
    [errno] untouched. *)
Definition reading : fat_world volume := fat_after (COpen [97] O_RDONLY) fat_start.
Lemma lseek_negative :
  fat_result (fatfs_lseek 3 (-1) SEEK_SET) reading = Some (-1, E0) ∧
  fst <$> fat_result (fatfs_lseek 3 0 SEEK_CUR) (fat_after (CLseek 3 (-1) SEEK_SET) reading) = Some 5.
Proof. vm_compute. done. Qed.

(** [O_TRUNC] without [O_CREAT] does not truncate, and an unknown [whence] is [SEEK_SET]. *)
Lemma open_trunc_ignored : flags2mode (Z.lor O_RDWR O_TRUNC) = flags2mode O_RDWR.
Proof. reflexivity. Qed.
Lemma lseek_any_whence : fat_result (fatfs_lseek 3 2 7) one_open = Some (2, E0).
Proof. vm_compute. reflexivity. Qed.
