(* ===== verification/StdioUsart.v ===== *)
(** * The serial console: [src/stdio_usart.c]

    Standard input and output on the second serial port. The port is an interface
    ([UsartDevice]): what has been sent, and the bytes that arrive. The calls of
    [src/syscalls.c] on the three standard descriptors are shown to send a text,
    with line ends as a terminal wants them, and to take what has arrived. *)

From stdpp Require Import prelude list numbers.
From S2P Require Import Prelude Files Opencm3.

(** The port as a device: sending, waiting for a byte ([None]: none ever comes),
    taking it, and the flag that another one is there. *)
Class UsartDevice (H : Type) := {
  us_send : Z → H → H;
  us_wait : H → option H;
  us_recv : H → Z * H;
  us_rxne : H → bool * H;
}.

Section usart.
Context {H S : Type} `{!Has H S, !UsartDevice H}.

Definition usart_send_blocking (data : Z) : M S unit := modifyc (us_send data).
Definition usart_wait_recv_ready : M S unit :=
  h ← getc; match us_wait h with Some h => modifyc (λ _, h) | None => hang end.
Definition usart_recv : M S Z := h ← getc; let '(b, h) := us_recv h in _ ← modifyc (λ _, h); mret b.
Definition usart_sr_rxne : M S bool := h ← getc; let '(b, h) := us_rxne h in _ ← modifyc (λ _, h); mret b.
End usart.

Definition STDIN_FILENO : Z := 0.
Definition STDOUT_FILENO : Z := 1.
Definition STDERR_FILENO : Z := 2.

Section stdio.
Context {H S : Type} `{!Has H S, !UsartDevice H, !Has ftable S, !Has errno S, !Opencm3 S}.
(** The board, and the clock of the library. *)
Context (board : target) (rcc_ahb_frequency : Z).

Definition stdio_usart_write (fd : Z) (ptr : list Z) : M S Z :=
  let f := file_struct_get fd in
  _ ← for_each ptr (λ c,
    e ← (p ← lift (deref f); fd_at p);
    _ ← (if isatty e && bool_decide (c = 10) then usart_send_blocking 13 else mret tt);
    usart_send_blocking c);
  mret (Z.of_nat (length ptr)).

Definition stdio_usart_read (fd len : Z) : M S (Z * list Z) :=
  if decide (len > 0) then
    _ ← usart_wait_recv_ready;
    bs ← loop (Z.to_nat len) (λ bs,
      b ← usart_recv;
      let bs := bs ++ [u8 b] in
      if decide (Z.of_nat (length bs) < len) then
        rxne ← usart_sr_rxne;
        mret (if (rxne : bool) then inl bs else inr bs)
      else mret (inr bs)) [];
    if decide (Z.of_nat (length bs) = 0) then _ ← set_errno EAGAIN; mret (-1, bs)
    else mret (Z.of_nat (length bs), bs)
  else mret (0, []).

Definition stdio_usart_init : M S unit :=
  let baud := 57600 in
  _ ← hw (rcc_periph_clock_enable RCC_GPIOA);
  _ ← hw (rcc_periph_clock_enable RCC_USART2);
  _ ← match board with
      | STM32F1 =>
          _ ← hw (gpio_set_mode GPIOA GPIO_MODE_OUTPUT_50_MHZ GPIO_CNF_OUTPUT_ALTFN_PUSHPULL [GPIO_USART2_TX]);
          hw (gpio_set_mode GPIOA GPIO_MODE_INPUT GPIO_CNF_INPUT_FLOAT [GPIO_USART2_RX])
      | STM32F4 =>
          _ ← hw (gpio_set_af GPIOA GPIO_AF7 [GPIO2; GPIO3]);
          hw (gpio_mode_setup GPIOA GPIO_MODE_AF GPIO_PUPD_NONE [GPIO2; GPIO3])
      end;
  _ ← hw (usart_brr (u32 (2 * rcc_ahb_frequency + baud) / (2 * baud)));
  _ ← hw (usart_set_databits 8);
  _ ← hw (usart_set_stopbits USART_STOPBITS_1);
  _ ← hw (usart_set_mode USART_MODE_TX_RX);
  _ ← hw (usart_set_parity USART_PARITY_NONE);
  _ ← hw (usart_set_flow_control USART_FLOWCONTROL_NONE);
  hw usart_enable.

(** The permissions are those of the owner, the group and the others. *)
Definition fileno_out_init (fd : Z) : M S unit :=
  p ← lift (deref (file_struct_get fd));
  fd_update p (λ f, Fd fd (Stat S_IFCHR 146 (st_size (fd_stat f)) (st_blksize (fd_stat f))) true true
    (Some DrvUsart) (fd_read f) (fd_close f) (fd_poll f) (isallocated f) (descriptor_flags f) O_WRONLY (opaque f)).

Definition fileno_in_init (fd : Z) : M S unit :=
  p ← lift (deref (file_struct_get fd));
  fd_update p (λ f, Fd fd (Stat S_IFCHR 292 (st_size (fd_stat f)) (st_blksize (fd_stat f))) true true
    (fd_write f) (Some DrvUsart) (fd_close f) (fd_poll f) (isallocated f) (descriptor_flags f) O_RDONLY (opaque f)).

Definition stdio_init : M S unit :=
  _ ← stdio_usart_init;
  _ ← fileno_in_init STDIN_FILENO;
  _ ← fileno_out_init STDOUT_FILENO;
  fileno_out_init STDERR_FILENO.

Definition fileno_delete (fd : Z) : M S unit :=
  p ← lift (deref (file_struct_get fd)); fd_update p (with_open false).

Definition stdio_delete : M S unit :=
  _ ← fileno_delete STDIN_FILENO;
  _ ← fileno_delete STDOUT_FILENO;
  fileno_delete STDERR_FILENO.
End stdio.

(** The functions of the entries of a program with a console. *)
Definition usart_drivers {H S : Type} `{!Has H S, !UsartDevice H, !Has ftable S, !Has errno S} : Drivers S := {|
  drv_write d fd ptr := match d with DrvUsart => stdio_usart_write fd ptr | _ => fault end;
  drv_read d fd len := match d with DrvUsart => stdio_usart_read fd len | _ => fault end;
  drv_close _ _ := fault;
  drv_poll _ _ := fault;
|}.

(** ** What the port promises *)

(** [us_sent] are the bytes on the line, [us_input] those that will be taken. *)
Class UsartLaws (H : Type) `{!UsartDevice H} := {
  us_sent : H → list Z;
  us_input : H → list Z;
  send_sent b h : us_sent (us_send b h) = us_sent h ++ [b];
  send_input b h : us_input (us_send b h) = us_input h;
  wait_input h : us_input h ≠ [] → ∃ h', us_wait h = Some h' ∧ us_input h' = us_input h ∧ us_sent h' = us_sent h;
  recv_input h b rest : us_input h = b :: rest → (us_recv h).1 = b ∧ us_input (us_recv h).2 = rest ∧
    us_sent (us_recv h).2 = us_sent h;
  rxne_input h : us_input (us_rxne h).2 = us_input h ∧ us_sent (us_rxne h).2 = us_sent h ∧
    ((us_rxne h).1 = true → us_input h ≠ []);
}.

(** Line ends as a terminal wants them. *)
Definition onlcr (tty : bool) (bs : list Z) : list Z :=
  mjoin ((λ c, if tty && bool_decide (c = 10) then [13; c] else [c]) <$> bs).

(** A console on a board: the port and the descriptors. *)
Record console (H : Type) := Console { co_port : H; co_tab : list fd_t; co_errno : errno }.
Arguments Console {H} _ _ _.
Arguments co_port {H} _.
Arguments co_tab {H} _.
Arguments co_errno {H} _.

#[export] Instance co_has_port H : Has H (console H) :=
  {| proj := co_port; upd h c := Console h (co_tab c) (co_errno c) |}.
#[export] Instance co_has_tab H : Has ftable (console H) :=
  {| proj c := Ftable (co_tab c); upd t c := Console (co_port c) (files t) (co_errno c) |}.
#[export] Instance co_has_errno H : Has errno (console H) :=
  {| proj := co_errno; upd e c := Console (co_port c) (co_tab c) e |}.
(** The settings of the pins and of the port are not part of what it sends. *)
#[export] Instance co_opencm3 H : Opencm3 (console H) := {| hw _ := mret tt; spi_xfer _ := fault |}.
#[export] Existing Instance usart_drivers.

Section properties.
Context {H : Type} `{!UsartDevice H, !UsartLaws H}.

Lemma onlcr_cons tty c bs : onlcr tty (c :: bs) = (if tty && bool_decide (c = 10) then [13; c] else [c]) ++ onlcr tty bs.
Proof. done. Qed.

Lemma wp_usart_write n x h t e ptr (Q : Z → console H → Prop) :
  (n < OPEN_MAX)%nat → t !! n = Some x →
  (∀ h', us_sent h' = us_sent h ++ onlcr (isatty x) ptr → us_input h' = us_input h →
     Q (Z.of_nat (length ptr)) (Console h' t e)) →
  wp (stdio_usart_write (Z.of_nat n) ptr) (Console h t e) Q.
Proof.
  intros Hn Hx HQ. unfold stdio_usart_write, file_struct_get. rewrite decide_False by lia. apply wp_bind.
  assert (Hloop : ∀ l h0 (Q' : unit → console H → Prop),
    (∀ h', us_sent h' = us_sent h0 ++ onlcr (isatty x) l → us_input h' = us_input h0 → Q' tt (Console h' t e)) →
    wp (for_each l (λ c, e ← (p ← lift (deref (Some (Z.of_nat n))); fd_at p);
      _ ← (if isatty e && bool_decide (c = 10) then usart_send_blocking 13 else mret tt);
      usart_send_blocking c)) (Console h0 t e) Q').
  { intros l. induction l as [|c l IH]; intros h0 Q' HQ'.
    - apply wp_ret, HQ'; [by rewrite app_nil_r|done].
    - apply wp_bind, wp_bind, wp_bind. eapply wp_lift; [done|]. apply wp_bind, wp_gets.
      eapply wp_lift; [by apply aget_nat|]. apply wp_bind. rewrite onlcr_cons in HQ'.
      destruct (isatty x && bool_decide (c = 10)); [apply wp_modify|apply wp_ret]; apply wp_modify, IH; simpl;
        intros h' Hs Hi; apply HQ'; rewrite ?Hs, ?Hi, ?send_sent, ?send_input; by rewrite <- ?app_assoc. }
  apply Hloop. intros h' Hs Hi. apply wp_ret. by apply HQ.
Qed.

Lemma wp_usart_read fd len h t e (Q : Z * list Z → console H → Prop) :
  0 < len → us_input h ≠ [] → Forall is_u8 (us_input h) →
  (∀ h' bs rest, us_input h = bs ++ rest → us_input h' = rest → us_sent h' = us_sent h →
     0 < Z.of_nat (length bs) ≤ len → Q (Z.of_nat (length bs), bs) (Console h' t e)) →
  wp (stdio_usart_read fd len) (Console h t e) Q.
Proof.
  intros Hlen Hin H8 HQ. unfold stdio_usart_read. rewrite decide_True by lia. apply wp_bind.
  destruct (wait_input h Hin) as (h1 & Hw & Hi1 & Hs1). apply wp_bind, wp_gets. simpl. rewrite Hw. apply wp_modify.
  simpl. apply wp_bind.
  assert (Hloop : ∀ n bs h2, (0 < n)%nat → (length bs + n = Z.to_nat len)%nat → us_input h2 ≠ [] →
    us_input h = bs ++ us_input h2 → us_sent h2 = us_sent h →
    wp (loop n (λ bs, b ← usart_recv;
        let bs := bs ++ [u8 b] in
        if decide (Z.of_nat (length bs) < len) then rxne ← usart_sr_rxne; mret (if (rxne : bool) then inl bs else inr bs)
        else mret (inr bs)) bs) (Console h2 t e)
      (λ bs' c, ∃ h' rest, c = Console h' t e ∧ us_input h = bs' ++ rest ∧ us_input h' = rest ∧
         us_sent h' = us_sent h ∧ 0 < Z.of_nat (length bs') ≤ len)).
  { induction n as [|n IH]; intros bs h2 Hn Hsum Hin2 Hpre Hs2; [lia|].
    destruct (us_input h2) as [|b rest] eqn:E2; [done|]. destruct (recv_input h2 b rest E2) as (Eb & Ei & Es).
    assert (Hb : u8 b = b). { apply u8_id. rewrite Hpre in H8. apply Forall_app in H8 as [_ H8]. by inversion H8. }
    apply wp_loop_turn, wp_bind, wp_bind, wp_gets. simpl. destruct (us_recv h2) as [b' h3]. simpl in Eb, Ei, Es. subst b'.
    apply wp_bind, wp_modify, wp_ret. rewrite Hb, length_app. simpl. case_decide as Hlt.
    - apply wp_bind, wp_bind, wp_gets. simpl. destruct (rxne_input h3) as (Ei3 & Es3 & Hne).
      destruct (us_rxne h3) as [r h4]. simpl in Ei3, Es3, Hne. apply wp_bind, wp_modify, wp_ret, wp_ret. simpl.
      destruct r.
      + eapply wp_mono, IH; [|lia|rewrite length_app; simpl; lia|by rewrite Ei3; apply Hne| |congruence].
        * done.
        * rewrite Ei3, Ei, <- app_assoc. done.
      + exists h4, rest. rewrite length_app. simpl. split_and!; [done|by rewrite <- app_assoc|congruence|congruence|lia|lia].
    - apply wp_ret. exists h3, rest. rewrite length_app. simpl. split_and!; [done|by rewrite <- app_assoc|done|congruence|lia|lia]. }
  eapply wp_mono, (Hloop _ []); [|lia|simpl; lia|congruence|done|done].
  intros bs' c (h' & rest & -> & Hpre & Hi & Hs & Hl). rewrite decide_False by lia. apply wp_ret. by eapply HQ.
Qed.

(** The entries of the three descriptors. *)
Definition in_entry (f : fd_t) : fd_t :=
  Fd 0 (Stat S_IFCHR 292 (st_size (fd_stat f)) (st_blksize (fd_stat f))) true true
    (fd_write f) (Some DrvUsart) (fd_close f) (fd_poll f) (isallocated f) (descriptor_flags f) O_RDONLY (opaque f).
Definition out_entry (fd : Z) (f : fd_t) : fd_t :=
  Fd fd (Stat S_IFCHR 146 (st_size (fd_stat f)) (st_blksize (fd_stat f))) true true
    (Some DrvUsart) (fd_read f) (fd_close f) (fd_poll f) (isallocated f) (descriptor_flags f) O_WRONLY (opaque f).

Lemma wp_co_update n g x (h : H) t e (Q : unit → console H → Prop) :
  t !! n = Some x → Q tt (Console h (<[n := g x]> t) e) → wp (fd_update (Z.of_nat n) g) (Console h t e) Q.
Proof.
  intros Hx HQ. pose proof (lookup_lt_Some _ _ _ Hx). apply wp_bind, wp_bind, wp_gets.
  eapply wp_lift; [by apply aget_nat|]. apply wp_bind, wp_gets, wp_bind.
  eapply wp_lift; [apply aset_in_range; simpl; lia|]. apply wp_modify. by rewrite Nat2Z.id.
Qed.

(** Start-up makes these entries and touches nothing else. *)
Lemma wp_stdio_init board freq (h : H) f0 f1 f2 t e (Q : unit → console H → Prop) :
  Q tt (Console h (in_entry f0 :: out_entry 1 f1 :: out_entry 2 f2 :: t) e) →
  wp (stdio_init board freq) (Console h (f0 :: f1 :: f2 :: t) e) Q.
Proof.
  intros HQ. unfold stdio_init. apply wp_bind. eapply wp_Done; [by destruct board|].
  apply wp_bind, wp_bind. eapply wp_lift; [done|]. apply (wp_co_update 0 _ f0); [done|].
  apply wp_bind, wp_bind. eapply wp_lift; [done|]. apply (wp_co_update 1 _ f1); [done|].
  apply wp_bind. eapply wp_lift; [done|]. by apply (wp_co_update 2 _ f2).
Qed.

Lemma wp_sys_entry {A} n x (h : H) t e (none closed : M (console H) A) some (Q : A → console H → Prop) :
  (n < OPEN_MAX)%nat → t !! n = Some x → isopen x = true → wp (some (Z.of_nat n) x) (Console h t e) Q →
  wp (match file_struct_get (Z.of_nat n) with
      | None => none
      | Some p => f ← fd_at p; if negb (isopen f) then closed else some p f
      end) (Console h t e) Q.
Proof.
  intros Hn Hx Ho HQ. unfold file_struct_get. rewrite decide_False by lia. apply wp_bind, wp_bind, wp_gets.
  eapply wp_lift; [by apply aget_nat|]. by rewrite Ho.
Qed.

Lemma wp_console_write fd (h : H) t e ptr (Q : Z → console H → Prop) f0 f1 f2 :
  t = in_entry f0 :: out_entry 1 f1 :: out_entry 2 f2 :: drop 3 t → fd = STDOUT_FILENO ∨ fd = STDERR_FILENO →
  (∀ h', us_sent h' = us_sent h ++ onlcr true ptr → us_input h' = us_input h → Q (Z.of_nat (length ptr)) (Console h' t e)) →
  wp (_write fd ptr) (Console h t e) Q.
Proof.
  intros Ht Hfd HQ. unfold _write.
  destruct Hfd as [->| ->]; [apply (wp_sys_entry 1 (out_entry 1 f1))|apply (wp_sys_entry 2 (out_entry 2 f2))];
    try (unfold OPEN_MAX; lia); try done; try (by rewrite Ht); simpl;
    [apply (wp_usart_write 1 (out_entry 1 f1))|apply (wp_usart_write 2 (out_entry 2 f2))];
    try (unfold OPEN_MAX; lia); try done; by rewrite Ht.
Qed.

(** C28: after start-up a text written to standard output or error is on the line
    after what was there, with a carriage return before each line end, all of it;
    reading standard input waits for a byte and gives at least one and at most as
    many as asked for, the next ones of the line in order; standard input cannot
    be written; and at the end the three descriptors are closed. *)
Theorem stdio_console board freq (h : H) f0 f1 f2 t e :
  fd_write f0 = None →
  wp (stdio_init board freq) (Console h (f0 :: f1 :: f2 :: t) e) (λ _ c,
    co_port c = h ∧ drop 3 (co_tab c) = t ∧
    (∀ fd ptr, fd = STDOUT_FILENO ∨ fd = STDERR_FILENO → wp (_write fd ptr) c (λ r c',
       r = Z.of_nat (length ptr) ∧ us_sent (co_port c') = us_sent h ++ onlcr true ptr ∧
       us_input (co_port c') = us_input h ∧ co_tab c' = co_tab c)) ∧
    (∀ len, 0 < len → us_input h ≠ [] → Forall is_u8 (us_input h) → wp (_read STDIN_FILENO len) c (λ res c',
       res.1 = Z.of_nat (length res.2) ∧ 0 < res.1 ≤ len ∧ us_input h = res.2 ++ us_input (co_port c') ∧
       us_sent (co_port c') = us_sent h ∧ co_tab c' = co_tab c)) ∧
    (∀ ptr, _write STDIN_FILENO ptr c = Done (-1, upd EBADF c)) ∧
    wp stdio_delete c (λ _ c', ∀ fd, 0 ≤ fd < 3 → isopen <$> co_tab c' !! Z.to_nat fd = Some false)).
Proof.
  intros Hw. apply wp_stdio_init. simpl. split_and!; [done|done| | | |].
  - intros fd ptr Hfd. eapply wp_console_write; [done|done|]. intros h' Hs Hi. simpl. done.
  - intros len Hlen Hin H8. unfold _read. apply (wp_sys_entry 0 (in_entry f0)); [unfold OPEN_MAX; lia|done|done|].
    simpl. apply wp_usart_read; [done|done|done|]. intros h' bs rest E Ei Es Hl. simpl. rewrite Ei. done.
  - intros ptr. unfold _write, mbind, M_bind. simpl. by rewrite Hw.
  - unfold stdio_delete. apply wp_bind, wp_bind. eapply wp_lift; [done|]. eapply (wp_co_update 0); [done|].
    apply wp_bind, wp_bind. eapply wp_lift; [done|]. eapply (wp_co_update 1); [done|].
    apply wp_bind. eapply wp_lift; [done|]. eapply (wp_co_update 2); [done|]. simpl. intros fd Hfd.
    assert (fd = 0 ∨ fd = 1 ∨ fd = 2) as [->|[->| ->]] by lia; done.
Qed.
End properties.

(** ** A port for tests *)
Record loopback := Loopback { lb_sent : list Z; lb_input : list Z }.

#[export] Instance loopback_device : UsartDevice loopback := {|
  us_send b h := Loopback (lb_sent h ++ [b]) (lb_input h);
  us_wait h := match lb_input h with [] => None | _ => Some h end;
  us_recv h := match lb_input h with [] => (0, h) | b :: rest => (b, Loopback (lb_sent h) rest) end;
  us_rxne h := (match lb_input h with [] => false | _ => true end, h);
|}.

#[export, refine] Instance loopback_laws : UsartLaws loopback := {| us_sent := lb_sent; us_input := lb_input |}.
Proof.
  - done.
  - done.
  - intros [s [|b i]] Hi; [done|]. by eexists.
  - intros [s [|b' i]] b rest Hi; simplify_eq/=; done.
  - intros [s [|b i]]; done.
Defined.

(** Two bytes wait on the line: a read of four gives both, and a line that is
    written ends with a carriage return and a line feed. *)
Definition lb_console : console loopback := Console (Loopback [] [104; 105]) (files ftable_init) E0.

Example console_runs :
  match (_ ← stdio_init STM32F4 8000000; r ← _read 0 4; _ ← _write 1 [111; 107; 10]; mret r : M (console loopback) _) lb_console with
  | Done (r, c) => Some (r, lb_sent (co_port c))
  | _ => None
  end = Some ((2, [104; 105]), [111; 107; 13; 10]).
Proof. vm_compute. reflexivity. Qed.

Lemma stdio_console_witness :
  wp (stdio_init STM32F1 8000000)
    (Console (co_port lb_console) (fd_zero :: fd_zero :: fd_zero :: replicate 17 fd_zero) E0) (λ _ c,
    co_port c = co_port lb_console ∧ drop 3 (co_tab c) = replicate 17 fd_zero ∧
    (∀ fd ptr, fd = STDOUT_FILENO ∨ fd = STDERR_FILENO → wp (_write fd ptr) c (λ r c',
       r = Z.of_nat (length ptr) ∧ us_sent (co_port c') = us_sent (co_port lb_console) ++ onlcr true ptr ∧
       us_input (co_port c') = us_input (co_port lb_console) ∧ co_tab c' = co_tab c)) ∧
    (∀ len, 0 < len → us_input (co_port lb_console) ≠ [] → Forall is_u8 (us_input (co_port lb_console)) → wp (_read STDIN_FILENO len) c (λ res c',
       res.1 = Z.of_nat (length res.2) ∧ 0 < res.1 ≤ len ∧ us_input (co_port lb_console) = res.2 ++ us_input (co_port c') ∧
       us_sent (co_port c') = us_sent (co_port lb_console) ∧ co_tab c' = co_tab c)) ∧
    (∀ ptr, _write STDIN_FILENO ptr c = Done (-1, upd EBADF c)) ∧
    wp stdio_delete c (λ _ c', ∀ fd, 0 ≤ fd < 3 → isopen <$> co_tab c' !! Z.to_nat fd = Some false)).
Proof.
  apply (stdio_console STM32F1 8000000 (co_port lb_console) fd_zero fd_zero fd_zero (replicate 17 fd_zero) E0).
  reflexivity.
Defined.
